(* ===== verification/_CoqProject ===== *)
-Q . S2P
Prelude.v
Domain.v
Effects.v
Machine.v
GoLib.v
Json.v
GoTime.v
Phone.v
Csv.v
FlowEngine.v
Store.v
Sessions.v
Crypto.v
Ports.v
PgCredits.v
PgFlows.v
PgCalls.v
CallPolicy.v
Billing.v
Calls.v
Flows.v
Accounting.v
NoFault.v
CallsSpec.v
BillingSpec.v
FlowsSpec.v
PgWebhooks.v
Webhooks.v
WebhooksSpec.v
WebhookDelivery.v
PgAuth.v
Auth.v
AuthSpec.v
PgChat.v
Assistant.v
Chat.v
Messaging.v
ChatSpec.v
MessagingSpec.v
AssistantSpec.v
ChatDemo.v
PgCampaigns.v
Orchestrator.v
WorkerPool.v
Campaigns.v
CampaignsSpec.v
PgIngest.v
Ingest.v
IngestSpec.v
Analytics.v
HttpOut.v
HttpLib.v
Widget.v
HttpAuth.v
LoginSpec.v
HttpCalls.v
Bus.v
BusSpec.v
HttpDash.v
Ratelimit.v
Server.v
Tenant.v
TenantRepos.v
TenantStores.v
TenantServices.v
ServerSpec.v
WidgetSpec.v
TenantSpec.v
Config.v
Adapters.v
App.v
Process.v
ProcessSpec.v
AppSpec.v
Typed.v
TypedRepos.v
TypedServices.v
TypedSpec.v
ServerDemo.v
WidgetDemo.v
