(* ===== verification/Prelude.v ===== *)
(** * Yaver API: a verification development

    Yaver (src/, a Go program) calls and chats with the customers of Bangladeshi
    shops: merchants send order events or upload contacts, the server dials the
    customers, plays an IVR flow, meters credits, answers chats on a website, on
    WhatsApp and on Messenger, and reports outcomes by webhook.  The code is
    hexagonal: services over the ports of internal/domain, with adapters for
    Postgres and for hosted services, an HTTP transport, and one binary.  This
    library follows that shape: a Go interface is a class, an adapter an instance,
    a service a module over the classes it is given.

    ** The parts, from the bottom up

    Foundations.  Prelude (tactics, hints, lists).  Effects: a handler is a tree of
    atomic steps over a world; [run] is one handler alone, [run_sched] a pool of
    them along a schedule; the logics [guar] (every step satisfies a relation),
    [wpt] (every step keeps an invariant, under any interleaving) and [lin] (one
    atomic change).  GoLib, Json, GoTime, Csv, HttpLib: what the source uses of
    Go's library.  Crypto: pkg/crypto over the primitives.  Domain, Ports:
    internal/domain.  Phone: pkg/phone.  Store: the rows of the migrations,
    statements, transactions, identifiers (pkg/id).  Sessions: a transaction run
    statement by statement among those of other connections, with the rows it
    locks, and a rely-guarantee logic for it.

    Data access (internal/adapter/postgres with its gen/ queries).  PgCredits,
    PgFlows, PgCalls, PgWebhooks, PgAuth, PgChat, PgCampaigns, PgIngest, and the
    queries of Analytics: one definition for each SQL statement (modules ending in
    Q) and for each repository method (modules starting with Pg).  NoFault gives
    their results when nothing fails.

    Services (internal/service).  Billing, Calls (with the notifier), CallPolicy,
    FlowEngine (internal/flowengine), Flows, Webhooks, Auth, Assistant (with
    onboarding) and Chat, Messaging, Campaigns, Ingest (with API keys), Analytics
    (with reports), Orchestrator (the in-process queue), Bus (the live feed).
    HttpOut and Adapters: the hosted services.  WorkerPool and Bus are also given
    as they run, in the style of Machine: channels, locks and goroutines that take
    turns.

    Transport and binary.  HttpAuth, HttpCalls, HttpDash: every handler of
    internal/transport/http.  Ratelimit.  Server: the router, as one function from
    a request to a program that gives the response.  Widget (widgetjs.go): the
    script that merchants embed, its text and what it does in a page.  Config
    (internal/platform/config), App (cmd/yaver): the configuration, the choice of
    adapters, the server and every goroutine beside it.  Process: main from its
    first line to its exit, with internal/platform/db and otel, the serving process
    as a machine, and cmd/migrate.

    ** The theorems

    Money.  Accounting: under every interleaving of billing and calls, with any
    faults, balances stay non-negative, the ledger explains them, top-ups are paid
    for and calls dialled are charged.  BillingSpec, CallsSpec: what one settlement,
    paid or failed, and one call do, on each branch; and how a grant that fails
    after the settlement is lost.
    Calls.  FlowEngine: termination, and the simulator against the live session.
    FlowsSpec, CallPolicy.  CampaignsSpec and IngestSpec: who is called, how often,
    and for what; that overlapping starts call everyone twice, and that a call
    whose event was stored before a failure is never made up for.  AppSpec: from a merchant's order, through the route, the intake
    and a worker, to the customer's phone.
    Concurrency.  WorkerPool: the pool implements the queue the other theorems are
    about, and Shutdown drains it.  BusSpec: the live feed never sends on a closed
    channel, never stalls a publisher, and keeps to its organisation.  Ratelimit:
    the token bucket in binary64.  ProcessSpec: a signal leads to a clean exit, the
    database closed after the last job, unless a sweep comes late.
    Messages.  WebhooksSpec, WebhookDelivery: the outbox drain refines an atomic
    fan-out; dispatchers whose statements interleave do not fan an event out
    twice, thanks to the row locks of the claim; attempts are bounded, and posts
    by the attempts and the faults; deliveries are signed.  ChatSpec, MessagingSpec,
    AssistantSpec.  WidgetSpec: the widget shows the conversation the dashboard
    keeps, through the routes, the decoders and the encoders, unless an agent
    handles it.
    Access.  AuthSpec: sessions, codes (one presentation after the other; overlapping
    ones are shown to escape the limits), accounts.  LoginSpec: the session cookie
    from the login route to every other and to logout.  IngestSpec: keys.  ServerSpec:
    without a live session nothing outside the public routes has an effect, and five
    credentials can be tried at once.
    Tenants.  Tenant is the theory of leaving an organisation's rows alone;
    TenantRepos, TenantStores and TenantServices show it of every operation,
    TenantSpec of every route but the two callbacks of third parties, AppSpec of
    the binary over every wiring a configuration can choose.
    Types.  Typed is the theory of well-typed databases, which the schema does not
    enforce; TypedRepos, TypedServices and TypedSpec show that the whole process
    keeps them, goroutines included.
    ChatDemo, ServerDemo, WidgetDemo and the modules whose names end in Demo elsewhere
    evaluate the theorems at concrete inputs.

    ** Conventions, bounds and fuel

    Every statement, BEGIN and COMMIT may fail, before or after it took effect
    ([env_fault], one per tick); a service outside is a port, with the laws it is
    relied on for as a class.  A transaction is run in two ways: [transact] runs it
    as one step, which is exact when nothing comes between its statements
    ([Sessions.session_alone]) and for those whose first statement locks the row
    they are about; [transact_session] runs it statement by statement at READ
    COMMITTED, as the fan-out theorem needs, since DrainOutbox claims rows that
    another drain may be claiming.  Integers of Go's
    int are unbounded where no bound is near, and wrap at their width where they
    are stored (int32, smallint); floats are SpecFloat's binary64.  A Go string is a
    list of bytes; time is in microseconds, the resolution of the database.  Loops
    without a structural bound take fuel: the session loop takes a bound that its
    theorems provide; the CSV reader takes the length of the text, which is enough
    ([Csv.Read_rest]); crypto/rand's rejection loop takes 64 draws, and ends in a
    panic after them, which has probability under 2^-256 for six digits; tickers
    and workers take a number of rounds, and the theorems hold for each.

    ** Not modelled

    gen/db.go (generated plumbing) and openapi.yaml (a text, which is a parameter of
    the router).  Of the SDKs, what is behind their calls: Hatchet's worker (the
    task it runs is [App.deliver]), goose, pgxpool, the exporter of spans.  Of
    net/http, the connections.  Of the embed script, elements, styles and focus.
    Logs are left out, but for the messages main stops with.  In the transport,
    requests reach the router with a clean path, the body of an answer to HEAD is
    not dropped, and a request is never cancelled.  The state of the two rate limiters is modelled in
    Ratelimit, apart from the world of the other handlers, and the router takes any
    limiter that touches no table; [ServerSpec.serve_burst] runs the two together. *)

From stdpp Require Import base list strings gmap.
From Stdlib Require Import ZArith Lia.

Open Scope Z_scope.

(** ** Scope, tactics and hint databases shared by the components *)

Declare Scope go_scope.
Delimit Scope go_scope with go.

(** [invc H]: inversion, substitution, and the hypothesis gone. *)
Ltac invc H := inversion H; subst; clear H.

(** [split_match]: case analysis on the scrutinee of a match or an if, goal
    first, then hypotheses, keeping the equation. *)
Ltac split_match :=
  match goal with
  | |- context [match ?x with _ => _ end] =>
      lazymatch x with
      | context [match _ with _ => _ end] => fail
      | _ => destruct x eqn:?
      end
  | H : context [match ?x with _ => _ end] |- _ =>
      lazymatch x with
      | context [match _ with _ => _ end] => fail
      | _ => destruct x eqn:?
      end
  end.

(** [bool_prop]: the boolean tests of the code as propositions. *)
Ltac bool_prop :=
  repeat match goal with
  | H : _ && _ = true |- _ => apply andb_prop in H as [? ?]
  | H : _ && _ = false |- _ => apply andb_false_iff in H
  | H : _ || _ = true |- _ => apply orb_prop in H
  | H : _ || _ = false |- _ => apply orb_false_elim in H as [? ?]
  | H : negb _ = true |- _ => apply negb_true_iff in H
  | H : negb _ = false |- _ => apply negb_false_iff in H
  | H : (_ <? _)%Z = true |- _ => apply Z.ltb_lt in H
  | H : (_ <? _)%Z = false |- _ => apply Z.ltb_ge in H
  | H : (_ <=? _)%Z = true |- _ => apply Z.leb_le in H
  | H : (_ <=? _)%Z = false |- _ => apply Z.leb_gt in H
  | H : (_ =? _)%Z = true |- _ => apply Z.eqb_eq in H
  | H : (_ =? _)%Z = false |- _ => apply Z.eqb_neq in H
  | H : String.eqb _ _ = true |- _ => apply String.eqb_eq in H
  | H : String.eqb _ _ = false |- _ => apply String.eqb_neq in H
  end.

(** Appending to a known prefix computes. *)
#[global] Arguments String.append !_ _ : simpl nomatch.

Create HintDb wpt.
Create HintDb guar.
Create Rewrite HintDb tables.
Create Rewrite HintDb run.

(** ** Machine integers

    Go's conversions to a narrower signed type keep the low bits. *)

Definition int_wrap (bits z : Z) : Z :=
  (z + 2 ^ (bits - 1)) mod 2 ^ bits - 2 ^ (bits - 1).

Definition int16_of (z : Z) : Z := int_wrap 16 z.
Definition int32_of (z : Z) : Z := int_wrap 32 z.

Definition int32_min : Z := - 2 ^ 31.
Definition int32_max : Z := 2 ^ 31 - 1.

Definition in_int32 (z : Z) : bool := (int32_min <=? z) && (z <=? int32_max).

Lemma int_wrap_id (bits z : Z) :
  0 < bits -> - 2 ^ (bits - 1) <= z < 2 ^ (bits - 1) -> int_wrap bits z = z.
Proof.
  intros Hb Hz. unfold int_wrap.
  assert (2 ^ bits = 2 * 2 ^ (bits - 1)) as E.
  { rewrite <- Z.pow_succ_r by lia. f_equal. lia. }
  rewrite Z.mod_small; lia.
Qed.

Lemma int16_of_id (z : Z) : - 32768 <= z <= 32767 -> int16_of z = z.
Proof. intros. apply int_wrap_id; lia. Qed.

Lemma int32_of_id (z : Z) : int32_min <= z <= int32_max -> int32_of z = z.
Proof. unfold int32_min, int32_max. intros. apply int_wrap_id; lia. Qed.

Lemma int32_of_range (z : Z) : int32_min <= int32_of z <= int32_max.
Proof.
  unfold int32_of, int_wrap, int32_min, int32_max.
  pose proof (Z.mod_pos_bound (z + 2 ^ (32 - 1)) (2 ^ 32) ltac:(lia)). lia.
Qed.

(** ** Tables: lists of rows in insertion order

    The generic operations the SQL statements are built from. *)

Section Tables.
Context {R : Type}.
Implicit Types (t : list R) (p : R -> bool) (f : R -> R).

(** The first row that satisfies a predicate. *)
Definition tfind p t : option R := List.find p t.

(** UPDATE ... SET f WHERE p. *)
Definition tupdate p f t : list R := map (fun r => if p r then f r else r) t.

(** DELETE WHERE p. *)
Definition tdelete p t : list R := List.filter (fun r => negb (p r)) t.

(** SELECT ... WHERE p. *)
Definition tselect p t : list R := List.filter p t.

(** ORDER BY: a stable insertion sort on an integer key. *)
Fixpoint tins (key : R -> Z) (r : R) t : list R :=
  match t with
  | [] => [r]
  | x :: t' => if key r <=? key x then r :: x :: t' else x :: tins key r t'
  end.

Fixpoint tsort (key : R -> Z) t : list R :=
  match t with
  | [] => []
  | x :: t' => tins key x (tsort key t')
  end.

(** ORDER BY a text column, in byte order. *)
Fixpoint tins_by (key : R -> string) (r : R) t : list R :=
  match t with
  | [] => [r]
  | x :: t' => if String.leb (key r) (key x) then r :: x :: t' else x :: tins_by key r t'
  end.

Fixpoint tsort_by (key : R -> string) t : list R :=
  match t with
  | [] => []
  | x :: t' => tins_by key x (tsort_by key t')
  end.

Lemma tfind_some p t r : tfind p t = Some r -> In r t /\ p r = true.
Proof. apply List.find_some. Qed.

Lemma list_filter_none p t : (forall r, In r t -> p r = false) -> List.filter p t = [].
Proof.
  induction t as [|x t IH]; simpl; intros H; [done|]. rewrite (H x) by auto. auto.
Qed.

Lemma tfind_none p t r : tfind p t = None -> In r t -> p r = false.
Proof. intros H. apply (List.find_none p t H). Qed.

Lemma tupdate_length p f t : length (tupdate p f t) = length t.
Proof. apply List.length_map. Qed.

Lemma tfind_tupdate p f t :
  (forall r, p r = true -> p (f r) = true) ->
  tfind p (tupdate p f t) = option_map f (tfind p t).
Proof.
  intros Hf. induction t as [|x t IH]; simpl; [done|].
  destruct (p x) eqn:E; simpl.
  - by rewrite Hf.
  - by rewrite E.
Qed.

(** An update that leaves the key of every row alone. *)
Lemma tfind_tupdate_key p q f t :
  (forall r, p (f r) = p r) ->
  tfind p (tupdate q f t) = option_map (fun r => if q r then f r else r) (tfind p t).
Proof.
  intros Hf. induction t as [|x t IH]; simpl; [done|].
  destruct (q x) eqn:Eq; rewrite ?Hf; destruct (p x); simpl; rewrite ?Eq; done.
Qed.

(** After an update that falsifies the predicate, no row satisfies it. *)
Lemma tfind_tupdate_gone p f t :
  (forall r, p r = true -> p (f r) = false) -> tfind p (tupdate p f t) = None.
Proof.
  intros Hf. induction t as [|x t IH]; simpl; [done|].
  destruct (p x) eqn:E; simpl; [by rewrite Hf | by rewrite E].
Qed.

Lemma tfind_app p t1 t2 :
  tfind p (t1 ++ t2) = match tfind p t1 with Some r => Some r | None => tfind p t2 end.
Proof. induction t1 as [|x t1 IH]; simpl; [done|]. by destruct (p x). Qed.

Lemma tfind_none_weaken p q t :
  (forall r, q r = true -> p r = true) -> tfind p t = None -> tfind q t = None.
Proof.
  intros Hq. induction t as [|x t IH]; simpl; [done|].
  destruct (p x) eqn:E; [done|]. intros H.
  destruct (q x) eqn:Eq; [by rewrite (Hq _ Eq) in E | by apply IH].
Qed.

Lemma tupdate_none p f t : tfind p t = None -> tupdate p f t = t.
Proof.
  induction t as [|x t IH]; simpl; [done|].
  destruct (p x); [done|]. intros H. by rewrite IH.
Qed.

Lemma in_tins key r t x : In x (tins key r t) <-> x = r \/ In x t.
Proof.
  induction t as [|y t IH]; simpl; [intuition congruence|].
  destruct (key r <=? key y); simpl; rewrite ?IH; intuition congruence.
Qed.

Lemma in_tsort key t x : In x (tsort key t) <-> In x t.
Proof.
  induction t as [|y t IH]; simpl; [done|].
  rewrite in_tins, IH. intuition congruence.
Qed.

(** Appending a row that no row outranks. *)
Lemma tins_last key r t x : key r <= key x -> tins key r (t ++ [x]) = tins key r t ++ [x].
Proof.
  intros Hr. induction t as [|y t IH]; simpl.
  - by rewrite (proj2 (Z.leb_le _ _) Hr).
  - destruct (key r <=? key y); [done|]. by rewrite IH.
Qed.

Lemma tsort_last key t x :
  (forall r, In r t -> key r <= key x) -> tsort key (t ++ [x]) = tsort key t ++ [x].
Proof.
  induction t as [|y t IH]; simpl; intros H; [done|].
  rewrite IH by auto. apply tins_last. auto.
Qed.

Lemma tins_perm key r t : Permutation (tins key r t) (r :: t).
Proof.
  induction t as [|y t IH]; simpl; [done|].
  destruct (key r <=? key y); [done|].
  rewrite IH. apply perm_swap.
Qed.

Lemma tsort_perm key t : Permutation (tsort key t) t.
Proof.
  induction t as [|y t IH]; simpl; [done|].
  rewrite tins_perm. by apply perm_skip.
Qed.
End Tables.

#[export] Hint Rewrite @tupdate_length @in_tsort : tables.

(** ** Sums over lists *)

Definition sum_by {R : Type} (f : R -> Z) (l : list R) : Z :=
  fold_right (fun r s => f r + s) 0 l.

Lemma sum_by_app {R} (f : R -> Z) l1 l2 :
  sum_by f (l1 ++ l2) = sum_by f l1 + sum_by f l2.
Proof. induction l1; simpl; lia. Qed.

Lemma sum_by_nonneg {R} (f : R -> Z) l :
  (forall r, In r l -> 0 <= f r) -> 0 <= sum_by f l.
Proof.
  induction l as [|x l IH]; simpl; intros H; [lia|].
  pose proof (H x ltac:(auto)). pose proof (IH ltac:(auto)). lia.
Qed.

(** A sum over the rows that match is at least the first one's share. *)
Lemma sum_by_find {R} (p : R -> bool) (g : R -> Z) l r :
  (forall x, In x l -> 0 <= g x) -> tfind p l = Some r ->
  g r <= sum_by (fun x => if p x then g x else 0) l.
Proof.
  induction l as [|x l IH]; simpl; [done|]. intros Hg.
  assert (0 <= sum_by (fun x => if p x then g x else 0) l) as Hnn.
  { apply sum_by_nonneg. intros y Hy. destruct (p y); [|lia]. apply Hg. auto. }
  destruct (p x) eqn:E.
  - intros [= <-]. lia.
  - intros Hr. rewrite Z.add_0_l. apply IH; auto.
Qed.

(** An update adds, for each row it matches, what the row gained. *)
Lemma sum_by_tupdate {R} (g : R -> Z) (p : R -> bool) (f : R -> R) l :
  sum_by g (tupdate p f l) =
  sum_by g l + sum_by (fun r => if p r then g (f r) - g r else 0) l.
Proof. induction l as [|x l IH]; simpl; [done|]. destruct (p x); lia. Qed.

Lemma sum_by_perm {R} (f : R -> Z) l l' : Permutation l l' -> sum_by f l = sum_by f l'.
Proof. induction 1; simpl; lia. Qed.

Lemma sum_by_mono {R} (f g : R -> Z) l :
  (forall r, In r l -> f r <= g r) -> sum_by f l <= sum_by g l.
Proof.
  induction l as [|x l IH]; simpl; intros H; [lia|].
  pose proof (H x ltac:(auto)). pose proof (IH ltac:(auto)). lia.
Qed.

Lemma sum_by_firstn {R} (f : R -> Z) n l :
  (forall r, 0 <= f r) -> sum_by f (firstn n l) <= sum_by f l.
Proof.
  intros Hf. rewrite <- (firstn_skipn n l) at 2. rewrite sum_by_app.
  pose proof (sum_by_nonneg f (skipn n l) ltac:(auto)). lia.
Qed.

Lemma sum_by_select {R} (f : R -> Z) p (l : list R) :
  sum_by f (tselect p l) = sum_by (fun r => if p r then f r else 0) l.
Proof. induction l as [|x l IH]; simpl; [done|]. destruct (p x); simpl; lia. Qed.

(** An update that leaves the summand alone. *)
Lemma sum_by_tupdate_same {R} (g : R -> Z) (p : R -> bool) (f : R -> R) l :
  (forall r, g (f r) = g r) -> sum_by g (tupdate p f l) = sum_by g l.
Proof.
  intros Hf. induction l as [|x l IH]; simpl; [done|]. rewrite IH.
  destruct (p x); [by rewrite Hf|done].
Qed.

Definition zsum (l : list Z) : Z := fold_right Z.add 0 l.

Lemma zsum_insert (l : list Z) (i : nat) (x y : Z) :
  l !! i = Some x -> zsum (<[i := y]> l) = zsum l - x + y.
Proof.
  revert i. induction l as [|z l IH]; intros [|i] H; simplify_eq/=; [lia|].
  rewrite (IH i H). lia.
Qed.
