(* ===== verification/Domain.v ===== *)
(** * The domain package: business types, constants and sentinel errors

    Models the Go package [domain] (internal/domain).  Identifiers and the
    closed vocabularies ([Channel], [CallStatus], ...) are Go string types, so
    they are strings here, with the constants as definitions.  A [time.Time] is
    an integer number of microseconds since the Unix epoch (the resolution of a
    timestamptz column). *)

From S2P Require Import Prelude.
From stdpp Require Import strings gmap.
From Stdlib Require Import ZArith.

Open Scope Z_scope.

Abbreviation OrgID := string (only parsing).
Abbreviation CallID := string (only parsing).
Abbreviation FlowID := string (only parsing).
Abbreviation ProviderCallID := string (only parsing).
Abbreviation Time := Z (only parsing).

(** ** Durations, in microseconds *)

Definition Second : Z := 1000000.
Definition Minute : Z := 60 * Second.
Definition Hour : Z := 60 * Minute.

(** The zero [time.Time]: 1 January of year 1, UTC. *)
Definition zeroTime : Time := -62135596800 * Second.

(** ** Errors (errors.go), and the errors of the database driver that the
    repositories inspect with errors.Is and errors.As *)

Inductive goerr : Type :=
| ErrNotFound
| ErrInsufficientCredits
| ErrInvalidPhone
| ErrFlowInvalid
| ErrInvalidOTP
| ErrEmailTaken
| ErrInvalidCredentials
| ErrUnauthorized
| ErrOutsideCallWindow
| ErrInvalidCallPolicy
| ErrConflict
| ErrNoRows                    (* pgx.ErrNoRows *)
| ErrPg (code : string)        (* *pgconn.PgError with its SQLSTATE *)
| ErrOther (msg : string).     (* any other error value *)

#[export] Instance goerr_eq_dec : EqDecision goerr.
Proof. solve_decision. Defined.

(** ** types.go *)

Definition ChannelVoice : string := "voice".
Definition ChannelChat : string := "chat".

Definition FlowIVR : string := "ivr".
Definition FlowVA : string := "va".
Definition FlowChat : string := "chat".

Definition Outbound : string := "outbound".
Definition Inbound : string := "inbound".

Definition StatusQueued : string := "queued".
Definition StatusRinging : string := "ringing".
Definition StatusInProgress : string := "in_progress".
Definition StatusCompleted : string := "completed".
Definition StatusFailed : string := "failed".
Definition StatusNoAnswer : string := "no_answer".

Record Prompt := mkPrompt { prompt_Audio : string; prompt_TTS : string }.

Record Gather := mkGather { gather_Digits : Z; gather_TimeoutS : Z }.

(** A nil map and an absent key both read as the zero value, so [On] is a map
    without the nil distinction; the pointers [Say] and [Gather] are options. *)
Record IVRNode := mkIVRNode {
  node_Say : option Prompt;
  node_Gather : option Gather;
  node_On : gmap string string;
  node_Result : string;
  node_End : bool
}.

(** The zero value a Go map lookup returns for a missing key. *)
Definition zeroIVRNode : IVRNode := mkIVRNode None None ∅ "" false.

Record IVRSpec := mkIVRSpec { ivr_Entry : string; ivr_Nodes : gmap string IVRNode }.

Definition zeroIVRSpec : IVRSpec := mkIVRSpec "" ∅.

Record Flow := mkFlow {
  flow_ID : FlowID;
  flow_OrgID : OrgID;
  flow_Name : string;
  flow_Version : Z;
  flow_Channel : string;
  flow_Type : string;
  flow_Locale : string;
  flow_IVR : IVRSpec
}.

Definition zeroFlow : Flow := mkFlow "" "" "" 0 "" "" "" zeroIVRSpec.

Record Call := mkCall {
  call_ID : CallID;
  call_OrgID : OrgID;
  call_FlowID : FlowID;
  call_ProviderCallID : ProviderCallID;
  call_Direction : string;
  call_Status : string;
  call_Result : string;
  call_RecordingURL : string;
  call_Transcript : string;
  call_CreatedAt : Time
}.

Record CallRequest := mkCallRequest {
  req_OrgID : OrgID;
  req_ToPhone : string;
  req_CallerID : string;
  req_Flow : Flow
}.

Record Outcome := mkOutcome {
  out_Result : string;
  out_Status : string;
  out_DurationS : Z
}.

Record Directive := mkDirective {
  dir_Kind : string;
  dir_Prompt : option Prompt;
  dir_Gather : option Gather
}.

Record FlowState := mkFlowState { st_Node : string }.

(** ** ports.go, activity.go *)

Record PlaceCallInput := mkPlaceCallInput {
  pci_OrgID : OrgID;
  pci_ToPhone : string;
  pci_FlowID : FlowID
}.

Record CallSummary := mkCallSummary {
  sum_Total : Z;
  sum_Confirmed : Z;
  sum_Cancelled : Z;
  sum_Today : Z
}.

Record ActivityEvent := mkActivityEvent {
  ev_Type : string;
  ev_OrgID : OrgID;
  ev_Title : string;
  ev_Detail : string;
  ev_At : Time
}.

Record Org := mkOrg { org_ID : OrgID; org_Name : string }.

(** ** credits.go *)

Definition LowBalanceThreshold : Z := 10.

Record CreditEntry := mkCreditEntry {
  ce_Delta : Z;
  ce_Reason : string;
  ce_CreatedAt : Time
}.

(** ** payment.go *)

Definition PaymentPending : string := "pending".
Definition PaymentPaid : string := "paid".
Definition PaymentFailed : string := "failed".

Record Payment := mkPayment {
  pay_ID : string;
  pay_OrgID : OrgID;
  pay_Provider : string;
  pay_ProviderRef : string;
  pay_Credits : Z;
  pay_AmountBDT : Z;
  pay_Status : string;
  pay_CreatedAt : Time
}.

Record PaymentRequest := mkPaymentRequest {
  preq_OrgID : OrgID;
  preq_PaymentID : string;
  preq_Credits : Z;
  preq_AmountBDT : Z
}.

Record PaymentCheckout := mkPaymentCheckout {
  pco_ProviderRef : string;
  pco_RedirectURL : string
}.

Record PaymentResult := mkPaymentResult {
  pres_ProviderRef : string;
  pres_Status : string
}.

(** ** callpolicy.go (the record; its methods are in CallPolicy.v) *)

Record CallPolicy := mkCallPolicy {
  pol_WindowStart : Z;
  pol_WindowEnd : Z;
  pol_Timezone : string;
  pol_MaxRetries : Z
}.
