(* ===== verification/Effects.v ===== *)
(** * Effectful programs, their sequential runs and their interleavings

    A Go handler is a [prog]: a tree of atomic steps on a shared world.  One
    step is one indivisible action of the code (a database statement, or a
    transaction run whole, a clock reading, a call of an external port); between two steps
    of one handler any other handler may run.  A program ends with a value, an
    error, or a panic (a nil dereference).

    [run] executes a program alone; [run_sched] interleaves a pool of programs
    along a schedule.  [guar] and [wpt] are the two program logics: [guar R p]
    says every step of [p] satisfies the relation [R]; [wpt I Q t p] says that
    [p], holding [t] tokens, keeps the invariant [I] (which relates the tokens
    held by all threads to the world) at every step.  [run_sched_wpt] lifts it
    to every interleaving. *)

From S2P Require Import Prelude.
From S2P Require Import Domain.
From stdpp Require Import list strings.
From Stdlib Require Import ZArith Lia.

Open Scope Z_scope.

(** ** The environment: everything the process does not control

    The k-th interaction with the outside reads the clock, the randomness and
    the fault of tick k; [env_jsonb] is the database's normalisation of a jsonb
    value ([None] on a text it refuses).  A fault of a database statement either loses the
    statement or loses the acknowledgement of a statement that was applied. *)

Inductive fault : Type :=
| NoFault
| FaultBefore (msg : string)
| FaultAfter (msg : string).

Record Env := mkEnv {
  env_clock : nat -> Time;
  env_fault : nat -> fault;
  env_rand : nat -> nat -> Ascii.ascii;
  env_uuid : nat -> string;
  env_jsonb : string -> option string
}.

(** ** Outcomes and programs *)

Inductive outcome (A : Type) : Type :=
| Ok (a : A)
| Err (e : goerr)
| Panic.
Arguments Ok {A} a.
Arguments Err {A} e.
Arguments Panic {A}.

Inductive prog (W : Type) (A : Type) : Type :=
| Done (r : outcome A)
| Step (X : Type) (f : Env -> W -> X * W) (k : X -> prog W A).
Arguments Done {W A} r.
Arguments Step {W A X} f k.

Section Prog.
Context {W : Type}.

Definition ret {A} (a : A) : prog W A := Done (Ok a).
Definition fail {A} (e : goerr) : prog W A := Done (Err e).
Definition panic {A} : prog W A := Done Panic.

(** One atomic action. *)
Definition act {A} (f : Env -> W -> outcome A * W) : prog W A := Step f Done.

(** Sequencing: an error or a panic skips the continuation. *)
Fixpoint pbind {A B} (p : prog W A) (k : A -> prog W B) : prog W B :=
  match p with
  | Done (Ok a) => k a
  | Done (Err e) => Done (Err e)
  | Done Panic => Done Panic
  | Step f g => Step f (fun x => pbind (g x) k)
  end.

(** [v, err := p]: the error becomes a value the code inspects. *)
Fixpoint ptry {A} (p : prog W A) : prog W (A + goerr) :=
  match p with
  | Done (Ok a) => ret (inl a)
  | Done (Err e) => ret (inr e)
  | Done Panic => panic
  | Step f g => Step f (fun x => ptry (g x))
  end.

(** [_ = p]: the error is dropped. *)
Definition pignore {A} (p : prog W A) : prog W unit :=
  pbind (ptry p) (fun _ => ret tt).

(** A handler as a thread of a pool. *)
Definition spawn {A} (p : prog W A) : prog W unit := pignore p.

Fixpoint run {A} (env : Env) (p : prog W A) (w : W) : outcome A * W :=
  match p with
  | Done r => (r, w)
  | Step f g => let '(x, w') := f env w in run env (g x) w'
  end.

Lemma run_bind {A B} env (p : prog W A) (k : A -> prog W B) w :
  run env (pbind p k) w =
  match run env p w with
  | (Ok a, w') => run env (k a) w'
  | (Err e, w') => (Err e, w')
  | (Panic, w') => (Panic, w')
  end.
Proof.
  revert w. induction p as [[a|e|]|X f g IH]; intros w; simpl; try done.
  destruct (f env w) as [x w']. apply IH.
Qed.

(** A run that returns went through every step. *)
Lemma run_bind_ok {A B} env (p : prog W A) (k : A -> prog W B) w b w' :
  run env (pbind p k) w = (Ok b, w') ->
  exists a w1, run env p w = (Ok a, w1) /\ run env (k a) w1 = (Ok b, w').
Proof.
  rewrite run_bind. destruct (run env p w) as [[a|e|] w1]; [|done..]. eauto.
Qed.

Lemma run_try {A} env (p : prog W A) w :
  run env (ptry p) w =
  match run env p w with
  | (Ok a, w') => (Ok (inl a), w')
  | (Err e, w') => (Ok (inr e), w')
  | (Panic, w') => (Panic, w')
  end.
Proof.
  revert w. induction p as [[a|e|]|X f g IH]; intros w; simpl; try done.
  destruct (f env w) as [x w']. apply IH.
Qed.

Lemma run_ignore {A} env (p : prog W A) w :
  run env (pignore p) w =
  match run env p w with
  | (Panic, w') => (Panic, w')
  | (_, w') => (Ok tt, w')
  end.
Proof.
  unfold pignore. rewrite run_bind, run_try.
  by destruct (run env p w) as [[a|e|] w'].
Qed.

Lemma run_act {A} env (f : Env -> W -> outcome A * W) w : run env (act f) w = f env w.
Proof. unfold act. simpl. by destruct (f env w). Qed.
End Prog.

Notation "'let!' x := p 'in' k" := (pbind p (fun x => k))
  (at level 10, x name, p at level 100, k at level 200) : go_scope.
Notation "'let!' ' x := p 'in' k" := (pbind p (fun x => k))
  (at level 10, x strict pattern, p at level 100, k at level 200) : go_scope.
Notation "'do!' p 'in' k" := (pbind p (fun _ => k))
  (at level 10, p at level 100, k at level 200) : go_scope.

#[export] Hint Rewrite @run_bind @run_try @run_ignore @run_act : run.

(** ** Step guarantees *)

Section Guar.
Context {W : Type}.
Implicit Types R : W -> W -> Prop.

Fixpoint guar {A} R (p : prog W A) : Prop :=
  match p with
  | Done _ => True
  | Step f g => forall env w, R w (snd (f env w)) /\ guar R (g (fst (f env w)))
  end.

Lemma guar_ret {A} R (a : A) : guar R (ret a).
Proof. done. Qed.
Lemma guar_fail {A} R e : guar R (@fail W A e).
Proof. done. Qed.

Lemma guar_act {A} R (f : Env -> W -> outcome A * W) :
  (forall env w, R w (snd (f env w))) -> guar R (act f).
Proof. intros H env w. by split. Qed.

Lemma guar_bind {A B} R (p : prog W A) (k : A -> prog W B) :
  guar R p -> (forall a, guar R (k a)) -> guar R (pbind p k).
Proof.
  intros Hp Hk. induction p as [[a|e|]|X f g IH]; simpl in *; auto.
  intros env w. destruct (Hp env w) as [? ?]. split; [done|]. by apply IH.
Qed.

Lemma guar_try {A} R (p : prog W A) : guar R p -> guar R (ptry p).
Proof.
  intros Hp. induction p as [[a|e|]|X f g IH]; simpl in *; try done.
  intros env w. destruct (Hp env w) as [? ?]. split; [done|]. by apply IH.
Qed.

Lemma guar_ignore {A} R (p : prog W A) : guar R p -> guar R (pignore p).
Proof. intros Hp. apply guar_bind; [by apply guar_try | done]. Qed.

Lemma guar_mono {A} R R' (p : prog W A) :
  (forall w w', R w w' -> R' w w') -> guar R p -> guar R' p.
Proof.
  intros HR. induction p as [r|X f g IH]; simpl; [done|].
  intros Hp env w. destruct (Hp env w) as [? ?]. split; [by apply HR | by apply IH].
Qed.

(** Along a whole run the guarantees compose. *)
Lemma guar_run {A} R (p : prog W A) env w :
  (forall x, R x x) -> (forall x y z, R x y -> R y z -> R x z) ->
  guar R p -> R w (snd (run env p w)).
Proof.
  intros Hrefl Htrans. revert w. induction p as [r|X f g IH]; intros w; simpl; [done|].
  intros Hp. destruct (Hp env w) as [H1 H2]. destruct (f env w) as [x w']. simpl in *.
  eapply Htrans; [apply H1|]. by apply IH.
Qed.

(** A property every step preserves holds at the end. *)
Lemma guar_run_inv {A} (I : W -> Prop) (p : prog W A) env w :
  guar (fun w w' => I w -> I w') p -> I w -> I (snd (run env p w)).
Proof. intros Hp. apply (guar_run (fun w w' => I w -> I w')); eauto. Qed.
End Guar.

#[export] Hint Resolve guar_ret guar_fail : guar.

(** ** Token accounting

    [I t w]: the world [w] is consistent with [t] tokens held in total. *)

Section Wpt.
Context {W : Type} (I : Z -> W -> Prop).

Fixpoint wpt {A} (Q : outcome A -> Z -> Prop) (t : Z) (p : prog W A) : Prop :=
  match p with
  | Done r => Q r t
  | Step f g =>
      forall env w rest, 0 <= rest -> I (t + rest) w ->
      exists t', 0 <= t' /\ I (t' + rest) (snd (f env w)) /\
                 wpt Q t' (g (fst (f env w)))
  end.

Lemma wpt_mono {A} (Q Q' : outcome A -> Z -> Prop) p t :
  (forall r t, Q r t -> Q' r t) -> wpt Q t p -> wpt Q' t p.
Proof.
  intros HQ. revert t. induction p as [r|X f g IH]; intros t; simpl; [apply HQ|].
  intros H env w rest Hr HI. destruct (H env w rest Hr HI) as (t' & ? & ? & ?).
  exists t'. eauto.
Qed.

(** The postcondition a bind asks of its first part. *)
Definition bind_post {A B} (Q : outcome B -> Z -> Prop) (k : A -> prog W B)
  (r : outcome A) (t : Z) : Prop :=
  match r with
  | Ok a => wpt Q t (k a)
  | Err e => Q (Err e) t
  | Panic => Q Panic t
  end.

Lemma wpt_bind {A B} (Q : outcome B -> Z -> Prop) t (p : prog W A) k :
  wpt (bind_post Q k) t p -> wpt Q t (pbind p k).
Proof.
  revert t. induction p as [[a|e|]|X f g IH]; intros t; simpl; try done.
  intros H env w rest Hr HI. destruct (H env w rest Hr HI) as (t' & ? & ? & ?).
  exists t'. eauto.
Qed.

Definition try_post {A} (Q : outcome (A + goerr) -> Z -> Prop)
  (r : outcome A) (t : Z) : Prop :=
  match r with
  | Ok a => Q (Ok (inl a)) t
  | Err e => Q (Ok (inr e)) t
  | Panic => Q Panic t
  end.

Lemma wpt_try {A} (Q : outcome (A + goerr) -> Z -> Prop) t (p : prog W A) :
  wpt (try_post Q) t p -> wpt Q t (ptry p).
Proof.
  revert t. induction p as [[a|e|]|X f g IH]; intros t; simpl; try done.
  intros H env w rest Hr HI. destruct (H env w rest Hr HI) as (t' & ? & ? & ?).
  exists t'. eauto.
Qed.

Lemma wpt_act {A} (Q : outcome A -> Z -> Prop) t f :
  (forall env w rest, 0 <= rest -> I (t + rest) w ->
     exists t', 0 <= t' /\ I (t' + rest) (snd (f env w)) /\ Q (fst (f env w)) t') ->
  wpt Q t (act f).
Proof. done. Qed.

(** A program whose steps do not touch what [I] reads keeps its tokens. *)
Lemma wpt_guar {A} (R : W -> W -> Prop) (Q : outcome A -> Z -> Prop) t (p : prog W A) :
  0 <= t -> (forall t w w', R w w' -> I t w -> I t w') ->
  guar R p -> (forall r, Q r t) -> wpt Q t p.
Proof.
  intros Ht HR. induction p as [r|X f g IH]; simpl; [auto|].
  intros Hg HQ env w rest Hrest HI. destruct (Hg env w) as [H1 H2].
  exists t. split; [done|]. split; [by eapply HR|]. by apply IH.
Qed.

(** Tokens may be dropped when the invariant allows more slack. *)
Lemma wpt_weaken {A} (Q : outcome A -> Z -> Prop) t t' (p : prog W A) :
  0 <= t' <= t -> (forall a b w, 0 <= b <= a -> I a w -> I b w) ->
  (forall r t t', 0 <= t' <= t -> Q r t' -> Q r t) ->
  wpt Q t' p -> wpt Q t p.
Proof.
  intros Ht HI HQ. destruct p as [r|X f g]; simpl; [by apply HQ|].
  intros H env w rest Hr Hw. destruct (H env w rest Hr) as (t'' & ? & ? & ?).
  - eapply HI; [|exact Hw]. lia.
  - eauto.
Qed.
End Wpt.

(** ** Pools of threads and schedules *)

Section Pool.
Context {W : Type}.

Definition thread_step (env : Env) (p : prog W unit) (w : W) : prog W unit * W :=
  match p with
  | Done r => (Done r, w)
  | Step f g => let '(x, w') := f env w in (g x, w')
  end.

Definition pool_step (env : Env) (i : nat) (ps : list (prog W unit)) (w : W)
  : list (prog W unit) * W :=
  match ps !! i with
  | None => (ps, w)
  | Some p => let '(p', w') := thread_step env p w in (<[i := p']> ps, w')
  end.

(** [sched] names, at each instant, the thread that takes the next step. *)
Fixpoint run_sched (env : Env) (sched : list nat) (ps : list (prog W unit)) (w : W)
  : list (prog W unit) * W :=
  match sched with
  | [] => (ps, w)
  | i :: s => let '(ps', w') := pool_step env i ps w in run_sched env s ps' w'
  end.

Definition pool_ok (I : Z -> W -> Prop) (ts : list Z) (ps : list (prog W unit)) : Prop :=
  Forall2 (fun t p => 0 <= t /\ wpt I (fun _ _ => True) t p) ts ps.

Lemma pool_ok_nonneg I ts ps : pool_ok I ts ps -> 0 <= zsum ts.
Proof. induction 1 as [|t p ts ps [? ?]]; simpl; [lia|]. lia. Qed.

Lemma pool_step_wpt I env i ts ps w :
  pool_ok I ts ps -> I (zsum ts) w ->
  exists ts', pool_ok I ts' (fst (pool_step env i ps w)) /\
              I (zsum ts') (snd (pool_step env i ps w)).
Proof.
  intros Hok HI. unfold pool_step.
  destruct (ps !! i) as [p|] eqn:Ep; [|by exists ts].
  destruct (Forall2_lookup_r _ _ _ _ _ Hok Ep) as (t & Et & Ht & Hp).
  destruct p as [r|X f g]; simpl.
  { exists ts. rewrite list_insert_id; done. }
  assert (Hrest : 0 <= zsum ts - t).
  { pose proof (pool_ok_nonneg I (<[i := 0]> ts) (<[i := Done (Ok tt)]> ps)) as H0.
    rewrite (zsum_insert _ _ _ _ Et) in H0.
    rewrite Z.add_0_r in H0. apply H0. apply Forall2_insert; [done|]. by split. }
  destruct (Hp env w (zsum ts - t) Hrest) as (t' & Ht' & HI' & Hk).
  { by replace (t + (zsum ts - t)) with (zsum ts) by lia. }
  destruct (f env w) as [x w'] eqn:Ef. simpl in *.
  exists (<[i := t']> ts). split.
  - apply Forall2_insert; [done|]. by split.
  - rewrite (zsum_insert _ _ _ _ Et).
    by replace (zsum ts - t + t') with (t' + (zsum ts - t)) by lia.
Qed.

(** Under every schedule the invariant is kept. *)
Lemma run_sched_wpt I env sched ts ps w :
  pool_ok I ts ps -> I (zsum ts) w ->
  exists ts', pool_ok I ts' (fst (run_sched env sched ps w)) /\
              I (zsum ts') (snd (run_sched env sched ps w)).
Proof.
  revert ts ps w. induction sched as [|i s IH]; intros ts ps w Hok HI; simpl; [eauto|].
  destruct (pool_step_wpt I env i ts ps w Hok HI) as (ts' & Hok' & HI').
  destruct (pool_step env i ps w) as [ps' w']. by apply (IH ts').
Qed.

(** The usual case: no thread holds tokens at the start, and the invariant
    tolerates fewer tokens than are held. *)
Lemma run_sched_inv I env sched ps w :
  (forall p, In p ps -> wpt I (fun _ _ => True) 0 p) ->
  I 0 w -> exists t, 0 <= t /\ I t (snd (run_sched env sched ps w)).
Proof.
  intros Hp HI.
  assert (Hz : zsum (map (fun _ => 0) ps) = 0).
  { clear. induction ps; simpl; [done|]. lia. }
  destruct (run_sched_wpt I env sched (map (fun _ => 0) ps) ps w) as (ts' & Hok & HI').
  - clear HI Hz. induction ps as [|p ps IH]; simpl; constructor.
    + split; [lia|]. apply Hp. by left.
    + apply IH. intros q Hq. apply Hp. by right.
  - by rewrite Hz.
  - exists (zsum ts'). split; [by eapply pool_ok_nonneg | done].
Qed.

Lemma wpt_spawn {A} I t (p : prog W A) :
  wpt I (fun _ _ => True) t p -> wpt I (fun _ _ => True) t (spawn p).
Proof.
  intros H. apply wpt_bind, wpt_try. eapply wpt_mono; [|exact H]. by intros [?|?|] ?.
Qed.

(** A thread alone: [run] is the schedule that only runs it. *)
Lemma run_wpt {A} I (Q : outcome A -> Z -> Prop) env t (p : prog W A) w :
  0 <= t -> wpt I Q t p -> I t w ->
  exists t', 0 <= t' /\ I t' (snd (run env p w)) /\ Q (fst (run env p w)) t'.
Proof.
  revert t w. induction p as [r|X f g IH]; intros t w Ht H HI; simpl in *; [eauto|].
  destruct (H env w 0 ltac:(lia)) as (t' & Ht' & HI' & Hk).
  { by rewrite Z.add_0_r. }
  rewrite Z.add_0_r in HI'.
  destruct (f env w) as [x w'] eqn:Ef. simpl in *.
  by apply (IH x t' w').
Qed.

(** *** One thread at a time *)

Lemma run_sched_app env s1 s2 ps w :
  run_sched env (s1 ++ s2) ps w =
  let '(ps', w') := run_sched env s1 ps w in run_sched env s2 ps' w'.
Proof.
  revert ps w. induction s1 as [|i s1 IH]; intros ps w; simpl; [done|].
  destruct (pool_step env i ps w) as [ps' w']. apply IH.
Qed.

Lemma run_sched_cons env i s ps p w p' w' :
  ps !! i = Some p -> thread_step env p w = (p', w') ->
  run_sched env (i :: s) ps w = run_sched env s (<[i := p']> ps) w'.
Proof. intros Hp Ht. simpl. unfold pool_step. by rewrite Hp, Ht. Qed.

(** A thread scheduled alone until it ends has run. *)
Lemma sched_solo env i n ps p w :
  ps !! i = Some p ->
  exists p' w', run_sched env (repeat i n) ps w = (<[i := p']> ps, w') /\
    forall r, p' = Done r -> run env p w = (r, w').
Proof.
  revert ps p w. induction n as [|n IH]; intros ps p w Hp; simpl.
  { exists p, w. rewrite list_insert_id by done. split; [done|]. by intros r ->. }
  unfold pool_step. rewrite Hp. destruct p as [r|X f k]; simpl.
  - rewrite list_insert_id by done. apply (IH ps (Done r) w Hp).
  - destruct (f env w) as [x w1].
    destruct (IH (<[i := k x]> ps) (k x) w1) as (p' & w' & -> & H).
    { apply list_lookup_insert_eq. by eapply lookup_lt_Some. }
    exists p', w'. by rewrite list_insert_insert_eq.
Qed.
End Pool.
