(* ===== verification/Machine.v ===== *)
(** * Shared state and the goroutines that act on it

    In-process structures with channels and locks: a state, and what each action
    of a goroutine does at its turn.  An action may have to wait, may panic, or
    moves the state and leaves events behind.  [reached] is every state some
    interleaving leads to, with the events on the way; [play] runs one of them. *)

From S2P Require Import Prelude.
From stdpp Require Import list.

Inductive turn (E S : Type) : Type :=
| Waits
| Panics
| Moves (events : list E) (s : S).
Arguments Waits {E S}.
Arguments Panics {E S}.
Arguments Moves {E S} _ _.

Section Machine.
Context {A E S : Type} (act : A -> S -> turn E S).

Inductive reached (init : S) : list E -> S -> Prop :=
| reached_init : reached init [] init
| reached_next tr s a events s' :
    reached init tr s -> act a s = Moves events s' -> reached init (tr ++ events) s'.

Fixpoint play (actions : list A) (s : S) : option (list E * S) :=
  match actions with
  | [] => Some ([], s)
  | a :: actions =>
      match act a s with
      | Moves events s' =>
          option_map (fun r => (events ++ fst r, snd r)) (play actions s')
      | Waits | Panics => None
      end
  end.

(** An invariant of the states together with the events so far. *)
Lemma reached_inv (I : list E -> S -> Prop) init tr s :
  I [] init ->
  (forall tr s a events s', I tr s -> act a s = Moves events s' -> I (tr ++ events) s') ->
  reached init tr s -> I tr s.
Proof. intros H0 Hstep. induction 1; eauto. Qed.

Lemma reached_trans init tr s tr' s' :
  reached init tr s -> reached s tr' s' -> reached init (tr ++ tr') s'.
Proof.
  intros H. induction 1 as [|tr' s1 a events s2 _ IH E1]; [by rewrite app_nil_r|].
  rewrite app_assoc. by eapply reached_next.
Qed.

Lemma play_reached actions init tr s : play actions init = Some (tr, s) -> reached init tr s.
Proof.
  revert init tr. induction actions as [|a actions IH]; intros init tr; simpl.
  { intros [= <- <-]. constructor. }
  destruct (act a init) as [| |events s1] eqn:E1; try done.
  destruct (play actions s1) as [[tr' s']|] eqn:E2; [|done]. simpl. intros [= <- <-].
  eapply (reached_trans _ events s1); [|by apply IH].
  apply (reached_next _ [] init a); [constructor|done].
Qed.
End Machine.
