(* ===== verification/GoLib.v ===== *)
(** * The Go standard library functions the code uses

    Go strings are byte sequences, and so is [string] (a list of 8-bit
    characters): indexes and lengths agree.  Each definition carries the Go
    name. *)

From S2P Require Import Prelude.
From stdpp Require Import strings list.
From Stdlib Require Import ZArith Lia Ascii.

Open Scope Z_scope.

(** ** Bytes *)

Definition byte_of (c : ascii) : Z := Z.of_N (N_of_ascii c).
Definition byte_chr (z : Z) : ascii := ascii_of_N (Z.to_N (z mod 256)).

Definition is_digit (c : ascii) : bool := (48 <=? byte_of c) && (byte_of c <=? 57).

Definition ascii_lower (c : ascii) : ascii :=
  if (65 <=? byte_of c) && (byte_of c <=? 90) then byte_chr (byte_of c + 32) else c.

(** The ASCII characters of unicode.IsSpace. *)
Definition is_space (c : ascii) : bool :=
  (byte_of c =? 32) || ((9 <=? byte_of c) && (byte_of c <=? 13)).

(** ** package strings *)

Module Strings.
Definition HasPrefix (s prefix : string) : bool := String.prefix prefix s.

Fixpoint drop (n : nat) (s : string) : string :=
  match n, s with
  | O, _ => s
  | S n', String _ s' => drop n' s'
  | S _, EmptyString => EmptyString
  end.

Fixpoint take (n : nat) (s : string) : string :=
  match n, s with
  | S n', String c s' => String c (take n' s')
  | _, _ => EmptyString
  end.

Definition TrimPrefix (s prefix : string) : string :=
  if HasPrefix s prefix then drop (String.length prefix) s else s.

(** strings.Map with a mapping that keeps or drops ASCII characters: every
    byte of a multi-byte rune is above 127, so dropping all non-ASCII runes is
    dropping those bytes. *)
Fixpoint filter (p : ascii -> bool) (s : string) : string :=
  match s with
  | EmptyString => EmptyString
  | String c s' => if p c then String c (filter p s') else filter p s'
  end.

Fixpoint Contains (s sub : string) : bool :=
  String.prefix sub s ||
  match s with
  | EmptyString => false
  | String _ s' => Contains s' sub
  end.

Fixpoint forallb (p : ascii -> bool) (s : string) : bool :=
  match s with
  | EmptyString => true
  | String c s' => p c && forallb p s'
  end.

(** The lower case of a letter of two bytes: the capitals of Latin-1, Greek and
    Cyrillic, and the dotted capital I, which becomes an ASCII i. *)
Definition lower2 (a b : ascii) : option string :=
  let x := byte_of a in
  let y := byte_of b in
  let within lo hi := (lo <=? y) && (y <=? hi) in
  let two x y := Some (String (byte_chr x) (String (byte_chr y) EmptyString)) in
  if x =? 195 then (if within 128 158 && negb (y =? 151) then two 195 (y + 32) else None)
  else if x =? 196 then (if y =? 176 then Some "i" else None)
  else if x =? 206 then
    (if within 145 159 then two 206 (y + 32)
     else if within 160 169 && negb (y =? 162) then two 207 (y - 32) else None)
  else if x =? 208 then
    (if within 144 159 then two 208 (y + 32)
     else if within 160 175 then two 209 (y - 32)
     else if within 128 143 then two 209 (y + 16) else None)
  else None.

(** The Kelvin sign becomes an ASCII k. *)
Definition lower3 (a b c : ascii) : option string :=
  if (byte_of a =? 226) && (byte_of b =? 132) && (byte_of c =? 170) then Some "k" else None.

(** strings.ToLower of valid UTF-8 in the ASCII, Latin-1, Greek and Cyrillic
    letters and in scripts without case, such as Bangla. *)
Fixpoint ToLower (s : string) : string :=
  match s with
  | EmptyString => EmptyString
  | String a s1 =>
      if byte_of a <? 128 then String (ascii_lower a) (ToLower s1)
      else match s1 with
        | EmptyString => String a EmptyString
        | String b s2 =>
            match lower2 a b with
            | Some l => l +:+ ToLower s2
            | None =>
                match s2 with
                | String c s3 =>
                    match lower3 a b c with
                    | Some l => l +:+ ToLower s3
                    | None => String a (ToLower s1)
                    end
                | EmptyString => String a (ToLower s1)
                end
            end
        end
  end.

(** The blanks of unicode.IsSpace beyond ASCII, of two and of three bytes. *)
Definition space2 (a b : ascii) : bool :=
  (byte_of a =? 194) && ((byte_of b =? 133) || (byte_of b =? 160)).

Definition space3 (a b c : ascii) : bool :=
  let x := byte_of a in
  let y := byte_of b in
  let z := byte_of c in
  ((x =? 225) && (y =? 154) && (z =? 128))
  || ((x =? 226) && (y =? 128) &&
      (((128 <=? z) && (z <=? 138)) || (z =? 168) || (z =? 169) || (z =? 175)))
  || ((x =? 226) && (y =? 129) && (z =? 159))
  || ((x =? 227) && (y =? 128) && (z =? 128)).

(** Blanks at the front, given the tests for those of several bytes. *)
Fixpoint trim_front (two : ascii -> ascii -> bool) (three : ascii -> ascii -> ascii -> bool)
    (s : string) : string :=
  match s with
  | EmptyString => EmptyString
  | String a s1 =>
      if is_space a then trim_front two three s1
      else match s1 with
        | EmptyString => s
        | String b s2 =>
            if two a b then trim_front two three s2
            else match s2 with
              | EmptyString => s
              | String c s3 => if three a b c then trim_front two three s3 else s
              end
        end
  end.

Definition trim_left (s : string) : string := trim_front space2 space3 s.

(** The same on a string read from its end. *)
Definition trim_reversed (s : string) : string :=
  trim_front (fun a b => space2 b a) (fun a b c => space3 c b a) s.

Fixpoint rev_onto (s acc : string) : string :=
  match s with
  | EmptyString => acc
  | String c s' => rev_onto s' (String c acc)
  end.

Lemma rev_onto_twice s acc t : rev_onto (rev_onto s acc) t = rev_onto acc (s +:+ t).
Proof. revert acc t. induction s as [|c s IH]; intros acc t; [done|]. simpl. by rewrite IH. Qed.

Definition TrimSpace (s : string) : string :=
  rev_onto (trim_reversed (rev_onto (trim_left s) "")) "".

Lemma length_app s1 s2 :
  String.length (s1 +:+ s2) = (String.length s1 + String.length s2)%nat.
Proof. induction s1; simpl; [done|]. by f_equal. Qed.

Lemma app_nil_r s : s +:+ "" = s.
Proof. induction s as [|c s IH]; simpl; [done|]. by rewrite IH. Qed.

Lemma prefix_nil s : String.prefix "" s = true.
Proof. by destruct s. Qed.

Lemma prefix_app s1 s2 : String.prefix s1 (s1 +:+ s2) = true.
Proof.
  induction s1 as [|c s1 IH]; simpl; [by destruct s2|].
  by destruct (ascii_dec c c).
Qed.

Lemma prefix_split p s : String.prefix p s = true -> exists t, s = p +:+ t.
Proof.
  revert s. induction p as [|c p IH]; intros s H; [by exists s|].
  destruct s as [|c' s]; simpl in H; [done|].
  destruct (ascii_dec c c') as [->|]; [|done].
  destruct (IH s H) as [t ->]. by exists t.
Qed.

Lemma filter_app p s1 s2 : filter p (s1 +:+ s2) = filter p s1 +:+ filter p s2.
Proof. induction s1 as [|c s1 IH]; simpl; [done|]. rewrite IH. by destruct (p c). Qed.

Lemma filter_all p s : forallb p s = true -> filter p s = s.
Proof.
  induction s as [|c s IH]; simpl; [done|].
  intros H. apply andb_prop in H as [-> H]. by rewrite IH.
Qed.

Lemma filter_forallb p s : forallb p (filter p s) = true.
Proof.
  induction s as [|c s IH]; simpl; [done|].
  destruct (p c) eqn:E; simpl; [by rewrite E | done].
Qed.

Lemma filter_idem p s : filter p (filter p s) = filter p s.
Proof. apply filter_all, filter_forallb. Qed.

Lemma forallb_app p s1 s2 : forallb p (s1 +:+ s2) = forallb p s1 && forallb p s2.
Proof. induction s1; simpl; [done|]. rewrite IHs1. by rewrite andb_assoc. Qed.

Lemma forallb_impl (p q : ascii -> bool) s :
  (forall c, p c = true -> q c = true) -> forallb p s = true -> forallb q s = true.
Proof.
  intros Hpq. induction s as [|c s IH]; simpl; [done|].
  intros H. apply andb_prop in H as [H1 H2]. by rewrite Hpq, IH.
Qed.
End Strings.

(** ** package strconv, and the printing helpers of fmt *)

Module Strconv.
Definition digit_chr (d : Z) : ascii := byte_chr (48 + d).

(** Decimal digits of a non-negative number, most significant first. *)
Fixpoint digits_of (fuel : nat) (n : Z) (acc : string) : string :=
  match fuel with
  | O => acc
  | S f =>
      if n <=? 0 then acc
      else digits_of f (n / 10) (String (digit_chr (n mod 10)) acc)
  end.

(** strconv.Itoa on a 64-bit int: at most 19 digits. *)
Definition Itoa (n : Z) : string :=
  if n =? 0 then "0"
  else if n <? 0 then String "-" (digits_of 20 (- n) "")
  else digits_of 20 n "".

(** fmt.Sprintf of a number padded with zeros to six digits. *)
Fixpoint zero_pad (width : nat) (s : string) : string :=
  match width with
  | O => s
  | S w => if (String.length s <=? w)%nat then String "0" (zero_pad w s) else s
  end.

Definition Sprintf06d (n : Z) : string := zero_pad 6 (Itoa n).
End Strconv.

(** ** package encoding/hex and encoding/base64 *)

Module Encoding.
Definition hex_digit (d : Z) : ascii :=
  if d <? 10 then byte_chr (48 + d) else byte_chr (87 + d).

Fixpoint hex (s : string) : string :=
  match s with
  | EmptyString => EmptyString
  | String c s' =>
      String (hex_digit (byte_of c / 16)) (String (hex_digit (byte_of c mod 16)) (hex s'))
  end.

Definition b64_digit (d : Z) : ascii :=
  if d <? 26 then byte_chr (65 + d)
  else if d <? 52 then byte_chr (71 + d)
  else if d <? 62 then byte_chr (d - 4)
  else if d =? 62 then byte_chr 45 else byte_chr 95.

(** base64.RawURLEncoding.EncodeToString: no padding, alphabet with - and _. *)
Fixpoint base64url (s : string) : string :=
  match s with
  | EmptyString => EmptyString
  | String a EmptyString =>
      String (b64_digit (byte_of a / 4))
        (String (b64_digit (byte_of a mod 4 * 16)) EmptyString)
  | String a (String b EmptyString) =>
      String (b64_digit (byte_of a / 4))
        (String (b64_digit (byte_of a mod 4 * 16 + byte_of b / 16))
          (String (b64_digit (byte_of b mod 16 * 4)) EmptyString))
  | String a (String b (String c s')) =>
      String (b64_digit (byte_of a / 4))
        (String (b64_digit (byte_of a mod 4 * 16 + byte_of b / 16))
          (String (b64_digit (byte_of b mod 16 * 4 + byte_of c / 64))
            (String (b64_digit (byte_of c mod 64)) (base64url s'))))
  end.
End Encoding.

Lemma byte_of_range c : 0 <= byte_of c < 256.
Proof. unfold byte_of. pose proof (Ascii.N_ascii_bounded c). lia. Qed.

(** The digits a byte contributes to. *)
Lemma byte_parts c :
  0 <= byte_of c / 4 < 64 /\ 0 <= byte_of c / 16 < 16 /\ 0 <= byte_of c / 64 < 4 /\
  0 <= byte_of c mod 4 < 4 /\ 0 <= byte_of c mod 16 < 16 /\ 0 <= byte_of c mod 64 < 64.
Proof.
  pose proof (byte_of_range c) as H. split_and!; try (apply Z.div_pos; lia);
    try (apply Z.div_lt_upper_bound; lia); by apply Z.mod_pos_bound.
Qed.

(** Every character of the encoding is one of the 64 digits. *)
Lemma base64url_forall (p : ascii -> bool) s :
  (forall d, 0 <= d < 64 -> p (Encoding.b64_digit d) = true) ->
  Strings.forallb p (Encoding.base64url s) = true.
Proof.
  intros Hp. remember (String.length s) as n eqn:En. revert s En.
  induction n as [n IH] using lt_wf_ind. intros s ->.
  destruct s as [|a [|b [|c s]]]; [done|..];
    pose proof (byte_parts a) as Ha; try pose proof (byte_parts b) as Hb;
    try pose proof (byte_parts c) as Hc; cbn [Encoding.base64url Strings.forallb];
    rewrite !Hp by lia; cbn [andb]; [done|done|].
  apply (IH (String.length s)); [simpl; lia|done].
Qed.

(** ** package encoding/base64: StdEncoding *)

Module Base64.
Definition digit (d : Z) : ascii :=
  if d =? 62 then byte_chr 43 else if d =? 63 then byte_chr 47 else Encoding.b64_digit d.

Fixpoint encode (s : string) : string :=
  match s with
  | EmptyString => EmptyString
  | String a EmptyString =>
      String (digit (byte_of a / 4)) (String (digit (byte_of a mod 4 * 16)) "==")
  | String a (String b EmptyString) =>
      String (digit (byte_of a / 4))
        (String (digit (byte_of a mod 4 * 16 + byte_of b / 16))
          (String (digit (byte_of b mod 16 * 4)) "="))
  | String a (String b (String c s')) =>
      String (digit (byte_of a / 4))
        (String (digit (byte_of a mod 4 * 16 + byte_of b / 16))
          (String (digit (byte_of b mod 16 * 4 + byte_of c / 64))
            (String (digit (byte_of c mod 64)) (encode s'))))
  end.

Definition digit_of (c : ascii) : option Z :=
  let b := byte_of c in
  if (65 <=? b) && (b <=? 90) then Some (b - 65)
  else if (97 <=? b) && (b <=? 122) then Some (b - 71)
  else if is_digit c then Some (b + 4)
  else if b =? 43 then Some 62
  else if b =? 47 then Some 63 else None.

Definition is_pad (c : ascii) : bool := byte_of c =? 61.
Definition line_break (c : ascii) : bool := (byte_of c =? 10) || (byte_of c =? 13).

(** Groups of four; only the last may be padded. *)
Fixpoint decode_groups (s : string) : option string :=
  match s with
  | EmptyString => Some EmptyString
  | String a (String b (String c (String d s'))) =>
      match digit_of a, digit_of b with
      | Some x, Some y =>
          let b1 := byte_chr (x * 4 + y / 16) in
          match digit_of c, digit_of d with
          | Some z, Some w =>
              option_map (fun r => String b1 (String (byte_chr (y mod 16 * 16 + z / 4))
                                     (String (byte_chr (z mod 4 * 64 + w)) r)))
                (decode_groups s')
          | Some z, None =>
              if is_pad d && (s' =? "")%string
              then Some (String b1 (String (byte_chr (y mod 16 * 16 + z / 4)) "")) else None
          | None, _ =>
              if is_pad c && is_pad d && (s' =? "")%string then Some (String b1 "") else None
          end
      | _, _ => None
      end
  | _ => None
  end.

(** DecodeString: line breaks are skipped wherever they are. *)
Definition decode (s : string) : option string :=
  decode_groups (Strings.filter (fun c => negb (line_break c)) s).
End Base64.

(** ** package net/url *)

Module Url.
Definition upper_hex (d : Z) : ascii :=
  if d <? 10 then byte_chr (48 + d) else byte_chr (55 + d).

Definition unreserved (c : ascii) : bool :=
  let b := byte_of c in
  is_digit c || ((65 <=? b) && (b <=? 90)) || ((97 <=? b) && (b <=? 122))
  || (b =? 45) || (b =? 95) || (b =? 46) || (b =? 126).

Fixpoint QueryEscape (s : string) : string :=
  match s with
  | EmptyString => EmptyString
  | String c s' =>
      if unreserved c then String c (QueryEscape s')
      else if byte_of c =? 32 then String "+" (QueryEscape s')
      else String "%" (String (upper_hex (byte_of c / 16))
             (String (upper_hex (byte_of c mod 16)) (QueryEscape s')))
  end.
End Url.

(** ** Literals *)

(** A JSON text written with backquotes for its double quotes. *)
Fixpoint json_text (s : string) : string :=
  match s with
  | EmptyString => EmptyString
  | String c s' =>
      String (if byte_of c =? 96 then byte_chr 34 else c) (json_text s')
  end.
