(* ===== verification/Json.v ===== *)
(** * encoding/json: the part the code uses

    The wire syntax (RFC 8259 as Go's scanner accepts it), json.Marshal of
    strings, and json.Unmarshal into structs, maps, pointers, strings, ints and
    bools.  A Go decoder writes into an existing value, so a [decoder A] takes
    the value it updates and returns the new one with a flag: [false] when some
    part had the wrong type (Go goes on and reports the first such error at the
    end). *)

From S2P Require Import Prelude.
From S2P Require Import Domain.
From S2P Require Import GoLib.
From stdpp Require Import gmap strings list.
From Stdlib Require Import ZArith Lia Ascii.

Open Scope Z_scope.

(** ** unicode/utf8 *)

Module Utf8.
Definition at_byte (n : nat) (s : string) : Z :=
  match String.get n s with Some c => byte_of c | None => -1 end.

Definition within (lo hi b : Z) : bool := (lo <=? b) && (b <=? hi).

(** The size of the well-formed sequence of two to four bytes that starts the
    string, if one does. *)
Definition size4 (b0 b1 b2 b3 : Z) : option nat :=
  let cont := within 128 191 in
  if within 194 223 b0 then if cont b1 then Some 2%nat else None
  else if within 224 239 b0 then
    let lo := if b0 =? 224 then 160 else 128 in
    let hi := if b0 =? 237 then 159 else 191 in
    if within lo hi b1 && cont b2 then Some 3%nat else None
  else if within 240 244 b0 then
    let lo := if b0 =? 240 then 144 else 128 in
    let hi := if b0 =? 244 then 143 else 191 in
    if within lo hi b1 && cont b2 && cont b3 then Some 4%nat else None
  else None.

Definition size (s : string) : option nat :=
  size4 (at_byte 0 s) (at_byte 1 s) (at_byte 2 s) (at_byte 3 s).

(** The encoding of U+FFFD. *)
Definition RuneError : string :=
  String (byte_chr 239) (String (byte_chr 191) (String (byte_chr 189) "")).

Definition EncodeRune (r : Z) : string :=
  let c z := byte_chr z in
  let low k := c (Z.lor 128 (Z.land (Z.shiftr r k) 63)) in
  if (r <? 0) || (1114111 <? r) || within 55296 57343 r then RuneError
  else if r <? 128 then String (c r) ""
  else if r <? 2048 then String (c (Z.lor 192 (Z.shiftr r 6))) (String (low 0) "")
  else if r <? 65536 then
    String (c (Z.lor 224 (Z.shiftr r 12))) (String (low 6) (String (low 0) ""))
  else String (c (Z.lor 240 (Z.shiftr r 18)))
         (String (low 12) (String (low 6) (String (low 0) ""))).

(** utf8.ValidString *)
Fixpoint valid_from (fuel : nat) (s : string) : bool :=
  match fuel, s with
  | _, EmptyString => true
  | O, _ => false
  | S f, String c s' =>
      if byte_of c <? 128 then valid_from f s'
      else match size s with
           | Some n => valid_from f (Strings.drop n s)
           | None => false
           end
  end.

Definition Valid (s : string) : bool := valid_from (String.length s) s.
End Utf8.

(** ** Values *)

#[warnings="-register-all"]
Inductive json : Type :=
| JNull
| JBool (b : bool)
| JNum (literal : string)
| JStr (s : string)
| JArr (items : list json)
| JObj (members : list (string * json)).

Module Json.
(** *** Writing strings (json.appendString with escapeHTML) *)

Definition hexdigit (z : Z) : ascii := Encoding.hex_digit z.
Definition quotes : ascii := byte_chr 34.
Definition backslash : ascii := byte_chr 92.

Definition escape (c : ascii) : string :=
  let b := byte_of c in
  if (b =? 92) || (b =? 34) then String backslash (String c "")
  else if b =? 8 then "\b" else if b =? 12 then "\f"
  else if b =? 10 then "\n" else if b =? 13 then "\r" else if b =? 9 then "\t"
  else "\u00" +:+ String (hexdigit (b / 16)) (String (hexdigit (b mod 16)) "").

(** The ASCII bytes that are written as they are. *)
Definition plain (c : ascii) : bool :=
  let b := byte_of c in
  (32 <=? b) && (b <? 128) && negb ((b =? 34) || (b =? 92))
  && negb ((b =? 60) || (b =? 62) || (b =? 38)).

Definition line_sep : string :=
  String (byte_chr 226) (String (byte_chr 128) (String (byte_chr 168) "")).
Definition para_sep : string :=
  String (byte_chr 226) (String (byte_chr 128) (String (byte_chr 169) "")).

Fixpoint quote_from (fuel : nat) (s : string) : string :=
  match fuel, s with
  | _, EmptyString | O, _ => EmptyString
  | S f, String c s' =>
      if byte_of c <? 128 then
        (if plain c then String c "" else escape c) +:+ quote_from f s'
      else match Utf8.size s with
           | None => "\ufffd" +:+ quote_from f s'
           | Some n =>
               (if String.prefix line_sep s then "\u2028"
                else if String.prefix para_sep s then "\u2029"
                else Strings.take n s)
               +:+ quote_from f (Strings.drop n s)
           end
  end.

Definition quote (s : string) : string :=
  String quotes (quote_from (String.length s) s +:+ String quotes "").

(** json.Marshal of a value; map members come in key order. *)
Fixpoint marshal (v : json) : string :=
  match v with
  | JNull => "null"
  | JBool b => if b then "true" else "false"
  | JNum l => l
  | JStr s => quote s
  | JArr items =>
      "[" +:+ String.concat "," (map marshal items) +:+ "]"
  | JObj members =>
      "{" +:+ String.concat ","
        (map (fun kv => quote (fst kv) +:+ ":" +:+ marshal (snd kv)) members) +:+ "}"
  end.

(** *** Reading (the scanner, and the decoder's unquote) *)

Definition is_ws (c : ascii) : bool :=
  let b := byte_of c in (b =? 32) || (b =? 9) || (b =? 10) || (b =? 13).

Fixpoint skip_ws (s : string) : string :=
  match s with
  | String c s' => if is_ws c then skip_ws s' else s
  | EmptyString => EmptyString
  end.

Definition hexval (c : ascii) : option Z :=
  let b := byte_of c in
  if Utf8.within 48 57 b then Some (b - 48)
  else if Utf8.within 97 102 b then Some (b - 87)
  else if Utf8.within 65 70 b then Some (b - 55)
  else None.

(** Four hexadecimal digits. *)
Definition getu4 (s : string) : option (Z * string) :=
  match s with
  | String a (String b (String c (String d s'))) =>
      match hexval a, hexval b, hexval c, hexval d with
      | Some a, Some b, Some c, Some d => Some (a * 4096 + b * 256 + c * 16 + d, s')
      | _, _, _, _ => None
      end
  | _ => None
  end.

(** What follows a backslash: the bytes it stands for and the rest.  A high
    surrogate takes the low surrogate escape after it; a surrogate without its
    pair is U+FFFD. *)
Definition unescape (s : string) : option (string * string) :=
  match s with
  | EmptyString => None
  | String c s' =>
      let b := byte_of c in
      if (b =? 34) || (b =? 92) || (b =? 47) then Some (String c "", s')
      else if b =? 98 then Some (String (byte_chr 8) "", s')
      else if b =? 102 then Some (String (byte_chr 12) "", s')
      else if b =? 110 then Some (String (byte_chr 10) "", s')
      else if b =? 114 then Some (String (byte_chr 13) "", s')
      else if b =? 116 then Some (String (byte_chr 9) "", s')
      else if b =? 117 then
        match getu4 s' with
        | None => None
        | Some (r, s'') =>
            if Utf8.within 55296 57343 r then
              match s'' with
              | String x (String y t) =>
                  if (byte_of x =? 92) && (byte_of y =? 117) then
                    match getu4 t with
                    | Some (r2, t') =>
                        if Utf8.within 55296 56319 r && Utf8.within 56320 57343 r2
                        then Some (Utf8.EncodeRune
                               (65536 + (r - 55296) * 1024 + (r2 - 56320)), t')
                        else Some (Utf8.RuneError, s'')
                    | None => None
                    end
                  else Some (Utf8.RuneError, s'')
              | _ => Some (Utf8.RuneError, s'')
              end
            else Some (Utf8.EncodeRune r, s'')
        end
      else None
  end.

Definition prepend (b : string) (r : option (string * string)) : option (string * string) :=
  match r with Some (s, rest) => Some (b +:+ s, rest) | None => None end.

(** The body of a string literal, after its opening quote. *)
Fixpoint str_body (fuel : nat) (s : string) : option (string * string) :=
  match fuel, s with
  | O, _ | _, EmptyString => None
  | S f, String c s' =>
      let b := byte_of c in
      if b =? 34 then Some ("", s')
      else if b =? 92 then
        match unescape s' with
        | Some (u, rest) => prepend u (str_body f rest)
        | None => None
        end
      else if b <? 32 then None
      else if b <? 128 then prepend (String c "") (str_body f s')
      else match Utf8.size s with
           | Some n => prepend (Strings.take n s) (str_body f (Strings.drop n s))
           | None => prepend Utf8.RuneError (str_body f s')
           end
  end.

Definition str_lit (s : string) : option (string * string) :=
  str_body (S (String.length s)) s.

Fixpoint digits (s : string) : string * string :=
  match s with
  | String c s' =>
      if is_digit c then let '(d, r) := digits s' in (String c d, r) else ("", s)
  | EmptyString => ("", "")
  end.

Definition is_char (z : Z) (s : string) : bool := Utf8.at_byte 0 s =? z.

(** A number literal: sign, integer part without leading zeros, fraction,
    exponent. *)
Definition num_lit (s : string) : option (string * string) :=
  let '(sign, s) := if is_char 45 s then ("-", Strings.drop 1 s) else ("", s) in
  let int := if is_char 48 s then Some ("0", Strings.drop 1 s)
             else match digits s with ("", _) => None | r => Some r end in
  match int with
  | None => None
  | Some (i, s) =>
      let frac := if is_char 46 s
                  then match digits (Strings.drop 1 s) with
                       | ("", _) => None
                       | (d, r) => Some ("." +:+ d, r)
                       end
                  else Some ("", s) in
      match frac with
      | None => None
      | Some (fr, s) =>
          let exp :=
            if is_char 101 s || is_char 69 s then
              let e := Strings.take 1 s in
              let s := Strings.drop 1 s in
              let '(sg, s) := if is_char 43 s || is_char 45 s
                              then (Strings.take 1 s, Strings.drop 1 s) else ("", s) in
              match digits s with
              | ("", _) => None
              | (d, r) => Some (e +:+ sg +:+ d, r)
              end
            else Some ("", s) in
          match exp with
          | None => None
          | Some (ex, s) => Some (sign +:+ i +:+ fr +:+ ex, s)
          end
      end
  end.

(** Values, array elements and object members; [depth] is what is left of the
    scanner's 10000 levels of nesting. *)
Fixpoint value (fuel : nat) (depth : Z) (s : string) : option (json * string) :=
  match fuel with
  | O => None
  | S f =>
      match skip_ws s with
      | EmptyString => None
      | String c s' =>
          let b := byte_of c in
          if b =? 123 then
            if depth <=? 0 then None
            else match skip_ws s' with
              | String d r =>
                  if byte_of d =? 125 then Some (JObj [], r)
                  else match members f (depth - 1) s' with
                    | Some (ms, r) => Some (JObj ms, r)
                    | None => None
                    end
              | EmptyString => None
              end
          else if b =? 91 then
            if depth <=? 0 then None
            else match skip_ws s' with
              | String d r =>
                  if byte_of d =? 93 then Some (JArr [], r)
                  else match elements f (depth - 1) s' with
                    | Some (vs, r) => Some (JArr vs, r)
                    | None => None
                    end
              | EmptyString => None
              end
          else if b =? 34 then
            match str_lit s' with Some (x, r) => Some (JStr x, r) | None => None end
          else if Strings.HasPrefix (String c s') "null" then
            Some (JNull, Strings.drop 3 s')
          else if Strings.HasPrefix (String c s') "true" then
            Some (JBool true, Strings.drop 3 s')
          else if Strings.HasPrefix (String c s') "false" then
            Some (JBool false, Strings.drop 4 s')
          else match num_lit (String c s') with
            | Some (l, r) => Some (JNum l, r)
            | None => None
            end
      end
  end
with elements (fuel : nat) (depth : Z) (s : string) : option (list json * string) :=
  match fuel with
  | O => None
  | S f =>
      match value f depth s with
      | None => None
      | Some (v, r) =>
          match skip_ws r with
          | String c r' =>
              if byte_of c =? 44 then
                match elements f depth r' with
                | Some (vs, r'') => Some (v :: vs, r'')
                | None => None
                end
              else if byte_of c =? 93 then Some ([v], r')
              else None
          | EmptyString => None
          end
      end
  end
with members (fuel : nat) (depth : Z) (s : string)
  : option (list (string * json) * string) :=
  match fuel with
  | O => None
  | S f =>
      match skip_ws s with
      | String q r =>
          if negb (byte_of q =? 34) then None
          else match str_lit r with
            | None => None
            | Some (k, r) =>
                match skip_ws r with
                | String c r =>
                    if negb (byte_of c =? 58) then None
                    else match value f depth r with
                      | None => None
                      | Some (v, r) =>
                          match skip_ws r with
                          | String c r' =>
                              if byte_of c =? 44 then
                                match members f depth r' with
                                | Some (ms, r'') => Some ((k, v) :: ms, r'')
                                | None => None
                                end
                              else if byte_of c =? 125 then Some ([(k, v)], r')
                              else None
                          | EmptyString => None
                          end
                      end
                | EmptyString => None
                end
            end
      | EmptyString => None
      end
  end.

(** Every call consumes a byte or comes right after one that was consumed. *)
Definition parse_prefix (s : string) : option (json * string) :=
  value (S (2 * String.length s)) 10000 s.

(** json.Unmarshal's syntax check: one value and nothing but space after it. *)
Definition parse (s : string) : option json :=
  match parse_prefix s with
  | Some (v, r) => match skip_ws r with EmptyString => Some v | _ => None end
  | None => None
  end.

(** *** Decoding into Go values *)

Definition decoder (A : Type) : Type := json -> A -> A * bool.

Definition dstring : decoder string := fun v old =>
  match v with JStr s => (s, true) | JNull => (old, true) | _ => (old, false) end.

Definition dbool : decoder bool := fun v old =>
  match v with JBool b => (b, true) | JNull => (old, true) | _ => (old, false) end.

(** A number literal that is an integer and fits an int64. *)
Definition parse_int (l : string) : option Z :=
  let '(neg, ds) := if is_char 45 l then (true, Strings.drop 1 l) else (false, l) in
  match digits ds with
  | (d, EmptyString) =>
      let n := (fix go (acc : Z) (s : string) : Z :=
                  match s with
                  | String c s' => go (acc * 10 + (byte_of c - 48)) s'
                  | EmptyString => acc
                  end) 0 d in
      let z := if neg : bool then - n else n in
      if (- 2 ^ 63 <=? z) && (z <=? 2 ^ 63 - 1) then Some z else None
  | _ => None
  end.

Definition dint : decoder Z := fun v old =>
  match v with
  | JNum l => match parse_int l with Some z => (z, true) | None => (old, false) end
  | JNull => (old, true)
  | _ => (old, false)
  end.

(** A pointer: null makes it nil, a nil pointer is allocated. *)
Definition dptr {A} (zero : A) (d : decoder A) : decoder (option A) := fun v old =>
  match v with
  | JNull => (None, true)
  | _ => let '(x, ok) := d v (default zero old) in (Some x, ok)
  end.

(** A map with string keys: null makes it nil; every element starts from zero,
    and one of the wrong type is stored as far as it went. *)
Definition dmap {A} (zero : A) (d : decoder A) : decoder (gmap string A) := fun v old =>
  match v with
  | JObj ms =>
      fold_left (fun '(m, ok) '(k, v) =>
        let '(x, ok') := d v zero in (<[k := x]> m, ok && ok')) ms (old, true)
  | JNull => (∅, true)
  | _ => (old, false)
  end.

(** A slice that is nil before: each element starts from zero. *)
Definition dslice {A} (zero : A) (d : decoder A) : decoder (list A) := fun v old =>
  match v with
  | JArr vs => (map (fun v => fst (d v zero)) vs, forallb (fun v => snd (d v zero)) vs)
  | JNull => ([], true)
  | _ => (old, false)
  end.

(** foldName: upper case, where U+017F folds to S and U+212A to K. *)
Definition ascii_upper (c : ascii) : ascii :=
  if Utf8.within 97 122 (byte_of c) then byte_chr (byte_of c - 32) else c.

Definition long_s : string := String (byte_chr 197) (String (byte_chr 191) "").
Definition kelvin : string :=
  String (byte_chr 226) (String (byte_chr 132) (String (byte_chr 170) "")).

Fixpoint fold_from (fuel : nat) (s : string) : string :=
  match fuel, s with
  | O, _ | _, EmptyString => ""
  | S f, String c s' =>
      if Strings.HasPrefix s long_s then String "S" (fold_from f (Strings.drop 2 s))
      else if Strings.HasPrefix s kelvin then String "K" (fold_from f (Strings.drop 3 s))
      else String (ascii_upper c) (fold_from f s')
  end.

Definition fold_name (s : string) : string := fold_from (String.length s) s.

(** The field a key names: the exact name, else the first whose name folds to
    the same string.  Field names are ASCII. *)
Definition field_of {A} (fields : list (string * A)) (k : string) : option A :=
  match List.find (fun f => (fst f =? k)%string) fields with
  | Some (_, d) => Some d
  | None =>
      option_map snd
        (List.find (fun f => (fold_name (fst f) =? fold_name k)%string) fields)
  end.

Definition dstruct {A} (fields : list (string * decoder A)) : decoder A := fun v old =>
  match v with
  | JObj ms =>
      fold_left (fun '(x, ok) '(k, v) =>
        match field_of fields k with
        | Some d => let '(x', ok') := d v x in (x', ok && ok')
        | None => (x, ok)
        end) ms (old, true)
  | JNull => (old, true)
  | _ => (old, false)
  end.

(** A field of a struct, by its getter and setter. *)
Definition field {A B} (get : A -> B) (set : B -> A -> A) (d : decoder B) : decoder A :=
  fun v x => let '(y, ok) := d v (get x) in (set y x, ok).

(** json.Unmarshal into a value: [None] on any error. *)
Definition Unmarshal {A} (d : decoder A) (zero : A) (data : string) : option A :=
  match parse data with
  | Some v => let '(x, ok) := d v zero in if ok : bool then Some x else None
  | None => None
  end.

(** json.NewDecoder(r).Decode(&x): what is left in [x], and whether it
    succeeded.  Only the first value of the stream is read; after a literal the
    scanner reads one byte more, which must be a space. *)
Definition ends_literal (v : json) (rest : string) : bool :=
  match v, rest with
  | JObj _, _ | JArr _, _ | _, EmptyString => true
  | _, String c _ => is_ws c
  end.

Definition Decode {A} (d : decoder A) (zero : A) (data : string) : A * bool :=
  match parse_prefix data with
  | Some (v, r) => if ends_literal v r then d v zero else (zero, false)
  | None => (zero, false)
  end.

(** *** json.RawMessage *)

(** The members of an object after its opening brace, each with the bytes of its
    value. *)
Fixpoint raw_members (fuel : nat) (s : string) : option (list (string * (json * string))) :=
  match fuel with
  | O => None
  | S f =>
      match skip_ws s with
      | String q r =>
          if negb (byte_of q =? 34) then None
          else match str_lit r with
            | None => None
            | Some (k, r) =>
                match skip_ws r with
                | String c r =>
                    if negb (byte_of c =? 58) then None
                    else
                      let start := skip_ws r in
                      match value (S (2 * String.length start)) 9999 start with
                      | None => None
                      | Some (v, r) =>
                          let raw :=
                            Strings.take (String.length start - String.length r) start in
                          match skip_ws r with
                          | String c r' =>
                              if byte_of c =? 44 then
                                match raw_members f r' with
                                | Some ms => Some ((k, (v, raw)) :: ms)
                                | None => None
                                end
                              else if byte_of c =? 125 then Some [(k, (v, raw))]
                              else None
                          | EmptyString => None
                          end
                      end
                | EmptyString => None
                end
            end
      | EmptyString => None
      end
  end.

(** A decoder that may look at the bytes of the value. *)
Definition rdecoder (A : Type) : Type := json * string -> A -> A * bool.

Definition cooked {A} (d : decoder A) : rdecoder A := fun v => d (fst v).

(** A field of type json.RawMessage takes the bytes as they are, null included. *)
Definition draw : rdecoder string := fun v _ => (snd v, true).

Definition rfield {A B} (get : A -> B) (set : B -> A -> A) (d : rdecoder B) : rdecoder A :=
  fun v x => let '(y, ok) := d v (get x) in (set y x, ok).

(** json.Unmarshal into a struct some of whose fields are raw. *)
Definition UnmarshalRaw {A} (fields : list (string * rdecoder A)) (zero : A) (data : string)
  : option A :=
  match parse data with
  | Some (JObj []) | Some JNull => Some zero
  | Some (JObj _) =>
      match raw_members (String.length data) (Strings.drop 1 (skip_ws data)) with
      | None => None
      | Some ms =>
          let '(x, ok) :=
            fold_left (fun '(x, ok) '(k, v) =>
              match field_of fields k with
              | Some d => let '(x', ok') := d v x in (x', ok && ok')
              | None => (x, ok)
              end) ms (zero, true) in
          if ok : bool then Some x else None
      end
  | _ => None
  end.

(** json.Marshal of a RawMessage: the text without its spaces, the characters
    of HTML and the line separators escaped. *)
Fixpoint compact_from (in_string : bool) (s : string) : string :=
  match s with
  | EmptyString => EmptyString
  | String c s' =>
      let b := byte_of c in
      if (b =? 60) || (b =? 62) || (b =? 38) then escape c +:+ compact_from in_string s'
      else if String.prefix line_sep s then
        match s' with
        | String _ (String _ s'') => "\u2028" +:+ compact_from in_string s''
        | _ => EmptyString
        end
      else if String.prefix para_sep s then
        match s' with
        | String _ (String _ s'') => "\u2029" +:+ compact_from in_string s''
        | _ => EmptyString
        end
      else if in_string then
        if b =? 92 then
          match s' with
          | String d s'' => String c (String d (compact_from true s''))
          | EmptyString => String c EmptyString
          end
        else String c (compact_from (negb (b =? 34)) s')
      else if is_ws c then compact_from false s'
      else String c (compact_from (b =? 34) s')
  end.

Definition compact (s : string) : option string :=
  match parse s with Some _ => Some (compact_from false s) | None => None end.

(** A number that fits in an int, as json.Marshal writes it. *)
Definition jint (z : Z) : json := JNum (Strconv.Itoa z).
End Json.

(** ** The JSON form of the flow types (domain/types.go struct tags) *)

Module FlowJson.
Import Json.

Definition dPrompt : decoder Prompt := dstruct
  [("audio", field prompt_Audio (fun x p => mkPrompt x (prompt_TTS p)) dstring);
   ("tts", field prompt_TTS (fun x p => mkPrompt (prompt_Audio p) x) dstring)].

Definition dGather : decoder Gather := dstruct
  [("digits", field gather_Digits (fun x g => mkGather x (gather_TimeoutS g)) dint);
   ("timeout_s", field gather_TimeoutS (fun x g => mkGather (gather_Digits g) x) dint)].

Definition dIVRNode : decoder IVRNode := dstruct
  [("say", field node_Say
      (fun x n => mkIVRNode x (node_Gather n) (node_On n) (node_Result n) (node_End n))
      (dptr (mkPrompt "" "") dPrompt));
   ("gather", field node_Gather
      (fun x n => mkIVRNode (node_Say n) x (node_On n) (node_Result n) (node_End n))
      (dptr (mkGather 0 0) dGather));
   ("on", field node_On
      (fun x n => mkIVRNode (node_Say n) (node_Gather n) x (node_Result n) (node_End n))
      (dmap "" dstring));
   ("result", field node_Result
      (fun x n => mkIVRNode (node_Say n) (node_Gather n) (node_On n) x (node_End n))
      dstring);
   ("end", field node_End
      (fun x n => mkIVRNode (node_Say n) (node_Gather n) (node_On n) (node_Result n) x)
      dbool)].

Definition dIVRSpec : decoder IVRSpec := dstruct
  [("entry", field ivr_Entry (fun x s => mkIVRSpec x (ivr_Nodes s)) dstring);
   ("nodes", field ivr_Nodes (fun x s => mkIVRSpec (ivr_Entry s) x)
      (dmap zeroIVRNode dIVRNode))].

Definition UnmarshalIVRSpec (data : string) : option IVRSpec :=
  Unmarshal dIVRSpec zeroIVRSpec data.
End FlowJson.

(** ** What is written is read back *)

Module JsonFacts.
Import Json.

Lemma size4_some b0 b1 b2 b3 n :
  Utf8.size4 b0 b1 b2 b3 = Some n ->
  128 <= b0 /\ 0 <= b1 /\
  ((n = 2%nat /\ forall x y, Utf8.size4 b0 b1 x y = Some n) \/
   (n = 3%nat /\ 0 <= b2 /\ forall y, Utf8.size4 b0 b1 b2 y = Some n) \/
   (n = 4%nat /\ 0 <= b2 /\ 0 <= b3)).
Proof.
  unfold Utf8.size4, Utf8.within. intros H.
  repeat match goal with
  | H : (if ?b then _ else _) = Some _ |- _ => destruct b eqn:?
  end; try done; injection H as <-; bool_prop.
  all: split; [lia|]; split; [repeat split_match; lia|].
  all: first [by left | right; left; by repeat split; lia | right; right; by repeat split; lia].
Qed.

(** A well-formed sequence is recognised wherever it is followed by anything. *)
Lemma size_take s n t :
  Utf8.size s = Some n ->
  Utf8.size (Strings.take n s +:+ t) = Some n /\
  Strings.take n (Strings.take n s +:+ t) = Strings.take n s /\
  Strings.drop n (Strings.take n s +:+ t) = t /\
  (1 <= String.length (Strings.take n s))%nat /\
  Strings.take n s +:+ Strings.drop n s = s /\ 128 <= Utf8.at_byte 0 s.
Proof.
  unfold Utf8.size. intros H. pose proof (size4_some _ _ _ _ _ H) as (H0 & H1 & Hn).
  destruct s as [|c0 [|c1 s]]; [cbn in H0; lia | cbn in H1; lia|].
  destruct Hn as [[-> Hx]|[(-> & H2 & Hx)|(-> & H2 & H3)]].
  - cbn in *. rewrite Hx. repeat split; [lia | done].
  - destruct s as [|c2 s]; [cbn in H2; lia|]. cbn in *. rewrite Hx.
    repeat split; [lia | done].
  - destruct s as [|c2 [|c3 s]]; [cbn in H2; lia | cbn in H3; lia|]. cbn in *.
    repeat split; [done | lia | done].
Qed.

(** An escaped character is read back as itself. *)
Lemma unescape_escape c t :
  (byte_of c <? 128) = true -> plain c = false ->
  exists u, escape c = String backslash u /\ unescape (u +:+ t) = Some (String c "", t).
Proof.
  destruct c as [[] [] [] [] [] [] [] []]; intros Hb Hp; try (discriminate Hb);
    try (discriminate Hp); eexists; split; reflexivity.
Qed.

Lemma plain_spec c :
  plain c = true ->
  (byte_of c =? 34) = false /\ (byte_of c =? 92) = false /\ (byte_of c <? 32) = false.
Proof.
  unfold plain. intros H. bool_prop. rewrite !Z.eqb_neq, Z.ltb_ge. lia.
Qed.

(** One escape, then the rest of the body. *)
Lemma str_body_escape f u t x s rest :
  unescape (u +:+ t) = Some (x, t) ->
  str_body f t = Some (s, rest) ->
  str_body (S f) (String backslash (u +:+ t)) = Some (x +:+ s, rest).
Proof. intros Hu Ht. simpl. rewrite Hu, Ht. done. Qed.

Lemma app_assoc_s (a b c : string) : (a +:+ b) +:+ c = a +:+ (b +:+ c).
Proof. induction a as [|x a IH]; simpl; [done|]. by rewrite IH. Qed.

(** The bytes of a well-formed sequence are copied, both ways. *)
Lemma str_body_rune f src n t s rest :
  Utf8.size src = Some n ->
  str_body f t = Some (s, rest) ->
  str_body (S f) (Strings.take n src +:+ t) = Some (Strings.take n src +:+ s, rest).
Proof.
  intros Hn Ht. destruct (size_take src n t Hn) as (H1 & H2 & H3 & H4 & _ & H5).
  destruct n as [|n]; [simpl in H4; lia|].
  destruct src as [|c src]; [simpl in H4; lia|].
  change (128 <= byte_of c) in H5.
  assert (Strings.take (S n) (String c src) +:+ t = String c (Strings.take n src +:+ t))
    as E by done.
  rewrite E in *. cbn [str_body]. rewrite H1, H2, H3, Ht.
  repeat match goal with
  | |- context [if ?b then _ else _] =>
      destruct b eqn:?; bool_prop; try lia
  end. done.
Qed.

(** The separators U+2028 and U+2029 are escaped. *)
Lemma str_body_sep f src sep u n t s rest :
  String.prefix sep src = true -> Utf8.size src = Some n ->
  (sep = line_sep /\ u = "u2028" \/ sep = para_sep /\ u = "u2029") ->
  str_body f t = Some (s, rest) ->
  str_body (S f) (String backslash (u +:+ t)) = Some (Strings.take n src +:+ s, rest).
Proof.
  intros Hp Hn Hsep Ht. apply Strings.prefix_split in Hp as [src' ->].
  assert (Strings.take n (sep +:+ src') = sep) as ->.
  { destruct Hsep as [[-> _]|[-> _]]; cbn in Hn; by injection Hn as <-. }
  apply str_body_escape; [|done].
  destruct Hsep as [[-> ->]|[-> ->]]; reflexivity.
Qed.

Lemma str_body_quote n s f rest :
  Utf8.valid_from n s = true ->
  (String.length (quote_from n s) < f)%nat ->
  str_body f (quote_from n s +:+ String quotes rest) = Some (s, rest).
Proof.
  revert s f. induction n as [|n IH]; intros s f Hv Hf.
  - destruct s; [|done]. destruct f; [simpl in Hf; lia|]. reflexivity.
  - destruct s as [|c s]; [destruct f; [simpl in Hf; lia|reflexivity]|].
    cbn [quote_from Utf8.valid_from] in *.
    destruct (byte_of c <? 128) eqn:Ec.
    + rewrite Strings.length_app in Hf. rewrite app_assoc_s.
      destruct (plain c) eqn:Ep.
      * destruct f as [|f]; [lia|]. cbn in Hf.
        destruct (plain_spec c Ep) as (E1 & E2 & E3).
        cbn [String.append str_body]. rewrite E1, E2, E3, Ec, IH by (done || lia). done.
      * destruct (unescape_escape c (quote_from n s +:+ String quotes rest) Ec Ep)
          as (u & Eu & Hu).
        rewrite Eu in *. destruct f as [|f]; [lia|]. cbn in Hf.
        change (String c s) with (String c "" +:+ s).
        apply str_body_escape; [done|]. apply IH; [done|lia].
    + destruct (Utf8.size (String c s)) as [m|] eqn:Em; [|done].
      rewrite Strings.length_app in Hf. rewrite app_assoc_s.
      destruct (size_take _ m "" Em) as (_ & _ & _ & Hlen & Hs & _).
      replace (Some (String c s, rest))
        with (Some (Strings.take m (String c s) +:+ Strings.drop m (String c s), rest))
        by (by rewrite Hs).
      destruct f as [|f]; [lia|].
      repeat split_match.
      * refine (str_body_sep f _ line_sep "u2028" m _ _ _ ltac:(done) Em ltac:(auto) _).
        apply IH; [done|]. cbn in Hf. lia.
      * refine (str_body_sep f _ para_sep "u2029" m _ _ _ ltac:(done) Em ltac:(auto) _).
        apply IH; [done|]. cbn in Hf. lia.
      * apply str_body_rune; [done|]. apply IH; [done|lia].
Qed.

(** A quoted string is read back as itself. *)
Lemma str_lit_quote s rest :
  Utf8.Valid s = true ->
  str_lit (quote_from (String.length s) s +:+ String quotes rest) = Some (s, rest).
Proof.
  intros Hv. apply str_body_quote; [done|]. rewrite Strings.length_app. lia.
Qed.

Lemma value_str f depth t :
  value (S f) depth (String quotes t) =
  match str_lit t with Some (x, r) => Some (JStr x, r) | None => None end.
Proof. reflexivity. Qed.

Lemma value_quote f depth s rest :
  Utf8.Valid s = true -> value (S f) depth (quote s +:+ rest) = Some (JStr s, rest).
Proof.
  intros Hv. unfold quote. cbn [String.append]. rewrite app_assoc_s.
  cbn [String.append]. by rewrite value_str, str_lit_quote.
Qed.

(** A flat object of strings. *)
Definition str_members (kvs : list (string * string)) : list (string * json) :=
  map (fun kv => (kv.1, JStr kv.2)) kvs.

Definition member_text (kv : string * string) : string :=
  quote kv.1 +:+ ":" +:+ quote kv.2.

(** What follows a member: another one, or the end of the object. *)
Definition after_member (f : nat) (depth : Z) (m : string * json) (rest : string)
  : option (list (string * json) * string) :=
  match skip_ws rest with
  | String c r' =>
      if byte_of c =? 44 then
        match members f depth r' with
        | Some (ms, r'') => Some (m :: ms, r'')
        | None => None
        end
      else if byte_of c =? 125 then Some ([m], r')
      else None
  | EmptyString => None
  end.

Lemma members_str f depth t k t' v rest :
  str_lit t = Some (k, String (byte_chr 58) t') -> value f depth t' = Some (v, rest) ->
  members (S f) depth (String quotes t) = after_member f depth (k, v) rest.
Proof.
  intros Ht Hv. transitivity
    (match str_lit t with
     | None => None
     | Some (k, r) =>
         match skip_ws r with
         | String c r =>
             if negb (byte_of c =? 58) then None
             else match value f depth r with
               | None => None
               | Some (v, r) => after_member f depth (k, v) r
               end
         | EmptyString => None
         end
     end); [reflexivity|].
  rewrite Ht. cbn [skip_ws].
  change (is_ws (byte_chr 58)) with false. cbv iota.
  change (negb (byte_of (byte_chr 58) =? 58)) with false. cbv iota. by rewrite Hv.
Qed.

Lemma members_step f depth kv rest :
  Utf8.Valid kv.1 = true -> Utf8.Valid kv.2 = true ->
  members (S (S f)) depth (member_text kv +:+ rest) =
  after_member (S f) depth (kv.1, JStr kv.2) rest.
Proof.
  intros Hk Hv. destruct kv as [k v]. unfold member_text. cbn [fst snd] in *.
  rewrite app_assoc_s. unfold quote at 1. cbn [String.append]. rewrite app_assoc_s.
  cbn [String.append]. eapply members_str; [by rewrite str_lit_quote|].
  by rewrite value_quote.
Qed.

Lemma members_text f depth kv kvs rest :
  Forall (fun kv => Utf8.Valid kv.1 = true /\ Utf8.Valid kv.2 = true) (kv :: kvs) ->
  (S (length kvs) < f)%nat ->
  members f depth
    (String.concat "," (map member_text (kv :: kvs)) +:+ String (byte_chr 125) rest) =
  Some (str_members (kv :: kvs), rest).
Proof.
  revert kv f. induction kvs as [|kv' kvs IH]; intros kv f Hall Hf;
    apply Forall_cons in Hall as [[Hk Hv] Hall];
    destruct f as [|[|f]]; try (simpl in Hf; lia).
  - cbn [map String.concat]. by rewrite members_step.
  - change (String.concat "," (map member_text (kv :: kv' :: kvs)))
      with (member_text kv +:+ "," +:+ String.concat "," (map member_text (kv' :: kvs))).
    rewrite app_assoc_s, members_step by done.
    pose proof (IH kv' (S f) Hall ltac:(simpl in *; lia)) as E.
    transitivity (match members (S f) depth
        (String.concat "," (map member_text (kv' :: kvs)) +:+ String (byte_chr 125) rest)
      with Some (ms, r'') => Some ((kv.1, JStr kv.2) :: ms, r'') | None => None end);
      [reflexivity|].
    by rewrite E.
Qed.

Lemma length_concat_ge kvs :
  (length kvs <= String.length (String.concat "," (map member_text kvs)))%nat.
Proof.
  induction kvs as [|kv [|kv' kvs] IH]; [done|simpl; lia|].
  change (String.concat "," (map member_text (kv :: kv' :: kvs)))
    with (member_text kv +:+ "," +:+ String.concat "," (map member_text (kv' :: kvs))).
  rewrite !Strings.length_app. cbn [length] in *.
  change (String.length ",") with 1%nat. lia.
Qed.

(** A marshalled object of strings parses to that object, whatever blanks follow. *)
Lemma parse_marshal_strings_ws kv kvs ws :
  Forall (fun kv => Utf8.Valid kv.1 = true /\ Utf8.Valid kv.2 = true) (kv :: kvs) ->
  skip_ws ws = EmptyString ->
  parse (marshal (JObj (str_members (kv :: kvs))) +:+ ws) = Some (JObj (str_members (kv :: kvs))).
Proof.
  intros Hall Hws.
  assert (marshal (JObj (str_members (kv :: kvs))) +:+ ws =
          String (byte_chr 123) (String.concat "," (map member_text (kv :: kvs)) +:+
            String (byte_chr 125) ws)) as ->.
  { cbn [marshal]. unfold str_members. rewrite map_map. cbn [String.append].
    by rewrite app_assoc_s. }
  unfold parse, parse_prefix.
  pose proof (length_concat_ge (kv :: kvs)) as Hlen.
  set (n := (2 * _)%nat).
  assert (S (length kvs) < n)%nat as Hn.
  { subst n. cbn [String.length]. rewrite Strings.length_app. cbn [length] in Hlen. lia. }
  clearbody n.
  pose proof (members_text n (10000 - 1) kv kvs ws Hall Hn) as Hm.
  assert (exists t, String.concat "," (map member_text (kv :: kvs)) +:+
            String (byte_chr 125) ws = String quotes t) as [t Et]
    by (destruct kvs; eexists; reflexivity).
  rewrite Et in *.
  transitivity (match match members n (10000 - 1) (String quotes t)
      with Some (ms, r) => Some (JObj ms, r) | None => None end
    with Some (v, r) => match skip_ws r with EmptyString => Some v | _ => None end
    | None => None end); [reflexivity|].
  by rewrite Hm, Hws.
Qed.

Lemma parse_marshal_strings kv kvs :
  Forall (fun kv => Utf8.Valid kv.1 = true /\ Utf8.Valid kv.2 = true) (kv :: kvs) ->
  parse (marshal (JObj (str_members (kv :: kvs)))) = Some (JObj (str_members (kv :: kvs))).
Proof.
  intros Hall. rewrite <- (Strings.app_nil_r (marshal _)). by apply parse_marshal_strings_ws.
Qed.
End JsonFacts.
