(* ===== verification/GoTime.v ===== *)
(** * package time: calendar dates, RFC 3339 and the date of a cookie

    A [Time] is a number of microseconds since the Unix epoch.  What a
    [time.Time] carries besides is its location, of which Format only reads the
    offset at that instant, so formatting takes the offset (in seconds east of
    UTC) and parsing returns it.  The proleptic Gregorian calendar is computed
    from the days before a year; [of_days] finds the year from an estimate that
    is off by at most one. *)

From S2P Require Import Prelude.
From S2P Require Import Domain.
From S2P Require Import GoLib.
From S2P Require Import Json.
From stdpp Require Import strings list.
From Stdlib Require Import ZArith Lia Ascii.

Open Scope Z_scope.

(** ** The calendar *)

Module Civil.
Definition leap (y : Z) : bool :=
  (y mod 4 =? 0) && (negb (y mod 100 =? 0) || (y mod 400 =? 0)).

(** Days from 1 January of year 1 to 1 January of year [n + 1]. *)
Definition before (n : Z) : Z := 365 * n + n / 4 - n / 100 + n / 400.

Definition daysIn (m y : Z) : Z :=
  if m =? 2 then (if leap y then 29 else 28)
  else if (m =? 4) || (m =? 6) || (m =? 9) || (m =? 11) then 30 else 31.

(** Days of the year before month [m]. *)
Definition before_month (m y : Z) : Z :=
  (if m =? 1 then 0 else if m =? 2 then 31 else if m =? 3 then 59 else if m =? 4 then 90
   else if m =? 5 then 120 else if m =? 6 then 151 else if m =? 7 then 181
   else if m =? 8 then 212 else if m =? 9 then 243 else if m =? 10 then 273
   else if m =? 11 then 304 else 334)
  + (if (2 <? m) && leap y then 1 else 0).

(** Days from 1 January of year 1 to 1 January 1970. *)
Definition epoch : Z := 719162.

Definition days_of (y m d : Z) : Z := before (y - 1) + before_month m y + (d - 1) - epoch.

Definition year_of (z : Z) : Z :=
  let n := z * 400 / 146097 in
  (if z <? before n then n - 1 else if before (n + 1) <=? z then n + 1 else n) + 1.

Definition month_of (y doy : Z) : Z :=
  let from m := before_month m y <=? doy in
  if from 12 then 12 else if from 11 then 11 else if from 10 then 10 else if from 9 then 9
  else if from 8 then 8 else if from 7 then 7 else if from 6 then 6 else if from 5 then 5
  else if from 4 then 4 else if from 3 then 3 else if from 2 then 2 else 1.

(** Year, month and day of a number of days since the epoch. *)
Definition of_days (days : Z) : Z * Z * Z :=
  let z := days + epoch in
  let y := year_of z in
  let doy := z - before (y - 1) in
  let m := month_of y doy in
  (y, m, doy - before_month m y + 1).

Definition valid (y m d : Z) : Prop := 1 <= m <= 12 /\ 1 <= d <= daysIn m y.

(** A year is 365 days, or 366. *)
Lemma before_step n : before (n + 1) = before n + (if leap (n + 1) then 366 else 365).
Proof.
  unfold before, leap.
  destruct (Z.eqb_spec ((n + 1) mod 4) 0), (Z.eqb_spec ((n + 1) mod 100) 0),
    (Z.eqb_spec ((n + 1) mod 400) 0); simpl;
    Z.to_euclidean_division_equations; lia.
Qed.

Lemma before_mono n n' : n < n' -> before (n + 1) <= before n'.
Proof. unfold before. intros H. Z.to_euclidean_division_equations. lia. Qed.

Lemma before_bounds n : 146097 * n - 700 <= 400 * before n <= 146097 * n + 396.
Proof.
  unfold before.
  pose proof (Z.div_mod n 4 ltac:(lia)). pose proof (Z.mod_pos_bound n 4 ltac:(lia)).
  pose proof (Z.div_mod n 100 ltac:(lia)). pose proof (Z.mod_pos_bound n 100 ltac:(lia)).
  pose proof (Z.div_mod n 400 ltac:(lia)). pose proof (Z.mod_pos_bound n 400 ltac:(lia)).
  lia.
Qed.

(** The estimate is at most one year off. *)
Lemma year_of_spec z : before (year_of z - 1) <= z < before (year_of z).
Proof.
  unfold year_of. remember (z * 400 / 146097) as n eqn:En.
  assert (before (n - 1) <= z < before (n + 2)) as [H1 H2].
  { pose proof (before_bounds (n - 1)). pose proof (before_bounds (n + 2)).
    pose proof (Z.div_mod (z * 400) 146097 ltac:(lia)).
    pose proof (Z.mod_pos_bound (z * 400) 146097 ltac:(lia)). lia. }
  destruct (Z.ltb_spec z (before n)) as [H|H].
  { replace (n - 1 + 1 - 1) with (n - 1) by lia. by replace (n - 1 + 1) with n by lia. }
  destruct (Z.leb_spec (before (n + 1)) z) as [H'|H'].
  - replace (n + 1 + 1 - 1) with (n + 1) by lia. by replace (n + 1 + 1) with (n + 2) by lia.
  - by replace (n + 1 - 1) with n by lia.
Qed.

Lemma year_of_unique y z : before (y - 1) <= z < before y -> year_of z = y.
Proof.
  intros H. pose proof (year_of_spec z) as H'.
  destruct (Z.lt_trichotomy (year_of z) y) as [Hlt|[Heq|Hgt]]; [|done|].
  - pose proof (before_mono (year_of z - 1) (y - 1) ltac:(lia)) as Hm.
    replace (year_of z - 1 + 1) with (year_of z) in Hm by lia. lia.
  - pose proof (before_mono (y - 1) (year_of z - 1) ltac:(lia)) as Hm.
    replace (y - 1 + 1) with y in Hm by lia. lia.
Qed.

(** The cases of a month of the year. *)
Ltac months m H :=
  let Hc := fresh in
  assert (m = 1 \/ m = 2 \/ m = 3 \/ m = 4 \/ m = 5 \/ m = 6 \/ m = 7 \/ m = 8 \/ m = 9 \/
    m = 10 \/ m = 11 \/ m = 12) as Hc by lia;
  clear H; repeat (destruct Hc as [->|Hc]); try subst m.

Lemma month_of_unique y m d :
  valid y m d -> month_of y (before_month m y + (d - 1)) = m.
Proof.
  intros [Hm Hd]. unfold daysIn, month_of, before_month in *.
  months m Hm; simpl in *; destruct (leap y); simpl; repeat split_match; bool_prop; lia.
Qed.

Lemma month_end y m d :
  valid y m d -> 0 <= before_month m y + (d - 1) < (if leap y then 366 else 365).
Proof.
  intros [Hm Hd]. unfold daysIn, before_month in *.
  months m Hm; simpl in *; destruct (leap y); simpl; lia.
Qed.

(** Every date is read back from its day number. *)
Lemma of_days_of y m d : valid y m d -> of_days (days_of y m d) = (y, m, d).
Proof.
  intros Hv. unfold of_days, days_of.
  replace (before (y - 1) + before_month m y + (d - 1) - epoch + epoch)
    with (before (y - 1) + (before_month m y + (d - 1))) by lia.
  pose proof (month_end y m d Hv). pose proof (before_step (y - 1)) as Hs.
  replace (y - 1 + 1) with y in Hs by lia.
  rewrite (year_of_unique y) by lia.
  replace (before (y - 1) + (before_month m y + (d - 1)) - before (y - 1))
    with (before_month m y + (d - 1)) by lia.
  rewrite month_of_unique by done. f_equal. lia.
Qed.

Lemma month_of_spec y doy :
  0 <= doy < (if leap y then 366 else 365) ->
  exists m, month_of y doy = m /\ 1 <= m <= 12 /\
    before_month m y <= doy < before_month m y + daysIn m y.
Proof.
  unfold month_of. intros H.
  repeat match goal with
  | |- context [if before_month ?m y <=? doy then _ else _] =>
      let Hle := fresh in destruct (Z.leb_spec (before_month m y) doy) as [Hle|Hle];
      [exists m; split; [done|]; unfold before_month, daysIn in *; cbn in *;
       destruct (leap y); cbn in *; lia|]
  end.
  exists 1. split; [done|]. unfold before_month, daysIn in *. cbn in *.
  destruct (leap y); cbn in *; lia.
Qed.

(** Every day number is the date it is printed as. *)
Lemma days_of_days n :
  let '(y, m, d) := of_days n in valid y m d /\ days_of y m d = n.
Proof.
  unfold of_days. set (y := year_of (n + epoch)).
  pose proof (year_of_spec (n + epoch)) as Hy. fold y in Hy.
  pose proof (before_step (y - 1)) as Hs. replace (y - 1 + 1) with y in Hs by lia.
  set (doy := n + epoch - before (y - 1)).
  assert (0 <= doy < if leap y then 366 else 365) as Hdoy by lia.
  assert (valid y (month_of y doy) (doy - before_month (month_of y doy) y + 1)) as Hv.
  { destruct (month_of_spec y doy Hdoy) as (m & -> & Hm & Hr). unfold valid. lia. }
  split; [done|]. unfold days_of. lia.
Qed.
End Civil.

(** ** Printing *)

(** Hours, minutes and seconds of a number of seconds of the day. *)
Definition clock_of (s : Z) : Z * Z * Z := (s / 3600, s mod 3600 / 60, s mod 60).

(** The local second a time falls in. *)
Definition local_second (t : Time) (off : Z) : Z := t / Second + off.

Module Format.
(** appendInt: the sign, then the digits padded with zeros to a width. *)
Definition appendInt (x : Z) (width : nat) : string :=
  let s := Strconv.zero_pad width (Strconv.Itoa (Z.abs x)) in
  if x <? 0 then String "-" s else s.

(** The layout Z07:00, whole minutes of the offset. *)
Definition zone (off : Z) : string :=
  if off =? 0 then "Z"
  else
    let z := Z.quot off 60 in
    let a := Z.abs z in
    (if z <? 0 then "-" else "+") +:+ appendInt (a / 60) 2 +:+ ":" +:+ appendInt (a mod 60) 2.

(** Time.Format(time.RFC3339) of a time whose location has offset [off]. *)
Definition RFC3339 (t : Time) (off : Z) : string :=
  let s := local_second t off in
  let '(y, m, d) := Civil.of_days (s / 86400) in
  let '(hh, mm, ss) := clock_of (s mod 86400) in
  appendInt y 4 +:+ "-" +:+ appendInt m 2 +:+ "-" +:+ appendInt d 2 +:+ "T" +:+
  appendInt hh 2 +:+ ":" +:+ appendInt mm 2 +:+ ":" +:+ appendInt ss 2 +:+ zone off.

Definition weekday (days : Z) : string :=
  nth (Z.to_nat ((days + 4) mod 7)) ["Sun"; "Mon"; "Tue"; "Wed"; "Thu"; "Fri"; "Sat"] "".

Definition month (m : Z) : string :=
  nth (Z.to_nat (m - 1))
    ["Jan"; "Feb"; "Mar"; "Apr"; "May"; "Jun"; "Jul"; "Aug"; "Sep"; "Oct"; "Nov"; "Dec"] "".

(** Format(http.TimeFormat) of a time in UTC: the Expires of a cookie. *)
Definition HttpTime (t : Time) : string :=
  let s := local_second t 0 in
  let '(y, m, d) := Civil.of_days (s / 86400) in
  let '(hh, mm, ss) := clock_of (s mod 86400) in
  weekday (s / 86400) +:+ ", " +:+ appendInt d 2 +:+ " " +:+ month m +:+ " " +:+
  appendInt y 4 +:+ " " +:+ appendInt hh 2 +:+ ":" +:+ appendInt mm 2 +:+ ":" +:+
  appendInt ss 2 +:+ " GMT".
End Format.

(** ** Reading *)

Module Parse.
Definition digit_at (n : nat) (s : string) : bool :=
  match String.get n s with Some c => is_digit c | None => false end.

Definition digit_val (c : ascii) : Z := byte_of c - 48.

(** getnum: two digits, or one when the field is not fixed. *)
Definition getnum (fixed : bool) (s : string) : option (Z * string) :=
  match s with
  | String a s' =>
      if negb (is_digit a) then None
      else match s' with
        | String b s'' =>
            if is_digit b then Some (digit_val a * 10 + digit_val b, s'')
            else if fixed then None else Some (digit_val a, s')
        | EmptyString => if fixed then None else Some (digit_val a, s')
        end
  | EmptyString => None
  end.

(** The four digits of a year. *)
Definition year (s : string) : option (Z * string) :=
  match s with
  | String a (String b (String c (String d s'))) =>
      if is_digit a && is_digit b && is_digit c && is_digit d
      then Some (digit_val a * 1000 + digit_val b * 100 + digit_val c * 10 + digit_val d, s')
      else None
  | _ => None
  end.

(** A character of the layout. *)
Definition skip (c : ascii) (s : string) : option string :=
  match s with
  | String a s' => if Ascii.eqb a c then Some s' else None
  | EmptyString => None
  end.

Definition in_range (lo hi : Z) (r : option (Z * string)) : option (Z * string) :=
  match r with
  | Some (z, s) => if (lo <=? z) && (z <=? hi) then Some (z, s) else None
  | None => None
  end.

Fixpoint span_digits (s : string) : string * string :=
  match s with
  | String c s' => if is_digit c then let '(d, r) := span_digits s' in (String c d, r) else ("", s)
  | EmptyString => ("", "")
  end.

Definition number (s : string) : Z :=
  (fix go (acc : Z) (s : string) : Z :=
     match s with
     | String c s' => go (acc * 10 + digit_val c) s'
     | EmptyString => acc
     end) 0 s.

(** A fraction of a second after the seconds, which the layout does not ask
    for: up to nine digits count, and a [Time] keeps microseconds. *)
Definition fraction (s : string) : Z * string :=
  match s with
  | String c s' =>
      if (Ascii.eqb c "." || Ascii.eqb c ",") && digit_at 0 s' then
        let '(ds, rest) := span_digits s' in
        let ds := Strings.take 9 ds in
        (number ds * 10 ^ (9 - Z.of_nat (String.length ds)) / 1000, rest)
      else (0, s)
  | EmptyString => (0, s)
  end.

(** Z, or a sign, hours and minutes; offsets of 24 hours or 60 minutes pass. *)
Definition zone (s : string) : option (Z * string) :=
  match s with
  | String c s' =>
      if Ascii.eqb c "Z" then Some (0, s')
      else
        let hours := in_range 0 24 (getnum true s') in
        match hours with
        | Some (hh, s'') =>
            match skip ":" s'' with
            | Some s3 =>
                match in_range 0 60 (getnum true s3) with
                | Some (mm, rest) =>
                    let off := (hh * 60 + mm) * 60 in
                    if Ascii.eqb c "+" then Some (off, rest)
                    else if Ascii.eqb c "-" then Some (- off, rest)
                    else None
                | None => None
                end
            | None => None
            end
        | None => None
        end
  | EmptyString => None
  end.

Definition then_skip (c : ascii) (r : option (Z * string)) : option (Z * string) :=
  match r with
  | Some (z, s) => match skip c s with Some s' => Some (z, s') | None => None end
  | None => None
  end.

(** time.Parse(time.RFC3339, s): the instant and the offset it was written with. *)
Definition RFC3339 (s : string) : option (Time * Z) :=
  match then_skip "-" (year s) with None => None | Some (y, s) =>
  match then_skip "-" (in_range 1 12 (getnum true s)) with None => None | Some (m, s) =>
  match then_skip "T" (getnum true s) with None => None | Some (d, s) =>
  match then_skip ":" (in_range 0 23 (getnum false s)) with None => None | Some (hh, s) =>
  match then_skip ":" (in_range 0 59 (getnum true s)) with None => None | Some (mm, s) =>
  match in_range 0 59 (getnum true s) with None => None | Some (ss, s) =>
  let '(micros, s) := fraction s in
  match zone s with
  | Some (off, EmptyString) =>
      if (1 <=? d) && (d <=? Civil.daysIn m y) then
        Some ((Civil.days_of y m d * 86400 + hh * 3600 + mm * 60 + ss - off) * Second + micros,
              off)
      else None
  | _ => None
  end end end end end end end.
End Parse.

(** ** What is printed is read back *)

Module TimeFacts.
(** A boolean fact checked at every number below a bound. *)
Fixpoint check_below (p : Z -> bool) (n : nat) (z : Z) : bool :=
  match n with O => true | S n => p z && check_below p n (z + 1) end.

Lemma check_below_spec p n z :
  check_below p n z = true -> forall x, z <= x < z + Z.of_nat n -> p x = true.
Proof.
  revert z. induction n as [|n IH]; intros z H x Hx; [lia|].
  simpl in H. apply andb_prop in H as [H1 H2].
  destruct (Z.eq_dec x z) as [->|]; [done|]. apply (IH (z + 1)); [done|lia].
Qed.

Definition two_digits (n : Z) : string :=
  String (Strconv.digit_chr (n / 10)) (String (Strconv.digit_chr (n mod 10)) "").

Definition four_digits (n : Z) : string := two_digits (n / 100) +:+ two_digits (n mod 100).

Lemma appendInt_two n : 0 <= n < 100 -> Format.appendInt n 2 = two_digits n.
Proof.
  intros H. apply String.eqb_eq.
  by apply (check_below_spec (fun n => (Format.appendInt n 2 =? two_digits n)%string) 100 0).
Qed.

Lemma appendInt_four n : 0 <= n < 10000 -> Format.appendInt n 4 = four_digits n.
Proof.
  intros H. apply String.eqb_eq.
  apply (check_below_spec (fun n => (Format.appendInt n 4 =? four_digits n)%string)
    (100 * 100) 0);
    [vm_compute; reflexivity | lia].
Qed.

Lemma digit_chr_spec d :
  0 <= d <= 9 ->
  is_digit (Strconv.digit_chr d) = true /\ Parse.digit_val (Strconv.digit_chr d) = d.
Proof.
  intros H.
  assert (is_digit (Strconv.digit_chr d) && (Parse.digit_val (Strconv.digit_chr d) =? d) = true)
    as Hd.
  { by apply (check_below_spec (fun d => is_digit (Strconv.digit_chr d) &&
      (Parse.digit_val (Strconv.digit_chr d) =? d)) 10 0); [|lia]. }
  apply andb_prop in Hd as [H1 H2]. apply Z.eqb_eq in H2. done.
Qed.

Lemma getnum_two fixed n rest :
  0 <= n < 100 -> Parse.getnum fixed (two_digits n +:+ rest) = Some (n, rest).
Proof.
  intros H.
  destruct (digit_chr_spec (n / 10)) as [E1 V1]; [Z.to_euclidean_division_equations; lia|].
  destruct (digit_chr_spec (n mod 10)) as [E2 V2]; [Z.to_euclidean_division_equations; lia|].
  cbn [two_digits String.append Parse.getnum]. rewrite E1, E2, V1, V2. cbn [negb].
  do 2 f_equal. pose proof (Z.div_mod n 10). lia.
Qed.

Lemma year_two_two a b rest :
  0 <= a < 100 -> 0 <= b < 100 ->
  Parse.year ((two_digits a +:+ two_digits b) +:+ rest) = Some (100 * a + b, rest).
Proof.
  intros Ha Hb.
  destruct (digit_chr_spec (a / 10)) as [E1 V1]; [Z.to_euclidean_division_equations; lia|].
  destruct (digit_chr_spec (a mod 10)) as [E2 V2]; [Z.to_euclidean_division_equations; lia|].
  destruct (digit_chr_spec (b / 10)) as [E3 V3]; [Z.to_euclidean_division_equations; lia|].
  destruct (digit_chr_spec (b mod 10)) as [E4 V4]; [Z.to_euclidean_division_equations; lia|].
  cbn [two_digits String.append Parse.year]. rewrite E1, E2, E3, E4, V1, V2, V3, V4.
  cbn [andb]. do 2 f_equal. pose proof (Z.div_mod a 10). pose proof (Z.div_mod b 10). lia.
Qed.

Lemma year_four n rest :
  0 <= n < 10000 -> Parse.year (four_digits n +:+ rest) = Some (n, rest).
Proof.
  intros H. unfold four_digits.
  rewrite year_two_two by (Z.to_euclidean_division_equations; lia).
  do 2 f_equal. symmetry. apply Z.div_mod. lia.
Qed.

Lemma in_range_some lo hi z s :
  lo <= z <= hi -> Parse.in_range lo hi (Some (z, s)) = Some (z, s).
Proof.
  intros H. unfold Parse.in_range. by destruct (Z.leb_spec lo z), (Z.leb_spec z hi); try lia.
Qed.

(** An offset of whole minutes within a day. *)
Definition whole_offset (off : Z) : Prop := off mod 60 = 0 /\ Z.abs off < 86400.

Lemma zone_roundtrip off :
  whole_offset off -> Parse.zone (Format.zone off) = Some (off, "") /\
  Parse.fraction (Format.zone off) = (0, Format.zone off).
Proof.
  intros [Hm Ha]. unfold Format.zone. destruct (Z.eqb_spec off 0) as [->|Hz]; [done|].
  set (z := Z.quot off 60).
  assert (off = z * 60 /\ Z.abs z < 1440) as [Hoff Hb]
    by (subst z; Z.to_euclidean_division_equations; lia).
  clearbody z. subst off.
  assert (0 <= Z.abs z / 60 < 24 /\ 0 <= Z.abs z mod 60 < 60) as [Hh Hmm]
    by (Z.to_euclidean_division_equations; lia).
  pose proof (Z.div_mod (Z.abs z) 60 ltac:(lia)) as Hdm.
  rewrite !appendInt_two by lia. set (hh := Z.abs z / 60) in *. set (mm := Z.abs z mod 60) in *.
  clearbody hh mm.
  assert (forall c, Ascii.eqb c "Z" = false ->
    Parse.zone (String c (two_digits hh +:+ ":" +:+ two_digits mm)) =
    if Ascii.eqb c "+" then Some ((hh * 60 + mm) * 60, "")
    else if Ascii.eqb c "-" then Some (- ((hh * 60 + mm) * 60), "") else None) as Hz'.
  { intros c Hc. cbn [Parse.zone]. rewrite Hc, getnum_two by lia.
    rewrite in_range_some by lia. cbn [String.append Parse.skip Ascii.eqb Bool.eqb].
    rewrite <- (Strings.app_nil_r (two_digits mm)), getnum_two by lia.
    by rewrite in_range_some by lia. }
  destruct (Z.ltb_spec z 0) as [Hneg|Hpos].
  - change ("-" +:+ ?s) with (String "-" s). rewrite Hz' by done. cbn [Ascii.eqb Bool.eqb].
    split; [|done]. do 2 f_equal. lia.
  - change ("+" +:+ ?s) with (String "+" s). rewrite Hz' by done. cbn [Ascii.eqb Bool.eqb].
    split; [|done]. do 2 f_equal. lia.
Qed.

(** A two-digit field followed by a character of the layout. *)
Lemma field_two fixed n c rest lo hi :
  0 <= n < 100 -> lo <= n <= hi ->
  Parse.then_skip c (Parse.in_range lo hi
    (Parse.getnum fixed (two_digits n +:+ String c rest))) = Some (n, rest).
Proof.
  intros Hn Hr. rewrite getnum_two, in_range_some by done. cbn [Parse.then_skip Parse.skip].
  by rewrite Ascii.eqb_refl.
Qed.

(** The year Format prints with four digits. *)
Definition year_at (t : Time) (off : Z) : Z :=
  let '(y, _, _) := Civil.of_days (local_second t off / 86400) in y.

Lemma daysIn_le m y : Civil.daysIn m y <= 31.
Proof. unfold Civil.daysIn. repeat split_match; lia. Qed.

Lemma clock_of_spec s :
  0 <= s < 86400 ->
  let '(hh, mm, ss) := clock_of s in
  0 <= hh <= 23 /\ 0 <= mm <= 59 /\ 0 <= ss <= 59 /\ hh * 3600 + mm * 60 + ss = s.
Proof. intros H. unfold clock_of. Z.to_euclidean_division_equations. lia. Qed.
End TimeFacts.

(** A time printed by Format(time.RFC3339) is read back by time.Parse as the
    start of its second, with the same offset, for every offset of whole minutes
    and every year of four digits. *)
Theorem Parse_Format t off :
  TimeFacts.whole_offset off -> 0 <= TimeFacts.year_at t off < 10000 ->
  Parse.RFC3339 (Format.RFC3339 t off) = Some (t / Second * Second, off).
Proof.
  intros Hoff Hy. unfold Format.RFC3339. unfold TimeFacts.year_at in Hy.
  remember (local_second t off) as s eqn:Es.
  pose proof (Civil.days_of_days (s / 86400)) as Hd.
  destruct (Civil.of_days (s / 86400)) as [[y m] d]. destruct Hd as [[Hm Hdd] Hday].
  pose proof (TimeFacts.daysIn_le m y) as H31.
  pose proof (TimeFacts.clock_of_spec (s mod 86400) (Z.mod_pos_bound s 86400 eq_refl)) as Hc.
  destruct (clock_of (s mod 86400)) as [[hh mm] ss]. destruct Hc as (Hh & Hmm & Hss & Hsum).
  destruct (TimeFacts.zone_roundtrip off Hoff) as [Hz Hf].
  rewrite TimeFacts.appendInt_four, !TimeFacts.appendInt_two by lia.
  unfold Parse.RFC3339. cbn [String.append].
  rewrite TimeFacts.year_four by lia. cbn [Parse.then_skip Parse.skip Ascii.eqb Bool.eqb].
  rewrite TimeFacts.field_two by lia. rewrite TimeFacts.getnum_two by lia.
  cbn [Parse.then_skip Parse.skip Ascii.eqb Bool.eqb].
  rewrite !TimeFacts.field_two by lia. rewrite TimeFacts.getnum_two by lia.
  rewrite TimeFacts.in_range_some by lia. rewrite Hf, Hz.
  assert ((1 <=? d) && (d <=? Civil.daysIn m y) = true) as ->.
  { apply andb_true_intro. split; apply Z.leb_le; lia. }
  do 2 f_equal. rewrite Z.add_0_r, Hday. f_equal.
  pose proof (Z.div_mod s 86400 ltac:(lia)). unfold local_second in Es. lia.
Qed.
