(* ===== verification/Phone.v ===== *)
(** * Phone numbers (pkg/phone/phone.go)

    [NormalizeBD] brings Bangladeshi input formats to E.164.  The theorems show
    that every documented format of a number has one canonical form, that the
    function is idempotent and ignores separators, and that an interior plus
    sign is not rejected. *)

From S2P Require Import Prelude.
From S2P Require Import GoLib.
From S2P Require Import Domain.
From stdpp Require Import strings.
From Stdlib Require Import ZArith Lia Ascii.

Open Scope Z_scope.

Module Phone.
Definition ErrInvalid : goerr := ErrOther "invalid phone number".

Definition keep (c : ascii) : bool := is_digit c || Ascii.eqb c "+".

Definition NormalizeBD (in_ : string) : string + goerr :=
  let s := Strings.filter keep in_ in
  let s := Strings.TrimPrefix s "+" in
  let checked :=
    if Strings.HasPrefix s "880" && (String.length s =? 13)%nat then Some s
    else if Strings.HasPrefix s "01" && (String.length s =? 11)%nat
    then Some ("880" +:+ Strings.drop 1 s)
    else None in
  match checked with
  | None => inr ErrInvalid
  | Some s =>
      if negb (match String.get 3 s with Some c => Ascii.eqb c "1" | None => false end)
      then inr ErrInvalid
      else inl ("+" +:+ s)
  end.

(** Nine digits: the part of the number after +8801. *)
Definition subscriber (d : string) : bool :=
  (String.length d =? 9)%nat && Strings.forallb is_digit d.

(** E.164 for a Bangladeshi mobile: +8801 and nine digits. *)
Definition e164_bd (r : string) : bool :=
  Strings.HasPrefix r "+8801" && subscriber (Strings.drop 5 r).

Lemma keep_digit c : is_digit c = true -> keep c = true.
Proof. unfold keep. by intros ->. Qed.

Lemma subscriber_keep d : subscriber d = true -> Strings.filter keep d = d.
Proof.
  intros H. apply andb_prop in H as [_ H]. apply Strings.filter_all.
  eapply Strings.forallb_impl; [|exact H]. apply keep_digit.
Qed.

Lemma subscriber_length d : subscriber d = true -> String.length d = 9%nat.
Proof. intros H. apply andb_prop in H as [H _]. by apply Nat.eqb_eq. Qed.

Lemma keep_no_plus d :
  Strings.forallb keep d = true ->
  Strings.forallb (fun c => negb (Ascii.eqb c "+")) d = true ->
  Strings.forallb is_digit d = true.
Proof.
  induction d as [|c d IH]; simpl; [done|]. unfold keep at 1.
  destruct (Ascii.eqb c "+"); rewrite ?orb_false_r; [done|].
  intros H1 H2. apply andb_prop in H1 as [-> H1]. by apply IH.
Qed.

(** A successful result is "+8801", then nine characters that are digits or
    plus signs. *)
Lemma normalize_shape s r :
  NormalizeBD s = inl r ->
  exists d, r = "+8801" +:+ d /\ String.length d = 9%nat /\ Strings.forallb keep d = true.
Proof.
  unfold NormalizeBD.
  set (u := Strings.TrimPrefix (Strings.filter keep s) "+").
  assert (Hu : Strings.forallb keep u = true).
  { unfold u, Strings.TrimPrefix. pose proof (Strings.filter_forallb keep s) as H.
    destruct (Strings.HasPrefix (Strings.filter keep s) "+") eqn:E; [|done].
    destruct (Strings.prefix_split _ _ E) as [t Ht]. rewrite Ht in *. simpl in *.
    by destruct t. }
  clearbody u. unfold Strings.HasPrefix.
  destruct (String.prefix "880" u && (String.length u =? 13)%nat) eqn:E1.
  - apply andb_prop in E1 as [E1 E2]. destruct (Strings.prefix_split _ _ E1) as [t ->].
    apply Nat.eqb_eq in E2. rewrite Strings.length_app in E2. simpl in E2.
    destruct t as [|c t]; [done|]. cbn -[Strings.forallb].
    destruct (Ascii.eqb_spec c "1") as [->|]; [|done]. intros [= <-].
    exists t. simpl in E2. split; [done|]. split; [lia|]. exact Hu.
  - clear E1. destruct (String.prefix "01" u && (String.length u =? 11)%nat) eqn:E1; [|done].
    apply andb_prop in E1 as [E1 E2]. destruct (Strings.prefix_split _ _ E1) as [t ->].
    apply Nat.eqb_eq in E2. rewrite Strings.length_app in E2. simpl in E2.
    cbn -[Strings.forallb]. intros [= <-]. exists t. split; [done|]. split; [lia|].
    exact Hu.
Qed.

Lemma normalize_intl d :
  String.length d = 9%nat -> Strings.forallb keep d = true ->
  NormalizeBD ("+8801" +:+ d) = inl ("+8801" +:+ d).
Proof.
  intros Hl Hk. unfold NormalizeBD.
  rewrite (Strings.filter_all keep ("+8801" +:+ d)) by (by rewrite Strings.forallb_app).
  unfold Strings.TrimPrefix, Strings.HasPrefix. cbn.
  by rewrite ?Strings.prefix_nil, ?Hl.
Qed.

Lemma normalize_filter s : NormalizeBD (Strings.filter keep s) = NormalizeBD s.
Proof. unfold NormalizeBD. by rewrite Strings.filter_idem. Qed.

Lemma normalize_plain d :
  subscriber d = true -> NormalizeBD ("8801" +:+ d) = inl ("+8801" +:+ d).
Proof.
  intros H. unfold NormalizeBD. rewrite Strings.filter_app, (subscriber_keep d H).
  change (Strings.filter keep "8801") with "8801".
  cbn. by rewrite ?Strings.prefix_nil, (subscriber_length d H).
Qed.

Lemma normalize_local d :
  subscriber d = true -> NormalizeBD ("01" +:+ d) = inl ("+8801" +:+ d).
Proof.
  intros H. unfold NormalizeBD. rewrite Strings.filter_app, (subscriber_keep d H).
  change (Strings.filter keep "01") with "01".
  cbn. by rewrite ?Strings.prefix_nil, (subscriber_length d H).
Qed.

Lemma normalize_subscriber_intl d :
  subscriber d = true -> NormalizeBD ("+8801" +:+ d) = inl ("+8801" +:+ d).
Proof.
  intros H. apply normalize_intl; [by apply subscriber_length|].
  apply andb_prop in H as [_ H]. eapply Strings.forallb_impl; [|exact H]. apply keep_digit.
Qed.

(** Every documented input format of a Bangladeshi mobile number, with any
    separators in it, normalises to the same E.164 string. *)
Theorem normalize_formats (d s : string) :
  subscriber d = true ->
  Strings.filter keep s ∈ ["01" +:+ d; "8801" +:+ d; "+8801" +:+ d] ->
  NormalizeBD s = inl ("+8801" +:+ d) /\ e164_bd ("+8801" +:+ d) = true.
Proof.
  intros Hd Hs. split; [|by unfold e164_bd, Strings.HasPrefix; cbn; rewrite Strings.prefix_nil].
  rewrite <- normalize_filter.
  apply elem_of_cons in Hs as [->|Hs]; [by apply normalize_local|].
  apply elem_of_cons in Hs as [->|Hs]; [by apply normalize_plain|].
  apply elem_of_cons in Hs as [->|Hs]; [by apply normalize_subscriber_intl|].
  by apply elem_of_nil in Hs.
Qed.

Lemma normalize_formats_witness :
  NormalizeBD "(+880) 17-1234 5678" = inl "+8801712345678" /\
  e164_bd "+8801712345678" = true.
Proof. apply (normalize_formats "712345678"); [reflexivity | by apply (bool_decide_unpack _)]. Defined.

(** A normalised number is a fixed point: storing, re-reading and
    normalising again never changes the key a customer is filed under. *)
Theorem normalize_idempotent (s r : string) :
  NormalizeBD s = inl r -> NormalizeBD r = inl r.
Proof.
  intros H. destruct (normalize_shape s r H) as (d & -> & Hl & Hk).
  by apply normalize_intl.
Qed.

Lemma normalize_idempotent_witness :
  NormalizeBD "+8801712345678" = inl "+8801712345678".
Proof. by apply (normalize_idempotent "01712345678"). Defined.

(** Plus signs inside the number are kept and counted as digits, so some
    accepted inputs give a result that is not an E.164 number; without an
    interior plus sign every accepted result is one. *)
Theorem normalize_interior_plus :
  (exists s r, NormalizeBD s = inl r /\ e164_bd r = false) /\
  (forall s r, NormalizeBD s = inl r ->
     Strings.forallb (fun c => negb (Ascii.eqb c "+")) (Strings.drop 1 r) = true ->
     e164_bd r = true).
Proof.
  split; [by exists "017+1234567", "+88017+1234567"|].
  intros s r H Hp. destruct (normalize_shape s r H) as (d & -> & Hl & Hk).
  unfold e164_bd, subscriber, Strings.HasPrefix. cbn. rewrite Strings.prefix_nil, Hl.
  by apply keep_no_plus.
Qed.
End Phone.
