(* ===== verification/Csv.v ===== *)
(** * encoding/csv: the reader the campaign import uses

    csv.NewReader with FieldsPerRecord = -1 and the other options at their
    defaults: comma separated, double quotes, no comments, strict quotes.  The
    reader is given as one function per level: a field, a record, and one call of
    Read on what is left of the text.  [print] writes records in the quoted form,
    and [Read_print] shows that they are read back. *)

From S2P Require Import Prelude.
From S2P Require Import GoLib.
From stdpp Require Import strings list.
From Stdlib Require Import ZArith Lia Ascii.

Open Scope Z_scope.

Module Csv.
Definition newline : ascii := byte_chr 10.
Definition return_ : ascii := byte_chr 13.
Definition dquote : ascii := byte_chr 34.
Definition comma : ascii := ","%char.

(** readLine: a line's CRLF is read as LF, and a CR that ends the input is
    dropped. *)
Fixpoint crlf (s : string) : string :=
  match s with
  | EmptyString => EmptyString
  | String c s' =>
      match s' with
      | EmptyString => if Ascii.eqb c return_ then EmptyString else s
      | String c' _ =>
          if Ascii.eqb c return_ && Ascii.eqb c' newline then crlf s' else String c (crlf s')
      end
  end.

(** What follows a field: another field, or the next record. *)
Inductive ending := MoreFields | EndOfRecord.

(** An unquoted field goes up to a comma or the end of the line; a quote inside
    it is an error. *)
Fixpoint bare (s acc : string) : option (string * ending * string) :=
  match s with
  | EmptyString => Some (Strings.rev_onto acc "", EndOfRecord, EmptyString)
  | String c s' =>
      if Ascii.eqb c comma then Some (Strings.rev_onto acc "", MoreFields, s')
      else if Ascii.eqb c newline then Some (Strings.rev_onto acc "", EndOfRecord, s')
      else if Ascii.eqb c dquote then None
      else bare s' (String c acc)
  end.

(** A quoted field, after its opening quote: a doubled quote is a quote, a
    closing quote must end the field, and the input may not end inside. *)
Fixpoint quoted (s acc : string) : option (string * ending * string) :=
  match s with
  | EmptyString => None
  | String c s' =>
      if Ascii.eqb c dquote then
        match s' with
        | EmptyString => Some (Strings.rev_onto acc "", EndOfRecord, EmptyString)
        | String c' s'' =>
            if Ascii.eqb c' dquote then quoted s'' (String dquote acc)
            else if Ascii.eqb c' comma then Some (Strings.rev_onto acc "", MoreFields, s'')
            else if Ascii.eqb c' newline then Some (Strings.rev_onto acc "", EndOfRecord, s'')
            else None
        end
      else quoted s' (String c acc)
  end.

Definition field (s : string) : option (string * ending * string) :=
  match s with
  | String c s' => if Ascii.eqb c dquote then quoted s' "" else bare s ""
  | EmptyString => bare s ""
  end.

(** A record: its fields up to the end of the line. *)
Fixpoint record (fuel : nat) (s : string) : option (list string * string) :=
  match fuel with
  | O => None
  | S f =>
      match field s with
      | None => None
      | Some (x, EndOfRecord, s') => Some ([x], s')
      | Some (x, MoreFields, s') =>
          match record f s' with
          | None => None
          | Some (xs, s'') => Some (x :: xs, s'')
          end
      end
  end.

(** Empty lines are skipped. *)
Fixpoint skip_empty (s : string) : string :=
  match s with
  | String c s' => if Ascii.eqb c newline then skip_empty s' else s
  | EmptyString => EmptyString
  end.

(** Reader.Read: io.EOF, a parse error, or a record and the rest. *)
Inductive read := EOF | ParseError | Row (row : list string) (rest : string).

Definition Read (s : string) : read :=
  match skip_empty s with
  | EmptyString => EOF
  | s' =>
      match record (S (String.length s')) s' with
      | None => ParseError
      | Some (row, rest) => Row row rest
      end
  end.

(** ** Each Read consumes *)

Lemma bare_rest s acc x e r : bare s acc = Some (x, e, r) ->
  (String.length r <= String.length s)%nat /\
  (e = MoreFields \/ s <> "" -> String.length r < String.length s)%nat.
Proof.
  revert acc. induction s as [|c s IH]; intros acc H; simpl in H.
  - invc H. split; [done|]. by intros [?|?].
  - simpl. destruct (Ascii.eqb c comma); [invc H; split; lia|].
    destruct (Ascii.eqb c newline); [invc H; split; lia|].
    destruct (Ascii.eqb c dquote); [done|]. apply IH in H as [H _]. split; lia.
Qed.

Lemma quoted_rest s acc x e r : quoted s acc = Some (x, e, r) ->
  (String.length r <= String.length s)%nat.
Proof.
  remember (String.length s) as n eqn:En. revert s acc En.
  induction n as [n IH] using lt_wf_ind. intros [|c s] acc -> H; simpl in *; [done|].
  destruct (Ascii.eqb c dquote).
  - destruct s as [|c' s]; [invc H; simpl; lia|]. simpl in *.
    destruct (Ascii.eqb c' dquote); [apply (IH (String.length s)) in H; [lia|lia|done]|].
    destruct (Ascii.eqb c' comma); [invc H; lia|].
    destruct (Ascii.eqb c' newline); [invc H; lia|done].
  - apply (IH (String.length s)) in H; [lia|lia|done].
Qed.

Lemma field_rest s x e r : field s = Some (x, e, r) ->
  (String.length r <= String.length s)%nat /\
  (e = MoreFields \/ s <> "" -> String.length r < String.length s)%nat.
Proof.
  destruct s as [|c s]; [apply (bare_rest "" "")|]. unfold field.
  destruct (Ascii.eqb c dquote) eqn:E; intros H.
  - apply quoted_rest in H. simpl. lia.
  - by apply bare_rest in H.
Qed.

Lemma record_rest f s xs r : record f s = Some (xs, r) ->
  (String.length r <= String.length s)%nat /\ (s <> "" -> String.length r < String.length s)%nat.
Proof.
  revert s xs. induction f as [|f IH]; intros s xs H; simpl in H; [done|].
  destruct (field s) as [[[x []] r0]|] eqn:E; [| |done]; apply field_rest in E as [E1 E2].
  - destruct (record f r0) as [[ys r1]|] eqn:Er; [|done]. invc H.
    apply IH in Er as [Er _]. specialize (E2 (or_introl eq_refl)). split; lia.
  - invc H. split; [done|]. intros Hs. apply E2. by right.
Qed.

Lemma skip_empty_length s : (String.length (skip_empty s) <= String.length s)%nat.
Proof. induction s as [|c s IH]; simpl; [done|]. destruct (Ascii.eqb c newline); simpl; lia. Qed.

Lemma Read_rest s row r : Read s = Row row r -> (String.length r < String.length s)%nat.
Proof.
  unfold Read. pose proof (skip_empty_length s) as Hl.
  destruct (skip_empty s) as [|c s'] eqn:E; [done|].
  destruct (record _ _) as [[xs r']|] eqn:Er; [|done]. intros [= <- <-].
  apply record_rest in Er as [_ Er]. specialize (Er ltac:(done)). lia.
Qed.

(** ** What is printed is read back *)

Fixpoint escape (f : string) : string :=
  match f with
  | EmptyString => EmptyString
  | String c f' =>
      if Ascii.eqb c dquote then String dquote (String dquote (escape f'))
      else String c (escape f')
  end.

Fixpoint print_row (row : list string) (rest : string) : string :=
  match row with
  | [] => String newline rest
  | [f] => String dquote (escape f +:+ String dquote (String newline rest))
  | f :: row => String dquote (escape f +:+ String dquote (String comma (print_row row rest)))
  end.

Fixpoint print (rs : list (list string)) : string :=
  match rs with
  | [] => EmptyString
  | row :: rs => print_row row (print rs)
  end.

Definition no_cr (s : string) : bool := Strings.forallb (fun c => negb (Ascii.eqb c return_)) s.

Lemma crlf_id s : no_cr s = true -> crlf s = s.
Proof.
  induction s as [|c s IH]; [done|]. unfold no_cr. cbn [Strings.forallb]. intros H.
  apply andb_prop in H as [Hc H]. apply negb_true_iff in Hc. specialize (IH H).
  cbn [crlf]. rewrite Hc. cbn [andb]. destruct s; [done|]. by rewrite IH.
Qed.

Lemma quoted_escape f acc rest : quoted (escape f +:+ rest) acc =
  quoted rest (Strings.rev_onto f acc).
Proof.
  revert acc. induction f as [|c f IH]; intros acc; [done|].
  cbn [escape Strings.rev_onto]. destruct (Ascii.eqb c dquote) eqn:E.
  - apply Ascii.eqb_eq in E as ->. rewrite <- IH. reflexivity.
  - rewrite <- IH. cbn [String.append quoted]. by rewrite E.
Qed.

Lemma field_more f rest :
  field (String dquote (escape f +:+ String dquote (String comma rest))) =
  Some (f, MoreFields, rest).
Proof.
  cbn [field]. rewrite Ascii.eqb_refl, quoted_escape.
  assert (quoted (String dquote (String comma rest)) (Strings.rev_onto f "") =
    Some (Strings.rev_onto (Strings.rev_onto f "") "", MoreFields, rest)) as -> by done.
  rewrite Strings.rev_onto_twice. simpl. f_equal. f_equal. f_equal. induction f; simpl; congruence.
Qed.

Lemma field_last f rest :
  field (String dquote (escape f +:+ String dquote (String newline rest))) =
  Some (f, EndOfRecord, rest).
Proof.
  cbn [field]. rewrite Ascii.eqb_refl, quoted_escape.
  assert (quoted (String dquote (String newline rest)) (Strings.rev_onto f "") =
    Some (Strings.rev_onto (Strings.rev_onto f "") "", EndOfRecord, rest)) as -> by done.
  rewrite Strings.rev_onto_twice. simpl. f_equal. f_equal. f_equal. induction f; simpl; congruence.
Qed.

Lemma record_print row rest fuel :
  row <> [] -> (length row <= fuel)%nat -> record fuel (print_row row rest) = Some (row, rest).
Proof.
  revert fuel. induction row as [|f row IH]; intros fuel Hne Hf; [done|].
  destruct fuel as [|fuel]; [simpl in Hf; lia|].
  destruct row as [|f' row].
  - cbn [print_row record]. by rewrite field_last.
  - change (print_row (f :: f' :: row) rest) with
      (String dquote (escape f +:+ String dquote (String comma (print_row (f' :: row) rest)))).
    cbn [record]. rewrite field_more, IH; [done|done|simpl in *; lia].
Qed.

Lemma print_row_length row rest :
  row <> [] -> (length row <= String.length (print_row row rest))%nat.
Proof.
  intros _. induction row as [|f row IH]; [simpl; lia|].
  destruct row as [|f' row]; [simpl; lia|].
  change (print_row (f :: f' :: row) rest) with
    (String dquote (escape f +:+ String dquote (String comma (print_row (f' :: row) rest)))).
  cbn [String.length length]. rewrite Strings.length_app. cbn [String.length length] in *. lia.
Qed.

Lemma no_cr_app s t : no_cr (s +:+ t) = no_cr s && no_cr t.
Proof. apply Strings.forallb_app. Qed.

Lemma no_cr_escape f : no_cr f = true -> no_cr (escape f) = true.
Proof.
  induction f as [|c f IH]; [done|]. unfold no_cr in *. cbn [escape Strings.forallb]. intros H.
  apply andb_prop in H as [Hc H]. specialize (IH H).
  destruct (Ascii.eqb c dquote); cbn [Strings.forallb]; by rewrite IH, ?Hc.
Qed.

Lemma no_cr_print_row row rest :
  forallb no_cr row = true -> no_cr rest = true -> no_cr (print_row row rest) = true.
Proof.
  intros Hrow Hr. induction row as [|f row IH]; [done|]. cbn [forallb] in Hrow.
  apply andb_prop in Hrow as [Hf Hrow]. specialize (IH Hrow). apply no_cr_escape in Hf.
  destruct row as [|f' row].
  - change (no_cr (escape f +:+ String dquote (String newline rest)) = true).
    rewrite no_cr_app, Hf. exact Hr.
  - change (no_cr (escape f +:+ String dquote (String comma (print_row (f' :: row) rest))) = true).
    rewrite no_cr_app, Hf. exact IH.
Qed.

(** A printed text has no line ends to normalise. *)
Lemma crlf_print rs : Forall (fun row => forallb no_cr row = true) rs -> crlf (print rs) = print rs.
Proof.
  intros H. apply crlf_id. induction H as [|row rs Hrow _ IH]; [done|].
  by apply no_cr_print_row.
Qed.

Lemma Read_print row rest : row <> [] -> Read (print_row row rest) = Row row rest.
Proof.
  intros Hne. unfold Read.
  assert (skip_empty (print_row row rest) = print_row row rest) as ->.
  { destruct row as [|f [|f' row]]; done. }
  pose proof (print_row_length row rest Hne) as Hl.
  destruct (print_row row rest) as [|c s'] eqn:E; [by destruct row as [|f [|f' row]]|].
  rewrite <- E at 2. by rewrite record_print by (done || lia).
Qed.
End Csv.
