(* ===== verification/FlowEngine.v ===== *)
(** * The IVR flow engine (internal/flowengine)

    ivr.go: the keypad state machine; session.go: the control loop that drives
    it over a live leg; simulate.go: the dry run of the flow builder.  The
    methods that mutate the [*FlowState] return the new state. *)

From S2P Require Import Prelude.
From S2P Require Import Domain.
From S2P Require Import Effects.
From stdpp Require Import gmap strings list.
From Stdlib Require Import ZArith Lia.

Open Scope Z_scope.

Module IVR.
(** [f.IVR.Nodes[name]]: the zero node when the key is absent. *)
Definition node_at (f : Flow) (name : string) : IVRNode :=
  default zeroIVRNode (ivr_Nodes (flow_IVR f) !! name).

Definition emit (f : Flow) (st : FlowState) : Directive * option Outcome :=
  let node := node_at f (st_Node st) in
  if node_End node || negb (node_Result node =? "")%string then
    (mkDirective "hangup" (node_Say node) None,
     Some (mkOutcome (node_Result node) StatusCompleted 0))
  else match node_Gather node with
  | Some g => (mkDirective "say_gather" (node_Say node) (Some g), None)
  | None => (mkDirective "say" (node_Say node) None, None)
  end.

Definition Start (f : Flow) : Directive * FlowState * option Outcome :=
  let st := mkFlowState (ivr_Entry (flow_IVR f)) in
  let '(d, o) := emit f st in
  (d, st, o).

Definition noAnswer : Directive * option Outcome :=
  (mkDirective "hangup" None None, Some (mkOutcome "no_answer" StatusNoAnswer 0)).

Definition OnDTMF (f : Flow) (st : FlowState) (digit : string)
  : (Directive * option Outcome) * FlowState :=
  let node := node_at f (st_Node st) in
  let next :=
    match node_On node !! digit with
    | Some n => Some n
    | None => node_On node !! "invalid"
    end in
  match next with
  | None => (noAnswer, st)
  | Some n => (emit f (mkFlowState n), mkFlowState n)
  end.

Definition OnTimeout (f : Flow) (st : FlowState)
  : (Directive * option Outcome) * FlowState :=
  let node := node_at f (st_Node st) in
  match node_On node !! "timeout" with
  | None => (noAnswer, st)
  | Some n => (emit f (mkFlowState n), mkFlowState n)
  end.
End IVR.

(** ** The live session (session.go)

    The [Leg] is an interface: a record of effectful operations.  The loop has
    no bound in the code, so the model takes fuel; [Some out] is the code's
    return of the pointer [out] (itself possibly nil), [None] is the fuel
    running out, which the termination theorems exclude. *)

Module Session.
Record Leg (W : Type) := mkLeg {
  Play : option Prompt -> prog W unit;
  SayGather : option Prompt -> option Gather -> prog W (string * bool);
  Hangup : option Prompt -> prog W unit
}.
Arguments Play {W} l p : rename.
Arguments SayGather {W} l p g : rename.
Arguments Hangup {W} l p : rename.

Open Scope go_scope.

Fixpoint loop {W} (fuel : nat) (f : Flow) (leg : Leg W)
  (d : Directive) (st : FlowState) (out : option Outcome)
  : prog W (option (option Outcome)) :=
  match fuel with
  | O => ret None
  | S fuel =>
      if (dir_Kind d =? "hangup")%string then
        do! Hangup leg (dir_Prompt d) in
        ret (Some out)
      else if (dir_Kind d =? "say")%string then
        do! Play leg (dir_Prompt d) in
        do! pignore (Hangup leg None) in
        ret (Some (Some (mkOutcome "" StatusCompleted 0)))
      else if (dir_Kind d =? "say_gather")%string then
        let! '(digit, timedOut) := SayGather leg (dir_Prompt d) (dir_Gather d) in
        let '((d, out), st) :=
          if timedOut : bool then IVR.OnTimeout f st else IVR.OnDTMF f st digit in
        loop fuel f leg d st out
      else ret (Some out)
  end.

Definition RunSession {W} (fuel : nat) (f : Flow) (leg : Leg W)
  : prog W (option (option Outcome)) :=
  let '(d, st, out) := IVR.Start f in
  loop fuel f leg d st out.
End Session.

(** ** The simulator (simulate.go) *)

Module Sim.
Record SimStep := mkSimStep {
  ss_Node : string;
  ss_Kind : string;
  ss_Say : option Prompt;
  ss_Awaits : bool
}.

Record Simulation := mkSimulation {
  sim_Steps : list SimStep;
  sim_Ended : bool;
  sim_Result : string;
  sim_Status : string
}.

Definition stepOf (node : string) (d : Directive) : SimStep :=
  mkSimStep node (dir_Kind d) (dir_Prompt d) (dir_Kind d =? "say_gather")%string.

Definition finish (sim : Simulation) (o : Outcome) : Simulation :=
  mkSimulation (sim_Steps sim) true (out_Result o) (out_Status o).

Definition append_step (sim : Simulation) (s : SimStep) : Simulation :=
  mkSimulation (sim_Steps sim ++ [s]) (sim_Ended sim) (sim_Result sim) (sim_Status sim).

Fixpoint loop (f : Flow) (st : FlowState) (sim : Simulation) (inputs : list string)
  : Simulation :=
  match inputs with
  | [] => sim
  | inp :: inputs =>
      let '((d, out), st) :=
        if (inp =? "timeout")%string then IVR.OnTimeout f st else IVR.OnDTMF f st inp in
      let sim := append_step sim (stepOf (st_Node st) d) in
      match out with
      | Some o => finish sim o
      | None => loop f st sim inputs
      end
  end.

Definition Simulate (f : Flow) (inputs : list string) : Simulation :=
  let st := mkFlowState (ivr_Entry (flow_IVR f)) in
  let '(d, o) := IVR.emit f st in
  let sim := append_step (mkSimulation [] false "" "") (stepOf (st_Node st) d) in
  match o with
  | Some o => finish sim o
  | None => loop f st sim inputs
  end.
End Sim.

(** ** Well-formed flows

    What the engine needs of a spec and [validateIVR] does not check: every
    transition leads to a node of the spec, and every node either ends the call
    or gathers a key. *)

Definition node_terminal (n : IVRNode) : bool :=
  node_End n || negb (node_Result n =? "")%string.

Definition complete_flow (f : Flow) : Prop :=
  is_Some (ivr_Nodes (flow_IVR f) !! ivr_Entry (flow_IVR f)) /\
  map_Forall (fun _ n =>
    (node_terminal n = true \/ is_Some (node_Gather n)) /\
    map_Forall (fun _ t => is_Some (ivr_Nodes (flow_IVR f) !! t)) (node_On n))
    (ivr_Nodes (flow_IVR f)).

#[export] Instance complete_flow_dec f : Decision (complete_flow f).
Proof. unfold complete_flow. apply _. Defined.

(** A rank that every transition of a non-terminal node decreases: the flow has
    no loop. *)
Definition ranked (f : Flow) (rank : string -> nat) : Prop :=
  map_Forall (fun name n =>
    node_terminal n = true \/
    map_Forall (fun _ t => (rank t < rank name)%nat) (node_On n))
    (ivr_Nodes (flow_IVR f)).

#[export] Instance ranked_dec f rank : Decision (ranked f rank).
Proof. unfold ranked. apply _. Defined.

(** ** One input of the machine *)

Definition on_input (f : Flow) (st : FlowState) (timedOut : bool) (digit : string)
  : (Directive * option Outcome) * FlowState :=
  if timedOut then IVR.OnTimeout f st else IVR.OnDTMF f st digit.

(** Either there is no transition, and the call ends unanswered where it is, or
    the machine enters the target of one of the node's transitions. *)
Lemma on_input_cases f st timedOut digit :
  on_input f st timedOut digit = (IVR.noAnswer, st) \/
  exists key t, node_On (IVR.node_at f (st_Node st)) !! key = Some t /\
    on_input f st timedOut digit = (IVR.emit f (mkFlowState t), mkFlowState t).
Proof.
  unfold on_input, IVR.OnTimeout, IVR.OnDTMF.
  set (on := node_On (IVR.node_at f (st_Node st))).
  destruct timedOut.
  - destruct (on !! "timeout") eqn:E; [right; eauto | by left].
  - destruct (on !! digit) eqn:E; [right; eauto|].
    destruct (on !! "invalid") eqn:E'; [right; eauto | by left].
Qed.

(** ** The machine on complete flows *)

Section Engine.
Context (f : Flow).

Definition at_node (st : FlowState) : Prop :=
  is_Some (ivr_Nodes (flow_IVR f) !! st_Node st).

(** What the engine hands the session: a hangup with its outcome, or a gather
    at a non-terminal node of the spec. *)
Inductive coherent : Directive * option Outcome -> FlowState -> Prop :=
| coherent_end p r s st :
    s = StatusCompleted \/ s = StatusNoAnswer ->
    coherent (mkDirective "hangup" p None, Some (mkOutcome r s 0)) st
| coherent_gather p g st :
    at_node st -> node_terminal (IVR.node_at f (st_Node st)) = false ->
    coherent (mkDirective "say_gather" p (Some g), None) st.

Hypothesis Hf : complete_flow f.

Lemma emit_coherent st : at_node st -> coherent (IVR.emit f st) st.
Proof using Hf.
  intros [n Hn]. destruct Hf as [_ Hall]. destruct (Hall _ _ Hn) as [Hk _].
  assert (En : IVR.node_at f (st_Node st) = n) by (unfold IVR.node_at; by rewrite Hn).
  unfold IVR.emit. rewrite En.
  change (node_End n || negb (node_Result n =? "")%string) with (node_terminal n).
  destruct (node_terminal n) eqn:Et; [by constructor; left|].
  destruct Hk as [?|[g Hg]]; [done|]. rewrite Hg.
  constructor; [by exists n | by rewrite En].
Qed.

Lemma next_at_node st key t :
  at_node st -> node_On (IVR.node_at f (st_Node st)) !! key = Some t ->
  at_node (mkFlowState t).
Proof using Hf.
  intros [n Hn] Ht. destruct Hf as [_ Hall]. destruct (Hall _ _ Hn) as [_ Hon].
  unfold IVR.node_at in Ht. rewrite Hn in Ht. by apply (Hon key).
Qed.

Lemma on_input_coherent st timedOut digit :
  at_node st ->
  coherent (fst (on_input f st timedOut digit)) (snd (on_input f st timedOut digit)).
Proof using Hf.
  intros Hst. destruct (on_input_cases f st timedOut digit) as [->|(key & t & Ht & ->)]; simpl.
  - constructor. by right.
  - apply emit_coherent. by eapply next_at_node.
Qed.

Lemma Start_coherent :
  coherent (IVR.emit f (mkFlowState (ivr_Entry (flow_IVR f))))
    (mkFlowState (ivr_Entry (flow_IVR f))).
Proof using Hf. apply emit_coherent. by destruct Hf. Qed.
End Engine.

(** ** Termination of live sessions *)

(** A returned session has a proper outcome, and fuel did not run out. *)
Definition session_result_ok (r : outcome (option (option Outcome))) : Prop :=
  match r with
  | Ok None | Ok (Some None) => False
  | Ok (Some (Some o)) => out_Status o = StatusCompleted \/ out_Status o = StatusNoAnswer
  | Err _ | Panic => True
  end.

(** The iterations left at a state: one once the call is over. *)
Definition rank_left (rank : string -> nat) (out : option Outcome) (st : FlowState) : nat :=
  match out with Some _ => 1%nat | None => (2 + rank (st_Node st))%nat end.

Lemma rank_left_step f rank st timedOut digit :
  ranked f rank -> at_node f st ->
  node_terminal (IVR.node_at f (st_Node st)) = false ->
  (rank_left rank (snd (fst (on_input f st timedOut digit)))
     (snd (on_input f st timedOut digit)) < 2 + rank (st_Node st))%nat.
Proof.
  intros Hr [n Hn] Hterm.
  assert (En : IVR.node_at f (st_Node st) = n) by (unfold IVR.node_at; by rewrite Hn).
  rewrite En in Hterm.
  destruct (on_input_cases f st timedOut digit) as [->|(key & t & Ht & ->)]; simpl; [lia|].
  destruct (Hr _ _ Hn) as [?|H]; [congruence|].
  rewrite En in Ht. specialize (H _ _ Ht). simpl in H.
  unfold rank_left. simpl. destruct (snd (IVR.emit _ _)); lia.
Qed.

Lemma session_loop_terminates {W} f rank (leg : Session.Leg W) env fuel :
  complete_flow f -> ranked f rank ->
  forall d out st w, coherent f (d, out) st -> (rank_left rank out st <= fuel)%nat ->
  session_result_ok (fst (run env (Session.loop fuel f leg d st out) w)).
Proof.
  intros Hf Hr. induction fuel as [|fuel IH]; intros d out st w Hc Hfuel.
  { destruct out; simpl in Hfuel; lia. }
  inversion Hc as [p r s st' Hs|p g st' Hst Hterm]; subst; cbn [Session.loop dir_Kind].
  - simpl. rewrite run_bind. by destruct (run env (Session.Hangup leg p) w) as [[?|?|] ?].
  - simpl. rewrite run_bind.
    destruct (run env (Session.SayGather leg p (Some g)) w) as [[[digit timedOut]|?|] w']; try done.
    change (if timedOut then IVR.OnTimeout f st else IVR.OnDTMF f st digit)
      with (on_input f st timedOut digit).
    pose proof (on_input_coherent f Hf st timedOut digit Hst) as Hc'.
    pose proof (rank_left_step f rank st timedOut digit Hr Hst Hterm) as Hlt.
    destruct (on_input f st timedOut digit) as [[d' out'] st']. apply IH; [done|].
    simpl in Hlt, Hfuel. lia.
Qed.

(** ** Scripted legs: the session and the simulator agree *)

Module Scripted.
(** The caller's remaining inputs, and the prompts they have heard. *)
Record Line := mkLine { line_inputs : list string; line_heard : list (option Prompt) }.

Definition hungUp : goerr := ErrOther "caller hung up".

Definition hear (l : Line) (p : option Prompt) : Line :=
  mkLine (line_inputs l) (line_heard l ++ [p]).

(** A leg that plays the inputs back, and fails once they are used up. *)
Definition leg : Session.Leg Line :=
  Session.mkLeg Line
    (fun p => act (fun _ l => (Ok tt, hear l p)))
    (fun p _ => act (fun _ l =>
       match line_inputs l with
       | [] => (Err hungUp, hear l p)
       | i :: rest =>
           (Ok (i, (i =? "timeout")%string), mkLine rest (line_heard l ++ [p]))
       end))
    (fun p => act (fun _ l => (Ok tt, hear l p))).

(** What a simulation predicts for the live session. *)
Definition predicted (s : Sim.Simulation) : outcome (option (option Outcome)) :=
  if Sim.sim_Ended s
  then Ok (Some (Some (mkOutcome (Sim.sim_Result s) (Sim.sim_Status s) 0)))
  else Err hungUp.

Lemma loop_agrees f env (Hf : complete_flow f) inputs :
  forall fuel d out st sim heard,
  coherent f (d, out) st -> (length inputs < fuel)%nat ->
  Sim.sim_Ended sim = false -> map Sim.ss_Say (Sim.sim_Steps sim) = heard ++ [dir_Prompt d] ->
  let sim' := match out with
              | Some o => Sim.finish sim o
              | None => Sim.loop f st sim inputs
              end in
  let r := run env (Session.loop fuel f leg d st out) (mkLine inputs heard) in
  fst r = predicted sim' /\ line_heard (snd r) = map Sim.ss_Say (Sim.sim_Steps sim').
Proof.
  induction inputs as [|i inputs IH]; intros fuel d out st sim heard Hc Hfuel Hend Hheard;
    (destruct fuel as [|fuel]; [simpl in Hfuel; lia|]);
    inversion Hc as [p r s st' Hs|p g st' Hst Hterm]; subst; simpl in *; try done.
  - unfold predicted. by rewrite Hend.
  - change (if (i =? "timeout")%string then IVR.OnTimeout f st else IVR.OnDTMF f st i)
      with (on_input f st (i =? "timeout")%string i).
    pose proof (on_input_coherent f Hf st (i =? "timeout")%string i Hst) as Hc'.
    destruct (on_input f st (i =? "timeout")%string i) as [[d' out'] st']. simpl in *.
    apply IH; [done|lia|done|].
    simpl. by rewrite map_app, Hheard.
Qed.
End Scripted.

Lemma scripted_loop_fuel f env inputs :
  forall fuel d st out l, Scripted.line_inputs l = inputs -> (length inputs < fuel)%nat ->
  fst (run env (Session.loop fuel f Scripted.leg d st out) l) <> Ok None.
Proof.
  induction inputs as [|i inputs IH]; intros fuel d st out l Hl Hfuel;
    (destruct fuel as [|fuel]; [simpl in Hfuel; lia|]); cbn [Session.loop];
    (destruct (dir_Kind d =? "hangup")%string; [done|]);
    (destruct (dir_Kind d =? "say")%string; [done|]);
    (destruct (dir_Kind d =? "say_gather")%string; [|done]); simpl; rewrite Hl; [done|].
  destruct (if (i =? "timeout")%string then _ else _) as [[d' out'] st'].
  apply IH; [done|]. simpl in Hfuel. lia.
Qed.

(** ** Example flows *)

Module Examples.
Definition say (t : string) : option Prompt := Some (mkPrompt "" t).

(** Greet and gather; 1 confirms, 2 cancels, a timeout asks again. *)
Definition confirm_flow (retry : string) : Flow :=
  mkFlow "f" "o" "order_confirm" 1 ChannelVoice FlowIVR "en"
    (mkIVRSpec "greet" (list_to_map [
      ("greet", mkIVRNode (say "press 1") (Some (mkGather 1 6))
                  (list_to_map [("1", "yes"); ("2", "no"); ("timeout", retry)]) "" false);
      ("yes", mkIVRNode (say "thanks") None ∅ "confirmed" true);
      ("no", mkIVRNode None None ∅ "cancelled" true);
      ("again", mkIVRNode (say "still there?") (Some (mkGather 1 6))
                  (list_to_map [("1", "yes")]) "" false)])).

Definition confirm_rank (n : string) : nat :=
  if (n =? "greet")%string then 2 else if (n =? "again")%string then 1 else 0.

(** One announcement, no keypad. *)
Definition announce_flow : Flow :=
  mkFlow "f" "o" "announce" 1 ChannelVoice FlowIVR "en"
    (mkIVRSpec "hello" (list_to_map [("hello", mkIVRNode (say "hello") None ∅ "" false)])).

Definition env0 : Env := mkEnv (fun _ => 0) (fun _ => NoFault) (fun _ _ => Ascii.zero) (fun _ => "") Some.
End Examples.

(** C14: A live session over a complete, loop-free spec always ends: whatever the
    leg does, a fuel of two more than the rank of the entry node is never
    exhausted, and a session that returns has a completed or unanswered outcome. *)
Theorem session_terminates {W} (f : Flow) (rank : string -> nat) (leg : Session.Leg W)
    (env : Env) (w : W) (fuel : nat) :
  complete_flow f -> ranked f rank -> (2 + rank (ivr_Entry (flow_IVR f)) <= fuel)%nat ->
  session_result_ok (fst (run env (Session.RunSession fuel f leg) w)).
Proof.
  intros Hf Hr Hfuel. unfold Session.RunSession, IVR.Start.
  pose proof (Start_coherent f Hf) as Hc.
  destruct (IVR.emit f _) as [d out].
  apply (session_loop_terminates f rank); [done..|].
  unfold rank_left. destruct out; simpl; lia.
Qed.

Lemma session_terminates_witness :
  session_result_ok (fst (run Examples.env0
    (Session.RunSession 4 (Examples.confirm_flow "again") Scripted.leg)
    (Scripted.mkLine ["timeout"; "1"] []))).
Proof.
  apply (session_terminates (Examples.confirm_flow "again") Examples.confirm_rank).
  - by apply (bool_decide_unpack _); vm_compute.
  - by apply (bool_decide_unpack _); vm_compute.
  - by vm_compute; lia.
Defined.

(** C15: On a complete spec the builder's simulator predicts the live session: over
    a leg that plays back the same inputs, the session ends with the simulated
    result and status (or the caller hangs up exactly when the simulation is
    unfinished), and the caller hears exactly the prompts of the trace. *)
Theorem simulate_predicts_session (f : Flow) (inputs : list string) (env : Env) (fuel : nat) :
  complete_flow f -> (length inputs < fuel)%nat ->
  let sim := Sim.Simulate f inputs in
  let r := run env (Session.RunSession fuel f Scripted.leg) (Scripted.mkLine inputs []) in
  fst r = Scripted.predicted sim /\
  Scripted.line_heard (snd r) = map Sim.ss_Say (Sim.sim_Steps sim).
Proof.
  intros Hf Hfuel. unfold Sim.Simulate, Session.RunSession, IVR.Start.
  pose proof (Start_coherent f Hf) as Hc.
  destruct (IVR.emit f _) as [d out]. simpl.
  by apply (Scripted.loop_agrees f env Hf inputs).
Qed.

Lemma simulate_predicts_session_witness :
  let f := Examples.confirm_flow "greet" in
  let inputs := ["timeout"; "timeout"; "2"] in
  let sim := Sim.Simulate f inputs in
  let r := run Examples.env0 (Session.RunSession 4 f Scripted.leg) (Scripted.mkLine inputs []) in
  fst r = Scripted.predicted sim /\
  Scripted.line_heard (snd r) = map Sim.ss_Say (Sim.sim_Steps sim).
Proof.
  apply (simulate_predicts_session (Examples.confirm_flow "greet")).
  - by apply (bool_decide_unpack _); vm_compute.
  - simpl; lia.
Defined.

(** Even on a spec with loops or dangling transitions, a session whose caller
    answers finitely many times returns: each iteration of the control loop uses
    up one answer. *)
Theorem session_finite_answers (f : Flow) (inputs : list string) (env : Env) (fuel : nat) :
  (length inputs < fuel)%nat ->
  fst (run env (Session.RunSession fuel f Scripted.leg) (Scripted.mkLine inputs [])) <> Ok None.
Proof.
  intros H. unfold Session.RunSession. destruct (IVR.Start f) as [[d st] out].
  by apply (scripted_loop_fuel f env inputs).
Qed.

Lemma session_finite_answers_witness :
  fst (run Examples.env0 (Session.RunSession 3 (Examples.confirm_flow "greet") Scripted.leg)
         (Scripted.mkLine ["timeout"; "timeout"] [])) <> Ok None.
Proof. apply session_finite_answers. simpl. lia. Defined.

(** For a spec that opens with a plain announcement (no gather, no result),
    the simulator and the live session disagree: the session completes after the
    prompt, the simulation is still unfinished, and any further input makes it
    report an unanswered call. *)
Theorem simulate_announcement_differs (f : Flow) (p : option Prompt) (env : Env)
    (fuel : nat) (inputs : list string) (i : string) :
  IVR.emit f (mkFlowState (ivr_Entry (flow_IVR f))) = (mkDirective "say" p None, None) ->
  node_On (IVR.node_at f (ivr_Entry (flow_IVR f))) = ∅ ->
  fst (run env (Session.RunSession (S fuel) f Scripted.leg) (Scripted.mkLine inputs []))
    = Ok (Some (Some (mkOutcome "" StatusCompleted 0))) /\
  Sim.sim_Ended (Sim.Simulate f []) = false /\
  Sim.sim_Status (Sim.Simulate f (i :: inputs)) = StatusNoAnswer.
Proof.
  intros He Hon. unfold Session.RunSession, IVR.Start, Sim.Simulate. rewrite He.
  split; [done|]. split; [done|]. cbn [Sim.loop].
  assert (Hno : forall b, (if (b : bool) then IVR.OnTimeout f (mkFlowState (ivr_Entry (flow_IVR f)))
      else IVR.OnDTMF f (mkFlowState (ivr_Entry (flow_IVR f))) i)
      = (IVR.noAnswer, mkFlowState (ivr_Entry (flow_IVR f)))).
  { intros []; unfold IVR.OnTimeout, IVR.OnDTMF; simpl; by rewrite Hon, !lookup_empty. }
  by rewrite Hno.
Qed.

Lemma simulate_announcement_differs_witness :
  fst (run Examples.env0 (Session.RunSession 1 Examples.announce_flow Scripted.leg)
         (Scripted.mkLine [] [])) = Ok (Some (Some (mkOutcome "" StatusCompleted 0))) /\
  Sim.sim_Ended (Sim.Simulate Examples.announce_flow []) = false /\
  Sim.sim_Status (Sim.Simulate Examples.announce_flow ["1"]) = StatusNoAnswer.
Proof.
  apply (simulate_announcement_differs Examples.announce_flow (Examples.say "hello"));
    vm_compute; reflexivity.
Defined.
