(* ===== verification/Store.v ===== *)
(** * The store: the Postgres schema, statements, transactions, and the world

    The rows are those of the migrations and of gen/models.go.  A table is the
    list of its rows in insertion order; the tables whose primary key is all a
    statement ever looks up ([org_credits], [org_call_policy], [chat_settings],
    [conversation_insights]) are maps from that key.

    A statement ([stmt]) is atomic.  [exec] runs one on its own; a transaction
    body ([txM]) runs statements against a private copy of the database, which
    [transact] publishes when the body commits and drops otherwise, in one step;
    Sessions runs the same bodies statement by statement.  Every
    statement, every BEGIN and every COMMIT can fail ([env_fault]). *)

From S2P Require Import Prelude.
From S2P Require Import Domain.
From S2P Require Import Effects.
From S2P Require Import GoLib.
From S2P Require Import Json.
From stdpp Require Import gmap strings list.
From Stdlib Require Import ZArith Lia.

Open Scope Z_scope.

(** users *)
Record UserRow := mkUserRow {
  user_id : string; user_phone : option string; user_email : option string;
  user_name : option string; user_created_at : Time;
  user_password_hash : option string
}.

(** otp_codes *)
Record OtpRow := mkOtpRow {
  otp_id : string; otp_phone : string; otp_code_hash : string; otp_attempts : Z;
  otp_expires_at : Time; otp_consumed_at : option Time; otp_created_at : Time
}.

(** sessions *)
Record SessionRow := mkSessionRow {
  session_id : string; session_token_hash : string; session_user_id : string;
  session_expires_at : Time; session_created_at : Time
}.

(** orgs *)
Record OrgRow := mkOrgRow {
  orgr_id : string; orgr_name : string; orgr_owner_user_id : string;
  orgr_created_at : Time
}.

(** flows *)
Record FlowRow := mkFlowRow {
  flowr_id : string; flowr_org_id : string; flowr_name : string; flowr_version : Z;
  flowr_channel : string; flowr_type : string; flowr_locale : string;
  flowr_spec : string; flowr_is_active : bool; flowr_created_at : Time
}.

(** calls *)
Record CallRow := mkCallRow {
  callr_id : string; callr_org_id : string; callr_flow_id : option string;
  callr_provider_call_id : option string; callr_direction : string;
  callr_status : string; callr_result : option string;
  callr_recording_url : option string; callr_transcript : option string;
  callr_created_at : Time
}.

(** api_keys *)
Record ApiKeyRow := mkApiKeyRow {
  key_id : string; key_org_id : string; key_prefix : string;
  key_secret_hash : string; key_name : option string; key_created_at : Time;
  key_last_used_at : option Time; key_kind : string
}.

(** events *)
Record EventRow := mkEventRow {
  event_id : string; event_org_id : string; event_type : string;
  event_external_event_id : string; event_payload : string; event_status : string;
  event_created_at : Time
}.

(** webhook_endpoints *)
Record WebhookEndpoint := mkWebhookEndpoint {
  whe_id : string; whe_org_id : string; whe_url : string; whe_secret_enc : string;
  whe_events : list string; whe_active : bool; whe_created_at : Time
}.

(** webhook_outbox *)
Record OutboxRow := mkOutboxRow {
  ob_id : Z; ob_org_id : string; ob_event : string; ob_payload : string;
  ob_created_at : Time; ob_dispatched_at : option Time
}.

(** webhook_deliveries *)
Record DeliveryRow := mkDeliveryRow {
  dlv_id : string; dlv_org_id : string; dlv_event : string; dlv_url : string;
  dlv_payload : string; dlv_status : string; dlv_attempts : Z;
  dlv_last_status_code : option Z; dlv_last_error : option string;
  dlv_next_retry_at : Time; dlv_delivered_at : option Time; dlv_created_at : Time
}.

(** customers *)
Record CustomerRow := mkCustomerRow {
  cust_id : string; cust_org_id : string; cust_phone : string;
  cust_name : option string; cust_external_id : option string; cust_dnd : bool;
  cust_created_at : Time
}.

(** campaigns *)
Record CampaignRow := mkCampaignRow {
  camp_id : string; camp_org_id : string; camp_name : string; camp_status : string;
  camp_target_count : Z; camp_created_at : Time; camp_started_at : option Time;
  camp_scheduled_at : option Time
}.

(** campaign_recipients *)
Record RecipientRow := mkRecipientRow {
  rcp_id : string; rcp_campaign_id : string; rcp_org_id : string;
  rcp_phone : string; rcp_name : string
}.

(** conversations *)
Record ConversationRow := mkConversationRow {
  conv_id : string; conv_org_id : string; conv_channel : string;
  conv_customer_id : option string; conv_status : string; conv_created_at : Time;
  conv_updated_at : Time; conv_external_user : option string
}.

(** messages *)
Record MessageRow := mkMessageRow {
  msg_id : string; msg_conversation_id : string; msg_role : string;
  msg_content : string; msg_created_at : Time
}.

(** chat_settings (keyed by org_id) *)
Record ChatSettingRow := mkChatSettingRow {
  cset_instructions : string; cset_widget_title : string; cset_welcome : string;
  cset_accent : string; cset_updated_at : Time
}.

(** conversation_insights (keyed by conversation_id) *)
Record InsightRow := mkInsightRow {
  insr_org_id : string; insr_summary : string; insr_outcome : string;
  insr_sentiment : string; insr_next_action : string; insr_created_at : Time
}.

(** channel_connections *)
Record ChannelRow := mkChannelRow {
  chan_id : string; chan_org_id : string; chan_type : string;
  chan_external_id : string; chan_access_token : string;
  chan_verify_token : string; chan_created_at : Time
}.

(** payments *)
Record PaymentRow := mkPaymentRow {
  pmt_id : string; pmt_org_id : string; pmt_provider : string;
  pmt_provider_ref : string; pmt_credits : Z; pmt_amount_bdt : Z;
  pmt_status : string; pmt_created_at : Time; pmt_settled_at : option Time
}.

(** credit_ledger *)
Record LedgerRow := mkLedgerRow {
  led_id : string; led_org_id : string; led_delta : Z; led_reason : string;
  led_created_at : Time
}.

(** org_call_policy (keyed by org_id) *)
Record CallPolicyRow := mkCallPolicyRow {
  polr_window_start : Z; polr_window_end : Z; polr_timezone : string;
  polr_max_retries : Z
}.

(** The database: one field per table. *)
Record DB := mkDB {
  users : list UserRow;
  otp_codes : list OtpRow;
  sessions : list SessionRow;
  orgs : list OrgRow;
  flows : list FlowRow;
  calls : list CallRow;
  api_keys : list ApiKeyRow;
  events : list EventRow;
  webhook_endpoints : list WebhookEndpoint;
  webhook_outbox : list OutboxRow;
  webhook_deliveries : list DeliveryRow;
  customers : list CustomerRow;
  campaigns : list CampaignRow;
  campaign_recipients : list RecipientRow;
  conversations : list ConversationRow;
  messages : list MessageRow;
  chat_settings : gmap string ChatSettingRow;
  conversation_insights : gmap string InsightRow;
  channel_connections : list ChannelRow;
  payments : list PaymentRow;
  org_credits : gmap string Z;
  credit_ledger : list LedgerRow;
  org_call_policy : gmap string CallPolicyRow
}.

Definition emptyDB : DB :=
  mkDB [] [] [] [] [] [] [] [] [] [] [] [] [] [] [] [] ∅ ∅ [] [] ∅ [] ∅.

Definition set_users (x : list UserRow) (d : DB) : DB :=
  mkDB x (otp_codes d) (sessions d) (orgs d) (flows d) (calls d) (api_keys d)
    (events d) (webhook_endpoints d) (webhook_outbox d) (webhook_deliveries d)
    (customers d) (campaigns d) (campaign_recipients d) (conversations d)
    (messages d) (chat_settings d) (conversation_insights d)
    (channel_connections d) (payments d) (org_credits d) (credit_ledger d)
    (org_call_policy d).
Definition set_otp_codes (x : list OtpRow) (d : DB) : DB :=
  mkDB (users d) x (sessions d) (orgs d) (flows d) (calls d) (api_keys d)
    (events d) (webhook_endpoints d) (webhook_outbox d) (webhook_deliveries d)
    (customers d) (campaigns d) (campaign_recipients d) (conversations d)
    (messages d) (chat_settings d) (conversation_insights d)
    (channel_connections d) (payments d) (org_credits d) (credit_ledger d)
    (org_call_policy d).
Definition set_sessions (x : list SessionRow) (d : DB) : DB :=
  mkDB (users d) (otp_codes d) x (orgs d) (flows d) (calls d) (api_keys d)
    (events d) (webhook_endpoints d) (webhook_outbox d) (webhook_deliveries d)
    (customers d) (campaigns d) (campaign_recipients d) (conversations d)
    (messages d) (chat_settings d) (conversation_insights d)
    (channel_connections d) (payments d) (org_credits d) (credit_ledger d)
    (org_call_policy d).
Definition set_orgs (x : list OrgRow) (d : DB) : DB :=
  mkDB (users d) (otp_codes d) (sessions d) x (flows d) (calls d) (api_keys d)
    (events d) (webhook_endpoints d) (webhook_outbox d) (webhook_deliveries d)
    (customers d) (campaigns d) (campaign_recipients d) (conversations d)
    (messages d) (chat_settings d) (conversation_insights d)
    (channel_connections d) (payments d) (org_credits d) (credit_ledger d)
    (org_call_policy d).
Definition set_flows (x : list FlowRow) (d : DB) : DB :=
  mkDB (users d) (otp_codes d) (sessions d) (orgs d) x (calls d) (api_keys d)
    (events d) (webhook_endpoints d) (webhook_outbox d) (webhook_deliveries d)
    (customers d) (campaigns d) (campaign_recipients d) (conversations d)
    (messages d) (chat_settings d) (conversation_insights d)
    (channel_connections d) (payments d) (org_credits d) (credit_ledger d)
    (org_call_policy d).
Definition set_calls (x : list CallRow) (d : DB) : DB :=
  mkDB (users d) (otp_codes d) (sessions d) (orgs d) (flows d) x (api_keys d)
    (events d) (webhook_endpoints d) (webhook_outbox d) (webhook_deliveries d)
    (customers d) (campaigns d) (campaign_recipients d) (conversations d)
    (messages d) (chat_settings d) (conversation_insights d)
    (channel_connections d) (payments d) (org_credits d) (credit_ledger d)
    (org_call_policy d).
Definition set_api_keys (x : list ApiKeyRow) (d : DB) : DB :=
  mkDB (users d) (otp_codes d) (sessions d) (orgs d) (flows d) (calls d) x
    (events d) (webhook_endpoints d) (webhook_outbox d) (webhook_deliveries d)
    (customers d) (campaigns d) (campaign_recipients d) (conversations d)
    (messages d) (chat_settings d) (conversation_insights d)
    (channel_connections d) (payments d) (org_credits d) (credit_ledger d)
    (org_call_policy d).
Definition set_events (x : list EventRow) (d : DB) : DB :=
  mkDB (users d) (otp_codes d) (sessions d) (orgs d) (flows d) (calls d)
    (api_keys d) x (webhook_endpoints d) (webhook_outbox d) (webhook_deliveries
    d) (customers d) (campaigns d) (campaign_recipients d) (conversations d)
    (messages d) (chat_settings d) (conversation_insights d)
    (channel_connections d) (payments d) (org_credits d) (credit_ledger d)
    (org_call_policy d).
Definition set_webhook_endpoints (x : list WebhookEndpoint) (d : DB) : DB :=
  mkDB (users d) (otp_codes d) (sessions d) (orgs d) (flows d) (calls d)
    (api_keys d) (events d) x (webhook_outbox d) (webhook_deliveries d)
    (customers d) (campaigns d) (campaign_recipients d) (conversations d)
    (messages d) (chat_settings d) (conversation_insights d)
    (channel_connections d) (payments d) (org_credits d) (credit_ledger d)
    (org_call_policy d).
Definition set_webhook_outbox (x : list OutboxRow) (d : DB) : DB :=
  mkDB (users d) (otp_codes d) (sessions d) (orgs d) (flows d) (calls d)
    (api_keys d) (events d) (webhook_endpoints d) x (webhook_deliveries d)
    (customers d) (campaigns d) (campaign_recipients d) (conversations d)
    (messages d) (chat_settings d) (conversation_insights d)
    (channel_connections d) (payments d) (org_credits d) (credit_ledger d)
    (org_call_policy d).
Definition set_webhook_deliveries (x : list DeliveryRow) (d : DB) : DB :=
  mkDB (users d) (otp_codes d) (sessions d) (orgs d) (flows d) (calls d)
    (api_keys d) (events d) (webhook_endpoints d) (webhook_outbox d) x
    (customers d) (campaigns d) (campaign_recipients d) (conversations d)
    (messages d) (chat_settings d) (conversation_insights d)
    (channel_connections d) (payments d) (org_credits d) (credit_ledger d)
    (org_call_policy d).
Definition set_customers (x : list CustomerRow) (d : DB) : DB :=
  mkDB (users d) (otp_codes d) (sessions d) (orgs d) (flows d) (calls d)
    (api_keys d) (events d) (webhook_endpoints d) (webhook_outbox d)
    (webhook_deliveries d) x (campaigns d) (campaign_recipients d)
    (conversations d) (messages d) (chat_settings d) (conversation_insights d)
    (channel_connections d) (payments d) (org_credits d) (credit_ledger d)
    (org_call_policy d).
Definition set_campaigns (x : list CampaignRow) (d : DB) : DB :=
  mkDB (users d) (otp_codes d) (sessions d) (orgs d) (flows d) (calls d)
    (api_keys d) (events d) (webhook_endpoints d) (webhook_outbox d)
    (webhook_deliveries d) (customers d) x (campaign_recipients d)
    (conversations d) (messages d) (chat_settings d) (conversation_insights d)
    (channel_connections d) (payments d) (org_credits d) (credit_ledger d)
    (org_call_policy d).
Definition set_campaign_recipients (x : list RecipientRow) (d : DB) : DB :=
  mkDB (users d) (otp_codes d) (sessions d) (orgs d) (flows d) (calls d)
    (api_keys d) (events d) (webhook_endpoints d) (webhook_outbox d)
    (webhook_deliveries d) (customers d) (campaigns d) x (conversations d)
    (messages d) (chat_settings d) (conversation_insights d)
    (channel_connections d) (payments d) (org_credits d) (credit_ledger d)
    (org_call_policy d).
Definition set_conversations (x : list ConversationRow) (d : DB) : DB :=
  mkDB (users d) (otp_codes d) (sessions d) (orgs d) (flows d) (calls d)
    (api_keys d) (events d) (webhook_endpoints d) (webhook_outbox d)
    (webhook_deliveries d) (customers d) (campaigns d) (campaign_recipients d) x
    (messages d) (chat_settings d) (conversation_insights d)
    (channel_connections d) (payments d) (org_credits d) (credit_ledger d)
    (org_call_policy d).
Definition set_messages (x : list MessageRow) (d : DB) : DB :=
  mkDB (users d) (otp_codes d) (sessions d) (orgs d) (flows d) (calls d)
    (api_keys d) (events d) (webhook_endpoints d) (webhook_outbox d)
    (webhook_deliveries d) (customers d) (campaigns d) (campaign_recipients d)
    (conversations d) x (chat_settings d) (conversation_insights d)
    (channel_connections d) (payments d) (org_credits d) (credit_ledger d)
    (org_call_policy d).
Definition set_chat_settings (x : gmap string ChatSettingRow) (d : DB) : DB :=
  mkDB (users d) (otp_codes d) (sessions d) (orgs d) (flows d) (calls d)
    (api_keys d) (events d) (webhook_endpoints d) (webhook_outbox d)
    (webhook_deliveries d) (customers d) (campaigns d) (campaign_recipients d)
    (conversations d) (messages d) x (conversation_insights d)
    (channel_connections d) (payments d) (org_credits d) (credit_ledger d)
    (org_call_policy d).
Definition set_conversation_insights (x : gmap string InsightRow) (d : DB) : DB :=
  mkDB (users d) (otp_codes d) (sessions d) (orgs d) (flows d) (calls d)
    (api_keys d) (events d) (webhook_endpoints d) (webhook_outbox d)
    (webhook_deliveries d) (customers d) (campaigns d) (campaign_recipients d)
    (conversations d) (messages d) (chat_settings d) x (channel_connections d)
    (payments d) (org_credits d) (credit_ledger d) (org_call_policy d).
Definition set_channel_connections (x : list ChannelRow) (d : DB) : DB :=
  mkDB (users d) (otp_codes d) (sessions d) (orgs d) (flows d) (calls d)
    (api_keys d) (events d) (webhook_endpoints d) (webhook_outbox d)
    (webhook_deliveries d) (customers d) (campaigns d) (campaign_recipients d)
    (conversations d) (messages d) (chat_settings d) (conversation_insights d) x
    (payments d) (org_credits d) (credit_ledger d) (org_call_policy d).
Definition set_payments (x : list PaymentRow) (d : DB) : DB :=
  mkDB (users d) (otp_codes d) (sessions d) (orgs d) (flows d) (calls d)
    (api_keys d) (events d) (webhook_endpoints d) (webhook_outbox d)
    (webhook_deliveries d) (customers d) (campaigns d) (campaign_recipients d)
    (conversations d) (messages d) (chat_settings d) (conversation_insights d)
    (channel_connections d) x (org_credits d) (credit_ledger d) (org_call_policy
    d).
Definition set_org_credits (x : gmap string Z) (d : DB) : DB :=
  mkDB (users d) (otp_codes d) (sessions d) (orgs d) (flows d) (calls d)
    (api_keys d) (events d) (webhook_endpoints d) (webhook_outbox d)
    (webhook_deliveries d) (customers d) (campaigns d) (campaign_recipients d)
    (conversations d) (messages d) (chat_settings d) (conversation_insights d)
    (channel_connections d) (payments d) x (credit_ledger d) (org_call_policy d).
Definition set_credit_ledger (x : list LedgerRow) (d : DB) : DB :=
  mkDB (users d) (otp_codes d) (sessions d) (orgs d) (flows d) (calls d)
    (api_keys d) (events d) (webhook_endpoints d) (webhook_outbox d)
    (webhook_deliveries d) (customers d) (campaigns d) (campaign_recipients d)
    (conversations d) (messages d) (chat_settings d) (conversation_insights d)
    (channel_connections d) (payments d) (org_credits d) x (org_call_policy d).
Definition set_org_call_policy (x : gmap string CallPolicyRow) (d : DB) : DB :=
  mkDB (users d) (otp_codes d) (sessions d) (orgs d) (flows d) (calls d)
    (api_keys d) (events d) (webhook_endpoints d) (webhook_outbox d)
    (webhook_deliveries d) (customers d) (campaigns d) (campaign_recipients d)
    (conversations d) (messages d) (chat_settings d) (conversation_insights d)
    (channel_connections d) (payments d) (org_credits d) (credit_ledger d) x.

(** ** Observable actions *)

Record OutboundMessage := mkOutboundMessage {
  om_Type : string; om_FromExternalID : string; om_AccessToken : string;
  om_To : string; om_Text : string
}.

Record HttpPost := mkHttpPost {
  post_url : string; post_headers : list (string * string); post_body : string
}.

Inductive Effect : Type :=
| EDial (req : CallRequest) (pid : ProviderCallID)
| ESms (toPhone text : string)
| EEmail (to subject body : string)
| EActivity (e : ActivityEvent)
| EChannelSend (m : OutboundMessage)
| EPost (p : HttpPost).

(** ** The world

    [w_tick] counts the interactions with the environment; [w_st] is what the
    invariants are about: the database, the actions so far (latest first), and
    the queue of place_call jobs. *)

Record State := mkState {
  s_db : DB;
  s_trace : list Effect;
  s_jobs : list PlaceCallInput
}.

Record World := mkWorld { w_tick : nat; w_st : State }.

Definition w_db (w : World) : DB := s_db (w_st w).

Definition set_db (d : DB) (s : State) : State := mkState d (s_trace s) (s_jobs s).
Definition add_effect (e : Effect) (s : State) : State :=
  mkState (s_db s) (e :: s_trace s) (s_jobs s).

Definition emptyState : State := mkState emptyDB [] [].
Definition world0 : World := mkWorld 0 emptyState.

(** ** Statements *)

(** What a statement reads besides its arguments: now(), a value of
    gen_random_uuid(), the normalisation of jsonb values, and the row locks of
    the other transactions.  The one table whose rows a statement locks without
    updating them is [webhook_outbox]. *)
Record SqlCtx := mkSqlCtx {
  sql_now : Time;
  sql_uuid : string;
  sql_jsonb : string -> option string;
  sql_locked : list Z          (* webhook_outbox ids other transactions hold locked *)
}.

Definition stmt (A : Type) : Type := SqlCtx -> DB -> (A * DB) + goerr.

Definition unique_violation : goerr := ErrPg "23505".
Definition numeric_out_of_range : goerr := ErrPg "22003".
Definition invalid_text : goerr := ErrPg "22P02".
Definition in_failed_transaction : goerr := ErrPg "25P02".
Definition invalid_row_count : goerr := ErrPg "2201W".

(** What a text column takes: valid UTF-8 without NUL. *)
Definition text_ok (s : string) : bool :=
  Utf8.Valid s && Strings.forallb (fun c => negb (byte_of c =? 0)) s.

Definition invalid_byte_sequence : goerr := ErrPg "22021".

Definition with_text {A} (texts : list string) (s : stmt A) : stmt A := fun ctx d =>
  if forallb text_ok texts then s ctx d else inr invalid_byte_sequence.

Lemma with_text_ok {A} texts (s : stmt A) ctx d r :
  with_text texts s ctx d = inl r -> s ctx d = inl r.
Proof. unfold with_text. by destruct (forallb _ _). Qed.

(** LIMIT n, which must not be negative. *)
Definition sql_limit {A} (n : Z) (rows : list A) (d : DB) : (list A * DB) + goerr :=
  if n <? 0 then inr invalid_row_count else inl (firstn (Z.to_nat n) rows, d).

Definition sql_ctx_locked (locked : list Z) (env : Env) (tick : nat) (now : Time)
  : SqlCtx :=
  mkSqlCtx now (env_uuid env tick) (env_jsonb env) locked.

Definition sql_ctx : Env -> nat -> Time -> SqlCtx := sql_ctx_locked [].

Definition fault_err (msg : string) : goerr := ErrOther msg.

(** A statement on its own connection: it commits by itself. *)
Definition exec_step {A} (s : stmt A) (env : Env) (w : World) : outcome A * World :=
  let n := w_tick w in
  let r := s (sql_ctx env n (env_clock env n)) (w_db w) in
  match env_fault env n with
  | NoFault =>
      match r with
      | inl (a, d) => (Ok a, mkWorld (S n) (set_db d (w_st w)))
      | inr e => (Err e, mkWorld (S n) (w_st w))
      end
  | FaultBefore m => (Err (fault_err m), mkWorld (S n) (w_st w))
  | FaultAfter m =>
      match r with
      | inl (_, d) => (Err (fault_err m), mkWorld (S n) (set_db d (w_st w)))
      | inr _ => (Err (fault_err m), mkWorld (S n) (w_st w))
      end
  end.

Definition exec {A} (s : stmt A) : prog World A := act (exec_step s).

(** ** Transactions

    The body of a transaction ([txM]) is a program over the state of one
    transaction: each step is one statement, one COMMIT or one random draw.  It
    is run in two ways: [transact] below runs it whole, and Sessions runs it
    statement by statement, interleaved with everything else. *)

Record TxSt := mkTxSt {
  tx_tick : nat;
  tx_now : Time;               (* now() is the time of BEGIN *)
  tx_cur : DB;                 (* what the transaction sees *)
  tx_aborted : bool;           (* a statement failed: only rollback is left *)
  tx_durable : option DB;      (* set by COMMIT *)
  tx_locked : list Z;          (* outbox ids locked by other transactions *)
  tx_locks : list OutboxRow    (* outbox rows this transaction holds locked *)
}.

Definition txM (A : Type) : Type := prog TxSt A.

(** A statement: a failure other than "no rows" aborts the transaction. *)
Definition stmt_step {A} (s : stmt A) (locks : A -> list OutboxRow) (env : Env) (st : TxSt)
  : outcome A * TxSt :=
  let n := tx_tick st in
  let '(mkTxSt _ now cur _ durable locked held) := st in
  let abort := mkTxSt (S n) now cur true durable locked held in
  if tx_aborted st then (Err in_failed_transaction, abort)
  else match env_fault env n with
  | FaultBefore m | FaultAfter m => (Err (fault_err m), abort)
  | NoFault =>
      match s (sql_ctx_locked locked env n now) cur with
      | inl (a, d) => (Ok a, mkTxSt (S n) now d false durable locked (held ++ locks a))
      | inr ErrNoRows => (Err ErrNoRows, mkTxSt (S n) now cur false durable locked held)
      | inr e => (Err e, abort)
      end
  end.

Definition tx_stmt {A} (s : stmt A) : txM A := act (stmt_step s (fun _ => [])).

(** SELECT ... FOR UPDATE: the rows it returns are locked until the end. *)
Definition tx_lock (s : stmt (list OutboxRow)) : txM (list OutboxRow) :=
  act (stmt_step s (fun rows => rows)).

Definition commit_step (env : Env) (st : TxSt) : outcome unit * TxSt :=
  let n := tx_tick st in
  let '(mkTxSt _ now cur _ durable locked held) := st in
  let lost := mkTxSt (S n) now cur true durable locked held in
  let done := mkTxSt (S n) now cur false (Some cur) locked held in
  if tx_aborted st then
    (Err (ErrOther "commit unexpectedly resulted in rollback"), lost)
  else match env_fault env n with
  | NoFault => (Ok tt, done)
  | FaultBefore m => (Err (fault_err m), lost)
  | FaultAfter m => (Err (fault_err m), done)
  end.

Definition tx_commit : txM unit := act commit_step.

(** BEGIN; body; deferred Rollback, as one step: nothing the transaction wrote is
    visible before its COMMIT.  It is exact for a transaction nothing comes
    between ([Sessions.session_alone]) and for one whose first statement locks
    the only row the others could change under it, which is how TryDeduct and
    Grant work (UPDATE org_credits); RecordCallOutcome only inserts.
    DrainOutbox reads rows another drain may be reading, and is also run
    statement by statement (Sessions). *)
Definition transact_step {A} (body : txM A) (env : Env) (w : World) : outcome A * World :=
  let n := w_tick w in
  match env_fault env n with
  | FaultBefore m | FaultAfter m => (Err (fault_err m), mkWorld (S n) (w_st w))
  | NoFault =>
      let '(r, st) :=
        run env body (mkTxSt (S n) (env_clock env n) (w_db w) false None [] []) in
      (r, mkWorld (tx_tick st)
            (match tx_durable st with
             | Some d => set_db d (w_st w)
             | None => w_st w
             end))
  end.

Definition transact {A} (body : txM A) : prog World A := act (transact_step body).

(** ** Clock, randomness, effects *)

Definition Now : prog World Time :=
  act (fun env w => (Ok (env_clock env (w_tick w)), mkWorld (S (w_tick w)) (w_st w))).

Definition emit_effect (e : Effect) : prog World unit :=
  act (fun _ w => (Ok tt, mkWorld (w_tick w) (add_effect e (w_st w)))).

Fixpoint bytes_from (f : nat -> Ascii.ascii) (n : nat) : string :=
  match n with
  | O => EmptyString
  | S n' => String (f n') (bytes_from f n')
  end.

(** crypto/rand.Read of n bytes. *)
Definition rand_Read (n : nat) : prog World string :=
  act (fun env w =>
    (Ok (bytes_from (env_rand env (w_tick w)) n), mkWorld (S (w_tick w)) (w_st w))).

Definition rand_step (n : nat) (env : Env) (st : TxSt) : outcome string * TxSt :=
  let '(mkTxSt t now cur aborted durable locked held) := st in
  (Ok (bytes_from (env_rand env t) n), mkTxSt (S t) now cur aborted durable locked held).

Definition tx_rand_Read (n : nat) : txM string := act (rand_step n).

(** pkg/id: [New prefix], outside and inside a transaction. *)
Module Id.
Open Scope go_scope.

Definition format (prefix b : string) : string := prefix +:+ "_" +:+ Encoding.hex b.

Definition New (prefix : string) : prog World string :=
  let! b := rand_Read 12 in ret (format prefix b).

Definition tx_New (prefix : string) : txM string :=
  let! b := tx_rand_Read 12 in ret (format prefix b).
End Id.

(** deref and strPtr (adapter/postgres): NULL and the empty string. *)
Definition deref (s : option string) : string := default "" s.
Definition strPtr (s : string) : option string := if (s =? "")%string then None else Some s.

Lemma deref_strPtr s : deref (strPtr s) = s.
Proof. unfold deref, strPtr. by destruct (String.eqb_spec s "") as [->|]. Qed.

#[export] Hint Rewrite deref_strPtr : tables.

(** ** Linearisable programs

    [lin S p]: the program takes some steps that leave the state as it is, and
    then one last step that takes the state from [st] to [st'] with outcome [r]
    such that [S st r st'].  It is the form in which a repository states what
    it promises: to its clients the operation happens at one instant. *)

Definition step_spec (A : Type) : Type := State -> outcome A -> State -> Prop.

Fixpoint lin {A} (S : step_spec A) (p : prog World A) : Prop :=
  match p with
  | Done _ => False
  | Step f g =>
      forall env w,
        (w_st (snd (f env w)) = w_st w /\ lin S (g (fst (f env w)))) \/
        (exists r, g (fst (f env w)) = Done r /\ S (w_st w) r (w_st (snd (f env w))))
  end.

Definition silent (w w' : World) : Prop := w_st w' = w_st w.

(** An invariant on states, as one on worlds. *)
Definition on_state (I : Z -> State -> Prop) (t : Z) (w : World) : Prop := I t (w_st w).

Lemma lin_act {A} (S : step_spec A) (f : Env -> World -> outcome A * World) :
  (forall env w, S (w_st w) (fst (f env w)) (w_st (snd (f env w)))) -> lin S (act f).
Proof. intros H env w. right. eauto. Qed.

Lemma lin_mono {A} (S S' : step_spec A) p :
  (forall st r st', S st r st' -> S' st r st') -> lin S p -> lin S' p.
Proof.
  intros HS. induction p as [r|X f g IH]; simpl; [done|].
  intros H env w. destruct (H env w) as [[? ?]|(r & ? & ?)]; [left|right]; eauto.
Qed.

(** A silent prefix. *)
Lemma lin_silent {A B} (S : step_spec B) (p : prog World A) (k : A -> prog World B) :
  guar silent p -> (forall a, lin S (k a)) ->
  (exists X f (g : X -> prog World A), p = Step f g) ->
  (forall st e, S st (Err e) st) -> (forall st, S st Panic st) ->
  lin S (pbind p k).
Proof.
  intros Hp Hk Hstep He Hpan. destruct Hstep as (X & f & g & ->). revert X f g Hp.
  assert (Hgen : forall (q : prog World A), guar silent q ->
    (exists r, pbind q k = Done r /\ forall st, S st r st) \/ lin S (pbind q k)).
  { intros q. induction q as [[a|e|]|Y f g IH]; simpl; intros Hq.
    - right. apply Hk.
    - left. eauto.
    - left. eauto.
    - right. intros env w. destruct (Hq env w) as [H1 H2].
      destruct (IH _ H2) as [(r & Hr & HS)|H]; [right | by left].
      exists r. split; [done|]. rewrite H1. apply HS. }
  intros X f g Hp. destruct (Hgen (Step f g) Hp) as [(r & Hr & _)|H]; [done | done].
Qed.

(** A pure continuation. *)
Lemma lin_map {A B} (S : step_spec A) (S' : step_spec B) (p : prog World A)
    (k : A -> prog World B) (h : A -> outcome B) :
  (forall a, k a = Done (h a)) ->
  (forall st st' a, S st (Ok a) st' -> S' st (h a) st') ->
  (forall st st' e, S st (Err e) st' -> S' st (Err e) st') ->
  (forall st st', S st Panic st' -> S' st Panic st') ->
  lin S p -> lin S' (pbind p k).
Proof.
  intros Hk Ha He Hpan. induction p as [r|X f g IH]; simpl; [done|].
  intros H env w. destruct (H env w) as [[? ?]|(r & Hr & HS)]; [left; eauto|right].
  rewrite Hr. destruct r as [a|e|]; simpl; [rewrite Hk|..]; eauto.
Qed.

Lemma lin_try {A} (S : step_spec A) (S' : step_spec (A + goerr)) (p : prog World A) :
  (forall st st' a, S st (Ok a) st' -> S' st (Ok (inl a)) st') ->
  (forall st st' e, S st (Err e) st' -> S' st (Ok (inr e)) st') ->
  (forall st st', S st Panic st' -> S' st Panic st') ->
  lin S p -> lin S' (ptry p).
Proof.
  intros Ha He Hpan. induction p as [r|X f g IH]; simpl; [done|].
  intros H env w. destruct (H env w) as [[? ?]|(r & Hr & HS)]; [left; eauto|right].
  rewrite Hr. destruct r as [a|e|]; simpl; eauto.
Qed.

(** What a client of a linearisable operation may use. *)
Lemma wpt_lin {A} (S : step_spec A) (I : Z -> State -> Prop) Q t (p : prog World A) :
  0 <= t -> lin S p ->
  (forall st rest r st', 0 <= rest -> I (t + rest) st -> S st r st' ->
     exists t', 0 <= t' /\ I (t' + rest) st' /\ Q r t') ->
  wpt (on_state I) Q t p.
Proof.
  intros Ht. induction p as [r|X f g IH]; simpl; [done|].
  intros Hlin HQ env w rest Hrest HI.
  destruct (Hlin env w) as [[Hs Hk]|(r & Hr & HS)].
  - exists t. split; [done|]. unfold on_state. rewrite Hs. split; [done|]. by apply IH.
  - destruct (HQ _ _ _ _ Hrest HI HS) as (t' & ? & ? & ?).
    exists t'. rewrite Hr. done.
Qed.

Lemma run_lin {A} (S : step_spec A) (p : prog World A) env w :
  lin S p -> S (w_st w) (fst (run env p w)) (w_st (snd (run env p w))).
Proof.
  revert w. induction p as [r|X f g IH]; intros w; simpl; [done|].
  intros H. destruct (H env w) as [[Hs Hk]|(r & Hr & HS)];
    destruct (f env w) as [x w'] eqn:Ef; simpl in *.
  - rewrite <- Hs. by apply IH.
  - by rewrite Hr.
Qed.

Lemma guar_lin {A} (S : step_spec A) (R : World -> World -> Prop) (p : prog World A) :
  (forall w w', w_st w' = w_st w -> R w w') ->
  (forall w w' r, S (w_st w) r (w_st w') -> R w w') ->
  lin S p -> guar R p.
Proof.
  intros HR HS. induction p as [r|X f g IH]; simpl; [done|].
  intros H env w. destruct (H env w) as [[Hs Hk]|(r & Hr & HSr)].
  - split; eauto.
  - split; [eauto|]. by rewrite Hr.
Qed.

(** ** The silent primitives *)

Lemma guar_Now R : (forall w w', w_st w' = w_st w -> R w w') -> guar R Now.
Proof. intros H. apply guar_act. intros. by apply H. Qed.

Lemma guar_rand R n : (forall w w', w_st w' = w_st w -> R w w') -> guar R (rand_Read n).
Proof. intros H. apply guar_act. intros. by apply H. Qed.

Lemma guar_New R p : (forall w w', w_st w' = w_st w -> R w w') -> guar R (Id.New p).
Proof. intros H. apply guar_bind; [by apply guar_rand | done]. Qed.

(** ** One statement as a linearisable operation *)

(** [exec_spec s]: the statement succeeds, fails, is lost, or is applied
    without an acknowledgement. *)
Inductive exec_spec {A} (s : stmt A) : step_spec A :=
| exec_ok st ctx a d : s ctx (s_db st) = inl (a, d) -> exec_spec s st (Ok a) (set_db d st)
| exec_err st ctx e : s ctx (s_db st) = inr e -> exec_spec s st (Err e) st
| exec_lost st m : exec_spec s st (Err (fault_err m)) st
| exec_unacked st ctx a d m :
    s ctx (s_db st) = inl (a, d) -> exec_spec s st (Err (fault_err m)) (set_db d st).

Lemma run_exec_spec {A} (s : stmt A) env w :
  exec_spec s (w_st w) (fst (exec_step s env w)) (w_st (snd (exec_step s env w))).
Proof.
  unfold exec_step, w_db.
  set (ctx := sql_ctx _ _ _).
  destruct (s ctx (s_db (w_st w))) as [[a d]|e] eqn:E;
    destruct (env_fault env (w_tick w)) as [|m|m]; simpl;
    eauto using exec_ok, exec_err, exec_lost, exec_unacked.
Qed.

(** A statement that reports success was applied. *)
Lemma run_exec_inv {A} env (s : stmt A) w a w' :
  run env (exec s) w = (Ok a, w') ->
  exists ctx d, s ctx (w_db w) = inl (a, d) /\ w_db w' = d.
Proof.
  unfold exec. rewrite run_act. unfold exec_step.
  set (ctx := sql_ctx _ _ _).
  destruct (s ctx (w_db w)) as [[a' d]|e] eqn:E;
    destruct (env_fault env (w_tick w)); try done. intros [= <- <-]. by exists ctx, d.
Qed.

Lemma exec_lin {A} (s : stmt A) : lin (exec_spec s) (exec s).
Proof. apply lin_act. intros. apply run_exec_spec. Qed.

(** [lin_done S st p st']: the rest [p] has nothing to do but return. *)
Definition lin_done {B} (S : step_spec B) (st : State) (p : prog World B) (st' : State) : Prop :=
  exists o, p = Done o /\ S st o st'.

(** One statement, then a decision on its result: on an error that left the
    state alone the program may go on. *)
Lemma lin_exec_try {A B} (S : step_spec B) (s : stmt A) (k : A + goerr -> prog World B) :
  (forall st ctx a d, s ctx (s_db st) = inl (a, d) ->
     lin_done S st (k (inl a)) (set_db d st)) ->
  (forall st ctx e, s ctx (s_db st) = inr e ->
     lin_done S st (k (inr e)) st \/ lin S (k (inr e))) ->
  (forall st m, lin_done S st (k (inr (ErrOther m))) st) ->
  (forall st ctx a d m, s ctx (s_db st) = inl (a, d) ->
     lin_done S st (k (inr (ErrOther m))) (set_db d st)) ->
  lin S (pbind (ptry (exec s)) k).
Proof.
  intros Hok Herr Hlost Hun. simpl. intros env w.
  pose proof (run_exec_spec s env w) as HS.
  destruct (exec_step s env w) as [r w']. simpl in *.
  inversion HS as [st ctx a d E|st ctx e E|st m E|st ctx a d m E]; subst; simpl.
  - right. eapply Hok, E.
  - destruct (Herr _ _ _ E) as [H|H]; [by right | by left].
  - right. apply Hlost.
  - right. eapply Hun, E.
Qed.

(** A statement that does not write. *)
Definition read_only {A} (s : stmt A) : Prop :=
  forall ctx d a d', s ctx d = inl (a, d') -> d' = d.

Lemma set_db_id st : set_db (s_db st) st = st.
Proof. by destruct st. Qed.

(** Nothing but the database changes, and only if the statement changes it. *)
Lemma exec_read_lin {A} (s : stmt A) :
  read_only s -> lin (fun st _ st' => st' = st) (exec s).
Proof.
  intros Hs. eapply lin_mono; [|apply exec_lin].
  intros st r st' H. inversion H; subst; try done;
    match goal with E : s _ _ = inl _ |- _ => apply Hs in E as -> end; apply set_db_id.
Qed.

(** A query whose result, good or bad, is only turned into a value. *)
Lemma lin_query {A B} (s : stmt A) (k : A + goerr -> prog World B) :
  read_only s -> (forall x, exists o, k x = Done o) ->
  lin (fun st _ st' => st' = st) (pbind (ptry (exec s)) k).
Proof.
  intros Hs Hk. apply lin_exec_try; unfold lin_done.
  - intros st ctx a d E. apply Hs in E as ->. destruct (Hk (inl a)) as [o ->].
    eexists. split; [done|]. apply set_db_id.
  - intros st ctx e _. left. destruct (Hk (inr e)) as [o ->]. by eexists.
  - intros st m. destruct (Hk (inr (ErrOther m))) as [o ->]. by eexists.
  - intros st ctx a d m E. apply Hs in E as ->. destruct (Hk (inr (ErrOther m))) as [o ->].
    eexists. split; [done|]. apply set_db_id.
Qed.

(** ** Reasoning about transaction bodies

    [txwp m d Q]: from a fresh transaction on [d], with no row locked by another,
    [m] ends with an outcome, an aborted flag, a private copy and a published
    database that satisfy [Q]. *)

Definition tx_post {A} (Q : outcome A -> bool -> DB -> option DB -> Prop)
    (res : outcome A * TxSt) : Prop :=
  let '(r, st) := res in
  tx_locked st = [] /\ Q r (tx_aborted st) (tx_cur st) (tx_durable st).

Definition txwp {A} (m : txM A) (d : DB)
    (Q : outcome A -> bool -> DB -> option DB -> Prop) : Prop :=
  forall env now n held, tx_post Q (run env m (mkTxSt n now d false None [] held)).

Lemma txwp_ret {A} (a : A) d Q : Q (Ok a) false d None -> txwp (ret a) d Q.
Proof. by intros H env now n held. Qed.

Lemma txwp_fail {A} e d (Q : outcome A -> _) : Q (Err e) false d None -> txwp (fail e) d Q.
Proof. by intros H env now n held. Qed.

(** A random draw, then the rest. *)
Lemma txwp_New {B} prefix (k : string -> txM B) d Q :
  (forall s, txwp (k s) d Q) -> txwp (pbind (Id.tx_New prefix) k) d Q.
Proof. intros H env now n held. apply (H _ env now (S n)). Qed.

(** A statement whose every error ends the transaction. *)
Lemma txwp_step {A B} (s : stmt A) locks (k : A -> txM B) d Q :
  (forall ctx a d', sql_locked ctx = [] -> s ctx d = inl (a, d') -> txwp (k a) d' Q) ->
  (forall e ab, Q (Err e) ab d None) ->
  txwp (pbind (act (stmt_step s locks)) k) d Q.
Proof.
  intros Hok Herr env now n held. rewrite run_bind, run_act. unfold stmt_step. simpl.
  destruct (env_fault env n); simpl; [|by split..].
  destruct (s _ d) as [[a d']|e] eqn:E; [by apply (Hok _ a d' (eq_refl : sql_locked (sql_ctx_locked _ _ _ _) = _) E)|].
  by destruct e; split.
Qed.

Lemma txwp_stmt {A B} (s : stmt A) (k : A -> txM B) d Q :
  (forall ctx a d', s ctx d = inl (a, d') -> txwp (k a) d' Q) ->
  (forall e ab, Q (Err e) ab d None) ->
  txwp (pbind (tx_stmt s) k) d Q.
Proof. intros Hok. apply txwp_step. eauto. Qed.

(** COMMIT publishes the private copy, perhaps without saying so. *)
Lemma txwp_commit {B} (k : unit -> txM B) b d Q :
  k tt = ret b ->
  Q (Ok b) false d (Some d) -> (forall e, Q (Err e) true d None) ->
  (forall e, Q (Err e) false d (Some d)) ->
  txwp (pbind tx_commit k) d Q.
Proof.
  intros Hk Hok Hlost Hunacked env now n held. unfold tx_commit.
  rewrite run_bind, run_act. unfold commit_step. simpl.
  destruct (env_fault env n); simpl; [rewrite Hk|..]; by split.
Qed.

(** Sequencing in general. *)
Lemma txwp_bind {A B} (m : txM A) (k : A -> txM B) d Q :
  txwp m d (fun r ab d' dur =>
    match r with
    | Ok a => ab = false /\ dur = None /\ txwp (k a) d' Q
    | Err e => Q (Err e) ab d' dur
    | Panic => Q Panic ab d' dur
    end) -> txwp (pbind m k) d Q.
Proof.
  intros H env now n held. specialize (H env now n held). rewrite run_bind.
  destruct (run env m _) as [[a|e|] [n' now' d' ab dur l h]]; simpl in *; [|done..].
  destruct H as (-> & -> & -> & H). apply H.
Qed.

(** [dead m]: in an aborted transaction [m] does nothing and fails. *)
Definition dead {A} (m : txM A) : Prop :=
  forall env st, tx_aborted st = true ->
  exists e st', run env m st = (Err e, st') /\ tx_aborted st' = true /\
                tx_durable st' = tx_durable st /\ tx_locked st' = tx_locked st.

Lemma dead_stmt {A B} (s : stmt A) (k : A -> txM B) : dead (pbind (tx_stmt s) k).
Proof.
  intros env [n now d ab dur l h] H. simpl in H. subst ab.
  unfold tx_stmt. rewrite run_bind, run_act. by eexists _, _.
Qed.

Lemma dead_fail {A} e : dead (@fail TxSt A e).
Proof. intros env st H. by eexists _, _. Qed.

(** A statement whose error the code inspects and goes on after. *)
Lemma txwp_try_stmt_dead {A B} (s : stmt A) (k : A + goerr -> txM B) d Q :
  (forall ctx a d', s ctx d = inl (a, d') -> txwp (k (inl a)) d' Q) ->
  (forall ctx, s ctx d = inr ErrNoRows -> txwp (k (inr ErrNoRows)) d Q) ->
  (forall e, e <> ErrNoRows -> dead (k (inr e))) ->
  (forall e d', Q (Err e) true d' None) ->
  txwp (pbind (ptry (tx_stmt s)) k) d Q.
Proof.
  intros Hok Hnone Hdead Herr env now n held.
  assert (forall e st, e <> ErrNoRows -> tx_aborted st = true -> tx_durable st = None ->
    tx_locked st = [] -> tx_post Q (run env (k (inr e)) st)) as Hd.
  { intros e st He Hab Hdur Hl.
    destruct (Hdead e He env st Hab) as (e' & st' & -> & Hab' & Hdur' & Hl').
    unfold tx_post. rewrite Hab', Hdur', Hl', Hdur. split; [done|apply Herr]. }
  unfold tx_stmt. rewrite run_bind, run_try, run_act. unfold stmt_step. simpl.
  destruct (env_fault env n); simpl; [|by apply Hd..].
  destruct (s _ d) as [[a d']|e] eqn:E; [by apply (Hok _ _ _ E)|].
  destruct e; try (by apply Hd). apply (Hnone _ E).
Qed.

(** A statement whose "no rows" the code inspects. *)
Lemma txwp_try_stmt {A B} (s : stmt A) (k : A + goerr -> txM B) d Q :
  (forall ctx a d', s ctx d = inl (a, d') -> txwp (k (inl a)) d' Q) ->
  (forall ctx, s ctx d = inr ErrNoRows -> txwp (k (inr ErrNoRows)) d Q) ->
  (forall e, e <> ErrNoRows -> k (inr e) = fail e) ->
  (forall e d', Q (Err e) true d' None) ->
  txwp (pbind (ptry (tx_stmt s)) k) d Q.
Proof.
  intros Hok Hnone Hk Herr. apply txwp_try_stmt_dead; [done..| |done].
  intros e He. rewrite Hk by done. apply dead_fail.
Qed.

(** A transaction as a linearisable operation. *)
Lemma transact_lin {A} (S : step_spec A) (body : txM A) :
  (forall st e, S st (Err e) st) ->
  (forall st, txwp body (s_db st) (fun r _ _ dur =>
     S st r (match dur with Some d => set_db d st | None => st end))) ->
  lin S (transact body).
Proof.
  intros Hbegin Hbody. apply lin_act. intros env w. unfold transact_step.
  destruct (env_fault env (w_tick w)); [|apply Hbegin..].
  pose proof (Hbody (w_st w) env (env_clock env (w_tick w)) (Datatypes.S (w_tick w)) []) as H.
  unfold w_db. destruct (run env body _) as [r st']. apply H.
Qed.
