(* ===== verification/Sessions.v ===== *)
(** * Sessions: transactions interleaved statement by statement

    Store's [transact] runs the body of a transaction in one step.  Here the same
    body is run the way Postgres runs it at READ COMMITTED: every statement,
    BEGIN, COMMIT and ROLLBACK is a step of its own, and anything may happen
    between two of them.

    A connection with an open transaction has an entry in [se_open]: its own
    writes so far (functions, replayed over whatever is committed when its next
    statement starts) and the outbox rows it holds locked.  COMMIT publishes the
    replayed writes and releases the locks; the deferred Rollback forgets the
    entry.  A write that no longer applies, because a key was committed by
    another meanwhile, fails the transaction.

    An UPDATE that would wait for another transaction's row lock is not modelled
    as waiting; in the transaction run this way (DrainOutbox) every UPDATE is of
    a row it holds locked.

    [session_alone]: with no other transaction open, it does what [transact]
    does.  [rg] and [txrg] are a rely-guarantee logic: a thread owns the entry of
    its connection, and a global invariant relates the entries to the database. *)

From S2P Require Import Prelude.
From S2P Require Import Domain.
From S2P Require Import Effects.
From S2P Require Import GoLib.
From S2P Require Import Store.
From stdpp Require Import gmap strings list.
From Stdlib Require Import ZArith Lia.

Open Scope Z_scope.
Open Scope go_scope.

Record OpenTx := mkOpenTx {
  ot_now : Time;                       (* of BEGIN *)
  ot_log : list (DB -> option DB);     (* its writes, oldest first *)
  ot_aborted : bool;
  ot_locks : list OutboxRow            (* the rows it locked, as it read them *)
}.

Record Sessions := mkSessions { se_world : World; se_open : gmap nat OpenTx }.

Definition replay (log : list (DB -> option DB)) (d : DB) : option DB :=
  foldl (fun od write => od ≫= write) (Some d) log.

Definition lock_ids (o : OpenTx) : list Z := map ob_id (ot_locks o).

(** The outbox ids the connections other than [i] hold locked. *)
Definition locked_elsewhere (i : nat) (open : gmap nat OpenTx) : list Z :=
  flat_map (fun e => lock_ids (snd e)) (map_to_list (delete i open)).

(** What the next statement of connection [i] runs on. *)
Definition view (i : nat) (o : OpenTx) (se : Sessions) : TxSt :=
  let w := se_world se in
  let st d aborted :=
    mkTxSt (w_tick w) (ot_now o) d aborted None (locked_elsewhere i (se_open se)) (ot_locks o) in
  match replay (ot_log o) (w_db w) with
  | Some d => st d (ot_aborted o)
  | None => st (w_db w) true
  end.

Definition with_cur (d : DB) (st : TxSt) : TxSt :=
  mkTxSt (tx_tick st) (tx_now st) d (tx_aborted st) (tx_durable st) (tx_locked st) (tx_locks st).

(** What the step wrote, as a function of what it saw. *)
Definition write_of {X} (f : Env -> TxSt -> X * TxSt) (env : Env) (st : TxSt) (d : DB)
  : option DB :=
  let st' := snd (f env (with_cur d st)) in
  if tx_aborted st' then None else Some (tx_cur st').

(** The entry after a step: a COMMIT leaves nothing to undo and no lock. *)
Definition entry_after {X} (f : Env -> TxSt -> X * TxSt) (env : Env) (o : OpenTx)
    (st st' : TxSt) : OpenTx :=
  match tx_durable st' with
  | Some _ => mkOpenTx (ot_now o) [] false []
  | None =>
      mkOpenTx (ot_now o)
        (if tx_aborted st' then ot_log o else ot_log o ++ [write_of f env st])
        (tx_aborted st') (tx_locks st')
  end.

(** One statement or COMMIT of the transaction of connection [i]; without one,
    a statement finds a closed transaction. *)
Definition session_step {X} (i : nat) (f : Env -> TxSt -> X * TxSt) (env : Env)
    (se : Sessions) : X * Sessions :=
  let w := se_world se in
  match se_open se !! i with
  | None => (fst (f env (mkTxSt (w_tick w) 0 (w_db w) true None [] [])), se)
  | Some o =>
      let st := view i o se in
      let '(x, st') := f env st in
      (x, mkSessions
            (mkWorld (tx_tick st')
               (match tx_durable st' with
                | Some d => set_db d (w_st w)
                | None => w_st w
                end))
            (<[i := entry_after f env o st st']> (se_open se)))
  end.

Definition begin_step (i : nat) (env : Env) (se : Sessions) : outcome unit * Sessions :=
  let w := se_world se in
  let n := w_tick w in
  match env_fault env n with
  | FaultBefore m | FaultAfter m =>
      (Err (fault_err m), mkSessions (mkWorld (S n) (w_st w)) (se_open se))
  | NoFault =>
      (Ok tt, mkSessions (mkWorld (S n) (w_st w))
                (<[i := mkOpenTx (env_clock env n) [] false []]> (se_open se)))
  end.

Definition rollback_step (i : nat) (_ : Env) (se : Sessions) : unit * Sessions :=
  (tt, mkSessions (se_world se) (delete i (se_open se))).

Fixpoint session_body {A} (i : nat) (p : txM A) : prog Sessions A :=
  match p with
  | Done r => Step (rollback_step i) (fun _ => Done r)
  | Step f k => Step (session_step i f) (fun x => session_body i (k x))
  end.

(** BEGIN; body; deferred Rollback, on connection [i]. *)
Definition transact_session {A} (i : nat) (body : txM A) : prog Sessions A :=
  do! act (begin_step i) in session_body i body.

(** A program that opens no transaction of its own, among the sessions. *)
Fixpoint lift {A} (p : prog World A) : prog Sessions A :=
  match p with
  | Done r => Done r
  | Step f k =>
      Step (fun env se => let '(x, w) := f env (se_world se) in
                          (x, mkSessions w (se_open se)))
        (fun x => lift (k x))
  end.

Lemma run_lift {A} env (p : prog World A) w open :
  run env (lift p) (mkSessions w open) =
  let '(r, w') := run env p w in (r, mkSessions w' open).
Proof.
  revert w. induction p as [r|X f k IH]; intros w; simpl; [done|].
  destruct (f env w) as [x w']. apply IH.
Qed.

Lemma replay_snoc log w d : replay (log ++ [w]) d = replay log d ≫= w.
Proof. unfold replay. by rewrite foldl_app. Qed.

(** ** Alone, a session is [transact] *)

(** A body whose failed steps write nothing and whose COMMIT, if [commits] allows
    one, comes last. *)
Fixpoint plain {A} (commits : bool) (p : txM A) : Prop :=
  match p with
  | Done _ => True
  | Step f k => forall env st, tx_durable st = None ->
      let '(x, st') := f env st in
      tx_now st' = tx_now st /\ tx_locked st' = tx_locked st /\
      (tx_aborted st' = true -> tx_cur st' = tx_cur st) /\
      (tx_durable st' = None /\ plain commits (k x) \/
       commits = true /\ tx_durable st' = Some (tx_cur st') /\ exists r, k x = Done r)
  end.

Lemma locked_elsewhere_alone i o : locked_elsewhere i {[i := o]} = [].
Proof. unfold locked_elsewhere. by rewrite delete_singleton_eq, map_to_list_empty. Qed.

(** The result of a transaction whose body ended at [st]. *)
Definition settled {A} (s : State) (res : outcome A * TxSt) : outcome A * Sessions :=
  let '(r, st) := res in
  (r, mkSessions (mkWorld (tx_tick st)
        (match tx_durable st with Some d => set_db d s | None => s end)) ∅).

Lemma session_body_alone {A} env i (p : txM A) now log n s d aborted locks :
  plain true p -> replay log (s_db s) = Some d ->
  run env (session_body i p)
    (mkSessions (mkWorld n s) {[i := mkOpenTx now log aborted locks]}) =
  settled s (run env p (mkTxSt n now d aborted None [] locks)).
Proof.
  revert log n d aborted locks. induction p as [r|X f k IH]; intros log n d aborted locks Hp Hd;
    simpl.
  { by rewrite delete_singleton_eq. }
  unfold session_step. simpl. rewrite lookup_singleton_eq. unfold view. simpl.
  rewrite locked_elsewhere_alone. change (w_db (mkWorld n s)) with (s_db s). rewrite Hd.
  set (st := mkTxSt n now d aborted None [] locks).
  pose proof (Hp env st eq_refl) as H. destruct (f env st) as [x st'] eqn:Ef.
  destruct H as (Hnow & Hlocked & Hab & H). rewrite insert_singleton_eq.
  unfold entry_after. destruct H as [[Hdur Hk]|(_ & Hdur & [r ->])]; rewrite Hdur.
  - cbn [run session_body ot_log ot_now]. set (log' := if tx_aborted st' then log else log ++ [write_of f env st]).
    rewrite (IH x log' (tx_tick st') (tx_cur st') (tx_aborted st') (tx_locks st') Hk).
    + destruct st' as [n' now' d' ab' dur' l' h']. simpl in *. by subst.
    + unfold log'. destruct (tx_aborted st') eqn:E; [by rewrite Hab|].
      rewrite replay_snoc, Hd. simpl. unfold write_of.
      change (with_cur d st) with st. rewrite Ef. simpl. by rewrite E.
  - simpl. by rewrite delete_singleton_eq, Hdur.
Qed.

Theorem session_alone {A} env i (body : txM A) w :
  plain true body ->
  run env (transact_session i body) (mkSessions w ∅) =
  let '(r, w') := run env (transact body) w in (r, mkSessions w' ∅).
Proof.
  intros Hp. unfold transact_session, transact. rewrite run_bind, !run_act.
  unfold begin_step, transact_step. simpl. destruct (env_fault env (w_tick w)); [|done..].
  rewrite insert_empty, (session_body_alone env i body _ [] _ (w_st w) (w_db w)) by done.
  unfold settled. by destruct (run env body _) as [r st].
Qed.

Lemma plain_bind {A B} c (p : txM A) (k : A -> txM B) :
  plain false p -> (forall a, plain c (k a)) -> plain c (pbind p k).
Proof.
  intros Hp Hk. induction p as [[a|e|]|X f g IH]; simpl; [done..|].
  intros env st Hst. specialize (Hp env st Hst). destruct (f env st) as [x st'].
  destruct Hp as (H1 & H2 & H3 & [[H4 H5]|[? _]]); [|done]. eauto 10.
Qed.

Lemma plain_try {A} (p : txM A) : plain false p -> plain false (ptry p).
Proof.
  intros Hp. induction p as [[a|e|]|X f g IH]; simpl; [done..|].
  intros env st Hst. specialize (Hp env st Hst). destruct (f env st) as [x st'].
  destruct Hp as (H1 & H2 & H3 & [[H4 H5]|[? _]]); [|done]. eauto 10.
Qed.

Lemma plain_act {A} (f : Env -> TxSt -> outcome A * TxSt) :
  (forall env st, let st' := snd (f env st) in
     tx_now st' = tx_now st /\ tx_locked st' = tx_locked st /\
     tx_durable st' = tx_durable st /\
     (tx_aborted st' = true -> tx_cur st' = tx_cur st)) ->
  plain false (act f).
Proof.
  intros H env st Hst. specialize (H env st). destruct (f env st) as [r st']. simpl in H.
  destruct H as (? & ? & -> & ?). split; [done|]. split; [done|]. split; [done|]. by left.
Qed.

Lemma plain_step {A} (s : stmt A) locks : plain false (act (stmt_step s locks)).
Proof.
  apply plain_act. intros env [n now d ab dur l h]. unfold stmt_step. simpl.
  destruct ab; [done|]. destruct (env_fault env n); [|done..].
  destruct (s _ d) as [[a d']|[]]; done.
Qed.

Lemma plain_stmt {A} (s : stmt A) : plain false (tx_stmt s).
Proof. apply plain_step. Qed.

Lemma plain_New prefix : plain false (Id.tx_New prefix).
Proof. apply plain_bind; [|done]. apply plain_act. by intros env []. Qed.

(** COMMIT, then the result. *)
Lemma plain_commit {A} (k : unit -> txM A) b : k tt = ret b -> plain true (pbind tx_commit k).
Proof.
  intros Hk env [n now d ab dur l h] Hst. simpl in Hst. subst dur.
  unfold commit_step. simpl. destruct ab; [split; [done|]; split; [done|]; split; [done|by left]|].
  destruct (env_fault env n); simpl; (split; [done|]); (split; [done|]); (split; [done|]).
  - right. rewrite Hk. eauto.
  - left. done.
  - right. eauto.
Qed.

(** ** A rely-guarantee logic

    Thread [i] owns entry [i] of [se_open]; every step keeps the invariant [G]
    and the entries of the others. *)

Section Logic.
Context (G : Sessions -> Prop).

Fixpoint rg {A} (i : nat) (Q : outcome A -> option OpenTx -> Prop) (o : option OpenTx)
    (p : prog Sessions A) : Prop :=
  match p with
  | Done r => Q r o
  | Step f k => forall env se, G se -> se_open se !! i = o ->
      let '(x, se') := f env se in
      G se' /\ (forall j, j <> i -> se_open se' !! j = se_open se !! j) /\
      rg i Q (se_open se' !! i) (k x)
  end.

Lemma rg_mono {A} i (Q Q' : outcome A -> option OpenTx -> Prop) o p :
  (forall r o, Q r o -> Q' r o) -> rg i Q o p -> rg i Q' o p.
Proof.
  intros HQ. revert o. induction p as [r|X f k IH]; intros o; simpl; [apply HQ|].
  intros H env se HG Ho. specialize (H env se HG Ho). destruct (f env se) as [x se'].
  destruct H as (? & ? & ?). eauto.
Qed.

Lemma rg_bind {A B} i (Q : outcome B -> option OpenTx -> Prop) o (p : prog Sessions A) k :
  rg i (fun r o => match r with
                   | Ok a => rg i Q o (k a)
                   | Err e => Q (Err e) o
                   | Panic => Q Panic o
                   end) o p -> rg i Q o (pbind p k).
Proof.
  revert o. induction p as [[a|e|]|X f g IH]; intros o; simpl; [done..|].
  intros H env se HG Ho. specialize (H env se HG Ho). destruct (f env se) as [x se'].
  destruct H as (? & ? & ?). eauto.
Qed.

Lemma rg_ignore {A} i (Q : outcome unit -> option OpenTx -> Prop) o (p : prog Sessions A) :
  rg i (fun r o => Q (match r with Panic => Panic | _ => Ok tt end) o) o p ->
  rg i Q o (pignore p).
Proof.
  unfold pignore. revert o. induction p as [[a|e|]|X f g IH]; intros o; simpl; [done..|].
  intros H env se HG Ho. specialize (H env se HG Ho). destruct (f env se) as [x se'].
  destruct H as (? & ? & ?). eauto.
Qed.

(** A program without transactions of its own. *)
Lemma rg_lift {A} (R : World -> World -> Prop) i Q o (p : prog World A) :
  (forall w w' open, R w w' -> G (mkSessions w open) -> G (mkSessions w' open)) ->
  guar R p -> (forall r, Q r o) -> rg i Q o (lift p).
Proof.
  intros HR Hp HQ. induction p as [r|X f k IH]; simpl; [apply HQ|].
  intros env [w open] HG Ho. destruct (Hp env w) as [H1 H2]. simpl in *.
  destruct (f env w) as [x w']. simpl in *. split; [by eapply HR|]. split; [done|].
  rewrite Ho. by apply IH.
Qed.

(** Under every schedule the invariant is kept. *)
Definition pool_rg (ps : list (prog Sessions unit)) (se : Sessions) : Prop :=
  forall i p, ps !! i = Some p -> rg i (fun _ _ => True) (se_open se !! i) p.

Lemma run_sched_rg env sched ps se :
  pool_rg ps se -> G se -> G (snd (run_sched env sched ps se)).
Proof.
  revert ps se. induction sched as [|i sched IH]; intros ps se Hps HG; simpl; [done|].
  unfold pool_step. destruct (ps !! i) as [p|] eqn:Ep; [|by apply IH].
  pose proof (Hps i p Ep) as Hp. destruct p as [r|X f k]; simpl.
  { rewrite list_insert_id by done. by apply IH. }
  specialize (Hp env se HG eq_refl). destruct (f env se) as [x se'].
  destruct Hp as (HG' & Hframe & Hk). apply IH; [|done].
  intros j q Hq. destruct (decide (j = i)) as [->|Hne].
  - rewrite list_lookup_insert_eq in Hq by (by eapply lookup_lt_Some). by injection Hq as <-.
  - rewrite list_lookup_insert_ne in Hq by done. rewrite Hframe by done. by apply Hps.
Qed.

(** *** Inside a transaction *)

Fixpoint txrg {A} (i : nat) (Q : outcome A -> OpenTx -> Prop) (o : OpenTx) (p : txM A)
  : Prop :=
  match p with
  | Done r => Q r o
  | Step f k => forall env se, G se -> se_open se !! i = Some o ->
      let '(x, se') := session_step i f env se in
      exists o', se_open se' = <[i := o']> (se_open se) /\ G se' /\ txrg i Q o' (k x)
  end.

Lemma txrg_mono {A} i (Q Q' : outcome A -> OpenTx -> Prop) o (p : txM A) :
  (forall r o, Q r o -> Q' r o) -> txrg i Q o p -> txrg i Q' o p.
Proof.
  intros HQ. revert o. induction p as [r|X f k IH]; intros o; simpl; [apply HQ|].
  intros H env se HG Ho. specialize (H env se HG Ho).
  destruct (session_step i f env se) as [x se']. destruct H as (o' & ? & ? & ?). eauto.
Qed.

Lemma txrg_bind {A B} i (Q : outcome B -> OpenTx -> Prop) o (p : txM A) (k : A -> txM B) :
  txrg i (fun r o => match r with
                     | Ok a => txrg i Q o (k a)
                     | Err e => Q (Err e) o
                     | Panic => Q Panic o
                     end) o p -> txrg i Q o (pbind p k).
Proof.
  revert o. induction p as [[a|e|]|X f g IH]; intros o; simpl; [done..|].
  intros H env se HG Ho. specialize (H env se HG Ho).
  destruct (session_step i f env se) as [x se']. destruct H as (o' & ? & ? & ?). eauto.
Qed.

Lemma txrg_try {A} i (Q : outcome (A + goerr) -> OpenTx -> Prop) o (p : txM A) :
  txrg i (fun r o => match r with
                     | Ok a => Q (Ok (inl a)) o
                     | Err e => Q (Ok (inr e)) o
                     | Panic => Q Panic o
                     end) o p -> txrg i Q o (ptry p).
Proof.
  revert o. induction p as [[a|e|]|X f g IH]; intros o; simpl; [done..|].
  intros H env se HG Ho. specialize (H env se HG Ho).
  destruct (session_step i f env se) as [x se']. destruct H as (o' & ? & ? & ?). eauto.
Qed.

(** The invariant reads the committed database and the locks, nothing else. *)
Class Invariant : Prop := {
  inv_tick w n open : G (mkSessions w open) -> G (mkSessions (mkWorld n (w_st w)) open);
  inv_entry w open i o o' :
    G (mkSessions w open) -> open !! i = Some o -> ot_locks o' = ot_locks o ->
    G (mkSessions w (<[i := o']> open));
  inv_begin w open i o' :
    G (mkSessions w open) -> open !! i = None -> ot_locks o' = [] ->
    G (mkSessions w (<[i := o']> open));
  inv_end w open i : G (mkSessions w open) -> G (mkSessions w (delete i open))
}.

Context {inv : Invariant}.

Lemma rg_transact {A} i (Q : outcome A -> option OpenTx -> Prop) (body : txM A) :
  (forall now, txrg i (fun r _ => Q r None) (mkOpenTx now [] false []) body) ->
  (forall e, Q (Err e) None) -> rg i Q None (transact_session i body).
Proof.
  intros Hbody He.
  assert (forall o, txrg i (fun r _ => Q r None) o body ->
                    rg i Q (Some o) (session_body i body)) as Hrest.
  { clear Hbody. induction body as [r|X f k IH]; intros o H env se HG Ho; simpl.
    - destruct se as [w open]. split; [by apply inv_end|].
      rewrite lookup_delete_eq. split; [|done]. intros j Hj. by rewrite lookup_delete_ne.
    - specialize (H env se HG Ho). destruct (session_step i f env se) as [x se'].
      destruct H as (o' & -> & HG' & Hk). split; [done|]. rewrite lookup_insert_eq.
      split; [|by apply IH]. intros j Hj. by rewrite lookup_insert_ne. }
  unfold transact_session. simpl. intros env [w open] HG Ho. unfold begin_step. simpl in *.
  destruct (env_fault env (w_tick w)); simpl.
  - split; [by apply inv_begin; [apply inv_tick|..]|]. rewrite lookup_insert_eq.
    split; [intros j Hj; by rewrite lookup_insert_ne|]. by apply Hrest.
  - split; [by apply inv_tick|]. rewrite Ho. split; [done|apply He].
  - split; [by apply inv_tick|]. rewrite Ho. split; [done|apply He].
Qed.

(** The log [log'] is [log] and then the write of [s]. *)
Definition wrote {A} (s : stmt A) (ctx : SqlCtx) (log log' : list (DB -> option DB)) : Prop :=
  forall d d', replay log' d = Some d' -> exists v, replay log d = Some v /\
    ((exists a, s ctx v = inl (a, d')) \/ d' = v /\ s ctx v = inr ErrNoRows).

(** What one statement of a session does: it runs on the committed database with
    the session's own writes, or it fails. *)
Definition stmt_effect {A} (s : stmt A) (locks : A -> list OutboxRow) (i : nat) (o : OpenTx)
    (se : Sessions) (x : outcome A) (o' : OpenTx) : Prop :=
  (exists ctx a v v', x = Ok a /\ sql_locked ctx = locked_elsewhere i (se_open se) /\
     replay (ot_log o) (w_db (se_world se)) = Some v /\ s ctx v = inl (a, v') /\
     wrote s ctx (ot_log o) (ot_log o') /\ ot_locks o' = ot_locks o ++ locks a) \/
  (exists e, x = Err e /\ ot_locks o' = ot_locks o /\
     (ot_log o' = ot_log o \/ exists ctx, wrote s ctx (ot_log o) (ot_log o'))).

Lemma write_of_stmt {A} (s : stmt A) locks env n now cur locked held log :
  env_fault env n = NoFault ->
  let st := mkTxSt n now cur false None locked held in
  wrote s (sql_ctx_locked locked env n now) log
    (log ++ [write_of (stmt_step s locks) env st]).
Proof.
  intros Hf st d d'. rewrite replay_snoc. destruct (replay log d) as [v|]; [|done]. simpl.
  unfold write_of, with_cur, st, stmt_step. simpl. rewrite Hf.
  destruct (s _ v) as [[a v']|e] eqn:E; simpl.
  - intros [= <-]. eauto.
  - destruct e; simpl; try done. intros [= <-]. eauto.
Qed.

Lemma session_stmt {A} (s : stmt A) locks i env se o :
  se_open se !! i = Some o ->
  let '(x, se') := session_step i (stmt_step s locks) env se in
  exists n o', se' = mkSessions (mkWorld n (w_st (se_world se))) (<[i := o']> (se_open se)) /\
    stmt_effect s locks i o se x o'.
Proof.
  intros Ho. unfold session_step, stmt_effect, view. rewrite Ho.
  set (locked := locked_elsewhere i (se_open se)). set (w := se_world se).
  destruct (replay (ot_log o) (w_db w)) as [v|] eqn:Ev; cbv beta iota zeta;
    match goal with |- context [stmt_step s locks env ?st] =>
      destruct (stmt_step s locks env st) as [x st'] eqn:E end;
    unfold stmt_step in E; simpl in E.
  2: { invc E. eexists _, _. split; [done|]. right. eexists. split; [done|]. split; [done|by left]. }
  destruct (ot_aborted o) eqn:Eab.
  { invc E. eexists _, _. split; [done|]. right. eexists. split; [done|]. split; [done|by left]. }
  destruct (env_fault env (w_tick w)) eqn:Ef;
    [|invc E; eexists _, _; split; [done|]; right; eexists; split; [done|];
      split; [done|by left]..].
  pose proof (write_of_stmt s locks env (w_tick w) (ot_now o) v locked (ot_locks o)
                (ot_log o) Ef) as Hw. simpl in Hw.
  destruct (s _ v) as [[a v']|e] eqn:Es; [invc E|destruct e; invc E];
    (eexists _, _; split; [done|]).
  { left. exists (sql_ctx_locked locked env (w_tick w) (ot_now o)), a, v, v'. repeat (split; [done|]). done. }
  all: right; eexists; split; [done|]; split; [done|]; first [by left | right; eauto].
Qed.

(** A statement that locks nothing. *)
Lemma txrg_stmt {A} (s : stmt A) i (Q : outcome A -> OpenTx -> Prop) o :
  (forall ctx a v v' o', s ctx v = inl (a, v') -> wrote s ctx (ot_log o) (ot_log o') ->
     ot_locks o' = ot_locks o -> Q (Ok a) o') ->
  (forall e o', ot_log o' = ot_log o \/ (exists ctx, wrote s ctx (ot_log o) (ot_log o')) ->
     ot_locks o' = ot_locks o -> Q (Err e) o') ->
  txrg i Q o (tx_stmt s).
Proof using inv.
  intros Hok Herr env [w open] HG Ho.
  pose proof (session_stmt s (fun _ => []) i env _ o Ho) as H.
  destruct (session_step i _ env _) as [x se'].
  destruct H as (n & o' & -> & H). simpl in *. exists o'. split; [done|].
  assert (ot_locks o' = ot_locks o) as Hl.
  { destruct H as [(? & ? & ? & ? & _ & _ & _ & _ & _ & ->)|(? & _ & -> & _)]; [|done].
    apply app_nil_r. }
  split; [eapply inv_entry; [by apply inv_tick|done..]|].
  destruct H as [(ctx & a & v & v' & -> & _ & _ & Hs & Hw & _)|(e & -> & _ & Hlog)]; eauto.
Qed.

(** SELECT ... FOR UPDATE: the invariant must hold with the new locks. *)
Lemma txrg_lock (s : stmt (list OutboxRow)) i (Q : outcome (list OutboxRow) -> OpenTx -> Prop) o :
  (forall w open ctx rows v v' o',
     G (mkSessions w open) -> open !! i = Some o ->
     sql_locked ctx = locked_elsewhere i open ->
     replay (ot_log o) (w_db w) = Some v -> s ctx v = inl (rows, v') ->
     wrote s ctx (ot_log o) (ot_log o') -> ot_locks o' = ot_locks o ++ rows ->
     G (mkSessions w (<[i := o']> open)) /\ Q (Ok rows) o') ->
  (forall e o', ot_locks o' = ot_locks o -> Q (Err e) o') ->
  txrg i Q o (tx_lock s).
Proof using inv.
  intros Hok Herr env [w open] HG Ho.
  pose proof (session_stmt s (fun rows => rows) i env _ o Ho) as H.
  destruct (session_step i _ env _) as [x se'].
  destruct H as (n & o' & -> & H). simpl in *. exists o'. split; [done|].
  destruct H as [(ctx & rows & v & v' & -> & Hl & Hv & Hs & Hw & Hlocks)|(e & -> & Hl & _)].
  - destruct (Hok w open ctx rows v v' o') as [HG' HQ]; [done..|]. split; [|done].
    by apply (inv_tick w).
  - split; [|by apply Herr]. eapply inv_entry; [by apply inv_tick|done..].
Qed.

(** COMMIT: the invariant must hold with the writes published and the locks gone. *)
Lemma txrg_commit i (Q : outcome unit -> OpenTx -> Prop) o :
  (forall w open v, G (mkSessions w open) -> open !! i = Some o ->
     replay (ot_log o) (w_db w) = Some v ->
     G (mkSessions (mkWorld (w_tick w) (set_db v (w_st w)))
          (<[i := mkOpenTx (ot_now o) [] false []]> open))) ->
  (forall r o', Q r o') ->
  txrg i Q o tx_commit.
Proof using inv.
  intros Hc HQ env [w open] HG Ho. unfold session_step. simpl in *. rewrite Ho.
  match goal with |- context [commit_step env ?st] =>
    destruct (commit_step env st) as [x st'] eqn:E end.
  eexists. split; [done|]. split; [|apply HQ].
  revert E. unfold view, commit_step, entry_after. simpl.
  destruct (replay (ot_log o) (w_db w)) as [v|] eqn:Ev; simpl;
    [destruct (ot_aborted o); [|destruct (env_fault env (w_tick w))]|];
    intros E; invc E; simpl;
    try (eapply inv_entry; [by apply inv_tick|done..]);
    apply (inv_tick (mkWorld (w_tick w) (set_db v (w_st w)))); by apply Hc.
Qed.

Lemma txrg_New prefix i (Q : outcome string -> OpenTx -> Prop) o :
  (forall id o', (forall d, replay (ot_log o') d = replay (ot_log o) d) ->
     ot_locks o' = ot_locks o -> Q (Ok id) o') ->
  txrg i Q o (Id.tx_New prefix).
Proof using inv.
  intros HQ env [w open] HG Ho. unfold session_step. simpl in *. rewrite Ho.
  match goal with |- context [rand_step 12 env ?st] =>
    destruct (rand_step 12 env st) as [x st'] eqn:E end.
  eexists. split; [done|]. revert E. unfold view, rand_step, entry_after. simpl.
  destruct (replay (ot_log o) (w_db w)) as [v|] eqn:Ev; simpl;
    intros E; invc E; simpl;
    (split; [eapply inv_entry; [by apply inv_tick|done..]|]); apply HQ; try done; simpl.
  intros d. destruct (ot_aborted o) eqn:Eab; [done|]. rewrite replay_snoc.
  destruct (replay (ot_log o) d); [|done]. done.
Qed.

End Logic.
