(* ===== verification/Crypto.v ===== *)
(** * Cryptography: the primitives as parameters, and pkg/crypto

    AES-GCM, HMAC-SHA256, SHA-256 and bcrypt are parameters, with the laws the
    services rely on; pkg/crypto/crypto.go (the envelope of secrets at rest) is
    modelled over them. *)

From S2P Require Import Prelude.
From S2P Require Import Domain.
From S2P Require Import Effects.
From S2P Require Import GoLib.
From S2P Require Import Store.
From stdpp Require Import strings list.
From Stdlib Require Import ZArith Lia.

Open Scope Z_scope.
Open Scope go_scope.

(** cipher.AEAD: what is sealed under a nonce opens under it. *)
Module AEAD.
Class T := {
  NonceSize : nat;
  Seal : string -> string -> string;
  Open : string -> string -> option string
}.
Class Laws (A : T) : Prop := {
  Open_Seal : forall nonce p, String.length nonce = NonceSize ->
    Open nonce (Seal nonce p) = Some p
}.
End AEAD.

Module HMAC.
Class T := { SHA256 : string -> string -> string }.
End HMAC.

(** crypto/sha256.Sum256. *)
Module SHA256.
Class T := { Sum256 : string -> string }.
End SHA256.

(** golang.org/x/crypto/bcrypt: a hash made from a password (with a salt that
    is drawn) matches it; a password over 72 bytes is refused. *)
Module Bcrypt.
Class T := {
  Hash : string -> string -> string;
  Compare : string -> string -> bool
}.
Class Laws (B : T) : Prop := {
  Compare_Hash : forall salt p, (String.length p <= 72)%nat -> Compare (Hash salt p) p = true;
  Hash_nonempty : forall salt p, Hash salt p <> EmptyString
}.

Section Bcrypt.
Context {bcrypt : T}.
Definition ErrPasswordTooLong : goerr :=
  ErrOther "bcrypt: password length exceeds 72 bytes".

Definition GenerateFromPassword (p : string) : prog World string :=
  if (72 <? String.length p)%nat then fail ErrPasswordTooLong
  else let! salt := rand_Read 16 in ret (Hash salt p).
End Bcrypt.
End Bcrypt.

(** Drawing n random bytes gives n bytes. *)
Lemma bytes_from_length f n : String.length (bytes_from f n) = n.
Proof. induction n as [|n IH]; simpl; [done|]. by rewrite IH. Qed.

(** ** pkg/crypto *)

Module Cipher.
(** The master key: aes.NewCipher and cipher.NewGCM accept any 32 bytes. *)
Definition New (base64Key : string) : string + goerr :=
  match Base64.decode base64Key with
  | None => inr (ErrOther "decode key: illegal base64 data")
  | Some key =>
      if (String.length key =? 32)%nat then inl key
      else inr (ErrOther ("key must be 32 bytes, got " +:+
                          Strconv.Itoa (Z.of_nat (String.length key))))
  end.

Section Cipher.
Context {aead : AEAD.T}.

Definition Encrypt (plaintext : string) : prog World string :=
  let! nonce := rand_Read AEAD.NonceSize in
  ret (nonce +:+ AEAD.Seal nonce plaintext).

Definition Decrypt (ciphertext : string) : string + goerr :=
  let n := AEAD.NonceSize in
  if (String.length ciphertext <? n)%nat then inr (ErrOther "ciphertext too short")
  else match AEAD.Open (Strings.take n ciphertext) (Strings.drop n ciphertext) with
       | Some p => inl p
       | None => inr (ErrOther "cipher: message authentication failed")
       end.

Lemma take_app_length s t : Strings.take (String.length s) (s +:+ t) = s.
Proof. induction s as [|c s IH]; simpl; [by destruct t|]. by rewrite IH. Qed.

Lemma drop_app_length s t : Strings.drop (String.length s) (s +:+ t) = t.
Proof. by induction s. Qed.

Lemma Decrypt_sealed {laws : AEAD.Laws aead} nonce p :
  String.length nonce = AEAD.NonceSize ->
  Decrypt (nonce +:+ AEAD.Seal nonce p) = inl p.
Proof.
  intros Hn. unfold Decrypt.
  rewrite Strings.length_app, <- Hn, take_app_length, drop_app_length.
  replace (_ <? _)%nat with false by (symmetry; apply Nat.ltb_ge; lia).
  by rewrite AEAD.Open_Seal.
Qed.
End Cipher.
End Cipher.
