(* ===== verification/Ports.v ===== *)
(** * The ports: the interfaces of the domain package, and what they promise

    Each Go interface is a class [T] of operations in a module of its name.
    Where services rely on a promise, the promise is a class [Laws]; the services
    are proved against the laws, and the adapters discharge them. *)

From S2P Require Import Prelude.
From S2P Require Import Domain.
From S2P Require Import Effects.
From S2P Require Import GoLib.
From S2P Require Import Store.
From stdpp Require Import gmap strings list.
From Stdlib Require Import ZArith Lia.

Open Scope Z_scope.

(** ** Views of the state the promises are about *)

Definition balance_of (st : State) (org : OrgID) : Z := default 0 (org_credits (s_db st) !! org).

Definition ledger_of (st : State) (org : OrgID) : list LedgerRow :=
  tselect (fun r => (led_org_id r =? org)%string) (credit_ledger (s_db st)).

(** The number of calls dialled for an org. *)
Definition dials_to (org : OrgID) (tr : list Effect) : Z :=
  sum_by (fun e => match e with
                   | EDial req _ => if (req_OrgID req =? org)%string then 1 else 0
                   | _ => 0
                   end) tr.

Definition dials (st : State) (org : OrgID) : Z := dials_to org (s_trace st).

(** A step that touches neither the database nor the job queue, and dials
    nobody: what a call of an auxiliary port may do. *)
Definition quiet (w w' : World) : Prop :=
  s_db (w_st w') = s_db (w_st w) /\ s_jobs (w_st w') = s_jobs (w_st w) /\
  forall org, dials (w_st w') org = dials (w_st w) org.

Lemma quiet_silent w w' : w_st w' = w_st w -> quiet w w'.
Proof. unfold quiet. by intros ->. Qed.

#[export] Hint Resolve quiet_silent : guar.

(** ** CreditRepo (credits.go) *)

Module CreditRepo.
Class T := {
  Balance : OrgID -> prog World Z;
  TryDeduct : OrgID -> Z -> string -> prog World (bool * Z);
  Grant : OrgID -> Z -> string -> prog World Z;
  Ledger : OrgID -> Z -> prog World (list CreditEntry)
}.

(** One account row changes by [delta], and one ledger row records it. *)
Definition post (org : OrgID) (delta : Z) (reason : string) (st st' : State) : Prop :=
  exists row,
    led_org_id row = org /\ led_delta row = delta /\ led_reason row = reason /\
    st' = set_db
            (set_credit_ledger (credit_ledger (s_db st) ++ [row])
               (set_org_credits (<[org := balance_of st org + delta]> (org_credits (s_db st)))
                  (s_db st))) st.

(** Charged in full or not at all, never below zero. *)
Inductive TryDeduct_spec (org : OrgID) (amount : Z) (reason : string)
  : step_spec (bool * Z) :=
| deduct_ok st st' :
    is_Some (org_credits (s_db st) !! org) -> amount <= balance_of st org ->
    post org (- amount) reason st st' ->
    TryDeduct_spec org amount reason st (Ok (true, balance_of st org - amount)) st'
| deduct_refused st :
    (org_credits (s_db st) !! org = None \/ balance_of st org < amount) ->
    TryDeduct_spec org amount reason st (Ok (false, 0)) st
| deduct_failed st e : TryDeduct_spec org amount reason st (Err e) st
| deduct_unacked st st' e :
    is_Some (org_credits (s_db st) !! org) -> amount <= balance_of st org ->
    post org (- amount) reason st st' ->
    TryDeduct_spec org amount reason st (Err e) st'.

Inductive Grant_spec (org : OrgID) (amount : Z) (reason : string) : step_spec Z :=
| grant_ok st st' :
    post org amount reason st st' ->
    Grant_spec org amount reason st (Ok (balance_of st org + amount)) st'
| grant_failed st e : Grant_spec org amount reason st (Err e) st
| grant_unacked st st' e :
    post org amount reason st st' -> Grant_spec org amount reason st (Err e) st'.

(** The amounts the promise covers: those the int4 columns can hold, both ways. *)
Definition small (amount : Z) : Prop := 0 <= amount <= int32_max.

Class Laws (C : T) : Prop := {
  TryDeduct_lin : forall org amount reason, small amount ->
    lin (TryDeduct_spec org amount reason) (TryDeduct org amount reason);
  Grant_lin : forall org amount reason, small amount ->
    lin (Grant_spec org amount reason) (Grant org amount reason);
  Balance_lin : forall org, lin (fun st r st' =>
    st' = st /\ forall b, r = Ok b -> b = balance_of st org) (Balance org)
}.
End CreditRepo.

(** ** PaymentRepo and PaymentGateway (payment.go) *)

Module PaymentRepo.
Class T := {
  Create : Payment -> prog World unit;
  Settle : string -> string -> string -> prog World (Payment * bool)
}.

Definition matches (provider ref : string) (r : PaymentRow) : bool :=
  (pmt_provider r =? provider)%string && (pmt_provider_ref r =? ref)%string.

Definition is_pending (r : PaymentRow) : bool := (pmt_status r =? PaymentPending)%string.

Definition row_payment (r : PaymentRow) (status : string) (created : Time) : Payment :=
  mkPayment (pmt_id r) (pmt_org_id r) (pmt_provider r) (pmt_provider_ref r)
    (pmt_credits r) (pmt_amount_bdt r) status created.

Definition settle_row (status : string) (now : Time) (r : PaymentRow) : PaymentRow :=
  mkPaymentRow (pmt_id r) (pmt_org_id r) (pmt_provider r) (pmt_provider_ref r)
    (pmt_credits r) (pmt_amount_bdt r) status (pmt_created_at r) (Some now).

(** The pending rows of (provider, ref) become settled. *)
Definition settle_rows (provider ref status : string) (now : Time) (st : State) : State :=
  set_db (set_payments
    (tupdate (fun r => matches provider ref r && is_pending r) (settle_row status now)
       (payments (s_db st))) (s_db st)) st.

Definition pending_row (provider ref : string) (st : State) : option PaymentRow :=
  tfind (fun r => matches provider ref r && is_pending r) (payments (s_db st)).

(** [transitioned] is true exactly for the call that moved the row. *)
Inductive Settle_spec (provider ref status : string) : step_spec (Payment * bool) :=
| settle_moved st r now :
    pending_row provider ref st = Some r ->
    Settle_spec provider ref status st
      (Ok (row_payment r status zeroTime, true)) (settle_rows provider ref status now st)
| settle_unacked st r now e :
    pending_row provider ref st = Some r -> e <> ErrNotFound ->
    Settle_spec provider ref status st (Err e) (settle_rows provider ref status now st)
| settle_already st p :
    Settle_spec provider ref status st (Ok (p, false)) st
| settle_failed st e : Settle_spec provider ref status st (Err e) st.

(** A new row, pending, with the payment's amounts; or nothing. *)
Inductive Create_spec (p : Payment) : step_spec unit :=
| create_ok st st' row r :
    pmt_org_id row = pay_OrgID p -> pmt_provider row = pay_Provider p ->
    pmt_provider_ref row = pay_ProviderRef p -> pmt_credits row = pay_Credits p ->
    pmt_status row = PaymentPending ->
    tfind (matches (pay_Provider p) (pay_ProviderRef p)) (payments (s_db st)) = None ->
    st' = set_db (set_payments (payments (s_db st) ++ [row]) (s_db st)) st ->
    Create_spec p st r st'
| create_failed st e : Create_spec p st (Err e) st.

Class Laws (C : T) : Prop := {
  Create_lin : forall p, lin (Create_spec p) (Create p);
  Settle_lin : forall provider ref status,
    lin (Settle_spec provider ref status) (Settle provider ref status)
}.
End PaymentRepo.

Module PaymentGateway.
Class T := {
  Name : string;
  Checkout : PaymentRequest -> prog World PaymentCheckout;
  VerifyIPN : gmap string string -> prog World (PaymentResult * bool)
}.

Class Laws (G : T) : Prop := {
  Checkout_quiet : forall req, guar quiet (Checkout req);
  VerifyIPN_quiet : forall form, guar quiet (VerifyIPN form)
}.
End PaymentGateway.

(** ** VoiceProvider (ports.go) *)

Module VoiceProvider.
Class T := { PlaceCall : CallRequest -> prog World ProviderCallID }.

(** At most one call is dialled; an error may hide a call that was placed. *)
Inductive PlaceCall_spec (req : CallRequest) : step_spec ProviderCallID :=
| dial_ok st pid :
    PlaceCall_spec req st (Ok pid) (add_effect (EDial req pid) st)
| dial_unacked st pid e :
    PlaceCall_spec req st (Err e) (add_effect (EDial req pid) st)
| dial_failed st e : PlaceCall_spec req st (Err e) st.

Class Laws (V : T) : Prop := {
  PlaceCall_lin : forall req, lin (PlaceCall_spec req) (PlaceCall req)
}.
End VoiceProvider.

(** ** OutcomeRepo (webhook.go) *)

Record OutboxEvent := mkOutboxEvent { oe_Event : string; oe_Payload : string }.

Module OutcomeRepo.
Class T := { RecordCallOutcome : Call -> option OutboxEvent -> prog World unit }.

Definition call_row (c : Call) (created : Time) : CallRow :=
  mkCallRow (call_ID c) (call_OrgID c) (strPtr (call_FlowID c))
    (strPtr (call_ProviderCallID c)) (call_Direction c) (call_Status c)
    (strPtr (call_Result c)) None None created.

(** The call row and, when there is an event, one outbox row for the same org:
    both or neither. *)
Definition recorded (c : Call) (ev : option OutboxEvent) (st st' : State) : Prop :=
  exists now,
    let d := set_calls (calls (s_db st) ++ [call_row c now]) (s_db st) in
    match ev with
    | None => st' = set_db d st
    | Some e => exists ob,
        ob_org_id ob = call_OrgID c /\ ob_event ob = oe_Event e /\
        ob_dispatched_at ob = None /\
        st' = set_db (set_webhook_outbox (webhook_outbox (s_db st) ++ [ob]) d) st
    end.

Inductive Record_spec (c : Call) (ev : option OutboxEvent) : step_spec unit :=
| record_ok st st' r : recorded c ev st st' -> Record_spec c ev st r st'
| record_failed st e : Record_spec c ev st (Err e) st.

Class Laws (C : T) : Prop := {
  Record_lin : forall c ev, lin (Record_spec c ev) (RecordCallOutcome c ev)
}.
End OutcomeRepo.

(** ** CallPolicyRepo (callpolicy.go) *)

Module CallPolicyRepo.
Class T := {
  Get : OrgID -> prog World CallPolicy;
  Upsert : OrgID -> CallPolicy -> prog World unit
}.

Class Laws (C : T) : Prop := {
  Get_lin : forall org, lin (fun st _ st' => st' = st) (Get org)
}.
End CallPolicyRepo.

(** ** CallRepo and FlowRepo (ports.go) *)

Module CallRepo.
Class T := {
  Create : Call -> prog World unit;
  Get : CallID -> prog World Call;
  ListByOrg : OrgID -> Z -> prog World (list Call);
  Summary : OrgID -> prog World CallSummary;
  AttachMedia : CallID -> string -> string -> prog World unit;
  DeleteBefore : Time -> prog World Z
}.
End CallRepo.

Record FlowSummary := mkFlowSummary {
  fs_ID : FlowID; fs_Name : string; fs_Version : Z; fs_Channel : string;
  fs_Type : string; fs_Active : bool
}.

Record FlowDetail := mkFlowDetail {
  fd_ID : FlowID; fd_OrgID : OrgID; fd_Name : string; fd_Version : Z;
  fd_Channel : string; fd_Type : string; fd_Locale : string; fd_Spec : string
}.

Record NewFlow := mkNewFlow {
  nf_Name : string; nf_Channel : string; nf_Type : string; nf_Locale : string;
  nf_Spec : string
}.

Module FlowRepo.
Class T := {
  GetActiveFlow : OrgID -> string -> prog World (Flow * bool);
  Create : OrgID -> NewFlow -> prog World FlowID;
  ListByOrg : OrgID -> prog World (list FlowSummary);
  GetByID : FlowID -> prog World (FlowDetail * bool);
  UpdateSpec : FlowID -> OrgID -> string -> prog World unit
}.

Class Laws (F : T) : Prop := {
  GetActiveFlow_lin : forall org name,
    lin (fun st _ st' => st' = st) (GetActiveFlow org name)
}.
End FlowRepo.

(** ** The small ports: clock, notifier, live feed, mail, text messages *)

Module Clock.
Class T := { Now : prog World Time }.
Class Laws (C : T) : Prop := { Now_silent : guar silent Now }.
End Clock.

Module CreditNotifier.
Class T := { LowBalance : OrgID -> Z -> prog World unit }.
Class Laws (C : T) : Prop := {
  LowBalance_quiet : forall org balance, guar quiet (LowBalance org balance)
}.
End CreditNotifier.

Module ActivityPublisher.
Class T := { PublishActivity : ActivityEvent -> prog World unit }.
Class Laws (C : T) : Prop := {
  Publish_quiet : forall e, guar quiet (PublishActivity e)
}.
End ActivityPublisher.

Module EmailSender.
Class T := { Send : string -> string -> string -> prog World unit }.
Class Laws (C : T) : Prop := {
  Send_quiet : forall to subject body, guar quiet (Send to subject body)
}.
End EmailSender.

Module OrgStore.
Class T := {
  EnsureForUser : string -> string -> prog World Org;
  Rename : OrgID -> string -> prog World unit;
  OwnerEmail : OrgID -> prog World string
}.
Class Laws (C : T) : Prop := {
  OwnerEmail_silent : forall org, guar silent (OwnerEmail org)
}.
End OrgStore.

(** [time.LoadLocation]: the UTC offset, in microseconds, at each instant of a
    named zone; [None] for an unknown name.  The tz database is outside the
    repository. *)
Module TimeZones.
Class T := { LoadLocation : string -> option (Time -> Z) }.
End TimeZones.
