(* ===== verification/PgCredits.v ===== *)
(** * Credits and payments in Postgres

    internal/adapter/postgres/credits.go over gen/credits.sql.go, and
    internal/adapter/postgres/payments.go, with the constraints of
    migrations/00011_payments.sql and 00012_credits.sql.  The instances
    discharge the laws of [CreditRepo] and [PaymentRepo]. *)

From S2P Require Import Prelude.
From S2P Require Import Domain.
From S2P Require Import Effects.
From S2P Require Import GoLib.
From S2P Require Import Store.
From S2P Require Import Ports.
From stdpp Require Import gmap strings list.
From Stdlib Require Import ZArith Lia.

Open Scope Z_scope.
Open Scope go_scope.

(** ** gen/credits.sql.go *)

Module CreditQ.
Definition GetBalance (orgID : string) : stmt Z := fun _ d =>
  match org_credits d !! orgID with
  | Some bal => inl (bal, d)
  | None => inr ErrNoRows
  end.

Definition EnsureCreditAccount (orgID : string) : stmt unit := fun _ d =>
  match org_credits d !! orgID with
  | Some _ => inl (tt, d)
  | None => inl (tt, set_org_credits (<[orgID := 0]> (org_credits d)) d)
  end.

(** [balance] is an int4 column: the sum is computed in int4. *)
Definition AdjustBalance (orgID : string) (balance : Z) : stmt Z := fun _ d =>
  match org_credits d !! orgID with
  | None => inr ErrNoRows
  | Some bal =>
      if in_int32 (bal + balance)
      then inl (bal + balance,
                set_org_credits (<[orgID := bal + balance]> (org_credits d)) d)
      else inr numeric_out_of_range
  end.

Definition TryDeductBalance (orgID : string) (balance : Z) : stmt Z := fun _ d =>
  match org_credits d !! orgID with
  | None => inr ErrNoRows
  | Some bal =>
      if negb (balance <=? bal) then inr ErrNoRows
      else if in_int32 (bal - balance)
      then inl (bal - balance,
                set_org_credits (<[orgID := bal - balance]> (org_credits d)) d)
      else inr numeric_out_of_range
  end.

Definition AddLedger (id orgID : string) (delta : Z) (reason : string) : stmt unit :=
  fun ctx d =>
    match tfind (fun r => (led_id r =? id)%string) (credit_ledger d) with
    | Some _ => inr unique_violation
    | None =>
        inl (tt, set_credit_ledger
                   (credit_ledger d ++ [mkLedgerRow id orgID delta reason (sql_now ctx)]) d)
    end.

Definition ListLedger (orgID : string) (limit : Z) : stmt (list CreditEntry) :=
  fun _ d =>
    sql_limit limit
      (map (fun r => mkCreditEntry (led_delta r) (led_reason r) (led_created_at r))
         (tsort (fun r => - led_created_at r)
            (tselect (fun r => (led_org_id r =? orgID)%string) (credit_ledger d)))) d.
End CreditQ.

(** ** CreditRepo *)

Module PgCreditRepo.
Definition Balance (orgID : OrgID) : prog World Z :=
  let! bal := ptry (exec (CreditQ.GetBalance orgID)) in
  match bal with
  | inr ErrNoRows => ret 0
  | inr err => fail err
  | inl bal => ret bal
  end.

Definition TryDeduct (orgID : OrgID) (amount : Z) (reason : string)
  : prog World (bool * Z) :=
  transact (
    let! bal := ptry (tx_stmt (CreditQ.TryDeductBalance orgID (int32_of amount))) in
    match bal with
    | inr ErrNoRows => ret (false, 0)
    | inr err => fail err
    | inl bal =>
        let! id := Id.tx_New "led" in
        do! tx_stmt (CreditQ.AddLedger id orgID (int32_of (- amount)) reason) in
        do! tx_commit in
        ret (true, bal)
    end).

Definition Grant (orgID : OrgID) (amount : Z) (reason : string) : prog World Z :=
  transact (
    do! tx_stmt (CreditQ.EnsureCreditAccount orgID) in
    let! bal := tx_stmt (CreditQ.AdjustBalance orgID (int32_of amount)) in
    let! id := Id.tx_New "led" in
    do! tx_stmt (CreditQ.AddLedger id orgID (int32_of amount) reason) in
    do! tx_commit in
    ret bal).

Definition Ledger (orgID : OrgID) (limit : Z) : prog World (list CreditEntry) :=
  exec (CreditQ.ListLedger orgID (int32_of limit)).

#[export] Instance repo : CreditRepo.T :=
  { CreditRepo.Balance := Balance; CreditRepo.TryDeduct := TryDeduct;
    CreditRepo.Grant := Grant; CreditRepo.Ledger := Ledger }.
End PgCreditRepo.

(** ** PaymentRepo (hand-written SQL) *)

Module PgPaymentRepo.
(** INSERT INTO payments: primary key, UNIQUE (provider, provider_ref), and
    int4 columns that refuse a wider argument. *)
Definition insert (p : Payment) : stmt unit := fun ctx d =>
  if negb (in_int32 (pay_Credits p) && in_int32 (pay_AmountBDT p))
  then inr (ErrOther "greater than maximum value for int4")
  else match
    tfind (fun r => (pmt_id r =? pay_ID p)%string
                    || PaymentRepo.matches (pay_Provider p) (pay_ProviderRef p) r)
      (payments d)
  with
  | Some _ => inr unique_violation
  | None =>
      inl (tt, set_payments
        (payments d ++
           [mkPaymentRow (pay_ID p) (pay_OrgID p) (pay_Provider p) (pay_ProviderRef p)
              (pay_Credits p) (pay_AmountBDT p) PaymentPending (sql_now ctx) None]) d)
  end.

Definition Create (p : Payment) : prog World unit := exec (insert p).

(** UPDATE ... WHERE status = 'pending' RETURNING ... *)
Definition settle_pending (provider providerRef status : string) : stmt PaymentRow :=
  with_text [providerRef] (fun ctx d =>
    let w r := PaymentRepo.matches provider providerRef r && PaymentRepo.is_pending r in
    match tfind w (payments d) with
    | None => inr ErrNoRows
    | Some r =>
        inl (r, set_payments
                  (tupdate w (PaymentRepo.settle_row status (sql_now ctx)) (payments d)) d)
    end).

Definition select (provider providerRef : string) : stmt PaymentRow :=
  with_text [providerRef] (fun _ d =>
  match tfind (PaymentRepo.matches provider providerRef) (payments d) with
  | None => inr ErrNoRows
  | Some r => inl (r, d)
  end).

Definition Settle (provider providerRef status : string) : prog World (Payment * bool) :=
  let! p := ptry (exec (settle_pending provider providerRef status)) in
  match p with
  | inl r => ret (PaymentRepo.row_payment r status zeroTime, true)
  | inr ErrNoRows =>
      let! p := ptry (exec (select provider providerRef)) in
      match p with
      | inl r => ret (PaymentRepo.row_payment r (pmt_status r) zeroTime, false)
      | inr ErrNoRows => fail ErrNotFound
      | inr err => fail err
      end
  | inr err => fail err
  end.

#[export] Instance repo : PaymentRepo.T :=
  { PaymentRepo.Create := Create; PaymentRepo.Settle := Settle }.
End PgPaymentRepo.

(** ** The laws *)

(** The tail the two credit transactions share: one ledger row, then COMMIT. *)
Definition post_tail {B} (org : OrgID) (delta : Z) (reason : string) (b : B) : txM B :=
  let! id := Id.tx_New "led" in
  do! tx_stmt (CreditQ.AddLedger id org delta reason) in
  do! tx_commit in
  ret b.

Lemma txwp_post {B} org delta reason (b : B) st (S : step_spec B) :
  (forall st', CreditRepo.post org delta reason st st' -> S st (Ok b) st') ->
  (forall e, S st (Err e) st) ->
  (forall st' e, CreditRepo.post org delta reason st st' -> S st (Err e) st') ->
  txwp (post_tail org delta reason b)
    (set_org_credits (<[org := balance_of st org + delta]> (org_credits (s_db st))) (s_db st))
    (fun r _ _ dur => S st r (match dur with Some d => set_db d st | None => st end)).
Proof.
  intros Hok Hfail Hunacked. unfold post_tail. apply txwp_New. intros id.
  apply txwp_stmt; [|intros; apply Hfail].
  intros ctx [] d. unfold CreditQ.AddLedger. simpl. split_match; [done|]. intros [= <-].
  assert (CreditRepo.post org delta reason st
    (set_db (set_credit_ledger
       (credit_ledger (s_db st) ++ [mkLedgerRow id org delta reason (sql_now ctx)])
       (set_org_credits (<[org := balance_of st org + delta]> (org_credits (s_db st)))
          (s_db st))) st)) as Hpost
    by by exists (mkLedgerRow id org delta reason (sql_now ctx)).
  apply txwp_commit with (b := b); simpl; eauto.
Qed.

Lemma TryDeduct_lin org amount reason :
  CreditRepo.small amount ->
  lin (CreditRepo.TryDeduct_spec org amount reason) (PgCreditRepo.TryDeduct org amount reason).
Proof.
  intros Hs. unfold PgCreditRepo.TryDeduct. unfold CreditRepo.small, int32_max in Hs.
  rewrite !int32_of_id by (unfold int32_min, int32_max; lia).
  apply transact_lin; [intros; apply CreditRepo.deduct_failed|].
  intros st. apply txwp_try_stmt;
    [| | by intros [] | intros; apply CreditRepo.deduct_failed];
    unfold CreditQ.TryDeductBalance;
    destruct (org_credits (s_db st) !! org) as [b|] eqn:Eb; intros ctx;
    assert (balance_of st org = default 0 (org_credits (s_db st) !! org)) as Hb by done;
    rewrite Eb in Hb; simpl in Hb.
  - intros bal d'. repeat split_match; try done. intros [= <- <-]. bool_prop.
    rewrite <- Hb, <- Z.add_opp_r. apply txwp_post; intros; rewrite ?Z.add_opp_r;
      eauto using CreditRepo.TryDeduct_spec with lia.
  - done.
  - repeat split_match; try done. intros _. bool_prop. apply txwp_ret.
    apply CreditRepo.deduct_refused. right. lia.
  - intros _. apply txwp_ret. apply CreditRepo.deduct_refused. by left.
Qed.

Lemma Grant_lin org amount reason :
  CreditRepo.small amount ->
  lin (CreditRepo.Grant_spec org amount reason) (PgCreditRepo.Grant org amount reason).
Proof.
  intros Hs. unfold PgCreditRepo.Grant. unfold CreditRepo.small, int32_max in Hs.
  rewrite !int32_of_id by (unfold int32_min, int32_max; lia).
  apply transact_lin; [intros; apply CreditRepo.grant_failed|].
  intros st. apply txwp_stmt; [|intros; apply CreditRepo.grant_failed].
  intros ctx [] d1 Hensure.
  apply txwp_stmt; [|intros; apply CreditRepo.grant_failed].
  intros ctx' bal d2 Hadj.
  assert (bal = balance_of st org + amount /\
          d2 = set_org_credits
                 (<[org := balance_of st org + amount]> (org_credits (s_db st))) (s_db st))
    as [-> ->].
  { unfold CreditQ.EnsureCreditAccount, CreditQ.AdjustBalance, balance_of in *.
    destruct (org_credits (s_db st) !! org) as [b|] eqn:Eb; invc Hensure; simpl in *.
    - rewrite Eb in Hadj. split_match; by invc Hadj.
    - rewrite lookup_insert_eq in Hadj. split_match; invc Hadj.
      by rewrite insert_insert_eq. }
  apply txwp_post; eauto using CreditRepo.Grant_spec.
Qed.

Lemma Balance_lin org :
  lin (fun st r st' => st' = st /\ forall b, r = Ok b -> b = balance_of st org)
    (PgCreditRepo.Balance org).
Proof.
  apply lin_exec_try; unfold lin_done, CreditQ.GetBalance, balance_of.
  - intros st ctx a d. split_match; [|done]. intros [= <- <-]. eexists. split; [done|].
    split; [apply set_db_id|]. by intros b [= <-].
  - intros st ctx e. split_match; [done|]. intros [= <-]. left. eexists. split; [done|].
    split; [done|]. by intros b [= <-].
  - intros st m. by eexists.
  - intros st ctx a d m. split_match; [|done]. intros [= <- <-]. eexists. split; [done|].
    by split; [apply set_db_id|].
Qed.

#[export] Instance PgCreditRepo_laws : CreditRepo.Laws PgCreditRepo.repo.
Proof. split; [apply TryDeduct_lin | apply Grant_lin | apply Balance_lin]. Qed.

(** A text the database refuses fails the statement. *)
Ltac refused :=
  first [done | by eauto using PaymentRepo.settle_failed
        | intros ?? e [= <-]; left; eexists; split; [done|]; apply PaymentRepo.settle_failed].

Lemma Settle_lin provider ref status :
  lin (PaymentRepo.Settle_spec provider ref status)
    (PgPaymentRepo.Settle provider ref status).
Proof.
  apply lin_exec_try; unfold lin_done, PgPaymentRepo.settle_pending, with_text;
    (destruct (forallb text_ok [ref]); [|by refused]).
  - intros st ctx a d. split_match; [|done]. intros [= <- <-]. eexists. split; [done|].
    by apply PaymentRepo.settle_moved.
  - intros st ctx e. split_match; [done|]. intros [= <-]. right.
    apply lin_exec_try; unfold lin_done, PgPaymentRepo.select, with_text;
      (destruct (forallb text_ok [ref]); [|by refused]).
    + intros st' ctx' a d. split_match; [|done]. intros [= <- <-]. eexists. split; [done|].
      rewrite set_db_id. apply PaymentRepo.settle_already.
    + intros st' ctx' e. split_match; [done|]. intros [= <-]. left. eexists. split; [done|].
      apply PaymentRepo.settle_failed.
    + eauto using PaymentRepo.settle_failed.
    + intros st' ctx' a d m. split_match; [|done]. intros [= <- <-]. eexists. split; [done|].
      rewrite set_db_id. apply PaymentRepo.settle_failed.
  - eauto using PaymentRepo.settle_failed.
  - intros st ctx a d m. split_match; [|done]. intros [= <- <-]. eexists. split; [done|].
    by eapply PaymentRepo.settle_unacked.
Qed.

#[export] Instance PgPaymentRepo_laws : PaymentRepo.Laws PgPaymentRepo.repo.
Proof.
  split; [|apply Settle_lin].
  intros p. change (lin (PaymentRepo.Create_spec p) (exec (PgPaymentRepo.insert p))).
  eapply lin_mono; [|apply exec_lin].
  intros st r st' H. inversion H; subst; try apply PaymentRepo.create_failed.
  all: match goal with E : PgPaymentRepo.insert _ _ _ = _ |- _ =>
    unfold PgPaymentRepo.insert in E; repeat split_match; invc E end.
  all: match goal with E : tfind _ _ = None |- _ =>
    eapply PaymentRepo.create_ok; [..|reflexivity]; try done;
    eapply tfind_none_weaken, E end.
  all: intros r0 Hr0; cbv beta; rewrite Hr0; apply orb_true_r.
Qed.
