(* ===== verification/PgFlows.v ===== *)
(** * Flows in Postgres

    internal/adapter/postgres/flows.go over gen/flows.sql.go; the table is
    migrations/00002_flows_calls.sql.  [spec] is a jsonb column: it is stored
    normalised and read back in that form. *)

From S2P Require Import Prelude.
From S2P Require Import Domain.
From S2P Require Import Effects.
From S2P Require Import GoLib.
From S2P Require Import Json.
From S2P Require Import Store.
From S2P Require Import Ports.
From stdpp Require Import gmap strings list.
From Stdlib Require Import ZArith Lia.

Open Scope Z_scope.
Open Scope go_scope.

(** ** gen/flows.sql.go *)

Module FlowQ.
Definition set_spec (spec : string) (r : FlowRow) : FlowRow :=
  mkFlowRow (flowr_id r) (flowr_org_id r) (flowr_name r) (flowr_version r)
    (flowr_channel r) (flowr_type r) (flowr_locale r) spec (flowr_is_active r)
    (flowr_created_at r).

(** ON CONFLICT (id) DO NOTHING: an existing id is left alone. *)
Definition CreateFlow (id orgID name : string) (version : Z)
    (channel type locale spec : string) : stmt unit :=
  with_text [name; channel; type; locale] (fun ctx d =>
  match sql_jsonb ctx spec with
  | None => inr invalid_text
  | Some spec' =>
      match tfind (fun r => (flowr_id r =? id)%string) (flows d) with
      | Some _ => inl (tt, d)
      | None =>
          inl (tt, set_flows
            (flows d ++ [mkFlowRow id orgID name version channel type locale spec' true
                           (sql_now ctx)]) d)
      end
  end).

Definition active_named (orgID name : string) (r : FlowRow) : bool :=
  (flowr_org_id r =? orgID)%string && (flowr_name r =? name)%string && flowr_is_active r.

(** ORDER BY version DESC LIMIT 1 *)
Definition GetActiveFlowByName (orgID name : string) : stmt FlowRow :=
  with_text [name] (fun _ d =>
  match tsort (fun r => - flowr_version r) (tselect (active_named orgID name) (flows d)) with
  | [] => inr ErrNoRows
  | r :: _ => inl (r, d)
  end).

Definition GetFlowByID (id : string) : stmt FlowRow :=
  with_text [id] (fun _ d =>
  match tfind (fun r => (flowr_id r =? id)%string) (flows d) with
  | None => inr ErrNoRows
  | Some r => inl (r, d)
  end).

Definition ListFlowsByOrg (orgID : string) : stmt (list FlowRow) := fun _ d =>
  inl (tsort_by flowr_name (tselect (fun r => (flowr_org_id r =? orgID)%string) (flows d)), d).

Definition UpdateFlowSpec (id spec orgID : string) : stmt unit :=
  with_text [id] (fun ctx d =>
  match sql_jsonb ctx spec with
  | None => inr invalid_text
  | Some spec' =>
      inl (tt, set_flows
        (tupdate (fun r => (flowr_id r =? id)%string && (flowr_org_id r =? orgID)%string)
           (set_spec spec') (flows d)) d)
  end).
End FlowQ.

(** ** FlowRepo *)

Module PgFlowRepo.
Definition row_flow (r : FlowRow) (ivr : IVRSpec) : Flow :=
  mkFlow (flowr_id r) (flowr_org_id r) (flowr_name r) (flowr_version r)
    (flowr_channel r) (flowr_type r) (flowr_locale r) ivr.

Definition json_error : goerr := ErrOther "json".

(** What GetActiveFlow does with the row it found. *)
Definition decode_row (r : FlowRow) : (Flow * bool) + goerr :=
  if (flowr_type r =? FlowIVR)%string then
    match FlowJson.UnmarshalIVRSpec (flowr_spec r) with
    | Some ivr => inl (row_flow r ivr, true)
    | None => inr json_error
    end
  else inl (row_flow r zeroIVRSpec, true).

Definition GetActiveFlow (orgID : OrgID) (name : string) : prog World (Flow * bool) :=
  let! row := ptry (exec (FlowQ.GetActiveFlowByName orgID name)) in
  match row with
  | inr ErrNoRows => ret (zeroFlow, false)
  | inr err => fail err
  | inl row => match decode_row row with inl f => ret f | inr err => fail err end
  end.

Definition Create (orgID : OrgID) (nf : NewFlow) : prog World FlowID :=
  let! fid := Id.New "flow" in
  do! exec (FlowQ.CreateFlow fid orgID (nf_Name nf) 1 (nf_Channel nf) (nf_Type nf)
              (nf_Locale nf) (nf_Spec nf)) in
  ret fid.

Definition ListByOrg (orgID : OrgID) : prog World (list FlowSummary) :=
  let! rows := exec (FlowQ.ListFlowsByOrg orgID) in
  ret (map (fun r => mkFlowSummary (flowr_id r) (flowr_name r) (flowr_version r)
                       (flowr_channel r) (flowr_type r) (flowr_is_active r)) rows).

Definition zeroFlowDetail : FlowDetail := mkFlowDetail "" "" "" 0 "" "" "" "".

Definition GetByID (id : FlowID) : prog World (FlowDetail * bool) :=
  let! row := ptry (exec (FlowQ.GetFlowByID id)) in
  match row with
  | inr ErrNoRows => ret (zeroFlowDetail, false)
  | inr err => fail err
  | inl r =>
      ret (mkFlowDetail (flowr_id r) (flowr_org_id r) (flowr_name r) (flowr_version r)
             (flowr_channel r) (flowr_type r) (flowr_locale r) (flowr_spec r), true)
  end.

Definition UpdateSpec (id : FlowID) (orgID : OrgID) (spec : string) : prog World unit :=
  exec (FlowQ.UpdateFlowSpec id spec orgID).

#[export] Instance repo : FlowRepo.T :=
  { FlowRepo.GetActiveFlow := GetActiveFlow; FlowRepo.Create := Create;
    FlowRepo.ListByOrg := ListByOrg; FlowRepo.GetByID := GetByID;
    FlowRepo.UpdateSpec := UpdateSpec }.
End PgFlowRepo.

#[export] Instance PgFlowRepo_laws : FlowRepo.Laws PgFlowRepo.repo.
Proof.
  split. intros org name. apply lin_query.
  - intros ctx d a d'. intros H%with_text_ok. revert H. split_match; by intros [= _ <-].
  - intros [row|e]; [destruct (PgFlowRepo.decode_row row) eqn:E|destruct e];
      cbn; rewrite ?E; by eexists.
Qed.
