(* ===== verification/PgCalls.v ===== *)
(** * Calls, call outcomes and calling policies in Postgres

    internal/adapter/postgres/calls.go, webhooks.go (OutcomeRepo) and
    callpolicy.go, over gen/calls.sql.go, the InsertOutbox statement of
    gen/webhooks.sql.go and gen/callpolicy.sql.go. *)

From S2P Require Import Prelude.
From S2P Require Import Domain.
From S2P Require Import Effects.
From S2P Require Import GoLib.
From S2P Require Import Store.
From S2P Require Import Ports.
From stdpp Require Import gmap strings list.
From Stdlib Require Import ZArith Lia.

Open Scope Z_scope.
Open Scope go_scope.

(** ** gen/calls.sql.go *)

Module CallQ.
Definition has_id (id : string) (r : CallRow) : bool := (callr_id r =? id)%string.
Definition of_org (orgID : string) (r : CallRow) : bool := (callr_org_id r =? orgID)%string.

Definition CreateCall (id orgID : string) (flowID providerCallID : option string)
    (direction status : string) (result : option string) : stmt unit := fun ctx d =>
  match tfind (has_id id) (calls d) with
  | Some _ => inr unique_violation
  | None =>
      inl (tt, set_calls
        (calls d ++ [mkCallRow id orgID flowID providerCallID direction status result
                       None None (sql_now ctx)]) d)
  end.

Definition GetCall (id : string) : stmt CallRow :=
  with_text [id] (fun _ d =>
  match tfind (has_id id) (calls d) with
  | None => inr ErrNoRows
  | Some r => inl (r, d)
  end).

Definition ListCallsByOrg (orgID : string) (limit : Z) : stmt (list CallRow) :=
  fun _ d =>
    sql_limit limit
      (tsort (fun r => - callr_created_at r) (tselect (of_org orgID) (calls d))) d.

Definition count {R} (p : R -> bool) (t : list R) : Z := Z.of_nat (length (tselect p t)).

Definition result_is (x : string) (r : CallRow) : bool :=
  match callr_result r with Some y => (y =? x)%string | None => false end.

Definition CallSummary (orgID : string) : stmt CallSummary := fun ctx d =>
  let t := tselect (of_org orgID) (calls d) in
  inl (mkCallSummary (count (fun _ => true) t) (count (result_is "confirmed") t)
         (count (result_is "cancelled") t)
         (count (fun r => sql_now ctx - 24 * Hour <=? callr_created_at r) t), d).

Definition set_media (recordingUrl transcript : option string) (r : CallRow) : CallRow :=
  mkCallRow (callr_id r) (callr_org_id r) (callr_flow_id r) (callr_provider_call_id r)
    (callr_direction r) (callr_status r) (callr_result r) recordingUrl transcript
    (callr_created_at r).

Definition AttachCallMedia (id : string) (recordingUrl transcript : option string)
  : stmt unit :=
  with_text [deref recordingUrl; deref transcript] (fun _ d =>
  inl (tt, set_calls (tupdate (has_id id) (set_media recordingUrl transcript) (calls d)) d)).

Definition DeleteCallsBefore (createdAt : Time) : stmt Z := fun _ d =>
  let old r := callr_created_at r <? createdAt in
  inl (count old (calls d), set_calls (tdelete old (calls d)) d).
End CallQ.

(** ** CallRepo *)

Module PgCallRepo.
Definition Create (c : Call) : prog World unit :=
  exec (CallQ.CreateCall (call_ID c) (call_OrgID c) (strPtr (call_FlowID c))
          (strPtr (call_ProviderCallID c)) (call_Direction c) (call_Status c)
          (strPtr (call_Result c))).

Definition row_call (r : CallRow) : Call :=
  mkCall (callr_id r) (callr_org_id r) (deref (callr_flow_id r))
    (deref (callr_provider_call_id r)) (callr_direction r) (callr_status r)
    (deref (callr_result r)) (deref (callr_recording_url r)) (deref (callr_transcript r))
    (callr_created_at r).

Definition Get (id : CallID) : prog World Call :=
  let! row := ptry (exec (CallQ.GetCall id)) in
  match row with
  | inr ErrNoRows => fail ErrNotFound
  | inr err => fail err
  | inl row => ret (row_call row)
  end.

(** The list leaves the media columns out. *)
Definition ListByOrg (orgID : OrgID) (limit : Z) : prog World (list Call) :=
  let! rows := exec (CallQ.ListCallsByOrg orgID (int32_of limit)) in
  ret (map (fun r => mkCall (callr_id r) (callr_org_id r) (deref (callr_flow_id r))
         (deref (callr_provider_call_id r)) (callr_direction r) (callr_status r)
         (deref (callr_result r)) "" "" (callr_created_at r)) rows).

Definition AttachMedia (id : CallID) (recordingURL transcript : string)
  : prog World unit :=
  exec (CallQ.AttachCallMedia id (strPtr recordingURL) (strPtr transcript)).

Definition DeleteBefore (cutoff : Time) : prog World Z :=
  exec (CallQ.DeleteCallsBefore cutoff).

Definition Summary (orgID : OrgID) : prog World CallSummary :=
  exec (CallQ.CallSummary orgID).

#[export] Instance repo : CallRepo.T :=
  { CallRepo.Create := Create; CallRepo.Get := Get; CallRepo.ListByOrg := ListByOrg;
    CallRepo.Summary := Summary; CallRepo.AttachMedia := AttachMedia;
    CallRepo.DeleteBefore := DeleteBefore }.
End PgCallRepo.

(** ** OutcomeRepo *)

Module PgOutcomeRepo.
(** The next value of the table's bigserial: above every id handed out (a
    sequence may also skip values). *)
Definition next_outbox_id (d : DB) : Z :=
  1 + fold_right (fun r m => Z.max (ob_id r) m) 0 (webhook_outbox d).

Definition InsertOutbox (orgID event payload : string) : stmt unit := fun ctx d =>
  match sql_jsonb ctx payload with
  | None => inr invalid_text
  | Some payload' =>
      inl (tt, set_webhook_outbox
        (webhook_outbox d ++
           [mkOutboxRow (next_outbox_id d) orgID event payload' (sql_now ctx) None]) d)
  end.

Definition RecordCallOutcome (c : Call) (outbox : option OutboxEvent) : prog World unit :=
  transact (
    do! tx_stmt (CallQ.CreateCall (call_ID c) (call_OrgID c) (strPtr (call_FlowID c))
            (strPtr (call_ProviderCallID c)) (call_Direction c) (call_Status c)
            (strPtr (call_Result c))) in
    do! match outbox with
          | Some ev => tx_stmt (InsertOutbox (call_OrgID c) (oe_Event ev) (oe_Payload ev))
          | None => ret tt
          end in
    do! tx_commit in
    ret tt).

#[export] Instance repo : OutcomeRepo.T :=
  { OutcomeRepo.RecordCallOutcome := RecordCallOutcome }.
End PgOutcomeRepo.

(** ** CallPolicyRepo: gen/callpolicy.sql.go and callpolicy.go *)

Module CallPolicyQ.
Definition GetCallPolicy (orgID : string) : stmt CallPolicyRow := fun _ d =>
  match org_call_policy d !! orgID with
  | None => inr ErrNoRows
  | Some r => inl (r, d)
  end.

Definition UpsertCallPolicy (orgID : string) (r : CallPolicyRow) : stmt unit := fun _ d =>
  inl (tt, set_org_call_policy (<[orgID := r]> (org_call_policy d)) d).
End CallPolicyQ.

(** DefaultCallPolicy (domain/callpolicy.go) *)
Definition DefaultCallPolicy : CallPolicy := mkCallPolicy 9 21 "Asia/Dhaka" 2.

Module PgCallPolicyRepo.
Definition Get (orgID : OrgID) : prog World CallPolicy :=
  let! row := ptry (exec (CallPolicyQ.GetCallPolicy orgID)) in
  match row with
  | inr ErrNoRows => ret DefaultCallPolicy
  | inr err => fail err
  | inl row => ret (mkCallPolicy (polr_window_start row) (polr_window_end row)
                      (polr_timezone row) (polr_max_retries row))
  end.

(** The smallint columns take int16 conversions of the fields. *)
Definition Upsert (orgID : OrgID) (p : CallPolicy) : prog World unit :=
  exec (CallPolicyQ.UpsertCallPolicy orgID
          (mkCallPolicyRow (int16_of (pol_WindowStart p)) (int16_of (pol_WindowEnd p))
             (pol_Timezone p) (int16_of (pol_MaxRetries p)))).

#[export] Instance repo : CallPolicyRepo.T :=
  { CallPolicyRepo.Get := Get; CallPolicyRepo.Upsert := Upsert }.
End PgCallPolicyRepo.

(** ** The laws *)

#[export] Instance PgCallPolicyRepo_laws : CallPolicyRepo.Laws PgCallPolicyRepo.repo.
Proof.
  split. intros org. apply lin_query.
  - intros ctx d a d'. unfold CallPolicyQ.GetCallPolicy. split_match; by intros [= _ <-].
  - intros [row|[]]; by eexists.
Qed.

#[export] Instance PgOutcomeRepo_laws : OutcomeRepo.Laws PgOutcomeRepo.repo.
Proof.
  split. intros c ev.
  change (lin (OutcomeRepo.Record_spec c ev) (PgOutcomeRepo.RecordCallOutcome c ev)).
  apply transact_lin; [intros; apply OutcomeRepo.record_failed|].
  intros st. apply txwp_stmt; [|intros; apply OutcomeRepo.record_failed].
  intros ctx [] d1 H1. unfold CallQ.CreateCall in H1.
  destruct (tfind _ _); [done|]. invc H1.
  destruct ev as [ev|].
  - apply txwp_stmt; [|intros; apply OutcomeRepo.record_failed].
    intros ctx' [] d2 H2. unfold PgOutcomeRepo.InsertOutbox in H2.
    destruct (sql_jsonb _ _); [|done].
    invc H2. apply txwp_commit with (b := tt); [done|..]; simpl;
      intros; try apply OutcomeRepo.record_failed;
      apply OutcomeRepo.record_ok; exists (sql_now ctx); simpl;
      (eexists; split; [|split; [|split; [|reflexivity]]]; done).
  - apply (txwp_commit (fun _ => ret tt) tt); [done|..]; simpl;
      intros; try apply OutcomeRepo.record_failed;
      apply OutcomeRepo.record_ok; by exists (sql_now ctx).
Qed.
