(* ===== verification/CallPolicy.v ===== *)
(** * Calling policies (domain/callpolicy.go)

    The hours of the day, in the org's timezone, in which calls may be placed.
    The tz database is the parameter [TimeZones.T]. *)

From S2P Require Import Prelude.
From S2P Require Import Domain.
From S2P Require Import Effects.
From S2P Require Import GoLib.
From S2P Require Import Store.
From S2P Require Import Ports.
From S2P Require Import PgCalls.
From stdpp Require Import gmap strings list.
From Stdlib Require Import ZArith Lia.

Open Scope Z_scope.

Module CallPolicy.
Section Policy.
Context {tz : TimeZones.T}.

Definition UTC (t : Time) : Z := 0.

(** t.In(loc).Hour() *)
Definition hour_in (loc : Time -> Z) (t : Time) : Z := ((t + loc t) / Hour) mod 24.

(** An unknown timezone falls back to UTC. *)
Definition location (p : CallPolicy) : Time -> Z :=
  default UTC (TimeZones.LoadLocation (pol_Timezone p)).

Definition Allows (p : CallPolicy) (t : Time) : bool :=
  let h := hour_in (location p) t in
  (pol_WindowStart p <=? h) && (h <? pol_WindowEnd p).

Definition Valid (p : CallPolicy) : bool :=
  if (pol_WindowStart p <? 0) || (23 <? pol_WindowStart p)
     || (pol_WindowEnd p <? 1) || (24 <? pol_WindowEnd p) then false
  else if pol_WindowEnd p <=? pol_WindowStart p then false
  else if (pol_MaxRetries p <? 0) || (10 <? pol_MaxRetries p) then false
  else match TimeZones.LoadLocation (pol_Timezone p) with
       | None => false
       | Some _ => true
       end.

Lemma Valid_spec p :
  Valid p = true ->
  0 <= pol_WindowStart p < pol_WindowEnd p /\ pol_WindowEnd p <= 24 /\
  0 <= pol_MaxRetries p <= 10 /\ is_Some (TimeZones.LoadLocation (pol_Timezone p)).
Proof.
  unfold Valid. repeat split_match; try done. intros _. bool_prop.
  repeat split; try lia. by eexists.
Qed.

Lemma hour_in_range loc t : 0 <= hour_in loc t < 24.
Proof. unfold hour_in. by apply Z.mod_pos_bound. Qed.

(** Under a fixed offset the hour at the start of the window comes within a
    day of any instant. *)
Lemma hour_reached off t h :
  0 <= h < 24 -> exists t', t <= t' < t + 24 * Hour /\ hour_in (fun _ => off) t' = h.
Proof.
  intros Hh. set (q := (t + off) / Hour).
  set (k := (h - q) mod 24).
  assert (0 <= k < 24) as Hk by by apply Z.mod_pos_bound.
  exists (t + k * Hour). unfold hour_in, Hour, Minute, Second in *.
  split; [lia|].
  replace (t + k * (60 * (60 * 1000000)) + off) with ((t + off) + k * (60 * (60 * 1000000)))
    by lia.
  rewrite Z.div_add by lia. fold q. unfold k.
  rewrite Zplus_mod_idemp_r. replace (q + (h - q)) with h by lia.
  by apply Z.mod_small.
Qed.

(** A valid policy never blocks calls for good: in a zone with a fixed
    offset some instant of the next 24 hours is allowed, and every allowed
    instant falls in the window's local hours. *)
Theorem valid_policy_opens (p : CallPolicy) (off : Z) (t : Time) :
  Valid p = true ->
  TimeZones.LoadLocation (pol_Timezone p) = Some (fun _ => off) ->
  (exists t', t <= t' < t + 24 * Hour /\ Allows p t' = true) /\
  (forall t', Allows p t' = true <->
     pol_WindowStart p <= ((t' + off) / Hour) mod 24 < pol_WindowEnd p).
Proof.
  intros Hv Hloc. destruct (Valid_spec p Hv) as (H1 & H2 & _ & _).
  unfold Allows, location. rewrite Hloc. cbn [from_option]. unfold id. split.
  - destruct (hour_reached off t (pol_WindowStart p)) as (t' & Ht & Hh); [lia|].
    exists t'. split; [done|]. rewrite Hh. lia.
  - intros t'. unfold hour_in. lia.
Qed.
End Policy.
End CallPolicy.

(** Asia/Dhaka is UTC+6 all year. *)
Definition dhaka_only : TimeZones.T :=
  {| TimeZones.LoadLocation name :=
       if (name =? "Asia/Dhaka")%string then Some (fun _ => 6 * Hour) else None |}.

Lemma valid_policy_opens_witness :
  CallPolicy.Valid (tz := dhaka_only) DefaultCallPolicy = true /\
  exists t', 0 <= t' < 24 * Hour /\
    CallPolicy.Allows (tz := dhaka_only) DefaultCallPolicy t' = true.
Proof.
  split; [reflexivity|].
  exact (proj1 (CallPolicy.valid_policy_opens (tz := dhaka_only) DefaultCallPolicy (6 * Hour) 0
                  eq_refl eq_refl)).
Defined.

(** What the smallint columns store of a valid policy is the policy. *)
Lemma valid_fits_int16 (tz : TimeZones.T) (p : CallPolicy) :
  CallPolicy.Valid p = true ->
  int16_of (pol_WindowStart p) = pol_WindowStart p /\
  int16_of (pol_WindowEnd p) = pol_WindowEnd p /\
  int16_of (pol_MaxRetries p) = pol_MaxRetries p.
Proof.
  intros Hv. destruct (CallPolicy.Valid_spec p Hv) as (? & ? & ? & _).
  rewrite !int16_of_id by lia. done.
Qed.
