(* ===== verification/Billing.v ===== *)
(** * Billing: balance, ledger, top-ups, checkout and settlement

    internal/service/billing/billing.go, and the development gateway
    internal/adapter/payment/mock/mock.go.  The service is written against the
    ports; its theorems use their laws. *)

From S2P Require Import Prelude.
From S2P Require Import Domain.
From S2P Require Import Effects.
From S2P Require Import GoLib.
From S2P Require Import Store.
From S2P Require Import Ports.
From S2P Require Import PgCredits.
From stdpp Require Import gmap strings list.
From Stdlib Require Import ZArith Lia.

Open Scope Z_scope.
Open Scope go_scope.

Module Billing.
Definition bdtPerCredit : Z := 1.

Section Service.
Context {credits : CreditRepo.T} {payments : PaymentRepo.T} {gateway : PaymentGateway.T}.

Definition Balance (orgID : OrgID) : prog World Z := CreditRepo.Balance orgID.

Definition Ledger (orgID : OrgID) (limit : Z) : prog World (list CreditEntry) :=
  let limit := if (limit <=? 0) || (100 <? limit) then 20 else limit in
  CreditRepo.Ledger orgID limit.

Definition TopUp (orgID : OrgID) (amount : Z) : prog World Z :=
  let amount := if (amount <=? 0) || (100000 <? amount) then 100 else amount in
  CreditRepo.Grant orgID amount "topup".

Definition Checkout (orgID : OrgID) (credits : Z) : prog World string :=
  let credits := if credits <=? 0 then 100
                 else if 100000 <? credits then 100000 else credits in
  let! pid := Id.New "pay" in
  let p := mkPayment pid orgID PaymentGateway.Name pid credits (credits * bdtPerCredit)
             PaymentPending zeroTime in
  do! PaymentRepo.Create p in
  let! checkout := PaymentGateway.Checkout
                     (mkPaymentRequest orgID pid credits (pay_AmountBDT p)) in
  ret (pco_RedirectURL checkout).

Definition SettlePayment (form : gmap string string) : prog World unit :=
  let! '(res, ok) := PaymentGateway.VerifyIPN form in
  if negb ok then ret tt
  else
    let! settled := ptry (PaymentRepo.Settle PaymentGateway.Name (pres_ProviderRef res)
                            (pres_Status res)) in
    match settled with
    | inr ErrNotFound => ret tt
    | inr err => fail err
    | inl (p, transitioned) =>
        if transitioned && (pres_Status res =? PaymentPaid)%string then
          do! CreditRepo.Grant (pay_OrgID p) (pay_Credits p) "topup" in ret tt
        else ret tt
    end.
End Service.
End Billing.

(** ** The development gateway *)

Module MockGateway.
Definition Name : string := "mock".

Definition Checkout (appURL : string) (req : PaymentRequest) : prog World PaymentCheckout :=
  let u := appURL +:+ "/v1/dev/pay?ref=" +:+ Url.QueryEscape (preq_PaymentID req) in
  ret (mkPaymentCheckout (preq_PaymentID req) u).

Definition VerifyIPN (form : gmap string string) : prog World (PaymentResult * bool) :=
  let status := if (default "" (form !! "status") =? "failed")%string
                then PaymentFailed else PaymentPaid in
  ret (mkPaymentResult (default "" (form !! "tran_id")) status, true).

Definition gateway (appURL : string) : PaymentGateway.T :=
  {| PaymentGateway.Name := Name; PaymentGateway.Checkout := Checkout appURL;
     PaymentGateway.VerifyIPN := VerifyIPN |}.

#[export] Instance laws appURL : PaymentGateway.Laws (gateway appURL).
Proof. by split. Qed.
End MockGateway.
