(* ===== verification/Calls.v ===== *)
(** * Calls: placing, recording and metering

    internal/service/calls/calls.go, the development voice provider
    internal/adapter/voice/mock/mock.go, the wall clock
    internal/platform/clock/clock.go and the low-balance notifier
    internal/service/notify/notify.go. *)

From S2P Require Import Prelude.
From S2P Require Import Domain.
From S2P Require Import Effects.
From S2P Require Import GoLib.
From S2P Require Import Json.
From S2P Require Import FlowEngine.
From S2P Require Import Store.
From S2P Require Import Ports.
From S2P Require Import PgCalls.
From S2P Require Import CallPolicy.
From stdpp Require Import gmap strings list.
From Stdlib Require Import ZArith Lia.

Open Scope Z_scope.
Open Scope go_scope.

Module Calls.
Definition creditsPerCall : Z := 1.

(** The members of the payload, in the key order of json.Marshal. *)
Definition outcome_fields (c : Call) : list (string * string) :=
  [("call_id", call_ID c); ("event", "call." +:+ call_Status c);
   ("result", call_Result c); ("status", call_Status c)].

Definition outcomeEvent (c : Call) : OutboxEvent :=
  mkOutboxEvent ("call." +:+ call_Status c)
    (Json.marshal (JObj (JsonFacts.str_members (outcome_fields c)))).

Section Service.
Context {tz : TimeZones.T} {provider : VoiceProvider.T} {outcomes : OutcomeRepo.T}
  {callrepo : CallRepo.T} {flows : FlowRepo.T} {credits : CreditRepo.T}
  {policy : CallPolicyRepo.T} {notifier : CreditNotifier.T} {clock : Clock.T}.
(* a nil publisher is allowed *)
Context (activity : option ActivityPublisher.T).

Definition Policy (orgID : OrgID) : prog World CallPolicy := CallPolicyRepo.Get orgID.

Definition SavePolicy (orgID : OrgID) (p : CallPolicy) : prog World unit :=
  if negb (CallPolicy.Valid p) then fail ErrInvalidCallPolicy
  else CallPolicyRepo.Upsert orgID p.

Definition List (orgID : OrgID) (limit : Z) : prog World (list Call) :=
  let limit := if (limit <=? 0) || (200 <? limit) then 50 else limit in
  CallRepo.ListByOrg orgID limit.

Definition Summary (orgID : OrgID) : prog World CallSummary := CallRepo.Summary orgID.

Definition Get (orgID : OrgID) (id : CallID) : prog World Call :=
  let! c := CallRepo.Get id in
  if negb (call_OrgID c =? orgID)%string then fail ErrNotFound else ret c.

Definition publish (e : ActivityEvent) : prog World unit :=
  match activity with
  | Some a => ActivityPublisher.PublishActivity e
  | None => ret tt
  end.

(** The simulated leg of a test call: Start, then one keypress if the start
    reached a gather.  [None] is a nil outcome. *)
Definition test_outcome (flow : Flow) (digit : string) : option Outcome :=
  let '(_, st, out) := IVR.Start flow in
  match out with
  | Some _ => out
  | None => let '((_, out), _) := IVR.OnDTMF flow st digit in out
  end.

Definition RunTestCall (orgID : OrgID) (toPhone digit flowName : string)
  : prog World (Outcome * Call) :=
  let! '(flow, found) := FlowRepo.GetActiveFlow orgID flowName in
  if negb found then fail ErrNotFound
  else
    let! '(ok, _) := CreditRepo.TryDeduct orgID creditsPerCall "call" in
    if negb ok then fail ErrInsufficientCredits
    else
      let! pid := VoiceProvider.PlaceCall (mkCallRequest orgID toPhone "" flow) in
      let! cid := Id.New "call" in
      match test_outcome flow digit with
      | None => panic       (* out.Status on a nil pointer *)
      | Some out =>
          let! now := Clock.Now in
          let call := mkCall cid orgID (flow_ID flow) pid Outbound (out_Status out)
                        (out_Result out) "" "" now in
          do! OutcomeRepo.RecordCallOutcome call (Some (outcomeEvent call)) in
          do! publish (mkActivityEvent ("call." +:+ call_Status call) orgID
                         ("Call " +:+ call_Status call) (call_Result call)
                         (call_CreatedAt call)) in
          ret (out, call)
      end.

Definition PlaceCall (inp : PlaceCallInput) : prog World unit :=
  let orgID := pci_OrgID inp in
  let! pol := CallPolicyRepo.Get orgID in
  let! now := Clock.Now in
  if negb (CallPolicy.Allows pol now) then fail ErrOutsideCallWindow
  else
    let! '(ok, balance) := CreditRepo.TryDeduct orgID creditsPerCall "call" in
    if negb ok then fail ErrInsufficientCredits
    else
      do! (if (balance <=? LowBalanceThreshold)
              && (LowBalanceThreshold <? balance + creditsPerCall)
           then CreditNotifier.LowBalance orgID balance else ret tt) in
      let! pid := VoiceProvider.PlaceCall
                    (mkCallRequest orgID (pci_ToPhone inp) "" zeroFlow) in
      let! cid := Id.New "call" in
      let! now := Clock.Now in
      OutcomeRepo.RecordCallOutcome
        (mkCall cid orgID (pci_FlowID inp) pid Outbound StatusQueued "" "" "" now) None.
End Service.
End Calls.

(** ** clock.Real *)

Module RealClock.
#[export] Instance clock : Clock.T := { Clock.Now := Now }.

#[export] Instance laws : Clock.Laws clock.
Proof. split. by apply guar_Now. Qed.
End RealClock.

(** ** The mock provider: it logs the call it would place *)

Module MockVoice.
Definition PlaceCall (req : CallRequest) : prog World ProviderCallID :=
  let! pid := Id.New "mockcall" in
  do! emit_effect (EDial req pid) in
  ret pid.

#[export] Instance provider : VoiceProvider.T := { VoiceProvider.PlaceCall := PlaceCall }.

#[export] Instance laws : VoiceProvider.Laws provider.
Proof.
  split. intros req env w. left. split; [done|]. simpl. intros env' w'. right.
  eexists. split; [done|]. apply VoiceProvider.dial_ok.
Qed.
End MockVoice.

(** ** notify.Service *)

Module Notify.
Section Service.
Context {email : EmailSender.T} {orgstore : OrgStore.T}.

Definition low_balance_body (balance : Z) : string :=
  "Your Yaver balance is down to " +:+ Strconv.Itoa balance +:+
  " credits. Top up to keep your calls and chats running without interruption.".

Definition LowBalance (orgID : OrgID) (balance : Z) : prog World unit :=
  let! to := ptry (OrgStore.OwnerEmail orgID) in
  match to with
  | inr _ => ret tt
  | inl to =>
      if (to =? "")%string then ret tt
      else pignore (EmailSender.Send to "Your Yaver credits are running low"
                      (low_balance_body balance))
  end.

#[export] Instance notifier : CreditNotifier.T := { CreditNotifier.LowBalance := LowBalance }.

Context {email_laws : EmailSender.Laws email} {org_laws : OrgStore.Laws orgstore}.

#[export] Instance laws : CreditNotifier.Laws notifier.
Proof.
  split. intros org balance. apply guar_bind.
  - apply guar_try. eapply guar_mono; [apply quiet_silent|apply OrgStore.OwnerEmail_silent].
  - intros [to|e]; [|done]. split_match; [done|].
    apply guar_ignore, EmailSender.Send_quiet.
Qed.
End Service.
End Notify.
