(* ===== verification/Flows.v ===== *)
(** * Flows: the builder's service and the starter templates

    internal/service/flows/flows.go and templates.go. *)

From S2P Require Import Prelude.
From S2P Require Import Domain.
From S2P Require Import Effects.
From S2P Require Import GoLib.
From S2P Require Import Json.
From S2P Require Import FlowEngine.
From S2P Require Import Store.
From S2P Require Import Ports.
From S2P Require Import PgFlows.
From stdpp Require Import gmap strings list.
From Stdlib Require Import ZArith Lia.

Open Scope Z_scope.
Open Scope go_scope.

Module Flows.
(** knownFlowTypes *)
Definition knownFlowTypes (t : string) : bool :=
  (t =? FlowIVR)%string || (t =? FlowChat)%string.

(** The spec parses and its entry node exists. *)
Definition validateIVR (raw : string) : option goerr :=
  match FlowJson.UnmarshalIVRSpec raw with
  | None => Some ErrFlowInvalid
  | Some spec =>
      if (ivr_Entry spec =? "")%string then Some ErrFlowInvalid
      else match ivr_Nodes spec !! ivr_Entry spec with
           | None => Some ErrFlowInvalid
           | Some _ => None
           end
  end.

Section Service.
Context {repo : FlowRepo.T}.

Definition List (orgID : OrgID) : prog World (list FlowSummary) := FlowRepo.ListByOrg orgID.

Definition Get (orgID : OrgID) (id : FlowID) : prog World FlowDetail :=
  let! '(fd, found) := FlowRepo.GetByID id in
  if negb found || negb (fd_OrgID fd =? orgID)%string then fail ErrNotFound else ret fd.

(** The defaults Create fills in. *)
Definition with_defaults (nf : NewFlow) : NewFlow :=
  mkNewFlow (nf_Name nf)
    (if (nf_Channel nf =? "")%string
     then if (nf_Type nf =? FlowChat)%string then ChannelChat else ChannelVoice
     else nf_Channel nf)
    (nf_Type nf)
    (if (nf_Locale nf =? "")%string then "en" else nf_Locale nf)
    (nf_Spec nf).

Definition Create (orgID : OrgID) (nf : NewFlow) : prog World FlowID :=
  if (nf_Name nf =? "")%string || negb (knownFlowTypes (nf_Type nf)) then
    fail ErrFlowInvalid
  else
    let nf := with_defaults nf in
    match (if (nf_Type nf =? FlowIVR)%string then validateIVR (nf_Spec nf) else None) with
    | Some err => fail err
    | None =>
        let! '(_, found) := FlowRepo.GetActiveFlow orgID (nf_Name nf) in
        if found : bool then fail ErrConflict
        else FlowRepo.Create orgID nf
    end.

Definition UpdateSpec (orgID : OrgID) (id : FlowID) (spec : string) : prog World unit :=
  do! Get orgID id in
  match validateIVR spec with
  | Some err => fail err
  | None => FlowRepo.UpdateSpec id orgID spec
  end.
End Service.

Definition Simulate (spec : string) (inputs : list string) : Sim.Simulation + goerr :=
  match validateIVR spec with
  | Some err => inr err
  | None =>
      match FlowJson.UnmarshalIVRSpec spec with
      | None => inr ErrFlowInvalid
      | Some ivr =>
          inl (Sim.Simulate (mkFlow "" "" "" 0 "" FlowIVR "" ivr) inputs)
      end
  end.
End Flows.

(** ** Templates *)

Module Templates.
Record Template := mkTemplate {
  tpl_Name : string; tpl_Title : string; tpl_Description : string;
  tpl_Channel : string; tpl_Type : string; tpl_Locale : string; tpl_Spec : string
}.

Definition orderConfirmSpec : string := json_text
"{
  `entry`: `greet`,
  `nodes`: {
    `greet`:      {`say`: {`tts`: `Press 1 to confirm your order, 2 to cancel, 3 to reschedule.`},
                   `gather`: {`digits`: 1, `timeout_s`: 6},
                   `on`: {`1`: `confirmed`, `2`: `cancelled`, `3`: `reschedule`, `timeout`: `no_input`}},
    `confirmed`:  {`say`: {`tts`: `Thank you, your order is confirmed.`}, `result`: `confirmed`,  `end`: true},
    `cancelled`:  {`say`: {`tts`: `Your order has been cancelled.`},     `result`: `cancelled`,  `end`: true},
    `reschedule`: {`say`: {`tts`: `We'll call you to reschedule.`},      `result`: `reschedule`, `end`: true},
    `no_input`:   {`result`: `no_answer`, `end`: true}
  }
}".

Definition cartRecoverySpec : string := json_text
"{
  `entry`: `greet`,
  `nodes`: {
    `greet`:    {`say`: {`tts`: `You left items in your cart. Press 1 to hold them and get a callback, 2 to decline.`},
                 `gather`: {`digits`: 1, `timeout_s`: 6},
                 `on`: {`1`: `held`, `2`: `declined`, `timeout`: `no_input`}},
    `held`:     {`say`: {`tts`: `Great, we've held your cart and will call you back shortly.`}, `result`: `confirmed`, `end`: true},
    `declined`: {`say`: {`tts`: `No problem, thanks for your time.`},                            `result`: `cancelled`, `end`: true},
    `no_input`: {`result`: `no_answer`, `end`: true}
  }
}".

Definition deliveryReminderSpec : string := json_text
"{
  `entry`: `greet`,
  `nodes`: {
    `greet`:      {`say`: {`tts`: `Your order is out for delivery. Press 1 to confirm you're available, 2 to reschedule.`},
                   `gather`: {`digits`: 1, `timeout_s`: 6},
                   `on`: {`1`: `available`, `2`: `reschedule`, `timeout`: `no_input`}},
    `available`:  {`say`: {`tts`: `Thank you, your delivery is confirmed.`}, `result`: `confirmed`,  `end`: true},
    `reschedule`: {`say`: {`tts`: `We'll reschedule your delivery.`},        `result`: `reschedule`, `end`: true},
    `no_input`:   {`result`: `no_answer`, `end`: true}
  }
}".

Definition Templates : list Template :=
  [mkTemplate "order_confirm" "COD order confirmation"
     "Press 1 to confirm, 2 to cancel, 3 to reschedule. The v1 wedge."
     ChannelVoice FlowIVR "en" orderConfirmSpec;
   mkTemplate "cart_recovery" "Abandoned-cart nudge"
     "Press 1 to hold the cart and get a callback, 2 to decline."
     ChannelVoice FlowIVR "en" cartRecoverySpec;
   mkTemplate "delivery_reminder" "Delivery reminder"
     "Press 1 to confirm you're available, 2 to reschedule delivery."
     ChannelVoice FlowIVR "en" deliveryReminderSpec].
End Templates.
