(* ===== verification/Accounting.v ===== *)
(** * Accounting under every interleaving

    Handlers of the billing and calls services run concurrently against one
    database.  This file shows, for every pool of handlers and every schedule,
    that no balance goes negative, that the ledger explains every change of a
    balance, that top-ups never exceed what was paid for, and that calls dialled
    never exceed calls charged.

    The three results are one invariant, [books a b o]: [a] weighs the calls of
    org [o] (charged minus dialled), [b] its payments (paid minus granted), and a
    thread holds tokens between the step that earns (a charge, a settlement) and
    the step that spends (a dial, a grant). *)

From S2P Require Import Prelude.
From S2P Require Import Domain.
From S2P Require Import Effects.
From S2P Require Import GoLib.
From S2P Require Import Json.
From S2P Require Import FlowEngine.
From S2P Require Import Store.
From S2P Require Import Ports.
From S2P Require Import PgCredits.
From S2P Require Import PgFlows.
From S2P Require Import PgCalls.
From S2P Require Import CallPolicy.
From S2P Require Import Billing.
From S2P Require Import Calls.
From stdpp Require Import gmap strings list.
From Stdlib Require Import ZArith Lia.

Open Scope Z_scope.
Open Scope go_scope.

(** ** What is counted *)

Definition ledger_sum (st : State) (org : OrgID) : Z :=
  sum_by (fun r => if (led_org_id r =? org)%string then led_delta r else 0)
    (credit_ledger (s_db st)).

(** The total moved by ledger entries of one reason. *)
Definition moved (st : State) (org : OrgID) (reason : string) : Z :=
  sum_by (fun r => if (led_org_id r =? org)%string && (led_reason r =? reason)%string
                   then led_delta r else 0) (credit_ledger (s_db st)).

Definition call_charges (st : State) (org : OrgID) : Z := - moved st org "call".
Definition topups (st : State) (org : OrgID) : Z := moved st org "topup".

Definition paid_value (org : OrgID) (r : PaymentRow) : Z :=
  if (pmt_org_id r =? org)%string && (pmt_status r =? PaymentPaid)%string
  then pmt_credits r else 0.

Definition paid_credits (st : State) (org : OrgID) : Z :=
  sum_by (paid_value org) (payments (s_db st)).

(** The amounts of every payment fit the credit columns. *)
Definition payments_small (st : State) : Prop :=
  forall r, In r (payments (s_db st)) -> CreditRepo.small (pmt_credits r).

Definition drift (st : State) (org : OrgID) : Z := balance_of st org - ledger_sum st org.

Definition solvent (st : State) : Prop := forall org, 0 <= balance_of st org.

(** ** The effect of a posting *)

Definition same (x y : string) : Z := if (x =? y)%string then 1 else 0.

Lemma balance_of_post org delta reason st st' o :
  CreditRepo.post org delta reason st st' ->
  balance_of st' o = balance_of st o + delta * same org o.
Proof.
  intros (row & _ & _ & _ & ->). unfold balance_of, same. simpl.
  destruct (String.eqb_spec org o) as [->|Hne].
  - rewrite lookup_insert_eq. simpl. lia.
  - rewrite lookup_insert_ne by done. lia.
Qed.

Lemma moved_post org delta reason st st' o why :
  CreditRepo.post org delta reason st st' ->
  moved st' o why = moved st o why + delta * same org o * same reason why.
Proof.
  intros (row & <- & <- & <- & ->). unfold moved, same. simpl. rewrite sum_by_app. simpl.
  destruct (led_org_id row =? o)%string, (led_reason row =? why)%string; simpl; lia.
Qed.

Lemma ledger_sum_post org delta reason st st' o :
  CreditRepo.post org delta reason st st' ->
  ledger_sum st' o = ledger_sum st o + delta * same org o.
Proof.
  intros (row & <- & <- & _ & ->). unfold ledger_sum, same. simpl. rewrite sum_by_app. simpl.
  destruct (led_org_id row =? o)%string; simpl; lia.
Qed.

Lemma post_rest org delta reason st st' :
  CreditRepo.post org delta reason st st' ->
  payments (s_db st') = payments (s_db st) /\ s_trace st' = s_trace st.
Proof. by intros (row & _ & _ & _ & ->). Qed.

(** ** The effect of a settlement *)

Lemma same_range x y : 0 <= same x y <= 1.
Proof. unfold same. destruct (x =? y)%string; lia. Qed.

(** What settling one pending row earns its org. *)
Lemma paid_value_settle status now r o :
  PaymentRepo.is_pending r = true ->
  paid_value o (PaymentRepo.settle_row status now r) - paid_value o r =
  pmt_credits r * same (pmt_org_id r) o * same status PaymentPaid.
Proof.
  unfold PaymentRepo.is_pending, paid_value, same. intros Hp. bool_prop.
  rewrite Hp. simpl. rewrite andb_false_r.
  destruct (pmt_org_id r =? o)%string, (status =? PaymentPaid)%string; simpl; lia.
Qed.

Lemma paid_credits_settle provider ref status now st o :
  paid_credits (PaymentRepo.settle_rows provider ref status now st) o =
  paid_credits st o +
  sum_by (fun r => if PaymentRepo.matches provider ref r && PaymentRepo.is_pending r
                   then pmt_credits r * same (pmt_org_id r) o * same status PaymentPaid
                   else 0) (payments (s_db st)).
Proof.
  unfold paid_credits. simpl. rewrite sum_by_tupdate. f_equal.
  induction (payments (s_db st)) as [|x t IH]; simpl; [done|]. rewrite IH.
  destruct (PaymentRepo.matches _ _ _ && _) eqn:E; [|done]. bool_prop.
  by rewrite paid_value_settle.
Qed.

(** Settling as paid earns at least the credits of the row it returns; settling
    otherwise loses nothing. *)
Lemma paid_credits_settle_ge provider ref status now st r o :
  payments_small st ->
  PaymentRepo.pending_row provider ref st = Some r ->
  paid_credits st o + pmt_credits r * same (pmt_org_id r) o * same status PaymentPaid <=
  paid_credits (PaymentRepo.settle_rows provider ref status now st) o.
Proof.
  intros Hs Hr. rewrite paid_credits_settle.
  pose proof (sum_by_find _ (fun r => pmt_credits r * same (pmt_org_id r) o
    * same status PaymentPaid) _ _ ltac:(intros x Hx; specialize (Hs x Hx);
      unfold CreditRepo.small in Hs; pose proof (same_range (pmt_org_id x) o);
      pose proof (same_range status PaymentPaid); nia) Hr) as H. simpl in H. lia.
Qed.

(** ** The invariant *)

Section Books.
(* weights, the org that is watched, and where its books start *)
Context (a b : Z) (o : OrgID) (d0 : OrgID -> Z) (base : Z).
Context (Ha : 0 <= a) (Hb : 0 <= b).

Definition slack (st : State) : Z :=
  a * (call_charges st o - dials st o) + b * (paid_credits st o - topups st o).

Definition books (t : Z) (st : State) : Prop :=
  solvent st /\ (forall org, drift st org = d0 org) /\ payments_small st /\
  base + t <= slack st.

Definition inv : Z -> World -> Prop := on_state books.

(** Steps that no account sees. *)
Definition untouched (w w' : World) : Prop :=
  org_credits (w_db w') = org_credits (w_db w) /\
  credit_ledger (w_db w') = credit_ledger (w_db w) /\
  payments (w_db w') = payments (w_db w) /\
  forall org, dials (w_st w') org = dials (w_st w) org.

Lemma inv_untouched t w w' : untouched w w' -> inv t w -> inv t w'.
Proof.
  unfold inv, on_state, books, solvent, drift, payments_small, slack, call_charges,
    topups, moved, paid_credits, ledger_sum, balance_of, untouched, w_db.
  intros (-> & -> & -> & ->). done.
Qed.

Lemma untouched_quiet w w' : quiet w w' -> untouched w w'.
Proof. intros (Hd & _ & Hdial). unfold untouched, w_db. by rewrite Hd. Qed.

Lemma wpt_untouched {A} t (p : prog World A) :
  0 <= t -> guar untouched p -> wpt inv (fun _ t' => t' = t) t p.
Proof. intros Ht Hp. eapply wpt_guar; eauto using inv_untouched. Qed.

Lemma wpt_quiet {A} t (p : prog World A) :
  0 <= t -> guar quiet p -> wpt inv (fun _ t' => t' = t) t p.
Proof. intros. apply wpt_untouched; [done|]. eauto using guar_mono, untouched_quiet. Qed.

(** A read. *)
Lemma wpt_read {A} t (p : prog World A) :
  0 <= t -> lin (fun st _ st' => st' = st) p -> wpt inv (fun _ t' => t' = t) t p.
Proof.
  intros Ht Hp. apply wpt_quiet; [done|].
  apply (guar_lin (fun st _ st' => st' = st)); [apply quiet_silent| |done].
  intros w w' _. apply quiet_silent.
Qed.

(** What a posting does to the invariant. *)
Lemma books_post t t' org delta reason st st' :
  CreditRepo.post org delta reason st st' ->
  0 <= balance_of st org + delta -> books t st ->
  t' <= t - delta * same org o * (a * same reason "call" + b * same reason "topup") ->
  books t' st'.
Proof.
  intros Hpost Hbal (Hsolv & Hdrift & Hsmall & Hslack) Ht.
  destruct (post_rest _ _ _ _ _ Hpost) as [Hp Htr].
  split; [|split; [|split]].
  - intros org'. rewrite (balance_of_post _ _ _ _ _ _ Hpost).
    specialize (Hsolv org'). unfold same. destruct (String.eqb_spec org org') as [->|]; lia.
  - intros org'. rewrite <- Hdrift. unfold drift.
    rewrite (balance_of_post _ _ _ _ _ _ Hpost), (ledger_sum_post _ _ _ _ _ _ Hpost). lia.
  - unfold payments_small. by rewrite Hp.
  - unfold slack, call_charges, topups, paid_credits, dials in *.
    rewrite !(moved_post _ _ _ _ _ _ _ Hpost), Hp, Htr. lia.
Qed.

Lemma books_weaken t t' st : t' <= t -> books t st -> books t' st.
Proof. intros Ht (H1 & H2 & H3 & H4).
  split; [exact H1|]. split; [exact H2|]. split; [exact H3|]. lia.
Qed.

Lemma weights_pos x y : 0 <= a * same x y /\ 0 <= b * same x y.
Proof. pose proof (same_range x y). nia. Qed.

Context `{credits_laws : CreditRepo.Laws} `{payments_laws : PaymentRepo.Laws}.

Lemma wpt_TryDeduct t org amount reason :
  0 <= t -> CreditRepo.small amount -> reason <> "topup" ->
  wpt inv (fun r t' => match r with
                       | Ok (true, _) => t' = t + amount * same org o * (a * same reason "call")
                       | _ => t' = t
                       end) t (CreditRepo.TryDeduct org amount reason).
Proof.
  intros Ht Hs Hr. pose proof (weights_pos reason "call") as [Hw _].
  pose proof (same_range org o). unfold CreditRepo.small in Hs.
  assert (same reason "topup" = 0) as Etop
    by (unfold same; apply String.eqb_neq in Hr; by rewrite Hr).
  eapply wpt_lin; [done|by apply CreditRepo.TryDeduct_lin|].
  intros st rest r st' Hrest HI HS.
  destruct HS as [st st' Hex Hle Hpost|st Hno|st e|st st' e Hex Hle Hpost].
  - eexists. split; [|split; [|done]]; [nia|].
    eapply books_post; [exact Hpost|lia|exact HI|]. rewrite Etop. lia.
  - by exists t.
  - by exists t.
  - exists t. split; [done|]. split; [|done].
    eapply books_post; [exact Hpost|lia|exact HI|]. rewrite Etop. nia.
Qed.

Lemma wpt_Grant t org amount :
  CreditRepo.small amount -> b * (amount * same org o) <= t -> 0 <= t ->
  wpt inv (fun _ t' => 0 <= t') t (CreditRepo.Grant org amount "topup").
Proof.
  intros Hs Hle Ht. eapply wpt_lin; [done|by apply CreditRepo.Grant_lin|].
  unfold CreditRepo.small in Hs. pose proof (same_range org o).
  intros st rest r st' Hrest HI HS.
  assert (forall st st', books (t + rest) st -> CreditRepo.post org amount "topup" st st' ->
    exists t', 0 <= t' /\ books (t' + rest) st' /\ 0 <= t') as Hgo.
  { intros s1 s2 HI' Hpost. exists (t - b * (amount * same org o)).
    split; [lia|]. split; [|lia]. eapply books_post; [exact Hpost| |exact HI'|].
    - destruct HI' as [Hsolv _]. specialize (Hsolv org). lia.
    - change (same "topup" "call") with 0. change (same "topup" "topup") with 1. lia. }
  destruct HS; [by eapply Hgo|by exists t|by eapply Hgo].
Qed.

Lemma earning_nonneg n org status :
  CreditRepo.small n -> 0 <= b * (n * same org o * same status PaymentPaid).
Proof.
  unfold CreditRepo.small. intros Hn. pose proof (same_range org o).
  pose proof (same_range status PaymentPaid).
  repeat apply Z.mul_nonneg_nonneg; lia.
Qed.

Lemma wpt_Settle t provider ref status :
  0 <= t ->
  wpt inv (fun r t' => match r with
      | Ok (p, true) => CreditRepo.small (pay_Credits p) /\
          t' = t + b * (pay_Credits p * same (pay_OrgID p) o * same status PaymentPaid)
      | _ => t' = t
      end) t (PaymentRepo.Settle provider ref status).
Proof.
  intros Ht. eapply wpt_lin; [done|apply PaymentRepo.Settle_lin|].
  intros st rest r st' Hrest HI HS.
  assert (forall st row now, books (t + rest) st ->
    PaymentRepo.pending_row provider ref st = Some row ->
    CreditRepo.small (pmt_credits row) /\
    books (t + b * (pmt_credits row * same (pmt_org_id row) o * same status PaymentPaid) + rest)
      (PaymentRepo.settle_rows provider ref status now st)) as Hgo.
  { clear -Hb. intros st row now (Hsolv & Hdrift & Hsmall & Hslack) Hrow.
    pose proof (paid_credits_settle_ge provider ref status now st row o Hsmall Hrow) as Hp.
    split; [apply Hsmall; by eapply tfind_some|].
    split; [done|]. split; [done|]. split.
    - intros x. simpl. unfold tupdate. rewrite in_map_iff. intros (y & <- & Hy).
      split_match; by apply (Hsmall y).
    - assert (slack (PaymentRepo.settle_rows provider ref status now st) =
        slack st + b * (paid_credits (PaymentRepo.settle_rows provider ref status now st) o
                        - paid_credits st o)) as E
        by (unfold slack, call_charges, topups, moved, dials; simpl; lia).
      rewrite E. pose proof (Z.mul_le_mono_nonneg_l _ _ b Hb Hp). lia. }
  destruct HS as [st row now Hrow|st row now e Hrow He|st p|st e]; [| |by exists t..].
  - destruct (Hgo st row now HI Hrow) as [Hsm HI'].
    eexists. split; [|split; [exact HI'|by split]].
    pose proof (earning_nonneg _ (pmt_org_id row) status Hsm). lia.
  - destruct (Hgo st row now HI Hrow) as [Hsm HI'].
    exists t. split; [done|]. split; [|done]. eapply books_weaken; [|exact HI'].
    pose proof (earning_nonneg _ (pmt_org_id row) status Hsm). lia.
Qed.

Lemma wpt_Create t p :
  0 <= t -> CreditRepo.small (pay_Credits p) ->
  wpt inv (fun _ t' => t' = t) t (PaymentRepo.Create p).
Proof.
  intros Ht Hs. eapply wpt_lin; [done|apply PaymentRepo.Create_lin|].
  intros st rest r st' Hrest HI HS. exists t. split; [done|]. split; [|done].
  destruct HS as [st st' row r Horg Hprov Href Hcred Hstat Hnew ->|st e]; [|done].
  destruct HI as (Hsolv & Hdrift & Hsmall & Hslack).
  split; [done|]. split; [done|]. split.
  - intros x. simpl. rewrite in_app_iff. simpl. intros [Hx|[<-|[]]]; [by apply Hsmall|].
    by rewrite Hcred.
  - unfold slack, call_charges, topups, moved, paid_credits, dials in *. simpl in *.
    rewrite sum_by_app. simpl. unfold paid_value at 2. rewrite Hstat.
    rewrite andb_false_r. lia.
Qed.

Context `{voice_laws : VoiceProvider.Laws}.

Lemma dials_add st req pid :
  dials (add_effect (EDial req pid) st) o = dials st o + same (req_OrgID req) o.
Proof.
  unfold dials, same. simpl. destruct (req_OrgID req =? o)%string; lia.
Qed.

Lemma wpt_dial t req :
  a * same (req_OrgID req) o <= t ->
  wpt inv (fun _ t' => 0 <= t') t (VoiceProvider.PlaceCall req).
Proof.
  intros Hle. pose proof (weights_pos (req_OrgID req) o) as [Hw _].
  assert (0 <= t) as Ht by lia.
  eapply wpt_lin; [done|apply VoiceProvider.PlaceCall_lin|].
  intros st rest r st' Hrest HI HS.
  assert (forall st pid, books (t + rest) st -> exists t', 0 <= t' /\
    books (t' + rest) (add_effect (EDial req pid) st) /\ 0 <= t') as Hgo.
  { intros s1 pid (Hsolv & Hdrift & Hsmall & Hslack).
    exists (t - a * same (req_OrgID req) o). split; [lia|]. split; [|lia].
    split; [done|]. split; [done|]. split; [done|].
    unfold slack in *. rewrite dials_add.
    unfold call_charges, topups, moved, paid_credits in *. simpl in *. lia. }
  destruct HS; [by apply Hgo|by apply Hgo|by exists t].
Qed.

Context `{outcome_laws : OutcomeRepo.Laws}.

(** Recording an outcome touches neither accounts nor calls dialled. *)
Lemma untouched_record c ev : guar untouched (OutcomeRepo.RecordCallOutcome c ev).
Proof.
  eapply guar_lin; [| |apply OutcomeRepo.Record_lin].
  - intros w w' E. by apply untouched_quiet, quiet_silent.
  - intros w w' r. unfold untouched, w_db. generalize (w_st w) (w_st w').
    intros s s' HS. destruct HS as [st st' r' (now & Hrec)|st e]; [|done].
    destruct ev as [ev|]; [destruct Hrec as (ob & _ & _ & _ & ->)|rewrite Hrec]; done.
Qed.

(** *** The handlers *)

Context `{gateway_laws : PaymentGateway.Laws} `{policy_laws : CallPolicyRepo.Laws}
  `{flow_laws : FlowRepo.Laws} `{notifier_laws : CreditNotifier.Laws}
  `{clock_laws : Clock.Laws} {tz : TimeZones.T}.

Definition publisher_quiet (activity : option ActivityPublisher.T) : Prop :=
  match activity with Some p => ActivityPublisher.Laws p | None => True end.

Context (activity : option ActivityPublisher.T) (Hact : publisher_quiet activity).

(** A handler that may start with no tokens. *)
Definition safe {A} (p : prog World A) : Prop := wpt inv (fun _ _ => True) 0 p.

Lemma wpt_true {A} (Q : outcome A -> Z -> Prop) t p :
  wpt inv Q t p -> wpt inv (fun _ _ => True) t p.
Proof. by apply wpt_mono. Qed.

Lemma safe_untouched {A} (p : prog World A) : guar untouched p -> safe p.
Proof. intros Hp. by eapply wpt_true, wpt_untouched. Qed.

Lemma safe_TopUp org amount : b = 0 -> safe (Billing.TopUp org amount).
Proof.
  intros Eb. unfold Billing.TopUp. eapply wpt_true, wpt_Grant; [|rewrite Eb; lia|done].
  unfold CreditRepo.small, int32_max. split_match; bool_prop; lia.
Qed.

Lemma safe_SettlePayment form : safe (Billing.SettlePayment form).
Proof.
  apply wpt_bind. eapply wpt_mono; [|apply wpt_quiet; [done|apply PaymentGateway.VerifyIPN_quiet]].
  intros [[res ok]|e|] t ->; simpl; [|done..].
  destruct ok; simpl; [|done].
  apply wpt_bind, wpt_try. eapply wpt_mono; [|by apply wpt_Settle].
  intros [[p [|]]|e|] t; simpl; [| |by destruct e|done].
  - intros [Hs ->]. split_match; [|done]. bool_prop.
    apply wpt_bind. eapply wpt_mono; [|apply wpt_Grant; [done| |]].
    + by intros [?|?|] ?.
    + match goal with H : pres_Status res = _ |- _ => rewrite H end.
      change (same PaymentPaid PaymentPaid) with 1. lia.
    + pose proof (earning_nonneg _ (pay_OrgID p) (pres_Status res) Hs). lia.
  - by intros ->.
Qed.

Lemma safe_Checkout org n : safe (Billing.Checkout org n).
Proof.
  apply wpt_bind. eapply wpt_mono; [|apply wpt_quiet; [done|apply guar_New, quiet_silent]].
  intros [pid|e|] t ->; simpl; [|done..].
  apply wpt_bind. eapply wpt_mono; [|apply wpt_Create; [done|]].
  - intros [[]|e|] t ->; simpl; [|done..].
    apply wpt_bind. eapply wpt_mono;
      [|apply wpt_quiet; [done|apply PaymentGateway.Checkout_quiet]].
    by intros [?|?|] ?.
  - unfold CreditRepo.small, int32_max. simpl. repeat split_match; bool_prop; lia.
Qed.

(** After a charge the thread holds what its dial will cost. *)
Lemma wpt_charge {A} org (k : Z -> prog World A) :
  (forall balance, wpt inv (fun _ _ => True) (a * same org o) (k balance)) ->
  safe (let! '(ok, balance) := CreditRepo.TryDeduct org Calls.creditsPerCall "call" in
        if negb ok then fail ErrInsufficientCredits else k balance).
Proof.
  intros Hk. apply wpt_bind. eapply wpt_mono; [|apply wpt_TryDeduct; [done| |done]].
  - intros [[[|] balance]|e|] t; simpl; [|done..]. intros ->.
    change (same "call" "call") with 1.
    replace (0 + Calls.creditsPerCall * same org o * (a * 1)) with (a * same org o)
      by (unfold Calls.creditsPerCall; lia). apply Hk.
  - unfold CreditRepo.small, Calls.creditsPerCall, int32_max. lia.
Qed.

Lemma safe_record {A} t c ev (k : unit -> prog World A) :
  0 <= t -> (forall t u, 0 <= t -> wpt inv (fun _ _ => True) t (k u)) ->
  wpt inv (fun _ _ => True) t (pbind (OutcomeRepo.RecordCallOutcome c ev) k).
Proof.
  intros Ht Hk. apply wpt_bind. eapply wpt_mono; [|apply wpt_untouched, untouched_record; done].
  intros [u|e|] t' ->; simpl; auto.
Qed.

(** Silent steps between the dial and the record. *)
Lemma wpt_quiet_bind {A B} t (p : prog World A) (k : A -> prog World B) :
  0 <= t -> guar quiet p -> (forall x, wpt inv (fun _ _ => True) t (k x)) ->
  wpt inv (fun _ _ => True) t (pbind p k).
Proof.
  intros Ht Hp Hk. apply wpt_bind. eapply wpt_mono; [|by apply wpt_quiet].
  intros [x|e|] t' ->; simpl; auto.
Qed.

Lemma wpt_dial_bind {B} org to caller flow (k : ProviderCallID -> prog World B) :
  (forall t pid, 0 <= t -> wpt inv (fun _ _ => True) t (k pid)) ->
  wpt inv (fun _ _ => True) (a * same org o)
    (pbind (VoiceProvider.PlaceCall (mkCallRequest org to caller flow)) k).
Proof.
  intros Hk. apply wpt_bind. eapply wpt_mono; [|apply wpt_dial; simpl; lia].
  intros [pid|e|] t' Ht; simpl; auto.
Qed.

Lemma guar_clock : guar quiet Clock.Now.
Proof. eapply guar_mono; [|apply Clock.Now_silent]. intros w w'. apply quiet_silent. Qed.

Lemma safe_RunTestCall org to digit name :
  safe (Calls.RunTestCall activity org to digit name).
Proof.
  unfold Calls.RunTestCall. apply wpt_bind.
  eapply wpt_mono; [|apply wpt_read; [done|apply FlowRepo.GetActiveFlow_lin]].
  intros [[flow [|]]|e|] t ->; cbn [bind_post negb]; [|done..].
  apply (wpt_charge org). intros _. apply wpt_dial_bind. intros t pid Ht.
  apply wpt_quiet_bind; [done|apply guar_New, quiet_silent|]. intros cid.
  destruct (Calls.test_outcome flow digit) as [out|]; [|done].
  apply wpt_quiet_bind; [done|apply guar_clock|]. intros now.
  apply safe_record; [done|]. intros t' _ Ht'.
  apply wpt_quiet_bind; [done| |done].
  unfold Calls.publish, publisher_quiet in *. destruct activity; [|done].
  apply ActivityPublisher.Publish_quiet.
Qed.

Lemma safe_PlaceCall inp : safe (Calls.PlaceCall inp).
Proof.
  unfold Calls.PlaceCall. apply wpt_bind.
  eapply wpt_mono; [|apply wpt_read; [done|apply CallPolicyRepo.Get_lin]].
  intros [pol|e|] t ->; cbn [bind_post negb]; [|done..].
  apply wpt_quiet_bind; [done|apply guar_clock|]. intros now.
  destruct (negb (CallPolicy.Allows pol now)); [done|].
  apply (wpt_charge (pci_OrgID inp)). intros balance.
  apply wpt_quiet_bind; [by apply weights_pos| |].
  { split_match; [apply CreditNotifier.LowBalance_quiet|done]. }
  intros _. apply wpt_dial_bind. intros t pid Ht.
  apply wpt_quiet_bind; [done|apply guar_New, quiet_silent|]. intros cid.
  apply wpt_quiet_bind; [done|apply guar_clock|]. intros now'.
  eapply wpt_true, wpt_untouched, untouched_record. done.
Qed.
End Books.

(** ** Pools of handlers *)

Section Pools.
Context `{credits_laws : CreditRepo.Laws} `{payments_laws : PaymentRepo.Laws}
  `{voice_laws : VoiceProvider.Laws} `{outcome_laws : OutcomeRepo.Laws}
  `{gateway_laws : PaymentGateway.Laws} `{policy_laws : CallPolicyRepo.Laws}
  `{flow_laws : FlowRepo.Laws} `{notifier_laws : CreditNotifier.Laws}
  `{clock_laws : Clock.Laws} {tz : TimeZones.T}.

(** The threads of the system.  [dev] turns on the development-only TopUp; any
    other handler may run as long as it leaves the accounts alone. *)
Inductive handler (dev : bool) : prog World unit -> Prop :=
| h_TopUp org amount : dev = true -> handler dev (spawn (Billing.TopUp org amount))
| h_Checkout org n : handler dev (spawn (Billing.Checkout org n))
| h_SettlePayment form : handler dev (spawn (Billing.SettlePayment form))
| h_RunTestCall activity org to digit name :
    publisher_quiet activity ->
    handler dev (spawn (Calls.RunTestCall activity org to digit name))
| h_PlaceCall inp : handler dev (spawn (Calls.PlaceCall inp))
| h_other {A} (p : prog World A) : guar untouched p -> handler dev (spawn p).

Lemma pool_books a b o dev env sched ps w :
  0 <= a -> 0 <= b -> (dev = true -> b = 0) ->
  Forall (handler dev) ps ->
  solvent (w_st w) -> payments_small (w_st w) ->
  let st := w_st (snd (run_sched env sched ps w)) in
  solvent st /\ (forall org, drift st org = drift (w_st w) org) /\
  slack a b o (w_st w) <= slack a b o st.
Proof.
  intros Ha Hb Hdev Hps Hsolv Hsmall.
  destruct (run_sched_inv (inv a b o (drift (w_st w)) (slack a b o (w_st w)))
              env sched ps w) as (t & Ht & Hinv).
  - intros p Hp. rewrite List.Forall_forall in Hps. destruct (Hps p Hp); apply wpt_spawn.
    + by apply safe_TopUp, Hdev.
    + by apply safe_Checkout.
    + by apply safe_SettlePayment.
    + by apply safe_RunTestCall.
    + by apply safe_PlaceCall.
    + by apply safe_untouched.
  - split; [done|]. split; [done|]. split; [done|]. lia.
  - destruct Hinv as (H1 & H2 & H3 & H4). split; [done|]. split; [done|]. lia.
Qed.

(** C1: Whatever the interleaving of top-ups, checkouts, payment callbacks and
    calls, and whatever statements fail or lose their acknowledgement, no
    balance goes negative and the ledger accounts for every change of a
    balance. *)
Theorem ledger_explains_balance dev env sched ps w org :
  Forall (handler dev) ps ->
  solvent (w_st w) -> payments_small (w_st w) ->
  let st := w_st (snd (run_sched env sched ps w)) in
  0 <= balance_of st org /\
  balance_of st org - balance_of (w_st w) org =
  ledger_sum st org - ledger_sum (w_st w) org.
Proof.
  intros Hps Hsolv Hsmall st.
  destruct (pool_books 0 0 org dev env sched ps w) as (H1 & H2 & _); try done.
  split; [apply H1|]. specialize (H2 org). unfold drift in H2. fold st in H2. lia.
Qed.

(** C2: Without the development top-up, the credits an org is granted by
    top-ups never exceed the credits of its payments confirmed as paid, however
    often the gateway repeats a callback and however the callbacks interleave. *)
Theorem topups_are_paid_for env sched ps w org :
  Forall (handler false) ps ->
  solvent (w_st w) -> payments_small (w_st w) ->
  let st := w_st (snd (run_sched env sched ps w)) in
  topups st org - topups (w_st w) org <=
  paid_credits st org - paid_credits (w_st w) org.
Proof.
  intros Hps Hsolv Hsmall.
  destruct (pool_books 0 1 org false env sched ps w) as (_ & _ & H); try done.
  cbv zeta. unfold slack in H. lia.
Qed.

(** C3: Every call dialled for an org was charged to it first: under every
    interleaving, and when statements fail, the calls dialled never outnumber
    the credits the ledger charges for calls. *)
Theorem dials_are_charged dev env sched ps w org :
  Forall (handler dev) ps ->
  solvent (w_st w) -> payments_small (w_st w) ->
  let st := w_st (snd (run_sched env sched ps w)) in
  dials st org - dials (w_st w) org <=
  call_charges st org - call_charges (w_st w) org.
Proof.
  intros Hps Hsolv Hsmall.
  destruct (pool_books 1 0 org dev env sched ps w) as (_ & _ & H); try done.
  cbv zeta. unfold slack in H. lia.
Qed.
End Pools.

(** ** A concrete pool *)

Module Demo.
Definition silent_notifier : CreditNotifier.T :=
  {| CreditNotifier.LowBalance _ _ := ret tt |}.

#[export] Instance silent_notifier_laws : CreditNotifier.Laws silent_notifier.
Proof. by split. Qed.

Definition env : Env :=
  mkEnv (fun n => 12 * Hour + Z.of_nat n) (fun _ => NoFault)
    (fun n i => byte_chr (Z.of_nat (n + i))) (fun n => Strconv.Itoa (Z.of_nat n)) Some.

(** An org with five credits and a pending payment for a hundred. *)
Definition db : DB :=
  set_payments [mkPaymentRow "pay_1" "org" "mock" "pay_1" 100 100 PaymentPending 0 None]
    (set_org_credits {["org" := 5]}
       (set_credit_ledger [mkLedgerRow "led_0" "org" 5 "signup_grant" 0] emptyDB)).

Definition world : World := mkWorld 0 (mkState db [] []).

(** Two callbacks for the same payment race with two calls. *)
Definition ipn : gmap string string := {["tran_id" := "pay_1"]}.

#[local] Existing Instances PgCreditRepo.repo PgPaymentRepo.repo PgOutcomeRepo.repo
  PgCallPolicyRepo.repo PgFlowRepo.repo MockVoice.provider MockVoice.laws
  RealClock.clock RealClock.laws silent_notifier silent_notifier_laws dhaka_only.

Definition gateway : PaymentGateway.T := MockGateway.gateway "http://app".
#[local] Existing Instance gateway.
#[local] Instance gateway_laws : PaymentGateway.Laws gateway := MockGateway.laws "http://app".

Definition settle : prog World unit := Billing.SettlePayment ipn.
Definition call : prog World unit :=
  Calls.PlaceCall (mkPlaceCallInput "org" "+8801712345678" "").
Definition pool : list (prog World unit) :=
  [spawn settle; spawn call; spawn settle; spawn call].
Definition schedule : list nat := [0; 1; 2; 3; 0; 2; 1; 3; 0; 2; 1; 3; 1; 3; 1; 3; 1; 3; 1; 3]%nat.

Definition final : State := w_st (snd (run_sched env schedule pool world)).

(** Both callbacks are answered, one of them grants; both calls are placed. *)
Example final_books :
  (balance_of final "org", topups final "org", call_charges final "org", dials final "org")
  = (103, 100, 2, 2).
Proof. vm_compute. reflexivity. Qed.

Lemma world_solvent : solvent (w_st world).
Proof.
  intros org. unfold balance_of. simpl.
  destruct (decide (org = "org")) as [->|Hne]; [by vm_compute|].
  rewrite lookup_singleton_ne by done. done.
Qed.

Lemma world_small : payments_small (w_st world).
Proof.
  intros r [<-|[]]. unfold CreditRepo.small, int32_max. simpl. lia.
Qed.

Lemma pool_handlers dev : Forall (handler dev) pool.
Proof. unfold pool, settle, call. repeat constructor. Qed.
End Demo.

Import Demo.
#[local] Existing Instances PgCreditRepo.repo PgPaymentRepo.repo PgOutcomeRepo.repo
  PgCallPolicyRepo.repo PgFlowRepo.repo MockVoice.provider MockVoice.laws
  RealClock.clock RealClock.laws silent_notifier silent_notifier_laws dhaka_only
  Demo.gateway Demo.gateway_laws.

Lemma ledger_explains_balance_witness :
  0 <= balance_of final "org" /\
  balance_of final "org" - 5 = ledger_sum final "org" - 5.
Proof.
  exact (ledger_explains_balance true env schedule pool world "org"
           (pool_handlers true) world_solvent world_small).
Defined.

Lemma topups_are_paid_for_witness : topups final "org" - 0 <= paid_credits final "org" - 0.
Proof.
  exact (topups_are_paid_for env schedule pool world "org"
           (pool_handlers false) world_solvent world_small).
Defined.

Lemma dials_are_charged_witness : dials final "org" - 0 <= call_charges final "org" - 0.
Proof.
  exact (dials_are_charged false env schedule pool world "org"
           (pool_handlers false) world_solvent world_small).
Defined.
