(* ===== verification/NoFault.v ===== *)
(** * The Postgres adapters when nothing fails

    Exact results of the repository operations in an environment without
    faults, for the functional theorems about the services. *)

From S2P Require Import Prelude.
From S2P Require Import Domain.
From S2P Require Import Effects.
From S2P Require Import GoLib.
From S2P Require Import Json.
From S2P Require Import Phone.
From S2P Require Import Store.
From S2P Require Import Ports.
From S2P Require Import PgCredits.
From S2P Require Import PgFlows.
From S2P Require Import PgCalls.
From stdpp Require Import gmap strings list.
From Stdlib Require Import ZArith Lia.

Open Scope Z_scope.

(** The identifier minted at a tick. *)
Definition id_at (env : Env) (prefix : string) (n : nat) : string :=
  Id.format prefix (bytes_from (env_rand env n) 12).

(** No row of the ledger or of the calls has an id that is still to be minted. *)
Definition fresh_ids (env : Env) (d : DB) : Prop :=
  (forall n r, In r (credit_ledger d) -> led_id r <> id_at env "led" n) /\
  (forall n r, In r (calls d) -> callr_id r <> id_at env "call" n).

Lemma tfind_fresh {R} (key : R -> string) (x : string) (t : list R) :
  (forall r, In r t -> key r <> x) -> tfind (fun r => (key r =? x)%string) t = None.
Proof.
  induction t as [|r t IH]; simpl; [done|]. intros H.
  destruct (String.eqb_spec (key r) x) as [E|_]; [by destruct (H r); auto|].
  apply IH. auto.
Qed.

(** ** Text values *)

Lemma with_text_read {A} texts (s : stmt A) : read_only s -> read_only (with_text texts s).
Proof. intros Hs ctx d a d'. unfold with_text. destruct (forallb _ _); [apply Hs|done]. Qed.

Lemma byte_of_chr z : byte_of (byte_chr z) = z mod 256.
Proof.
  unfold byte_of, byte_chr. rewrite Ascii.N_ascii_embedding.
  - pose proof (Z.mod_pos_bound z 256 ltac:(lia)). by rewrite Z2N.id by lia.
  - pose proof (Z.mod_pos_bound z 256 ltac:(lia)). lia.
Qed.

Definition printable (c : Ascii.ascii) : bool := (0 <? byte_of c) && (byte_of c <? 128).

Lemma printable_text_ok s : Strings.forallb printable s = true -> text_ok s = true.
Proof.
  intros H. unfold text_ok. apply andb_true_intro. split.
  - unfold Utf8.Valid. induction s as [|c s IH]; [done|]. simpl in *.
    apply andb_prop in H as [Hc H]. unfold printable in Hc. apply andb_prop in Hc as [_ Hc].
    rewrite Hc. by apply IH.
  - eapply Strings.forallb_impl; [|exact H]. intros c Hc. unfold printable in Hc. bool_prop.
    apply negb_true_iff, Z.eqb_neq. lia.
Qed.

Lemma hex_printable s : Strings.forallb printable (Encoding.hex s) = true.
Proof.
  assert (forall d, 0 <= d < 16 -> printable (Encoding.hex_digit d) = true) as Hd.
  { intros d Hd. unfold Encoding.hex_digit, printable.
    destruct (d <? 10) eqn:E; rewrite byte_of_chr; bool_prop; rewrite Z.mod_small by lia; lia. }
  induction s as [|c s IH]; [done|]. simpl.
  assert (0 <= byte_of c < 256) as Hc.
  { unfold byte_of. pose proof (Ascii.N_ascii_bounded c). lia. }
  rewrite !Hd, IH; [done|..].
  - apply Z.mod_pos_bound. lia.
  - split; [apply Z.div_pos; lia|]. apply Z.div_lt_upper_bound; lia.
Qed.

Lemma id_text_ok env prefix n :
  Strings.forallb printable prefix = true -> text_ok (id_at env prefix n) = true.
Proof.
  intros Hp. apply printable_text_ok. unfold id_at, Id.format.
  rewrite !Strings.forallb_app, Hp, hex_printable. done.
Qed.

Lemma keep_printable c : Phone.keep c = true -> printable c = true.
Proof.
  unfold Phone.keep, is_digit, printable. intros H. apply orb_prop in H as [H|H].
  - apply andb_prop in H as [H1 H2]. apply Z.leb_le in H1, H2.
    apply andb_true_intro. split; apply Z.ltb_lt; lia.
  - by apply Ascii.eqb_eq in H as ->.
Qed.

(** A normalised phone is a text the database takes. *)
Lemma normalized_text_ok s r : Phone.NormalizeBD s = inl r -> text_ok r = true.
Proof.
  intros H. destruct (Phone.normalize_shape s r H) as (d & -> & _ & Hd).
  apply printable_text_ok. rewrite Strings.forallb_app. apply andb_true_intro. split; [done|].
  eapply Strings.forallb_impl; [|exact Hd]. apply keep_printable.
Qed.

Section NoFault.
Context (env : Env) (Hnf : forall n, env_fault env n = NoFault).

(** The context of a statement run on its own at a world. *)
Definition ctx_at (w : World) : SqlCtx :=
  sql_ctx env (w_tick w) (env_clock env (w_tick w)).

Definition tick (w : World) : World := mkWorld (S (w_tick w)) (w_st w).

Lemma run_exec {A} (s : stmt A) w :
  run env (exec s) w =
  match s (ctx_at w) (w_db w) with
  | inl (a, d) => (Ok a, mkWorld (S (w_tick w)) (set_db d (w_st w)))
  | inr e => (Err e, tick w)
  end.
Proof.
  unfold exec. rewrite run_act. unfold exec_step. rewrite Hnf.
  by destruct (s _ _) as [[a d]|e].
Qed.

(** A query that leaves the database as it is. *)
Lemma run_exec_read {A} (s : stmt A) w :
  read_only s ->
  run env (exec s) w =
  (match s (ctx_at w) (w_db w) with inl (a, _) => Ok a | inr e => Err e end, tick w).
Proof.
  intros Hs. rewrite run_exec. destruct (s _ _) as [[a d]|e] eqn:E; [|done].
  apply Hs in E as ->. unfold w_db, tick. by rewrite set_db_id.
Qed.

Lemma run_New p w : run env (Id.New p) w = (Ok (id_at env p (w_tick w)), tick w).
Proof. done. Qed.

Lemma run_New_bind {A} p (k : string -> prog World A) w :
  run env (pbind (Id.New p) k) w = run env (k (id_at env p (w_tick w))) (tick w).
Proof. by rewrite run_bind, run_New. Qed.

Lemma run_Now w : run env Now w = (Ok (env_clock env (w_tick w)), tick w).
Proof. done. Qed.

(** TryDeduct: charged, or refused. *)
Lemma run_TryDeduct_ok org amount reason w b :
  org_credits (w_db w) !! org = Some b ->
  0 <= amount <= b -> b <= int32_max ->
  (forall n r, In r (credit_ledger (w_db w)) -> led_id r <> id_at env "led" n) ->
  exists w' n now, run env (PgCreditRepo.TryDeduct org amount reason) w
                   = (Ok (true, b - amount), w') /\
    w_st w' = set_db (set_credit_ledger
      (credit_ledger (w_db w) ++
         [mkLedgerRow (id_at env "led" n) org (- amount) reason now])
      (set_org_credits (<[org := b - amount]> (org_credits (w_db w))) (w_db w))) (w_st w).
Proof.
  intros Hb Hamt Hmax Hfresh. unfold PgCreditRepo.TryDeduct, transact.
  unfold int32_max in Hmax.
  rewrite !int32_of_id by (unfold int32_min, int32_max; lia).
  rewrite run_act. unfold transact_step, tx_stmt, stmt_step. rewrite Hnf. simpl.
  rewrite Hnf. unfold CreditQ.TryDeductBalance at 1. simpl. unfold w_db at 1 in Hb.
  change (s_db (w_st w)) with (w_db w) in Hb. rewrite Hb.
  replace (amount <=? b) with true by (symmetry; apply Z.leb_le; lia). simpl.
  replace (in_int32 (b - amount)) with true
    by (symmetry; unfold in_int32, int32_min, int32_max; lia).
  simpl. rewrite Hnf. unfold CreditQ.AddLedger. simpl.
  rewrite tfind_fresh by (intros r Hr; apply (Hfresh _ r Hr)).
  unfold tx_commit, commit_step. simpl. rewrite Hnf. simpl. by repeat eexists.
Qed.

Lemma run_TryDeduct_refused org amount reason w :
  0 <= amount <= int32_max ->
  default 0 (org_credits (w_db w) !! org) < amount ->
  run env (PgCreditRepo.TryDeduct org amount reason) w =
  (Ok (false, 0), mkWorld (S (S (w_tick w))) (w_st w)).
Proof.
  intros Hamt Hlt. unfold PgCreditRepo.TryDeduct, transact. unfold int32_max in Hamt.
  rewrite !int32_of_id by (unfold int32_min, int32_max; lia).
  rewrite run_act. unfold transact_step, tx_stmt, stmt_step. rewrite Hnf. simpl.
  rewrite Hnf. unfold CreditQ.TryDeductBalance.
  destruct (org_credits (w_db w) !! org) as [b|] eqn:Hb; [|done]. simpl in Hlt.
  by replace (amount <=? b) with false by (symmetry; apply Z.leb_gt; lia).
Qed.

Lemma run_Grant_ok org amount reason w :
  let b := default 0 (org_credits (w_db w) !! org) in
  0 <= amount <= int32_max -> 0 <= b -> b + amount <= int32_max ->
  (forall n r, In r (credit_ledger (w_db w)) -> led_id r <> id_at env "led" n) ->
  exists w' n now, run env (PgCreditRepo.Grant org amount reason) w
                   = (Ok (b + amount), w') /\
    w_st w' = set_db (set_credit_ledger
      (credit_ledger (w_db w) ++ [mkLedgerRow (id_at env "led" n) org amount reason now])
      (set_org_credits (<[org := b + amount]> (org_credits (w_db w))) (w_db w))) (w_st w).
Proof.
  intros b Hamt Hb Hmax Hfresh. unfold PgCreditRepo.Grant, transact.
  unfold int32_max in *.
  rewrite !int32_of_id by (unfold int32_min, int32_max; lia).
  rewrite run_act. unfold transact_step, tx_stmt, stmt_step. rewrite Hnf. simpl.
  rewrite Hnf. unfold CreditQ.EnsureCreditAccount, CreditQ.AdjustBalance.
  assert (in_int32 (b + amount) = true) as Hin
    by (unfold in_int32, int32_min, int32_max; lia).
  subst b. destruct (org_credits (w_db w) !! org) as [b|] eqn:Eb; simpl in *;
    rewrite Hnf, ?Eb, ?lookup_insert_eq; simpl; rewrite Hin; simpl; rewrite Hnf;
    unfold CreditQ.AddLedger; simpl;
    rewrite tfind_fresh by (intros r Hr; apply (Hfresh _ r Hr));
    unfold tx_commit, commit_step; simpl; rewrite Hnf; simpl; rewrite ?insert_insert_eq;
    by repeat eexists.
Qed.

(** RecordCallOutcome without an event. *)
Lemma run_Record_ok c w :
  (forall r, In r (calls (w_db w)) -> callr_id r <> call_ID c) ->
  exists w' now, run env (PgOutcomeRepo.RecordCallOutcome c None) w = (Ok tt, w') /\
    w_st w' = set_db (set_calls (calls (w_db w) ++ [OutcomeRepo.call_row c now]) (w_db w))
                (w_st w).
Proof.
  intros Hfresh. unfold PgOutcomeRepo.RecordCallOutcome, transact.
  rewrite run_act. unfold transact_step, tx_stmt, stmt_step. rewrite Hnf. simpl. rewrite Hnf.
  unfold CallQ.CreateCall, CallQ.has_id. rewrite (tfind_fresh callr_id) by done. simpl.
  unfold tx_commit, commit_step. simpl. rewrite Hnf. simpl. by repeat eexists.
Qed.
End NoFault.

(** The result of a read under any fault: an error, or what the table says. *)
Lemma run_read_any {A} env (s : stmt A) w :
  read_only s ->
  exists r, run env (exec s) w = (r, tick w) /\
    (forall a, r = Ok a -> exists ctx, s ctx (w_db w) = inl (a, w_db w)) /\
    (r = Err ErrNoRows -> exists ctx, s ctx (w_db w) = inr ErrNoRows) /\
    (r <> Panic).
Proof.
  intros Hs. unfold exec. rewrite run_act. unfold exec_step.
  set (ctx := sql_ctx _ _ _).
  destruct (s ctx (w_db w)) as [[a d]|e] eqn:E.
  - assert (d = w_db w) as -> by (by eapply Hs).
    destruct (env_fault env (w_tick w)); eexists; (split; [unfold tick, w_db; rewrite ?set_db_id; reflexivity|]);
      (split; [|split; done]); intros a' [= <-]; eauto.
  - destruct (env_fault env (w_tick w)); eexists; (split; [reflexivity|]);
      (split; [done|]); split; try done; intros [= ->]; eauto.
Qed.

(** ** An environment for the examples

    It never fails, its clock counts the ticks, and the ids it mints in its
    first forty ticks are distinct. *)

Module DemoEnv.
Definition env : Env :=
  mkEnv (fun n => Z.of_nat n) (fun _ => NoFault)
    (fun n i => byte_chr (Z.of_nat (n + i))) (fun n => Strconv.Itoa (Z.of_nat n)) Some.

Lemma clock_mono n m : (n <= m)%nat -> env_clock env n <= env_clock env m.
Proof. simpl. lia. Qed.

Definition horizon : nat := 80.

Definition hex_at (n : nat) : string := Encoding.hex (bytes_from (env_rand env n) 12).

Lemma app_inj_l (p s t : string) : p +:+ s = p +:+ t -> s = t.
Proof. induction p as [|c p IH]; [done|]. intros H. injection H as H. by apply IH. Qed.

Lemma ids_distinct p n m :
  (n < horizon)%nat -> (m < horizon)%nat -> id_at env p n = id_at env p m -> n = m.
Proof.
  intros Hn Hm H. unfold id_at, Id.format in H. apply app_inj_l in H.
  assert (forallb (fun x => forallb (fun y => (x =? y)%nat || negb (hex_at x =? hex_at y)%string)
    (seq 0 horizon)) (seq 0 horizon) = true) as Hall by (by vm_compute).
  rewrite forallb_forall in Hall. specialize (Hall n). rewrite in_seq in Hall.
  specialize (Hall ltac:(lia)). rewrite forallb_forall in Hall. specialize (Hall m).
  rewrite in_seq in Hall. specialize (Hall ltac:(lia)).
  apply orb_prop in Hall as [E|E]; [by apply Nat.eqb_eq|]. exfalso.
  apply (app_inj_l "_") in H. unfold hex_at in E. rewrite H in E. by rewrite String.eqb_refl in E.
Qed.
End DemoEnv.
