(* ===== verification/CallsSpec.v ===== *)
(** * What placing a call does

    Functional theorems about internal/service/calls: on the ports' promises
    first, then with the Postgres adapters and no faults. *)

From S2P Require Import Prelude.
From S2P Require Import Domain.
From S2P Require Import Effects.
From S2P Require Import GoLib.
From S2P Require Import Json.
From S2P Require Import FlowEngine.
From S2P Require Import Store.
From S2P Require Import Ports.
From S2P Require Import PgCredits.
From S2P Require Import PgFlows.
From S2P Require Import PgCalls.
From S2P Require Import CallPolicy.
From S2P Require Import Calls.
From S2P Require Import Flows.
From S2P Require Import Accounting.
From S2P Require Import NoFault.
From stdpp Require Import gmap strings list.
From Stdlib Require Import ZArith Lia.

Open Scope Z_scope.
Open Scope go_scope.

(** ** A run of an operation that keeps its promise *)

Lemma run_lin_eq {A} (S : step_spec A) (p : prog World A) env w r w' :
  lin S p -> run env p w = (r, w') -> S (w_st w) r (w_st w').
Proof. intros Hl E. pose proof (run_lin S p env w Hl) as H. by rewrite E in H. Qed.

Lemma run_quiet_eq {A} (p : prog World A) env w r w' :
  guar quiet p -> run env p w = (r, w') -> quiet w w'.
Proof.
  intros Hg E. replace w' with (snd (run env p w)) by (by rewrite E).
  apply guar_run; [done| |done].
  intros x y z (E1 & E2 & E3) (F1 & F2 & F3). unfold quiet.
  rewrite F1, F2, E1, E2. repeat split. intros org. by rewrite F3, E3.
Qed.

(** Accounts read the database only. *)
Lemma balance_of_db st st' org :
  s_db st' = s_db st -> balance_of st' org = balance_of st org.
Proof. unfold balance_of. by intros ->. Qed.

Lemma call_charges_db st st' org :
  s_db st' = s_db st -> call_charges st' org = call_charges st org.
Proof. unfold call_charges, moved. by intros ->. Qed.

Section PlaceCall.
Context `{credits_laws : CreditRepo.Laws} `{voice_laws : VoiceProvider.Laws}
  `{outcome_laws : OutcomeRepo.Laws} `{policy_laws : CallPolicyRepo.Laws}
  `{notifier_laws : CreditNotifier.Laws} `{clock_laws : Clock.Laws} {tz : TimeZones.T}.

(** The queued call PlaceCall records. *)
Definition queued_for (inp : PlaceCallInput) (r : CallRow) : Prop :=
  callr_org_id r = pci_OrgID inp /\ deref (callr_flow_id r) = pci_FlowID inp /\
  callr_status r = StatusQueued /\ callr_direction r = Outbound /\ callr_result r = None.

(** One credit of the org is spent on a call, one call is dialled to the input's
    number, and nothing else moves. *)
Definition one_call (inp : PlaceCallInput) (st st' : State) : Prop :=
  balance_of st' (pci_OrgID inp) = balance_of st (pci_OrgID inp) - 1 /\
  (forall org, call_charges st' org = call_charges st org + same (pci_OrgID inp) org) /\
  (forall org, dials st' org = dials st org + same (pci_OrgID inp) org) /\
  payments (s_db st') = payments (s_db st) /\
  exists row, queued_for inp row /\ calls (s_db st') = calls (s_db st) ++ [row].

(** The steps that matter: charge, dial, record. *)
Lemma one_call_steps inp st st1 st2 st3 pid row st4 :
  CreditRepo.post (pci_OrgID inp) (-1) "call" st st1 ->
  s_db st2 = s_db st1 /\ (forall org, dials st2 org = dials st1 org) ->
  (s_db st3 = s_db st2 /\ forall org, dials st3 org = dials
     (add_effect (EDial (mkCallRequest (pci_OrgID inp) (pci_ToPhone inp) "" zeroFlow) pid)
        st2) org) ->
  queued_for inp row ->
  st4 = set_db (set_calls (calls (s_db st3) ++ [row]) (s_db st3)) st3 ->
  one_call inp st st4.
Proof.
  intros Hpost (D2 & L2) (D3 & L3) Hrow ->.
  assert (s_db st3 = s_db st1) as D by congruence.
  destruct (post_rest _ _ _ _ _ Hpost) as [Hp Htr].
  split; [|split; [|split; [|split]]].
  - transitivity (balance_of st1 (pci_OrgID inp)); [unfold balance_of; simpl; by rewrite D|].
    rewrite (balance_of_post _ _ _ _ _ _ Hpost). unfold same. rewrite String.eqb_refl. lia.
  - intros org. transitivity (call_charges st1 org);
      [unfold call_charges, moved; simpl; by rewrite D|].
    unfold call_charges. rewrite (moved_post _ _ _ _ _ _ _ Hpost).
    change (same "call" "call") with 1. lia.
  - intros org. change (dials st3 org = dials st org + same (pci_OrgID inp) org).
    rewrite L3, dials_add, L2. unfold dials. by rewrite Htr.
  - simpl. by rewrite D.
  - exists row. split; [done|]. simpl. rewrite D.
    destruct Hpost as (? & _ & _ & _ & ->). done.
Qed.

Lemma PlaceCall_run_ok env inp w w' :
  run env (Calls.PlaceCall inp) w = (Ok tt, w') -> one_call inp (w_st w) (w_st w').
Proof.
  unfold Calls.PlaceCall. intros H.
  apply run_bind_ok in H as (pol & w1 & E1 & H).
  apply (run_lin_eq _ _ _ _ _ _ (CallPolicyRepo.Get_lin _)) in E1.
  apply run_bind_ok in H as (now & w2 & E2 & H).
  apply (run_quiet_eq _ _ _ _ _ guar_clock) in E2.
  destruct (negb (CallPolicy.Allows pol now)); [done|].
  apply run_bind_ok in H as ([[|] balance] & w3 & E3 & H); [|done].
  apply (run_lin_eq _ _ _ _ _ _ (CreditRepo.TryDeduct_lin _ 1 _ ltac:(done))) in E3.
  apply run_bind_ok in H as ([] & w4 & E4 & H).
  apply run_quiet_eq in E4;
    [|destruct (_ && _); [apply CreditNotifier.LowBalance_quiet|done]].
  apply run_bind_ok in H as (pid & w5 & E5 & H).
  apply (run_lin_eq _ _ _ _ _ _ (VoiceProvider.PlaceCall_lin _)) in E5.
  apply run_bind_ok in H as (cid & w6 & E6 & H).
  apply run_quiet_eq in E6; [|apply guar_New, quiet_silent].
  apply run_bind_ok in H as (now' & w7 & E7 & H).
  apply (run_quiet_eq _ _ _ _ _ guar_clock) in E7.
  apply (run_lin_eq _ _ _ _ _ _ (OutcomeRepo.Record_lin _ _)) in H.
  invc E3. invc E5. invc H.
  match goal with H : OutcomeRepo.recorded _ _ _ _ |- _ => destruct H as (at_ & Hrec) end.
  match goal with H : add_effect _ _ = _ |- _ => symmetry in H; rename H into Hdial end.
  match goal with H : CreditRepo.post _ _ _ _ _ |- _ => rename H into Hpost end.
  apply (one_call_steps inp (w_st w2) (w_st w3) (w_st w4) (w_st w7) pid
           (OutcomeRepo.call_row _ at_)) in Hrec; try done.
  - destruct E2 as (D & _ & L). rewrite E1 in D, L. revert Hrec. unfold one_call.
    rewrite (balance_of_db (w_st w) (w_st w2)), D by done.
    intros (? & Hc & Hd & ?).
    split; [done|]. split; [|split; [|done]]; intros org.
    + by rewrite Hc, (call_charges_db (w_st w) (w_st w2)).
    + by rewrite Hd, L.
  - destruct E4 as (D & _ & L). done.
  - destruct E6 as (D & _ & L), E7 as (D' & _ & L'). rewrite D', D, Hdial.
    split; [done|]. intros org. by rewrite L', L, Hdial.
  - repeat split; try done. simpl. apply deref_strPtr.
Qed.

(** A place_call job that succeeds spent exactly one credit of the org,
    dialled exactly one call for it, and recorded one queued call. *)
Theorem PlaceCall_success env inp w w' :
  run env (Calls.PlaceCall inp) w = (Ok tt, w') -> one_call inp (w_st w) (w_st w').
Proof. apply PlaceCall_run_ok. Qed.

(** The handler is not idempotent: a job delivered twice, both deliveries
    succeeding, is charged twice and dialled twice. *)
Theorem PlaceCall_redelivery env inp w w1 w2 :
  run env (Calls.PlaceCall inp) w = (Ok tt, w1) ->
  run env (Calls.PlaceCall inp) w1 = (Ok tt, w2) ->
  balance_of (w_st w2) (pci_OrgID inp) = balance_of (w_st w) (pci_OrgID inp) - 2 /\
  dials (w_st w2) (pci_OrgID inp) = dials (w_st w) (pci_OrgID inp) + 2.
Proof.
  intros H1 H2. apply PlaceCall_run_ok in H1 as (B1 & _ & D1 & _).
  apply PlaceCall_run_ok in H2 as (B2 & _ & D2 & _).
  rewrite B2, B1, D2, D1. unfold same. rewrite String.eqb_refl. lia.
Qed.
End PlaceCall.

(** ** Test calls *)

(** A spec the builder accepts: key 1 leads to a node that is not there. *)
Definition dangling_text : string := json_text
  "{`entry`:`greet`,`nodes`:{`greet`:{`gather`:{`digits`:1,`timeout_s`:6},`on`:{`1`:`gone`}}}}".

Section TestCall.
Context `{credits_laws : CreditRepo.Laws} `{voice_laws : VoiceProvider.Laws}
  `{outcome_laws : OutcomeRepo.Laws} `{flow_laws : FlowRepo.Laws}
  `{clock_laws : Clock.Laws}.

(** C36: The builder accepts a flow whose key 1 leads to a missing node, and a
    test call that presses 1 on it dereferences a nil outcome: it panics after
    the credit is spent and the call dialled, and records nothing. *)
Theorem dangling_test_call_panics activity env org to name flow w w1 :
  FlowJson.UnmarshalIVRSpec dangling_text = Some (flow_IVR flow) ->
  run env (FlowRepo.GetActiveFlow org name) w = (Ok (flow, true), w1) ->
  (exists balance w2, run env (CreditRepo.TryDeduct org 1 "call") w1 = (Ok (true, balance), w2)
     /\ exists pid w3, run env (VoiceProvider.PlaceCall
          (mkCallRequest org to "" flow)) w2 = (Ok pid, w3)) ->
  Flows.validateIVR dangling_text = None /\
  exists w', run env (Calls.RunTestCall activity org to "1" name) w = (Panic, w') /\
    call_charges (w_st w') org = call_charges (w_st w) org + 1 /\
    calls (s_db (w_st w')) = calls (s_db (w_st w)).
Proof.
  intros Hflow Hget (balance & w2 & Hded & pid & w3 & Hdial).
  split; [reflexivity|].
  assert (Calls.test_outcome flow "1" = None) as Hnone.
  { destruct flow as [? ? ? ? ? ? ? ivr]. simpl in Hflow. injection Hflow as <-. reflexivity. }
  exists (mkWorld (S (w_tick w3)) (w_st w3)). unfold Calls.RunTestCall.
  rewrite run_bind, Hget. cbv beta iota. cbn [negb].
  rewrite run_bind. unfold Calls.creditsPerCall. rewrite Hded. cbv beta iota. cbn [negb].
  rewrite run_bind, Hdial. cbv beta iota. rewrite run_bind, run_New, Hnone.
  split; [done|]. simpl.
  apply (run_lin_eq _ _ _ _ _ _ (FlowRepo.GetActiveFlow_lin _ _)) in Hget.
  apply (run_lin_eq _ _ _ _ _ _ (CreditRepo.TryDeduct_lin _ 1 _ ltac:(done))) in Hded.
  apply (run_lin_eq _ _ _ _ _ _ (VoiceProvider.PlaceCall_lin _)) in Hdial.
  invc Hded. invc Hdial.
  match goal with H : CreditRepo.post _ _ _ _ _ |- _ => rename H into Hpost end.
  rewrite <- Hget. split.
  - pose proof (moved_post _ _ _ _ _ org "call" Hpost) as Hm.
    unfold call_charges, moved in *. cbn [s_db add_effect] in *. rewrite Hm.
    unfold same. rewrite String.eqb_refl. simpl. lia.
  - by destruct Hpost as (? & _ & _ & _ & ->).
Qed.
End TestCall.

(** ** The webhook payload *)

(** The payload of a call's webhook event is a JSON document whose members
    are the call's id, event name, result and status, whatever characters they
    contain. *)
Theorem outcome_payload_roundtrip (c : Call) :
  Utf8.Valid (call_ID c) = true -> Utf8.Valid (call_Status c) = true ->
  Utf8.Valid (call_Result c) = true ->
  Json.parse (oe_Payload (Calls.outcomeEvent c)) =
  Some (JObj [("call_id", JStr (call_ID c)); ("event", JStr ("call." +:+ call_Status c));
              ("result", JStr (call_Result c)); ("status", JStr (call_Status c))]).
Proof.
  intros Hid Hst Hres. unfold Calls.outcomeEvent. cbn [oe_Payload].
  apply JsonFacts.parse_marshal_strings.
  by repeat constructor.
Qed.

Lemma outcome_payload_roundtrip_witness :
  Utf8.Valid "a<b" = true /\
  exists v, Json.parse (oe_Payload (Calls.outcomeEvent
    (mkCall "call_1" "org" "" "" Outbound StatusCompleted "a<b" "" "" 0))) = Some v.
Proof.
  split; [reflexivity|]. eexists.
  apply (outcome_payload_roundtrip
           (mkCall "call_1" "org" "" "" Outbound StatusCompleted "a<b" "" "" 0)); reflexivity.
Defined.

(** ** With Postgres, the mock provider and no faults *)

Section NoFaults.
Context (env : Env) (Hnf : forall n, env_fault env n = NoFault).
Context {tz : TimeZones.T} {notifier : CreditNotifier.T}.

#[local] Existing Instances PgCreditRepo.repo PgOutcomeRepo.repo PgCallPolicyRepo.repo
  PgFlowRepo.repo PgCallRepo.repo MockVoice.provider RealClock.clock.

(** The policy in force for an org. *)
Definition policy_of (d : DB) (org : OrgID) : CallPolicy :=
  match org_call_policy d !! org with
  | None => DefaultCallPolicy
  | Some r => mkCallPolicy (polr_window_start r) (polr_window_end r) (polr_timezone r)
                (polr_max_retries r)
  end.

Lemma run_Policy org w :
  run env (PgCallPolicyRepo.Get org) w = (Ok (policy_of (w_db w) org), tick w).
Proof using Hnf.
  unfold PgCallPolicyRepo.Get. rewrite run_bind, run_try, run_exec_read by
    (done || (intros ctx d a d'; unfold CallPolicyQ.GetCallPolicy; split_match;
              by intros [= _ <-])).
  unfold CallPolicyQ.GetCallPolicy, policy_of. by destruct (org_call_policy (w_db w) !! org).
Qed.

(** A notifier that returns and changes nothing that is modelled. *)
Definition notifier_returns : Prop := forall org balance w,
  exists w', run env (CreditNotifier.LowBalance org balance) w = (Ok tt, w') /\
             w_st w' = w_st w.

(** The state after a call is placed. *)
Definition placed (inp : PlaceCallInput) (st st' : State) : Prop :=
  exists pid led_id row now,
    queued_for inp row /\
    st' = mkState
      (set_calls (calls (s_db st) ++ [row])
        (set_credit_ledger
           (credit_ledger (s_db st) ++
              [mkLedgerRow led_id (pci_OrgID inp) (-1) "call" now])
           (set_org_credits
              (<[pci_OrgID inp := balance_of st (pci_OrgID inp) - 1]>
                 (org_credits (s_db st))) (s_db st))))
      (EDial (mkCallRequest (pci_OrgID inp) (pci_ToPhone inp) "" zeroFlow) pid
         :: s_trace st) (s_jobs st).

(** What a place_call job does, on each branch. *)
Lemma run_PlaceCall inp w :
  notifier_returns -> fresh_ids env (w_db w) ->
  balance_of (w_st w) (pci_OrgID inp) <= int32_max ->
  exists r w', run env (Calls.PlaceCall inp) w = (r, w') /\
  if negb (CallPolicy.Allows (policy_of (w_db w) (pci_OrgID inp))
             (env_clock env (S (w_tick w))))
  then r = Err ErrOutsideCallWindow /\ w_st w' = w_st w
  else if balance_of (w_st w) (pci_OrgID inp) <? 1
  then r = Err ErrInsufficientCredits /\ w_st w' = w_st w
  else r = Ok tt /\ placed inp (w_st w) (w_st w').
Proof using Hnf.
  intros Hnot [Hled Hcalls] Hmax. unfold Calls.PlaceCall.
  rewrite run_bind. cbn [CallPolicyRepo.Get PgCallPolicyRepo.repo]. rewrite run_Policy.
  rewrite run_bind. cbn [Clock.Now RealClock.clock]. rewrite run_Now.
  cbn [w_tick tick].
  destruct (negb (CallPolicy.Allows _ _)); [by eexists _, _|].
  rewrite run_bind. cbn [CreditRepo.TryDeduct PgCreditRepo.repo].
  destruct (balance_of (w_st w) (pci_OrgID inp) <? 1) eqn:Eb; bool_prop.
  { rewrite run_TryDeduct_refused; [by eexists _, _|done| |].
    - unfold Calls.creditsPerCall, int32_max. lia.
    - exact Eb. }
  destruct (org_credits (w_db w) !! pci_OrgID inp) as [b|] eqn:Hb;
    [|unfold balance_of in Eb; unfold w_db in Hb; rewrite Hb in Eb; simpl in Eb; lia].
  assert (balance_of (w_st w) (pci_OrgID inp) = b) as Ebal
    by (unfold balance_of; unfold w_db in Hb; by rewrite Hb).
  edestruct (run_TryDeduct_ok env Hnf (pci_OrgID inp) Calls.creditsPerCall "call"
               (tick (tick w)) b) as (w3 & n3 & now3 & -> & Hw3);
    [exact Hb|unfold Calls.creditsPerCall; lia|lia|exact Hled|].
  cbv beta iota. cbn [negb]. rewrite run_bind.
  assert (exists w4, run env (if (b - Calls.creditsPerCall <=? LowBalanceThreshold) &&
      (LowBalanceThreshold <? b - Calls.creditsPerCall + Calls.creditsPerCall)
    then CreditNotifier.LowBalance (pci_OrgID inp) (b - Calls.creditsPerCall)
    else ret tt) w3 = (Ok tt, w4) /\ w_st w4 = w_st w3) as (w4 & -> & Hw4)
    by (destruct (_ && _); [apply Hnot | by eexists]).
  cbv beta iota. rewrite run_bind.
  set (req := mkCallRequest _ _ _ _).
  change (run env (VoiceProvider.PlaceCall req) w4) with
    (Ok (id_at env "mockcall" (w_tick w4)), mkWorld (S (w_tick w4))
       (add_effect (EDial req (id_at env "mockcall" (w_tick w4))) (w_st w4))).
  cbv beta iota. rewrite run_bind, run_New. cbv beta iota.
  rewrite run_bind, run_Now. cbv beta iota.
  set (c := mkCall _ _ _ _ _ _ _ _ _ _). set (w5 := tick _).
  edestruct (run_Record_ok env Hnf c w5) as (w6 & now6 & Hrec & Hw6);
    [|cbn [OutcomeRepo.RecordCallOutcome PgOutcomeRepo.repo]; rewrite Hrec].
  { intros r. unfold w5, tick, w_db. simpl. rewrite Hw4, Hw3. apply Hcalls. }
  eexists _, _. split; [reflexivity|]. split; [done|]. unfold placed. rewrite Ebal.
  exists (id_at env "mockcall" (w_tick w4)), (id_at env "led" n3),
    (OutcomeRepo.call_row c now6), now3.
  split; [repeat split; try done; apply deref_strPtr|].
  rewrite Hw6. unfold w5, tick, w_db. simpl. rewrite Hw4, Hw3. done.
Qed.

(** C11: Without faults a place_call job does one of three things: outside the
    org's calling window it refuses and changes nothing; with no credit left it
    refuses and changes nothing; otherwise it charges one credit, dials the
    number once and records the queued call. *)
Theorem PlaceCall_decides inp w :
  notifier_returns -> fresh_ids env (w_db w) ->
  balance_of (w_st w) (pci_OrgID inp) <= int32_max ->
  let '(r, w') := run env (Calls.PlaceCall inp) w in
  if negb (CallPolicy.Allows (policy_of (w_db w) (pci_OrgID inp))
             (env_clock env (S (w_tick w))))
  then r = Err ErrOutsideCallWindow /\ w_st w' = w_st w
  else if balance_of (w_st w) (pci_OrgID inp) <? 1
  then r = Err ErrInsufficientCredits /\ w_st w' = w_st w
  else r = Ok tt /\ placed inp (w_st w) (w_st w').
Proof using Hnf.
  intros Hnot Hids Hmax. by destruct (run_PlaceCall inp w Hnot Hids Hmax) as (r & w' & -> & H).
Qed.
End NoFaults.

(** ** Witnesses *)

Module CallsWitness.
Import Demo.
#[export] Existing Instances PgCreditRepo.repo PgPaymentRepo.repo PgOutcomeRepo.repo
  PgCallPolicyRepo.repo PgFlowRepo.repo MockVoice.provider MockVoice.laws
  RealClock.clock RealClock.laws silent_notifier silent_notifier_laws dhaka_only.

Definition job : PlaceCallInput := mkPlaceCallInput "org" "+8801712345678" "".
Definition after (n : nat) : World :=
  Nat.iter n (fun w => snd (run env (Calls.PlaceCall job) w)) world.

Lemma demo_fresh : fresh_ids env (w_db world).
Proof. split; [intros n r [<-|[]]; discriminate | intros n r []]. Qed.

(** The demo database with a flow that has a dangling transition. *)
Definition flow_world : World :=
  mkWorld 0 (mkState (set_flows
    [mkFlowRow "flow_1" "org" "broken" 1 ChannelVoice FlowIVR "en" dangling_text true 0] db)
    [] []).
End CallsWitness.

Import Demo CallsWitness.

Lemma PlaceCall_success_witness : one_call job (w_st (after 0)) (w_st (after 1)).
Proof. apply (PlaceCall_success env job (after 0) (after 1)). vm_compute. reflexivity. Defined.

Lemma PlaceCall_redelivery_witness :
  balance_of (w_st (after 2)) "org" = 5 - 2 /\ dials (w_st (after 2)) "org" = 0 + 2.
Proof.
  apply (PlaceCall_redelivery env job (after 0) (after 1) (after 2));
    vm_compute; reflexivity.
Defined.

Lemma PlaceCall_decides_witness :
  exists r w', run env (Calls.PlaceCall job) world = (r, w') /\
    r = Ok tt /\ placed job (w_st world) (w_st w').
Proof.
  pose proof (PlaceCall_decides env (fun _ => eq_refl) job world
    (fun _ _ w => ex_intro _ w (conj eq_refl eq_refl)) demo_fresh
    ltac:(vm_compute; discriminate)) as H.
  destruct (run env (Calls.PlaceCall job) world) as [r w'].
  exists r, w'. split; [reflexivity|exact H].
Defined.

Lemma dangling_test_call_panics_witness :
  Flows.validateIVR dangling_text = None /\
  exists w', run env (Calls.RunTestCall None "org" "+8801712345678" "1" "broken") flow_world
             = (Panic, w').
Proof.
  edestruct (dangling_test_call_panics None env "org" "+8801712345678" "broken"
    (mkFlow "flow_1" "org" "broken" 1 ChannelVoice FlowIVR "en"
       (default zeroIVRSpec (FlowJson.UnmarshalIVRSpec dangling_text))) flow_world)
    as (Hv & w' & Hrun & _).
  - reflexivity.
  - vm_compute. reflexivity.
  - eexists _, _. split; [vm_compute; reflexivity|]. eexists _, _. reflexivity.
  - split; [exact Hv|]. exists w'. exact Hrun.
Defined.
