(* ===== verification/BillingSpec.v ===== *)
(** * What settling a payment does

    Functional theorems about internal/service/billing with the Postgres
    adapters: a settlement with nothing failing, paid or failed, and its
    repetitions; and the grant that fails. *)

From S2P Require Import Prelude.
From S2P Require Import Domain.
From S2P Require Import Effects.
From S2P Require Import GoLib.
From S2P Require Import Store.
From S2P Require Import Ports.
From S2P Require Import PgCredits.
From S2P Require Import Billing.
From S2P Require Import Accounting.
From S2P Require Import NoFault.
From S2P Require Import CallsSpec.
From stdpp Require Import gmap strings list.
From Stdlib Require Import ZArith Lia.

Open Scope Z_scope.
Open Scope go_scope.

#[local] Existing Instances PgCreditRepo.repo PgPaymentRepo.repo MockGateway.laws.

(** ** Checkout *)

Section Checkout.
Context `{payments_laws : PaymentRepo.Laws} `{gateway_laws : PaymentGateway.Laws}.

(** What one step of a checkout may do to the payments. *)
Definition at_most_one_payment (org : OrgID) (n : Z) (w w' : World) : Prop :=
  org_credits (w_db w') = org_credits (w_db w) /\
  credit_ledger (w_db w') = credit_ledger (w_db w) /\
  (payments (w_db w') = payments (w_db w) \/
   exists row, payments (w_db w') = payments (w_db w) ++ [row] /\
     pmt_org_id row = org /\ pmt_status row = PaymentPending /\
     1 <= pmt_credits row <= 100000 /\ (1 <= n <= 100000 -> pmt_credits row = n)).

(** Every step of a checkout, whatever fails, grants nothing: it leaves
    balances and ledger alone and at most adds one pending payment, for between
    1 and 100000 credits, the requested number when that is in range. *)
Theorem Checkout_only_opens_payment org n :
  guar (at_most_one_payment org n) (Billing.Checkout org n).
Proof.
  assert (forall w w', quiet w w' -> at_most_one_payment org n w w') as Hq.
  { intros w w' (D & _). unfold at_most_one_payment, w_db. rewrite D. auto. }
  apply guar_bind; [apply guar_New; intros; by apply Hq, quiet_silent|]. intros pid.
  apply guar_bind; [|intros _; apply guar_bind;
    [eapply guar_mono, PaymentGateway.Checkout_quiet; exact Hq|done]].
  set (k := if n <=? 0 then _ else _).
  assert (1 <= k <= 100000 /\ (1 <= n <= 100000 -> k = n)) as [Hk Hkn]
    by (subst k; repeat split_match; bool_prop; lia).
  eapply guar_lin; [| |apply PaymentRepo.Create_lin].
  - intros w w' E. by apply Hq, quiet_silent.
  - intros w w' r. unfold at_most_one_payment, w_db. generalize (w_st w) (w_st w').
    intros s s' HS. destruct HS as [st st' row r Ho _ _ Hc Hs _ ->|st e]; [|auto].
    simpl in *. split; [done|]. split; [done|]. right. exists row.
    rewrite Hc. auto.
Qed.
End Checkout.

Lemma Checkout_only_opens_payment_witness :
  guar (at_most_one_payment "org" 250)
    (Billing.Checkout (payments := PgPaymentRepo.repo) (gateway := MockGateway.gateway "http://app")
       "org" 250).
Proof.
  apply (Checkout_only_opens_payment (C := PgPaymentRepo.repo)
           (G := MockGateway.gateway "http://app")).
Defined.

(** ** Settlement *)

Section Settle.
Context `{gateway_laws : PaymentGateway.Laws} (form : gmap string string)
  (res : PaymentResult).

(** When the gateway authenticates this callback, this is what it says. *)
Definition answers : Prop := forall env w r w',
  run env (PaymentGateway.VerifyIPN form) w = (Ok (r, true), w') -> r = res.

Definition pending (st : State) : option PaymentRow :=
  PaymentRepo.pending_row PaymentGateway.Name (pres_ProviderRef res) st.

(** With nothing pending a callback changes no table, whatever fails. *)
Lemma settled_stays env w :
  answers -> pending (w_st w) = None ->
  s_db (w_st (snd (run env (Billing.SettlePayment form) w))) = s_db (w_st w).
Proof.
  intros Hans Hnone. unfold Billing.SettlePayment. rewrite run_bind.
  destruct (run env (PaymentGateway.VerifyIPN form) w) as [o w1] eqn:Ev.
  destruct (run_quiet_eq _ _ _ _ _ (PaymentGateway.VerifyIPN_quiet form) Ev) as (Hdb & _).
  destruct o as [[r [|]]|e|]; cbn [negb]; try done.
  apply Hans in Ev as ->. rewrite run_bind, run_try.
  destruct (run env (PaymentRepo.Settle _ _ _) w1) as [o w2] eqn:Es.
  apply (run_lin_eq _ _ _ _ _ _ (PaymentRepo.Settle_lin _ _ _)) in Es.
  assert (pending (w_st w1) = None) as Hnone1
    by (unfold pending, PaymentRepo.pending_row in *; by rewrite Hdb).
  unfold pending in Hnone1.
  remember (w_st w1) as s1 eqn:E1. remember (w_st w2) as s2 eqn:E2.
  destruct Es as [st row now Hrow|st row now e Hrow _|st p|st e]; try congruence.
  - simpl. congruence.
  - destruct e; simpl; congruence.
Qed.
End Settle.

Section SettleOnce.
Context {gateway : PaymentGateway.T} {gateway_laws : PaymentGateway.Laws gateway}
  (form : gmap string string) (res : PaymentResult).

(** The pending payment is marked with what the gateway said. *)
Lemma run_Settle_pending env w row :
  (forall n, env_fault env n = NoFault) -> pending res (w_st w) = Some row ->
  text_ok (pres_ProviderRef res) = true ->
  exists w' now,
    run env (PaymentRepo.Settle PaymentGateway.Name (pres_ProviderRef res) (pres_Status res)) w =
      (Ok (PaymentRepo.row_payment row (pres_Status res) zeroTime, true), w') /\
    w_st w' = PaymentRepo.settle_rows PaymentGateway.Name (pres_ProviderRef res)
                (pres_Status res) now (w_st w).
Proof.
  intros Hnf Hrow Href. cbn [PaymentRepo.Settle PgPaymentRepo.repo].
  unfold PgPaymentRepo.Settle. rewrite run_bind, run_try, (run_exec env Hnf).
  unfold PgPaymentRepo.settle_pending, with_text. cbn [forallb]. rewrite Href. cbn [andb].
  unfold pending, PaymentRepo.pending_row in Hrow. unfold w_db at 1. rewrite Hrow.
  by eexists _, _.
Qed.

(** The grant adds the credits and one ledger row. *)
Lemma run_Grant_post env org amount reason w :
  (forall n, env_fault env n = NoFault) -> CreditRepo.small amount ->
  0 <= balance_of (w_st w) org -> balance_of (w_st w) org + amount <= int32_max ->
  (forall n r, In r (credit_ledger (w_db w)) -> led_id r <> id_at env "led" n) ->
  exists w' b, run env (CreditRepo.Grant org amount reason) w = (Ok b, w') /\
    CreditRepo.post org amount reason (w_st w) (w_st w').
Proof.
  intros Hnf Hsmall Hb Hmax Hfresh.
  destruct (run_Grant_ok env Hnf org amount reason w) as (w' & n & now & Hrun & Hw'); [done..|].
  eexists _, _. split; [exact Hrun|]. rewrite Hw'. by eexists (mkLedgerRow _ _ _ _ _).
Qed.

(** What the callback has granted: the payment's credits when it is paid. *)
Definition granted (row : PaymentRow) : Z :=
  if (pres_Status res =? PaymentPaid)%string then pmt_credits row else 0.

(** C10: What an authenticated callback does to a pending payment when nothing
    fails (and the org's balance has room for the credits, and the ids drawn are
    fresh).  The payment is marked with the status the gateway states; when that
    is paid, exactly its credits are granted to its org, once, as a top-up; when
    it is failed, nothing is granted; no other org's balance changes.  After
    that no repetition of the callback, in any environment and whatever fails,
    changes the database.  (When the grant itself fails after the payment was
    marked, it is lost: see [lost_grant_is_never_repaired].) *)
Theorem SettlePayment_credits_once env w row :
  (forall n, env_fault env n = NoFault) ->
  answers form res -> pres_Status res = PaymentPaid \/ pres_Status res = PaymentFailed ->
  (exists w1, run env (PaymentGateway.VerifyIPN form) w = (Ok (res, true), w1) /\
              s_db (w_st w1) = s_db (w_st w)) ->
  pending res (w_st w) = Some row ->
  text_ok (pres_ProviderRef res) = true ->
  CreditRepo.small (pmt_credits row) ->
  0 <= balance_of (w_st w) (pmt_org_id row) ->
  balance_of (w_st w) (pmt_org_id row) + pmt_credits row <= int32_max ->
  fresh_ids env (w_db w) ->
  exists w' now, run env (Billing.SettlePayment form) w = (Ok tt, w') /\
    payments (w_db w') = payments (s_db (PaymentRepo.settle_rows PaymentGateway.Name
      (pres_ProviderRef res) (pres_Status res) now (w_st w))) /\
    pending res (w_st w') = None /\
    (forall org, balance_of (w_st w') org = balance_of (w_st w) org +
       if (pmt_org_id row =? org)%string then granted row else 0) /\
    topups (w_st w') (pmt_org_id row) = topups (w_st w) (pmt_org_id row) + granted row /\
    forall env' w2, s_db (w_st w2) = s_db (w_st w') ->
      s_db (w_st (snd (run env' (Billing.SettlePayment form) w2))) = s_db (w_st w').
Proof.
  intros Hnf Hans Hst (w1 & Hver & Hdb) Hrow Href Hsmall Hbal Hmax [Hled _].
  assert (forall o, balance_of (w_st w1) o = balance_of (w_st w) o) as Hb1
    by (intros o; unfold balance_of; by rewrite Hdb).
  destruct (run_Settle_pending env w1 row Hnf) as (w2 & now & Hset & Hw2);
    [unfold pending, PaymentRepo.pending_row in *; by rewrite Hdb|done|].
  assert (forall w3, payments (w_db w3) = payments (w_db w2) -> pending res (w_st w3) = None)
    as Hnone.
  { intros w3 E. unfold pending, PaymentRepo.pending_row. unfold w_db in E. rewrite E, Hw2.
    apply tfind_tupdate_gone. intros r _. unfold PaymentRepo.is_pending. simpl.
    apply andb_false_iff. right. by destruct Hst as [->| ->]. }
  assert (forall o, balance_of (w_st w2) o = balance_of (w_st w) o) as Hb2
    by (intros o; rewrite <- Hb1; unfold balance_of; by rewrite Hw2).
  assert (forall w', payments (w_db w') = payments (w_db w2) ->
    forall env' w3, s_db (w_st w3) = s_db (w_st w') ->
    s_db (w_st (snd (run env' (Billing.SettlePayment form) w3))) = s_db (w_st w')) as Hrep.
  { intros w' E env' w3 E3. rewrite <- E3. apply (settled_stays form res); [done|].
    apply Hnone. unfold w_db in *. by rewrite E3. }
  assert (payments (w_db w2) = payments (s_db (PaymentRepo.settle_rows PaymentGateway.Name
      (pres_ProviderRef res) (pres_Status res) now (w_st w)))) as Hp2
    by (unfold w_db; rewrite Hw2; simpl; by rewrite Hdb).
  assert (topups (w_st w2) (pmt_org_id row) = topups (w_st w) (pmt_org_id row)) as Ht2
    by (unfold topups, moved; rewrite Hw2; simpl; by rewrite Hdb).
  unfold Billing.SettlePayment at 1. rewrite run_bind, Hver. cbn [negb].
  rewrite run_bind, run_try, Hset. cbn [run ret andb pay_OrgID pay_Credits PaymentRepo.row_payment].
  unfold granted. destruct (pres_Status res =? PaymentPaid)%string.
  2: { exists w2, now. cbv iota. repeat (split; [by auto|]). split.
       { intros org. rewrite Hb2. destruct (_ =? _)%string; lia. }
       split; [lia|by apply Hrep]. }
  destruct (run_Grant_post env (pmt_org_id row) (pmt_credits row) "topup" w2) as (w3 & b & Hrun & Hpost);
    [done|done|by rewrite Hb2|by rewrite Hb2|unfold w_db; rewrite Hw2; simpl; by rewrite Hdb|].
  pose proof (proj1 (post_rest _ _ _ _ _ Hpost)) as Hp3.
  exists w3, now. rewrite run_bind, Hrun. split; [done|]. split; [by rewrite <- Hp2|].
  split; [by apply Hnone|]. split; [|split; [|by apply Hrep]].
  - intros org. rewrite (balance_of_post _ _ _ _ _ _ Hpost), Hb2.
    unfold same. destruct (_ =? _)%string; lia.
  - unfold topups. rewrite (moved_post _ _ _ _ _ _ _ Hpost). unfold same.
    rewrite String.eqb_refl. change ("topup" =? "topup")%string with true.
    unfold topups in Ht2. rewrite Ht2. lia.
Qed.
End SettleOnce.

(** ** Witness, and the credits a fault can lose *)

Module BillingWitness.
Import Demo.

(** A callback that says more than its reference. *)
Definition res : PaymentResult := mkPaymentResult "pay_1" PaymentPaid.

Lemma demo_answers : answers (G := gateway) ipn res.
Proof. intros e w r w' H. vm_compute in H. by injection H as <- _. Qed.

(** The connection is lost between the settlement and the grant. *)
Definition faulty_env : Env :=
  mkEnv (env_clock env) (fun n => if (n =? 1)%nat then FaultBefore "conn reset" else NoFault)
    (env_rand env) (env_uuid env) (env_jsonb env).

Definition after_fault : World := snd (run faulty_env settle world).
End BillingWitness.

Import Demo BillingWitness.

Lemma SettlePayment_credits_once_witness :
  exists w', run env settle world = (Ok tt, w') /\ balance_of (w_st w') "org" = 5 + 100 /\
    forall env' w2, s_db (w_st w2) = s_db (w_st w') ->
      s_db (w_st (snd (run env' settle w2))) = s_db (w_st w').
Proof.
  edestruct (SettlePayment_credits_once (gateway := gateway) ipn res env world)
    as (w' & now & Hrun & _ & _ & Hbal & _ & Hrep).
  - done.
  - exact demo_answers.
  - by left.
  - exists world. split; [reflexivity|done].
  - vm_compute. reflexivity.
  - reflexivity.
  - vm_compute. split; discriminate.
  - vm_compute. discriminate.
  - vm_compute. discriminate.
  - exact CallsWitness.demo_fresh.
  - exists w'. split; [exact Hrun|]. split; [exact (Hbal "org")|exact Hrep].
Defined.

(** C38: The settlement and the grant are two transactions.  When the second is
    lost the callback fails with the payment already marked paid, and no
    repetition of the callback, in any environment, ever grants the credits. *)
Theorem lost_grant_is_never_repaired :
  fst (run faulty_env settle world) = Err (ErrOther "conn reset") /\
  paid_credits (w_st after_fault) "org" = 100 /\ topups (w_st after_fault) "org" = 0 /\
  forall env' w2, s_db (w_st w2) = s_db (w_st after_fault) ->
    s_db (w_st (snd (run env' settle w2))) = s_db (w_st after_fault).
Proof.
  split; [reflexivity|]. split; [reflexivity|]. split; [reflexivity|].
  intros env' w2 E. rewrite <- E.
  apply (settled_stays (G := gateway) ipn res); [exact demo_answers|].
  unfold pending, PaymentRepo.pending_row. rewrite E. reflexivity.
Qed.
