(* ===== verification/FlowsSpec.v ===== *)
(** * What the flow builder guarantees

    Theorems about internal/service/flows with the Postgres repository. *)

From S2P Require Import Prelude.
From S2P Require Import Domain.
From S2P Require Import Effects.
From S2P Require Import GoLib.
From S2P Require Import Json.
From S2P Require Import FlowEngine.
From S2P Require Import Store.
From S2P Require Import Ports.
From S2P Require Import PgFlows.
From S2P Require Import PgCalls.
From S2P Require Import CallPolicy.
From S2P Require Import Calls.
From S2P Require Import Flows.
From S2P Require Import Accounting.
From S2P Require Import NoFault.
From S2P Require Import CallsSpec.
From stdpp Require Import gmap strings list.
From Stdlib Require Import ZArith Lia.

Open Scope Z_scope.
Open Scope go_scope.

#[local] Existing Instances PgFlowRepo.repo PgCallPolicyRepo.repo.

(** ** Templates *)

(** A node of the spec that ends the call with a result. *)
Definition ends_at (ivr : IVRSpec) (t : string) : bool :=
  match ivr_Nodes ivr !! t with
  | Some m => node_terminal m && negb (node_Result m =? "")%string
  | None => false
  end.

(** An entry that gathers, and whose every transition ends the call. *)
Definition one_key_spec (ivr : IVRSpec) : bool :=
  match ivr_Nodes ivr !! ivr_Entry ivr with
  | None => false
  | Some n =>
      negb (node_terminal n) &&
      match node_Gather n with Some _ => true | None => false end &&
      bool_decide (map_Forall (fun _ t => ends_at ivr t = true) (node_On n))
  end.

Lemma one_key_simulates ivr inp :
  one_key_spec ivr = true ->
  let sim := Sim.Simulate (mkFlow "" "" "" 0 "" FlowIVR "" ivr) [inp] in
  Sim.sim_Ended sim = true /\ Sim.sim_Result sim <> "".
Proof.
  unfold one_key_spec. destruct (ivr_Nodes ivr !! ivr_Entry ivr) as [n|] eqn:En; [|done].
  intros H. apply andb_prop in H as [H Hon]. apply andb_prop in H as [Hterm Hg].
  apply negb_true_iff in Hterm. apply bool_decide_eq_true in Hon.
  set (f := mkFlow _ _ _ _ _ _ _ ivr).
  assert (IVR.node_at f (ivr_Entry ivr) = n) as Ent
    by (unfold IVR.node_at; simpl; by rewrite En).
  unfold Sim.Simulate. simpl ivr_Entry. cbn [flow_IVR f].
  assert (exists d, IVR.emit f (mkFlowState (ivr_Entry ivr)) = (d, None)) as [d Hd].
  { unfold IVR.emit. cbn [st_Node]. rewrite Ent. unfold node_terminal in Hterm. rewrite Hterm.
    destruct (node_Gather n); [by eexists|done]. }
  rewrite Hd. cbn [Sim.loop].
  change (if (inp =? "timeout")%string then IVR.OnTimeout f (mkFlowState (ivr_Entry ivr))
          else IVR.OnDTMF f (mkFlowState (ivr_Entry ivr)) inp)
    with (on_input f (mkFlowState (ivr_Entry ivr)) (inp =? "timeout")%string inp).
  destruct (on_input_cases f (mkFlowState (ivr_Entry ivr)) (inp =? "timeout")%string inp)
    as [->|(key & t & Ht & ->)]; [done|].
  cbn [st_Node] in Ht. rewrite Ent in Ht. specialize (Hon key t Ht). cbn beta in Hon. unfold ends_at in Hon.
  destruct (ivr_Nodes ivr !! t) as [m|] eqn:Em; [|done]. bool_prop.
  unfold IVR.emit. cbn [st_Node].
  assert (IVR.node_at f t = m) as -> by (unfold IVR.node_at; simpl; by rewrite Em).
  unfold node_terminal in H. rewrite H. done.
Qed.

Definition template_ok (t : Templates.Template) : bool :=
  match Flows.validateIVR (Templates.tpl_Spec t) with
  | Some _ => false
  | None =>
      match FlowJson.UnmarshalIVRSpec (Templates.tpl_Spec t) with
      | Some ivr => one_key_spec ivr
      | None => false
      end
  end.

(** Every built-in template is a spec the builder accepts, and one input of
    any kind (a key, an unmapped key, a timeout) takes it to a terminal outcome
    with a result. *)
Theorem templates_always_finish (t : Templates.Template) (inp : string) :
  In t Templates.Templates ->
  Flows.validateIVR (Templates.tpl_Spec t) = None /\
  exists sim, Flows.Simulate (Templates.tpl_Spec t) [inp] = inl sim /\
    Sim.sim_Ended sim = true /\ Sim.sim_Result sim <> "".
Proof.
  intros Ht.
  assert (forallb template_ok Templates.Templates = true) as Hall by (vm_compute; reflexivity).
  rewrite forallb_forall in Hall. specialize (Hall t Ht). unfold template_ok in Hall.
  unfold Flows.Simulate. destruct (Flows.validateIVR (Templates.tpl_Spec t)); [done|].
  destruct (FlowJson.UnmarshalIVRSpec _) as [ivr|]; [|done].
  split; [done|]. eexists. split; [done|]. by apply one_key_simulates.
Qed.

Lemma templates_always_finish_witness :
  exists t, In t Templates.Templates /\
    exists sim, Flows.Simulate (Templates.tpl_Spec t) ["9"] = inl sim.
Proof.
  eexists. split; [left; reflexivity|].
  edestruct (templates_always_finish _ "9" (or_introl eq_refl)) as (_ & sim & Hsim & _).
  exists sim. exact Hsim.
Defined.

(** ** Names of active flows *)

Definition active_flows (d : DB) (org name : string) : list FlowRow :=
  tselect (FlowQ.active_named org name) (flows d).

(** Routing by name is unambiguous. *)
Definition names_unique (d : DB) : Prop :=
  forall org name, (length (active_flows d org name) <= 1)%nat.

Lemma tsort_nil {R} (key : R -> Z) t : tsort key t = [] -> t = [].
Proof. intros E. apply Permutation_nil. by rewrite <- E, tsort_perm. Qed.

(** [false] means there was no such flow. *)
Lemma GetActiveFlow_absent org name :
  lin (fun st r st' => st' = st /\
         forall f, r = Ok (f, false) -> active_flows (s_db st) org name = [])
    (PgFlowRepo.GetActiveFlow org name).
Proof.
  apply lin_exec_try; unfold lin_done, FlowQ.GetActiveFlowByName.
  - intros st ctx a d H%with_text_ok. revert H.
    destruct (tsort _ (tselect _ _)) as [|r t] eqn:E; [done|]. intros [= <- <-].
    rewrite set_db_id. cbn.
    destruct (PgFlowRepo.decode_row r) as [[f b]|e] eqn:Ed; eexists; (split; [done|]);
      (split; [done|]); intros f' H; [|done].
    unfold PgFlowRepo.decode_row in Ed. repeat split_match; congruence.
  - intros st ctx e. unfold with_text. destruct (forallb text_ok [name]).
    + destruct (tsort _ (tselect _ _)) as [|r t] eqn:E; [|done]. intros [= <-]. left.
      eexists. split; [done|]. split; [done|]. intros _ _. by eapply tsort_nil.
    + intros [= <-]. left. by eexists.
  - intros st m. by eexists.
  - intros st ctx a d m H%with_text_ok. revert H.
    destruct (tsort _ (tselect _ _)) as [|r t] eqn:E; [done|]. intros [= <- <-].
    eexists. split; [done|]. rewrite set_db_id. by split.
Qed.

Lemma active_flows_app d rows org name :
  active_flows (set_flows (flows d ++ rows) d) org name =
  active_flows d org name ++ tselect (FlowQ.active_named org name) rows.
Proof. unfold active_flows, tselect. simpl. apply List.filter_app. Qed.

(** Adding one row under a name that is free. *)
Lemma names_unique_app d r :
  names_unique d -> active_flows d (flowr_org_id r) (flowr_name r) = [] ->
  names_unique (set_flows (flows d ++ [r]) d).
Proof.
  intros Hu Hfree org name. rewrite active_flows_app, length_app. simpl.
  destruct (FlowQ.active_named org name r) eqn:E; simpl; [|specialize (Hu org name); lia].
  unfold FlowQ.active_named in E. bool_prop. subst. rewrite Hfree. simpl. lia.
Qed.

(** What CreateFlow does, acknowledged or not. *)
Lemma CreateFlow_names ctx id org nf d d' :
  names_unique d -> active_flows d org (nf_Name nf) = [] ->
  FlowQ.CreateFlow id org (nf_Name nf) 1 (nf_Channel nf) (nf_Type nf) (nf_Locale nf)
    (nf_Spec nf) ctx d = inl (tt, d') -> names_unique d'.
Proof.
  intros Hu Hfree H%with_text_ok. revert H. destruct (sql_jsonb ctx _); [|done].
  destruct (tfind _ _); intros [= <-]; [done|]. by apply names_unique_app.
Qed.

(** C27: Run on its own, whatever fails, creating a flow keeps the names of
    active flows unique within each org. *)
Theorem Create_keeps_names_unique env org nf w :
  names_unique (w_db w) ->
  names_unique (w_db (snd (run env (Flows.Create org nf) w))).
Proof.
  intros Hu. unfold Flows.Create. split_match; [done|].
  set (nf' := Flows.with_defaults nf). cbv zeta.
  destruct (if (nf_Type nf' =? FlowIVR)%string then Flows.validateIVR (nf_Spec nf') else None);
    [done|].
  rewrite run_bind. destruct (run env (FlowRepo.GetActiveFlow org (nf_Name nf')) w)
    as [o w1] eqn:E1.
  apply (run_lin_eq _ _ _ _ _ _ (GetActiveFlow_absent org (nf_Name nf'))) in E1 as [Est Habs].
  unfold w_db in *. destruct o as [[f [|]]|e|]; cbv beta iota; try (simpl; by rewrite Est).
  specialize (Habs f eq_refl). cbn [FlowRepo.Create PgFlowRepo.repo].
  unfold PgFlowRepo.Create. rewrite run_bind.
  change (run env (Id.New "flow") w1) with (Ok (id_at env "flow" (w_tick w1)), tick w1).
  cbv beta iota. rewrite run_bind.
  destruct (run env (exec _) (tick w1)) as [o w2] eqn:E2.
  apply (run_lin_eq _ _ _ _ _ _ (exec_lin _)) in E2.
  assert (names_unique (s_db (w_st w2))) as Hgoal.
  { remember (w_st (tick w1)) as s1 eqn:E3. unfold tick in E3. simpl in E3. rewrite Est in E3.
    remember (w_st w2) as s2 eqn:E4. clear E4.
    destruct E2 as [st ctx [] d H|st ctx e H|st m|st ctx [] d m H]; subst st; try done;
      by eapply CreateFlow_names. }
  by destruct o.
Qed.

(** ** The same check under concurrency *)

Module FlowRace.
Import Demo.

Definition new_flow : NewFlow :=
  mkNewFlow "order_confirm" "" FlowIVR "" Templates.orderConfirmSpec.

Definition creator : prog World unit := spawn (Flows.Create "org" new_flow).

Definition after_race : World :=
  snd (run_sched env [0; 1; 0; 0; 1; 1]%nat [creator; creator] world).
End FlowRace.

(** The duplicate-name check and the insert are separate statements and no
    index backs them: two concurrent creations of one name both succeed, and the
    org ends with two active flows of that name. *)
Theorem concurrent_creates_duplicate_a_name :
  names_unique (w_db Demo.world) /\
  length (active_flows (w_db FlowRace.after_race) "org" "order_confirm") = 2%nat.
Proof. split; [intros org name; simpl; lia | vm_compute; reflexivity]. Qed.

Lemma Create_keeps_names_unique_witness :
  names_unique (w_db (snd (run Demo.env (Flows.Create "org" FlowRace.new_flow) Demo.world))).
Proof.
  apply (Create_keeps_names_unique Demo.env "org" FlowRace.new_flow Demo.world).
  intros org name. simpl. lia.
Defined.

(** ** A created flow is the one calls are routed to *)

Section Route.
Context (env : Env) (Hnf : forall n, env_fault env n = NoFault).

Lemma run_GetActiveFlow org name w :
  text_ok name = true ->
  run env (PgFlowRepo.GetActiveFlow org name) w =
  (match tsort (fun r => - flowr_version r) (active_flows (w_db w) org name) with
   | [] => Ok (zeroFlow, false)
   | r :: _ => match PgFlowRepo.decode_row r with inl f => Ok f | inr e => Err e end
   end, tick w).
Proof using Hnf.
  intros Hname. unfold PgFlowRepo.GetActiveFlow. rewrite run_bind, run_try, run_exec_read.
  2: done.
  2: { intros ctx d a d' H%with_text_ok. revert H. split_match; by intros [= _ <-]. }
  unfold FlowQ.GetActiveFlowByName, with_text. cbn [forallb]. rewrite Hname. cbn [andb]. fold (active_flows (w_db w) org name).
  destruct (tsort _ _) as [|r t]; [done|].
  by destruct (PgFlowRepo.decode_row r).
Qed.

Lemma with_defaults_text nf :
  forallb text_ok [nf_Name nf; nf_Channel nf; nf_Locale nf] = true ->
  Flows.knownFlowTypes (nf_Type nf) = true ->
  let nf' := Flows.with_defaults nf in
  forallb text_ok [nf_Name nf'; nf_Channel nf'; nf_Type nf'; nf_Locale nf'] = true.
Proof.
  intros Ht Hk. assert (text_ok (nf_Type nf) = true) as Htype.
  { unfold Flows.knownFlowTypes in Hk. apply orb_prop in Hk as [Hk|Hk];
      apply String.eqb_eq in Hk; by rewrite Hk. }
  cbn [forallb] in *. apply andb_prop in Ht as [Hn [Hc [Hl _]%andb_prop]%andb_prop].
  unfold Flows.with_defaults. cbn [nf_Name nf_Channel nf_Type nf_Locale].
  rewrite Hn, Htype.
  destruct (nf_Channel nf =? "")%string, (nf_Type nf =? FlowChat)%string,
    (nf_Locale nf =? "")%string; by rewrite ?Hc, ?Hl.
Qed.

(** Creating a valid flow under a free name makes it the flow calls are
    routed to by that name: looking the name up afterwards returns the new id,
    version 1, the defaults Create fills in, and the decoded spec (empty unless
    the flow is an IVR flow), as long as the database's jsonb form decodes to
    the same spec. *)
Theorem Create_then_route org nf spec' ivr w :
  nf_Name nf <> "" -> Flows.knownFlowTypes (nf_Type nf) = true ->
  forallb text_ok [nf_Name nf; nf_Channel nf; nf_Locale nf] = true ->
  env_jsonb env (nf_Spec nf) = Some spec' ->
  (if (nf_Type nf =? FlowIVR)%string
   then Flows.validateIVR (nf_Spec nf) = None /\
        FlowJson.UnmarshalIVRSpec spec' = Some ivr
   else ivr = zeroIVRSpec) ->
  active_flows (w_db w) org (nf_Name nf) = [] ->
  (forall n r, In r (flows (w_db w)) -> flowr_id r <> id_at env "flow" n) ->
  exists fid w', run env (Flows.Create org nf) w = (Ok fid, w') /\
    fst (run env (FlowRepo.GetActiveFlow org (nf_Name nf)) w') =
    Ok (mkFlow fid org (nf_Name nf) 1 (nf_Channel (Flows.with_defaults nf)) (nf_Type nf)
          (nf_Locale (Flows.with_defaults nf)) ivr, true).
Proof using Hnf.
  intros Hname Htype Htext Hjson Hspec Hfree Hfresh.
  assert (text_ok (nf_Name nf) = true) as Hn by (simpl in Htext; by bool_prop).
  pose proof (with_defaults_text nf Htext Htype) as Htext'.
  unfold Flows.Create.
  apply String.eqb_neq in Hname. rewrite Hname, Htype. cbn [negb orb]. cbv zeta.
  set (nf' := Flows.with_defaults nf).
  assert ((if (nf_Type nf' =? FlowIVR)%string then Flows.validateIVR (nf_Spec nf') else None)
          = None) as -> by (simpl; destruct (nf_Type nf =? FlowIVR)%string; tauto).
  rewrite run_bind. cbn [FlowRepo.GetActiveFlow FlowRepo.Create PgFlowRepo.repo].
  rewrite run_GetActiveFlow by done. simpl (nf_Name nf'). rewrite Hfree. cbn [tsort].
  cbv beta iota. unfold PgFlowRepo.Create. rewrite run_bind, run_New. cbv beta iota.
  rewrite run_bind, (run_exec env Hnf). unfold FlowQ.CreateFlow at 1, with_text at 1.
  fold nf' in Htext'. rewrite Htext'. simpl sql_jsonb.
  simpl (nf_Spec nf'). rewrite Hjson.
  rewrite (tfind_fresh flowr_id) by (intros r Hr; by apply Hfresh).
  cbv beta iota. eexists _, _. split; [done|].
  rewrite run_GetActiveFlow by done. unfold w_db at 1. cbn [w_st set_db s_db fst].
  rewrite active_flows_app. unfold w_db. cbn [w_st tick].
  fold (w_db w). rewrite Hfree. cbn [tselect List.filter app].
  unfold FlowQ.active_named. simpl. rewrite !String.eqb_refl. cbn [andb tsort tins].
  unfold PgFlowRepo.decode_row. simpl. unfold PgFlowRepo.row_flow. simpl.
  destruct (nf_Type nf =? FlowIVR)%string; [destruct Hspec as [_ ->]|rewrite Hspec]; done.
Qed.
End Route.

Lemma Create_then_route_witness :
  exists fid w', run Demo.env (Flows.Create "org" FlowRace.new_flow) Demo.world = (Ok fid, w') /\
    exists f, fst (run Demo.env (FlowRepo.GetActiveFlow "org" "order_confirm") w') = Ok (f, true).
Proof.
  edestruct (Create_then_route Demo.env (fun _ => eq_refl) "org" FlowRace.new_flow
    Templates.orderConfirmSpec
    (default zeroIVRSpec (FlowJson.UnmarshalIVRSpec Templates.orderConfirmSpec)) Demo.world)
    as (fid & w' & Hrun & Hget).
  - discriminate.
  - reflexivity.
  - reflexivity.
  - reflexivity.
  - split; vm_compute; reflexivity.
  - reflexivity.
  - intros n r [].
  - exists fid, w'. split; [exact Hrun|]. eexists. exact Hget.
Defined.

(** ** Calling policies *)

Section PolicyRoundtrip.
Context (env : Env) (Hnf : forall n, env_fault env n = NoFault) {tz : TimeZones.T}.

(** A valid policy is stored without loss by the smallint columns and read
    back as it was; an invalid one is refused and nothing changes. *)
Theorem SavePolicy_roundtrip org p w :
  let '(r, w') := run env (Calls.SavePolicy org p) w in
  if CallPolicy.Valid p
  then r = Ok tt /\ fst (run env (Calls.Policy org) w') = Ok p
  else r = Err ErrInvalidCallPolicy /\ w' = w.
Proof using Hnf.
  unfold Calls.SavePolicy, Calls.Policy. destruct (CallPolicy.Valid p) eqn:Hv; [|done].
  cbn [negb CallPolicyRepo.Upsert PgCallPolicyRepo.repo]. unfold PgCallPolicyRepo.Upsert.
  rewrite (run_exec env Hnf). cbn [CallPolicyQ.UpsertCallPolicy].
  unfold CallPolicyQ.UpsertCallPolicy. split; [done|].
  cbn [CallPolicyRepo.Get]. rewrite (run_Policy env Hnf). simpl. unfold policy_of, w_db. simpl.
  rewrite lookup_insert_eq. simpl.
  destruct (valid_fits_int16 tz p Hv) as (-> & -> & ->). by destruct p.
Qed.
End PolicyRoundtrip.

Lemma SavePolicy_roundtrip_witness :
  CallPolicy.Valid (tz := dhaka_only) (mkCallPolicy 10 18 "Asia/Dhaka" 3) = true /\
  exists r w', run Demo.env (Calls.SavePolicy (tz := dhaka_only) "org"
                 (mkCallPolicy 10 18 "Asia/Dhaka" 3)) Demo.world = (r, w') /\ r = Ok tt.
Proof.
  split; [reflexivity|].
  pose proof (SavePolicy_roundtrip Demo.env (fun _ => eq_refl) (tz := dhaka_only) "org"
    (mkCallPolicy 10 18 "Asia/Dhaka" 3) Demo.world) as H.
  destruct (run _ _ _) as [r w']. exists r, w'. split; [reflexivity|]. apply H.
Defined.
