(* ===== verification/PgWebhooks.v ===== *)
(** * The webhook outbox in Postgres

    internal/adapter/postgres/webhooks.go (WebhookRepo) over gen/webhooks.sql.go,
    with the tables of migrations/00004_webhooks.sql, and the port WebhookRepo of
    domain/webhook.go.  The body of DrainOutbox is one definition that is run in
    two ways, whole and statement by statement; its claim skips the rows another
    transaction holds locked. *)

From S2P Require Import Prelude.
From S2P Require Import Domain.
From S2P Require Import Effects.
From S2P Require Import GoLib.
From S2P Require Import Store.
From S2P Require Import Sessions.
From S2P Require Import Ports.
From stdpp Require Import gmap strings list.
From Stdlib Require Import ZArith Lia.

Open Scope Z_scope.
Open Scope go_scope.

(** ** domain/webhook.go *)

Record WebhookEndpointRow := mkWebhookEndpointRow {
  wer_OrgID : string; wer_URL : string; wer_SecretEnc : string;
  wer_Events : list string; wer_Active : bool
}.

Definition zeroWebhookEndpointRow : WebhookEndpointRow :=
  mkWebhookEndpointRow "" "" "" [] false.

Record DueDelivery := mkDueDelivery {
  dd_ID : string; dd_OrgID : string; dd_Event : string; dd_URL : string;
  dd_Payload : string; dd_Attempts : Z
}.

Module WebhookRepo.
Class T := {
  UpsertEndpoint : string -> string -> string -> string -> list string -> prog World unit;
  GetEndpoint : string -> prog World (WebhookEndpointRow * bool);
  DrainOutbox : Z -> txM string -> prog World Z;
  DueDeliveries : Z -> prog World (list DueDelivery);
  MarkDelivered : string -> Z -> prog World unit;
  Reschedule : string -> Z -> string -> string -> Time -> prog World unit
}.
End WebhookRepo.

(** ** gen/webhooks.sql.go *)

Module WebhookQ.
Definition pending (r : DeliveryRow) : bool := (dlv_status r =? "pending")%string.
Definition has_id (id : string) (r : DeliveryRow) : bool := (dlv_id r =? id)%string.
Definition undispatched (r : OutboxRow) : bool :=
  match ob_dispatched_at r with None => true | Some _ => false end.

Definition set_endpoint (url secretEnc : string) (events : list string)
    (r : WebhookEndpoint) : WebhookEndpoint :=
  mkWebhookEndpoint (whe_id r) (whe_org_id r) url secretEnc events true (whe_created_at r).

(** ON CONFLICT (org_id) DO UPDATE; another row's id is a primary key violation. *)
Definition UpsertWebhookEndpoint (id orgID url secretEnc : string) (events : list string)
  : stmt unit :=
  with_text (url :: events) (fun ctx d =>
  let mine r := (whe_org_id r =? orgID)%string in
  match tfind mine (webhook_endpoints d) with
  | Some _ =>
      inl (tt, set_webhook_endpoints
        (tupdate mine (set_endpoint url secretEnc events) (webhook_endpoints d)) d)
  | None =>
      match tfind (fun r => (whe_id r =? id)%string) (webhook_endpoints d) with
      | Some _ => inr unique_violation
      | None =>
          inl (tt, set_webhook_endpoints
            (webhook_endpoints d ++
               [mkWebhookEndpoint id orgID url secretEnc events true (sql_now ctx)]) d)
      end
  end).

Definition GetWebhookEndpoint (orgID : string) : stmt WebhookEndpoint := fun _ d =>
  match tfind (fun r => (whe_org_id r =? orgID)%string) (webhook_endpoints d) with
  | None => inr ErrNoRows
  | Some r => inl (r, d)
  end.

(** ORDER BY id LIMIT n FOR UPDATE SKIP LOCKED: a row another transaction holds
    locked is passed over; those returned are locked by [tx_lock]. *)
Definition claimable (ctx : SqlCtx) (r : OutboxRow) : bool :=
  undispatched r && negb (bool_decide (ob_id r ∈ sql_locked ctx)).

Definition ClaimUndispatchedOutbox (limit : Z) : stmt (list OutboxRow) := fun ctx d =>
  sql_limit limit (tsort ob_id (tselect (claimable ctx) (webhook_outbox d))) d.

Definition CreateDelivery (id orgID event url payload : string) : stmt unit := fun ctx d =>
  match sql_jsonb ctx payload with
  | None => inr invalid_text
  | Some payload' =>
      match tfind (has_id id) (webhook_deliveries d) with
      | Some _ => inr unique_violation
      | None =>
          inl (tt, set_webhook_deliveries
            (webhook_deliveries d ++
               [mkDeliveryRow id orgID event url payload' "pending" 0 None None (sql_now ctx)
                  None (sql_now ctx)]) d)
      end
  end.

Definition set_dispatched (now : Time) (r : OutboxRow) : OutboxRow :=
  mkOutboxRow (ob_id r) (ob_org_id r) (ob_event r) (ob_payload r) (ob_created_at r)
    (Some now).

Definition MarkOutboxDispatched (id : Z) : stmt unit := fun ctx d =>
  inl (tt, set_webhook_outbox
    (tupdate (fun r => ob_id r =? id) (set_dispatched (sql_now ctx)) (webhook_outbox d)) d).

Definition DueDeliveries (limit : Z) : stmt (list DeliveryRow) := fun ctx d =>
  sql_limit limit
    (tsort dlv_next_retry_at
       (tselect (fun r => pending r && (dlv_next_retry_at r <=? sql_now ctx))
          (webhook_deliveries d))) d.

(** [attempts] is an int4 column. *)
Definition bump (f : DeliveryRow -> DeliveryRow) (id : string) : stmt unit := fun _ d =>
  match tfind (fun r => has_id id r && (dlv_attempts r =? int32_max))
          (webhook_deliveries d) with
  | Some _ => inr numeric_out_of_range
  | None =>
      inl (tt, set_webhook_deliveries (tupdate (has_id id) f (webhook_deliveries d)) d)
  end.

Definition set_delivered (code : Z) (now : Time) (r : DeliveryRow) : DeliveryRow :=
  mkDeliveryRow (dlv_id r) (dlv_org_id r) (dlv_event r) (dlv_url r) (dlv_payload r)
    "delivered" (dlv_attempts r + 1) (Some code) (dlv_last_error r) (dlv_next_retry_at r)
    (Some now) (dlv_created_at r).

Definition MarkDelivered (id : string) (code : Z) : stmt unit := fun ctx d =>
  bump (set_delivered code (sql_now ctx)) id ctx d.

Definition set_rescheduled (code : Z) (lastError : option string) (status : string)
    (next : Time) (r : DeliveryRow) : DeliveryRow :=
  mkDeliveryRow (dlv_id r) (dlv_org_id r) (dlv_event r) (dlv_url r) (dlv_payload r)
    status (dlv_attempts r + 1) (Some code) lastError next (dlv_delivered_at r)
    (dlv_created_at r).

Definition RescheduleDelivery (id : string) (code : Z) (lastError : option string)
    (status : string) (next : Time) : stmt unit :=
  bump (set_rescheduled code lastError status next) id.
End WebhookQ.

(** ** WebhookRepo *)

Module PgWebhookRepo.
Definition UpsertEndpoint (id orgID url secretEnc : string) (events : list string)
  : prog World unit :=
  exec (WebhookQ.UpsertWebhookEndpoint id orgID url secretEnc events).

Definition GetEndpoint (orgID : string) : prog World (WebhookEndpointRow * bool) :=
  let! row := ptry (exec (WebhookQ.GetWebhookEndpoint orgID)) in
  match row with
  | inr ErrNoRows => ret (zeroWebhookEndpointRow, false)
  | inr err => fail err
  | inl r => ret (mkWebhookEndpointRow (whe_org_id r) (whe_url r) (whe_secret_enc r)
                    (whe_events r) (whe_active r), true)
  end.

(** epErr == nil && ep.Active && (len(ep.Events) == 0 || contains) *)
Definition subscribed (ep : WebhookEndpoint + goerr) (event : string) : bool :=
  match ep with
  | inr _ => false
  | inl ep => whe_active ep &&
      match whe_events ep with
      | [] => true
      | events => existsb (fun e => (e =? event)%string) events
      end
  end.

Definition ep_url (ep : WebhookEndpoint + goerr) : string :=
  match ep with inl ep => whe_url ep | inr _ => "" end.

(** The loop over the claimed rows. *)
Fixpoint drain_rows (newDeliveryID : txM string) (rows : list OutboxRow) (created : Z)
  : txM Z :=
  match rows with
  | [] => ret created
  | row :: rows =>
      let! ep := ptry (tx_stmt (WebhookQ.GetWebhookEndpoint (ob_org_id row))) in
      let! created :=
        (if subscribed ep (ob_event row) then
           let! id := newDeliveryID in
           do! tx_stmt (WebhookQ.CreateDelivery id (ob_org_id row) (ob_event row)
                            (ep_url ep) (ob_payload row)) in
           ret (created + 1)
         else ret created) in
      do! tx_stmt (WebhookQ.MarkOutboxDispatched (ob_id row)) in
      drain_rows newDeliveryID rows created
  end.

(** From the claim to the COMMIT. *)
Definition drain_body (limit : Z) (newDeliveryID : txM string) : txM Z :=
  let! rows := tx_lock (WebhookQ.ClaimUndispatchedOutbox (int32_of limit)) in
  let! created := drain_rows newDeliveryID rows 0 in
  do! tx_commit in
  ret created.

Definition DrainOutbox (limit : Z) (newDeliveryID : txM string) : prog World Z :=
  transact (drain_body limit newDeliveryID).

(** The same transaction on connection [conn], statement by statement. *)
Definition DrainOutbox_session (conn : nat) (limit : Z) (newDeliveryID : txM string)
  : prog Sessions Z :=
  transact_session conn (drain_body limit newDeliveryID).

Definition due (r : DeliveryRow) : DueDelivery :=
  mkDueDelivery (dlv_id r) (dlv_org_id r) (dlv_event r) (dlv_url r) (dlv_payload r)
    (dlv_attempts r).

Definition DueDeliveries (limit : Z) : prog World (list DueDelivery) :=
  let! rows := exec (WebhookQ.DueDeliveries (int32_of limit)) in
  ret (map due rows).

Definition MarkDelivered (id : string) (statusCode : Z) : prog World unit :=
  exec (WebhookQ.MarkDelivered id (int32_of statusCode)).

Definition Reschedule (id : string) (statusCode : Z) (errMsg status : string)
    (nextRetryAt : Time) : prog World unit :=
  exec (WebhookQ.RescheduleDelivery id (int32_of statusCode) (strPtr errMsg) status
          nextRetryAt).

#[export] Instance repo : WebhookRepo.T :=
  { WebhookRepo.UpsertEndpoint := UpsertEndpoint; WebhookRepo.GetEndpoint := GetEndpoint;
    WebhookRepo.DrainOutbox := DrainOutbox; WebhookRepo.DueDeliveries := DueDeliveries;
    WebhookRepo.MarkDelivered := MarkDelivered; WebhookRepo.Reschedule := Reschedule }.
End PgWebhookRepo.
