(* ===== verification/Webhooks.v ===== *)
(** * Webhooks: signed delivery with retries

    internal/service/webhooks/webhooks.go.  The primitives of Crypto.v and the
    HTTP client ([HttpClient]) are parameters.  [Run] is the dispatcher with its
    drain as one step, [session_Run] the same with its drain interleaved. *)

From S2P Require Import Prelude.
From S2P Require Import Domain.
From S2P Require Import Effects.
From S2P Require Import GoLib.
From S2P Require Import Store.
From S2P Require Import Sessions.
From S2P Require Import Ports.
From S2P Require Import PgWebhooks.
From S2P Require Import Crypto.
From stdpp Require Import gmap strings list.
From Stdlib Require Import ZArith Lia.

Open Scope Z_scope.
Open Scope go_scope.

(** ** What the code uses of net/http *)

(** [NewRequest_ok url]: http.NewRequest accepts the URL (it parses).  [Do]
    answers with the status code. *)
Module HttpClient.
Class T := {
  NewRequest_ok : string -> bool;
  Do : HttpPost -> prog World Z
}.
Class Laws (H : T) : Prop := {
  Do_quiet : forall p, guar quiet (Do p)
}.

(** A call of Do hands over one request, or fails before it does. *)
Class SendsOnce (H : T) : Prop := {
  Do_once : forall p env w, let '(r, w') := run env (Do p) w in
    r <> Panic /\ (w_tick w <= w_tick w')%nat /\
    (s_trace (w_st w') = s_trace (w_st w) \/
     s_trace (w_st w') = EPost p :: s_trace (w_st w))
}.
End HttpClient.

(** ** The service *)

Module Webhooks.
Definition maxAttempts : Z := 5.

Definition backoff : list Z := [2 * Second; 5 * Second; 15 * Second; 60 * Second; 5 * Minute].

Definition content_headers (d : DueDelivery) (ts sig : string) : list (string * string) :=
  [("Content-Type", "application/json"); ("X-Yaver-Event", dd_Event d);
   ("X-Yaver-Timestamp", ts); ("X-Yaver-Signature", sig);
   ("X-Yaver-Delivery-Id", dd_ID d)].

Definition randToken : prog World string :=
  let! b := rand_Read 24 in ret (Encoding.base64url b).

Section Service.
Context {repo : WebhookRepo.T} {aead : AEAD.T} {hmac : HMAC.T} {http : HttpClient.T}.

Definition SetEndpoint (orgID : OrgID) (url : string) (events : list string)
  : prog World string :=
  let! token := randToken in
  let secret := "whsec_" +:+ token in
  let! enc := Cipher.Encrypt secret in
  let! id := Id.New "whep" in
  do! WebhookRepo.UpsertEndpoint id orgID url enc events in
  ret secret.

Definition Get (orgID : OrgID) : prog World (string * list string * bool) :=
  let! '(ep, found) := WebhookRepo.GetEndpoint orgID in
  if negb found then ret ("", [], false)
  else ret (wer_URL ep, wer_Events ep, true).

(** Reschedule with backoff, or dead-letter after maxAttempts; errors of the
    repository are dropped. *)
Definition fail (d : DueDelivery) (code : Z) (msg : string) : prog World unit :=
  let attempts := dd_Attempts d + 1 in
  let! now := Now in
  if maxAttempts <=? attempts then
    pignore (WebhookRepo.Reschedule (dd_ID d) code msg "dead" now)
  else if dd_Attempts d <? 0 then panic       (* index out of range *)
  else
    match nth_error backoff (Z.to_nat (Z.min (dd_Attempts d) 4)) with
    | None => panic
    | Some delay =>
        pignore (WebhookRepo.Reschedule (dd_ID d) code msg "pending" (now + delay))
    end.

(** What is signed: the Unix timestamp, a dot, the payload. *)
Definition signature (secret ts payload : string) : string :=
  "sha256=" +:+ Encoding.hex (HMAC.SHA256 secret (ts +:+ "." +:+ payload)).

Definition deliver (d : DueDelivery) : prog World unit :=
  let! ep := ptry (WebhookRepo.GetEndpoint (dd_OrgID d)) in
  match ep with
  | inr _ | inl (_, false) => fail d 0 "endpoint missing"
  | inl (ep, true) =>
      match Cipher.Decrypt (wer_SecretEnc ep) with
      | inr _ => fail d 0 "secret decrypt"
      | inl secret =>
          let! now := Now in
          let ts := Strconv.Itoa (now / Second) in
          let sig := signature secret ts (dd_Payload d) in
          (* req, _ := NewRequest: on an error req is nil and req.Header panics *)
          if negb (HttpClient.NewRequest_ok (dd_URL d)) then panic
          else
            let! resp := ptry (HttpClient.Do
                                 (mkHttpPost (dd_URL d) (content_headers d ts sig)
                                    (dd_Payload d))) in
            match resp with
            | inr e => fail d 0 (match e with ErrOther m => m | _ => "error" end)
            | inl code =>
                if (200 <=? code) && (code <? 300)
                then pignore (WebhookRepo.MarkDelivered (dd_ID d) code)
                else fail d code "non-2xx"
            end
      end
  end.

Fixpoint deliver_all (ds : list DueDelivery) : prog World unit :=
  match ds with
  | [] => ret tt
  | d :: ds => do! deliver d in deliver_all ds
  end.

(** The second half of a tick: the deliveries that are due. *)
Definition deliver_due : prog World unit :=
  let! due := ptry (WebhookRepo.DueDeliveries 50) in
  match due with
  | inr _ => ret tt
  | inl due => deliver_all due
  end.

Definition tick : prog World unit :=
  do! pignore (WebhookRepo.DrainOutbox 100 (Id.tx_New "whd")) in
  deliver_due.

(** The dispatcher's first [n] ticks; it runs until its context is cancelled. *)
Fixpoint Run (n : nat) : prog World unit :=
  match n with
  | O => ret tt
  | S n => do! tick in Run n
  end.

(** ** The dispatcher among other sessions

    The same tick over Postgres with its transaction interleaved: the drain runs
    statement by statement on connection [conn]. *)

Definition session_tick (conn : nat) : prog Sessions unit :=
  do! pignore (PgWebhookRepo.DrainOutbox_session conn 100 (Id.tx_New "whd")) in
  lift deliver_due.

Fixpoint session_Run (conn n : nat) : prog Sessions unit :=
  match n with
  | O => ret tt
  | S n => do! session_tick conn in session_Run conn n
  end.
End Service.
End Webhooks.
