(* ===== verification/WebhooksSpec.v ===== *)
(** * What the webhook dispatcher guarantees

    The refinement of DrainOutbox (all or nothing, one delivery per subscribed
    event); and the fan-out invariant of any number of dispatchers whose
    transactions interleave statement by statement, which rests on the row locks
    of the claim: what two open transactions hold is disjoint, and what one holds
    is still undispatched. *)

From S2P Require Import Prelude.
From S2P Require Import Domain.
From S2P Require Import Effects.
From S2P Require Import GoLib.
From S2P Require Import Store.
From S2P Require Import Sessions.
From S2P Require Import Ports.
From S2P Require Import Json.
From S2P Require Import FlowEngine.
From S2P Require Import PgCalls.
From S2P Require Import CallPolicy.
From S2P Require Import Calls.
From S2P Require Import PgWebhooks.
From S2P Require Import Crypto.
From S2P Require Import Webhooks.
From S2P Require Import PgCredits.
From S2P Require Import PgFlows.
From S2P Require Import NoFault.
From S2P Require Import Accounting.
From stdpp Require Import gmap strings list.
From Stdlib Require Import ZArith Lia.

Open Scope Z_scope.
Open Scope go_scope.

#[local] Existing Instance PgWebhookRepo.repo.

(** ** The abstract drain *)

Definition endpoint_of (d : DB) (org : OrgID) : option WebhookEndpoint :=
  tfind (fun r => (whe_org_id r =? org)%string) (webhook_endpoints d).

(** The endpoint that wants an outbox row, if any. *)
Definition subscriber (d : DB) (row : OutboxRow) : option WebhookEndpoint :=
  match endpoint_of d (ob_org_id row) with
  | Some ep => if PgWebhookRepo.subscribed (inl ep) (ob_event row) then Some ep else None
  | None => None
  end.

Definition wanted (d : DB) (row : OutboxRow) : bool :=
  match subscriber d row with Some _ => true | None => false end.

(** A fresh delivery of an outbox row to its endpoint. *)
Definition delivery_of (d : DB) (row : OutboxRow) (del : DeliveryRow) : Prop :=
  exists ep, subscriber d row = Some ep /\
    dlv_org_id del = ob_org_id row /\ dlv_event del = ob_event row /\
    dlv_url del = whe_url ep /\ dlv_status del = "pending" /\ dlv_attempts del = 0.

(** The rows with these ids become dispatched; the others stay as they are. *)
Definition marked (ids : list Z) : list OutboxRow -> list OutboxRow -> Prop :=
  Forall2 (fun r r' =>
    if bool_decide (ob_id r ∈ ids)
    then exists now, r' = WebhookQ.set_dispatched now r else r' = r).

(** The primary key of the deliveries. *)
Definition dlv_key (t : list DeliveryRow) : Prop := NoDup (map dlv_id t).

(** [rows] dispatched: each marked, each wanted one with one new delivery. *)
Definition drained (rows : list OutboxRow) (d d' : DB) : Prop :=
  exists outbox new,
    marked (map ob_id rows) (webhook_outbox d) outbox /\
    Forall2 (delivery_of d) (List.filter (wanted d) rows) new /\
    (dlv_key (webhook_deliveries d) -> dlv_key (webhook_deliveries d ++ new)) /\
    d' = set_webhook_outbox outbox
           (set_webhook_deliveries (webhook_deliveries d ++ new) d).

Lemma marked_nil t : marked [] t t.
Proof. apply Forall_Forall2_diag, Forall_true. done. Qed.

Lemma marked_cons id ids now t t' :
  marked ids (tupdate (fun r => ob_id r =? id) (WebhookQ.set_dispatched now) t) t' ->
  marked (id :: ids) t t'.
Proof.
  unfold marked, tupdate. revert t'. induction t as [|r t IH]; intros t' H; simpl in *.
  - by inversion H.
  - inversion H as [|x y l l' Hr Hl]; subst. constructor; [|by apply IH].
    destruct (Z.eqb_spec (ob_id r) id) as [E|E]; simpl in Hr.
    + rewrite bool_decide_eq_true_2 by (rewrite E; by left).
      destruct (bool_decide (ob_id r ∈ ids)); [|by exists now].
      destruct Hr as (now' & ->). by exists now'.
    + destruct (bool_decide_reflect (ob_id r ∈ ids)) as [Hin|Hin].
      * rewrite bool_decide_eq_true_2; [done|by right].
      * rewrite bool_decide_eq_false_2; [done|]. rewrite elem_of_cons. tauto.
Qed.

Lemma subscriber_endpoints d d' row :
  webhook_endpoints d' = webhook_endpoints d -> subscriber d' row = subscriber d row.
Proof. unfold subscriber, endpoint_of. by intros ->. Qed.

Lemma dlv_key_snoc t del :
  tfind (WebhookQ.has_id (dlv_id del)) t = None -> dlv_key t -> dlv_key (t ++ [del]).
Proof.
  intros Hf Ht. unfold dlv_key. rewrite map_app. apply NoDup_app. split; [done|].
  split; [|apply NoDup_singleton]. intros x Hx Hin. apply list_elem_of_In in Hin as [<-|[]].
  apply list_elem_of_In, in_map_iff in Hx as (r & E & Hr).
  apply (tfind_none _ _ r) in Hf; [|done]. unfold WebhookQ.has_id in Hf. bool_prop. done.
Qed.

(** One row, then the rest. *)
Lemma drained_cons row rows d d2 d' now :
  (wanted d row = true /\ (exists del, delivery_of d row del /\
     tfind (WebhookQ.has_id (dlv_id del)) (webhook_deliveries d) = None /\
     d2 = set_webhook_deliveries (webhook_deliveries d ++ [del]) d) \/
   wanted d row = false /\ d2 = d) ->
  drained rows
    (set_webhook_outbox (tupdate (fun r => ob_id r =? ob_id row)
       (WebhookQ.set_dispatched now) (webhook_outbox d2)) d2) d' ->
  drained (row :: rows) d d'.
Proof.
  intros Hrow (outbox & new & Hm & Hnew & Hkey & ->).
  assert (forall r, subscriber d2 r = subscriber d r) as Hsub
    by (intros r; apply subscriber_endpoints; by destruct Hrow as [(_ & ? & _ & _ & ->)|(_ & ->)]).
  assert (Forall2 (delivery_of d) (List.filter (wanted d) rows) new) as Hnew'.
  { replace (List.filter (wanted d) rows) with
      (List.filter (wanted (set_webhook_outbox (tupdate (fun r => ob_id r =? ob_id row)
         (WebhookQ.set_dispatched now) (webhook_outbox d2)) d2)) rows).
    2: { apply List.filter_ext. intros r. unfold wanted.
         rewrite <- Hsub. by erewrite subscriber_endpoints. }
    eapply Forall2_impl; [exact Hnew|]. intros r del (ep & Hs & H).
    exists ep. split; [|done]. rewrite <- Hsub, <- Hs. symmetry. by apply subscriber_endpoints. }
  destruct Hrow as [(Hw & del & Hdel & Hfresh & ->)|(Hw & ->)];
    unfold drained; cbn [List.filter map].
  - exists outbox, (del :: new). split; [eapply marked_cons; exact Hm|].
    split; [rewrite Hw; by constructor|]. simpl in *. rewrite <- app_assoc in *.
    split; [|done]. intros Hk. apply Hkey. by apply dlv_key_snoc.
  - exists outbox, new. split; [eapply marked_cons; exact Hm|]. split; [by rewrite Hw|done].
Qed.

Definition count_wanted (d : DB) (rows : list OutboxRow) : Z :=
  Z.of_nat (length (List.filter (wanted d) rows)).

(** Only the endpoints decide what is wanted. *)
Lemma count_wanted_endpoints d d' rows :
  webhook_endpoints d' = webhook_endpoints d -> count_wanted d' rows = count_wanted d rows.
Proof.
  intros H. unfold count_wanted. do 2 f_equal. apply List.filter_ext.
  intros r. unfold wanted. by rewrite (subscriber_endpoints _ _ _ H).
Qed.

Lemma count_wanted_cons d row rows :
  count_wanted d (row :: rows) = count_wanted d [row] + count_wanted d rows.
Proof. unfold count_wanted. simpl. destruct (wanted d row); simpl length; lia. Qed.

(** ** DrainOutbox implements it *)

Lemma drain_rows_wp prefix rows created d (Q : outcome Z -> bool -> DB -> option DB -> Prop) :
  (forall d', drained rows d d' -> Q (Ok (created + count_wanted d rows)) false d' None) ->
  (forall e ab d', Q (Err e) ab d' None) ->
  txwp (PgWebhookRepo.drain_rows (Id.tx_New prefix) rows created) d Q.
Proof.
  revert created d Q. induction rows as [|row rows IH]; intros created d Q Hok Herr; simpl.
  { apply txwp_ret. rewrite <- (Z.add_0_r created). apply Hok.
    exists (webhook_outbox d), []. split; [apply marked_nil|].
    split; [constructor|]. rewrite app_nil_r. split; [done|]. by destruct d. }
  (* the common tail: mark, then go on *)
  assert (forall created' d2,
    created' = created + count_wanted d [row] ->
    (wanted d row = true /\ (exists del, delivery_of d row del /\
       tfind (WebhookQ.has_id (dlv_id del)) (webhook_deliveries d) = None /\
       d2 = set_webhook_deliveries (webhook_deliveries d ++ [del]) d) \/
     wanted d row = false /\ d2 = d) ->
    txwp (do! tx_stmt (WebhookQ.MarkOutboxDispatched (ob_id row)) in
          PgWebhookRepo.drain_rows (Id.tx_New prefix) rows created') d2 Q) as Htail.
  { intros c d2 -> Hd2. apply txwp_stmt; [|intros; apply Herr].
    intros ctx [] d3 [= <-]. apply IH; [|done]. intros d' Hd.
    rewrite (count_wanted_endpoints d (set_webhook_outbox _ d2) rows)
      by (by destruct Hd2 as [(_ & ? & _ & _ & ->)|(_ & ->)]).
    rewrite <- Z.add_assoc, <- count_wanted_cons. apply Hok. by eapply drained_cons. }
  apply txwp_try_stmt_dead.
  - intros ctx ep d1 H. unfold WebhookQ.GetWebhookEndpoint in H.
    fold (endpoint_of d (ob_org_id row)) in H.
    destruct (endpoint_of d (ob_org_id row)) as [ep'|] eqn:Eep; [|done]. invc H.
    assert (wanted d1 row = PgWebhookRepo.subscribed (inl ep) (ob_event row)) as Hw
      by (unfold wanted, subscriber; rewrite Eep; by destruct (PgWebhookRepo.subscribed _ _)).
    destruct (PgWebhookRepo.subscribed (inl ep) (ob_event row)) eqn:Es.
    + apply txwp_bind, txwp_New. intros id. apply txwp_stmt; [|intros; apply Herr].
      intros ctx' [] d2 H. unfold WebhookQ.CreateDelivery in H.
      destruct (sql_jsonb ctx' _); [|done]. destruct (tfind _ _) eqn:Ef; [done|]. invc H.
      apply txwp_ret. split; [done|]. split; [done|]. apply Htail.
      { unfold count_wanted. simpl. by rewrite Hw. }
      left. split; [done|].
      eexists. split; [|split; [|reflexivity]]; [|done].
      exists ep. unfold subscriber. by rewrite Eep, Es.
    + apply txwp_bind, txwp_ret. split; [done|]. split; [done|].
      apply Htail; [|by right]. unfold count_wanted. simpl. rewrite Hw. simpl. lia.
  - intros ctx H. unfold WebhookQ.GetWebhookEndpoint in H.
    fold (endpoint_of d (ob_org_id row)) in H.
    destruct (endpoint_of d (ob_org_id row)) eqn:Eep; [done|].
    assert (wanted d row = false) as Hw by (unfold wanted, subscriber; by rewrite Eep).
    apply txwp_bind, txwp_ret. split; [done|]. split; [done|].
    apply Htail; [|by right]. unfold count_wanted. simpl. rewrite Hw. simpl. lia.
  - intros e _. apply dead_stmt.
  - intros e d'. apply Herr.
Qed.

(** The rows a drain of [limit] claims: the oldest undispatched ones. *)
Definition claimed (limit : Z) (d : DB) : list OutboxRow :=
  firstn (Z.to_nat limit) (tsort ob_id (tselect WebhookQ.undispatched (webhook_outbox d))).

(** With no row locked by another, a claimable row is an undispatched one. *)
Lemma claimable_alone ctx t :
  sql_locked ctx = [] ->
  tselect (WebhookQ.claimable ctx) t = tselect WebhookQ.undispatched t.
Proof.
  intros H. apply List.filter_ext. intros r. unfold WebhookQ.claimable. rewrite H.
  apply andb_true_r.
Qed.

(** A drain either dispatches exactly the claimed rows and counts its
    deliveries, or changes nothing; an error may hide a drain that happened. *)
Inductive Drain_spec (limit : Z) : step_spec Z :=
| drain_done st d' :
    let rows := claimed limit (s_db st) in
    drained rows (s_db st) d' ->
    Drain_spec limit st (Ok (count_wanted (s_db st) rows)) (set_db d' st)
| drain_unacked st e d' : drained (claimed limit (s_db st)) (s_db st) d' ->
    Drain_spec limit st (Err e) (set_db d' st)
| drain_failed st e : Drain_spec limit st (Err e) st.

Lemma DrainOutbox_lin limit prefix :
  0 <= limit <= int32_max ->
  lin (Drain_spec limit) (PgWebhookRepo.DrainOutbox limit (Id.tx_New prefix)).
Proof.
  intros Hl. apply transact_lin; [intros; apply drain_failed|].
  intros st. apply txwp_step; [|intros; apply drain_failed].
  intros ctx rows d Hl0 H. unfold WebhookQ.ClaimUndispatchedOutbox, sql_limit in H.
  rewrite (claimable_alone ctx) in H by done.
  rewrite int32_of_id in H by (unfold int32_min, int32_max in *; lia).
  destruct (limit <? 0) eqn:El; [done|]. injection H as <- <-.
  apply txwp_bind, drain_rows_wp.
  - intros d' Hd. split; [done|]. split; [done|].
    apply txwp_commit with (b := 0 + count_wanted (s_db st) (claimed limit (s_db st)));
      [done|..]; intros; try apply drain_failed;
      [by apply drain_done | by apply drain_unacked].
  - intros. apply drain_failed.
Qed.

(** ** Fan-out: counting deliveries against dispatched events *)

Definition indicator (b : bool) : Z := if b then 1 else 0.

Definition event_is (org event : string) (r : OutboxRow) : bool :=
  (ob_org_id r =? org)%string && (ob_event r =? event)%string.

Definition dispatched_events (st : State) (org event : string) : Z :=
  sum_by (fun r => indicator (event_is org event r && negb (WebhookQ.undispatched r)))
    (webhook_outbox (s_db st)).

Definition deliveries_of (st : State) (org event : string) : Z :=
  sum_by (fun r => indicator ((dlv_org_id r =? org)%string && (dlv_event r =? event)%string))
    (webhook_deliveries (s_db st)).

Definition fan_slack (st : State) (org event : string) : Z :=
  dispatched_events st org event - deliveries_of st org event.

Lemma indicator_range b : 0 <= indicator b <= 1.
Proof. destruct b; simpl; lia. Qed.

(** What marking gains: the undispatched rows among the ids. *)
Lemma marked_gain ids org event t t' :
  marked ids t t' ->
  sum_by (fun r => indicator (event_is org event r && negb (WebhookQ.undispatched r))) t +
  sum_by (fun r => if WebhookQ.undispatched r
                   then indicator (event_is org event r && bool_decide (ob_id r ∈ ids))
                   else 0) t <=
  sum_by (fun r => indicator (event_is org event r && negb (WebhookQ.undispatched r))) t'.
Proof.
  induction 1 as [|r r' t t' Hr Ht IH]; simpl; [lia|].
  destruct (bool_decide (ob_id r ∈ ids)).
  - destruct Hr as (now & ->).
    change (event_is org event (WebhookQ.set_dispatched now r)) with (event_is org event r).
    change (WebhookQ.undispatched (WebhookQ.set_dispatched now r)) with false.
    destruct (WebhookQ.undispatched r), (event_is org event r); simpl; lia.
  - subst r'. destruct (WebhookQ.undispatched r), (event_is org event r); simpl; lia.
Qed.

(** Marking leaves the rows with other ids as they are. *)
Lemma marked_others ids (ids' : list Z) org event t t' :
  marked ids t t' -> (forall id, id ∈ ids -> id ∈ ids' -> False) ->
  sum_by (fun r => if WebhookQ.undispatched r
                   then indicator (event_is org event r && bool_decide (ob_id r ∈ ids'))
                   else 0) t <=
  sum_by (fun r => if WebhookQ.undispatched r
                   then indicator (event_is org event r && bool_decide (ob_id r ∈ ids'))
                   else 0) t'.
Proof.
  intros Hm Hdisj. induction Hm as [|r r' t t' Hr Ht IH]; simpl; [lia|].
  destruct (bool_decide_reflect (ob_id r ∈ ids)) as [Hin|Hin]; [|subst r'; lia].
  destruct Hr as (now & ->).
  rewrite (bool_decide_eq_false_2 (ob_id r ∈ ids')) by eauto. rewrite andb_false_r. simpl.
  destruct (WebhookQ.undispatched r); lia.
Qed.

Lemma marked_snoc ids id now t t' :
  marked ids t t' ->
  marked (ids ++ [id]) t (tupdate (fun r => ob_id r =? id) (WebhookQ.set_dispatched now) t').
Proof.
  unfold marked, tupdate. induction 1 as [|r r' t t' Hr Ht IH]; simpl; constructor; [|done].
  assert (ob_id r' = ob_id r) as ->
    by (destruct (bool_decide (ob_id r ∈ ids)); [by destruct Hr as (now' & ->)|by subst]).
  destruct (Z.eqb_spec (ob_id r) id) as [E|E].
  - rewrite bool_decide_eq_true_2 by (rewrite elem_of_app, ?list_elem_of_singleton; tauto).
    destruct (bool_decide (ob_id r ∈ ids)); [|subst; by exists now].
    destruct Hr as (now' & ->). by exists now.
  - destruct (bool_decide_reflect (ob_id r ∈ ids)) as [Hin|Hin].
    + rewrite bool_decide_eq_true_2 by (rewrite elem_of_app, ?list_elem_of_singleton; tauto). done.
    + rewrite bool_decide_eq_false_2 by (rewrite elem_of_app, ?list_elem_of_singleton; tauto). done.
Qed.

(** ** Who keeps the count

    A step that only appends undispatched rows to the outbox and opens no
    delivery: what everything but a dispatcher does. *)

Definition appends_st (st st' : State) : Prop :=
  exists new, webhook_outbox (s_db st') = webhook_outbox (s_db st) ++ new /\
    Forall (fun r => WebhookQ.undispatched r = true) new /\
    forall org event, deliveries_of st' org event <= deliveries_of st org event.

Definition appends (w w' : World) : Prop := appends_st (w_st w) (w_st w').

Lemma appends_tables st st' :
  webhook_outbox (s_db st') = webhook_outbox (s_db st) ->
  webhook_deliveries (s_db st') = webhook_deliveries (s_db st) -> appends_st st st'.
Proof.
  intros Ho Hd. exists []. rewrite app_nil_r. split; [done|]. split; [done|].
  intros org event. unfold deliveries_of. by rewrite Hd.
Qed.

Lemma appends_quiet w w' : quiet w w' -> appends w w'.
Proof. intros (Hd & _). apply appends_tables; by rewrite Hd. Qed.

Lemma fan_quiet {A} (p : prog World A) : guar quiet p -> guar appends p.
Proof. apply guar_mono, appends_quiet. Qed.

Lemma fan_silent {A} (p : prog World A) : guar silent p -> guar appends p.
Proof. intros Hp. apply fan_quiet. eapply guar_mono; [apply quiet_silent|exact Hp]. Qed.

Lemma fan_spec {A} (S : step_spec A) (p : prog World A) :
  lin S p -> (forall st r st', S st r st' -> appends_st st st') -> guar appends p.
Proof.
  intros Hp HS. eapply guar_lin; [| |exact Hp].
  - intros w w' E. by apply appends_quiet, quiet_silent.
  - intros w w' r H. exact (HS _ _ _ H).
Qed.

Lemma fan_read {A} (p : prog World A) :
  lin (fun st _ st' => st' = st) p -> guar appends p.
Proof. intros Hp. eapply fan_spec; [exact Hp|]. intros st _ st' ->. by apply appends_tables. Qed.

(** A statement that keeps the outbox and each delivery's org and event. *)
Lemma fan_stmt {A} (s : stmt A) :
  (forall ctx d a d', s ctx d = inl (a, d') ->
     webhook_outbox d' = webhook_outbox d /\
     exists p f, webhook_deliveries d' = tupdate p f (webhook_deliveries d) /\
       forall r, dlv_org_id (f r) = dlv_org_id r /\ dlv_event (f r) = dlv_event r) ->
  guar appends (exec s).
Proof.
  intros Hs.
  assert (forall st ctx a d, s ctx (s_db st) = inl (a, d) -> appends_st st (set_db d st)) as H.
  { intros st ctx a d E. destruct (Hs _ _ _ _ E) as (Hob & p & f & Hd & Hf).
    exists []. rewrite app_nil_r. split; [done|]. split; [done|]. intros org event.
    unfold deliveries_of. simpl. rewrite Hd.
    rewrite sum_by_tupdate_same; [lia|]. intros r. by destruct (Hf r) as [-> ->]. }
  eapply fan_spec; [apply exec_lin|].
  intros st r st' HS. inversion HS; subst; try (by apply appends_tables); by eapply H.
Qed.

Lemma fan_bump id f :
  (forall r, dlv_org_id (f r) = dlv_org_id r /\ dlv_event (f r) = dlv_event r) ->
  forall ctx d a d', WebhookQ.bump f id ctx d = inl (a, d') ->
     webhook_outbox d' = webhook_outbox d /\
     exists p f', webhook_deliveries d' = tupdate p f' (webhook_deliveries d) /\
       forall r, dlv_org_id (f' r) = dlv_org_id r /\ dlv_event (f' r) = dlv_event r.
Proof.
  intros Hf ctx d a d'. unfold WebhookQ.bump. destruct (tfind _ _); [done|].
  intros H. invc H. split; [done|]. by exists (WebhookQ.has_id id), f.
Qed.

Lemma GetEndpoint_read org : lin (fun st _ st' => st' = st) (PgWebhookRepo.GetEndpoint org).
Proof.
  apply lin_query; [|intros [?|[]]; by eexists].
  intros ctx d a d'. unfold WebhookQ.GetWebhookEndpoint. split_match; by intros [= _ <-].
Qed.

Lemma DueDeliveries_read limit :
  guar silent (PgWebhookRepo.DueDeliveries limit).
Proof.
  apply guar_bind; [|done]. eapply guar_lin; [done| |apply exec_read_lin].
  - by intros w w' r H.
  - intros ctx d a d'. unfold WebhookQ.DueDeliveries, sql_limit.
    destruct (_ <? 0); [done|]. by intros [= _ <-].
Qed.

Lemma fan_New p : guar appends (Id.New p).
Proof. apply fan_silent, guar_New. done. Qed.

Section Dispatcher.
Context {aead : AEAD.T} {hmac : HMAC.T} {http : HttpClient.T}
  {http_laws : HttpClient.Laws http}.

Lemma fan_fail d code msg : guar appends (Webhooks.fail d code msg).
Proof.
  unfold Webhooks.fail. apply guar_bind; [by apply fan_silent, guar_Now|]. intros now.
  assert (forall status next, guar appends
    (pignore (WebhookRepo.Reschedule (dd_ID d) code msg status next))) as H
    by (intros; apply guar_ignore, fan_stmt, fan_bump; done).
  repeat split_match; try done; apply H.
Qed.

Lemma fan_deliver d : guar appends (Webhooks.deliver d).
Proof.
  unfold Webhooks.deliver.
  apply guar_bind; [apply guar_try, fan_read, GetEndpoint_read|].
  intros [[ep [|]]|e]; [|apply fan_fail..].
  destruct (Cipher.Decrypt _) as [secret|e]; [|apply fan_fail].
  apply guar_bind; [by apply fan_silent, guar_Now|]. intros now. cbv zeta.
  split_match; [done|].
  apply guar_bind; [apply guar_try, fan_quiet, HttpClient.Do_quiet|].
  intros [code|e]; [|apply fan_fail].
  split_match; [|apply fan_fail]. apply guar_ignore, fan_stmt.
  intros ctx d0 a d1 E. by eapply fan_bump; [|exact E].
Qed.

(** A tick's second half: deliveries change, none is opened. *)
Lemma fan_deliver_due : guar appends Webhooks.deliver_due.
Proof.
  unfold Webhooks.deliver_due.
  apply guar_bind; [apply guar_try, fan_silent, DueDeliveries_read|].
  intros [ds|e]; [|done].
  induction ds as [|d ds IH]; [done|]. apply guar_bind; [apply fan_deliver|done].
Qed.
End Dispatcher.

(** ** The claimed rows are held by one dispatcher

    The invariant of the sessions, from the state [s0] at the start: the slack
    has not shrunk; what a transaction holds locked is undispatched, row for row;
    no row is held by two. *)

Definition holds (rows : list OutboxRow) (d : DB) : Prop := forall org event,
  sum_by (fun r => indicator (event_is org event r)) rows <=
  sum_by (fun r => if WebhookQ.undispatched r
                   then indicator (event_is org event r && bool_decide (ob_id r ∈ map ob_id rows))
                   else 0) (webhook_outbox d).

Definition exclusive (open : gmap nat OpenTx) : Prop := forall i j oi oj id,
  i <> j -> open !! i = Some oi -> open !! j = Some oj ->
  id ∈ lock_ids oi -> id ∈ lock_ids oj -> False.

Definition fan_inv (s0 : State) (se : Sessions) : Prop :=
  (forall org event, fan_slack s0 org event <= fan_slack (w_st (se_world se)) org event) /\
  (forall i o, se_open se !! i = Some o -> holds (ot_locks o) (w_db (se_world se))) /\
  exclusive (se_open se).

Lemma holds_nil d : holds [] d.
Proof.
  intros org event. simpl. apply sum_by_nonneg. intros r _.
  destruct (WebhookQ.undispatched r); [apply indicator_range|lia].
Qed.

Lemma exclusive_insert open i o' :
  exclusive open ->
  (forall j oj id, j <> i -> open !! j = Some oj -> id ∈ lock_ids o' -> id ∈ lock_ids oj -> False) ->
  exclusive (<[i := o']> open).
Proof.
  intros He Hn a b oa ob id Hab Ha Hb Hia Hib.
  destruct (decide (a = i)) as [->|Ha']; destruct (decide (b = i)) as [->|Hb']; [done|..];
    rewrite ?lookup_insert_eq, ?lookup_insert_ne in * by done; simplify_eq.
  - by eapply (Hn b).
  - by eapply (Hn a).
  - by eapply (He a b).
Qed.

(** An entry with the locks of the old one, or none. *)
Lemma fan_inv_entry s0 w open i o' :
  fan_inv s0 (mkSessions w open) ->
  (ot_locks o' = [] \/ exists o, open !! i = Some o /\ ot_locks o' = ot_locks o) ->
  fan_inv s0 (mkSessions w (<[i := o']> open)).
Proof.
  intros (Hs & Hh & He) Ho'. split; [done|]. split; simpl in *.
  - intros j oj Hj. destruct (decide (j = i)) as [->|Hne].
    + rewrite lookup_insert_eq in Hj. injection Hj as <-.
      destruct Ho' as [->|(o & Ho & ->)]; [apply holds_nil|by eapply Hh].
    + rewrite lookup_insert_ne in Hj by done. by eapply Hh.
  - apply exclusive_insert; [done|]. unfold lock_ids. intros j oj id Hne Hj Hid Hid'.
    destruct Ho' as [E|(o & Ho & E)]; rewrite E in Hid; [by apply not_elem_of_nil in Hid|].
    by eapply (He i j).
Qed.

#[local] Instance fan_invariant s0 : Invariant (fan_inv s0).
Proof.
  split.
  - done.
  - intros w open i o o' H Ho E. apply fan_inv_entry; [done|]. right. by exists o.
  - intros w open i o' H _ E. apply fan_inv_entry; [done|]. by left.
  - intros w open i (Hs & Hh & He). split; [done|]. split; simpl in *.
    + intros j oj [_ Hj]%lookup_delete_Some. by eapply Hh.
    + intros a b oa ob id Hab [_ Ha]%lookup_delete_Some [_ Hb]%lookup_delete_Some.
      by eapply He.
Qed.

(** What the others do keeps the locked rows undispatched. *)
Lemma fan_inv_appends s0 w w' open :
  appends w w' -> fan_inv s0 (mkSessions w open) -> fan_inv s0 (mkSessions w' open).
Proof.
  intros (new & Ho & Hnew & Hd) (Hs & Hh & He). split; [|split; [|done]]; simpl in *.
  - intros org event. specialize (Hs org event). specialize (Hd org event).
    unfold fan_slack, dispatched_events in *. rewrite Ho, sum_by_app.
    enough (0 <= sum_by (fun r => indicator (event_is org event r &&
                                   negb (WebhookQ.undispatched r))) new) by lia.
    apply sum_by_nonneg. intros r _. apply indicator_range.
  - intros i o Hi org event. specialize (Hh i o Hi org event). unfold w_db in *.
    rewrite Ho, sum_by_app. etrans; [exact Hh|].
    match goal with |- ?a <= ?a + sum_by ?f new => enough (0 <= sum_by f new) by lia end.
    apply sum_by_nonneg. intros r _. destruct (WebhookQ.undispatched r); [apply indicator_range|lia].
Qed.

Lemma elem_locked_elsewhere i j o (open : gmap nat OpenTx) id :
  j <> i -> open !! j = Some o -> id ∈ lock_ids o -> id ∈ locked_elsewhere i open.
Proof.
  intros Hne Hj Hid. unfold locked_elsewhere. apply list_elem_of_In, in_flat_map.
  exists (j, o). split; [|by apply list_elem_of_In].
  apply list_elem_of_In, elem_of_map_to_list. by rewrite lookup_delete_ne.
Qed.

(** The claim: rows nobody else holds. *)
Lemma fan_inv_claim s0 w open i o o' ctx limit rows v' :
  fan_inv s0 (mkSessions w open) -> open !! i = Some o ->
  sql_locked ctx = locked_elsewhere i open ->
  WebhookQ.ClaimUndispatchedOutbox limit ctx (w_db w) = inl (rows, v') ->
  ot_locks o' = rows ->
  fan_inv s0 (mkSessions w (<[i := o']> open)).
Proof.
  intros (Hs & Hh & He) Hi Hl Hc Ho'. unfold WebhookQ.ClaimUndispatchedOutbox, sql_limit in Hc.
  destruct (limit <? 0); [done|]. injection Hc as Hrows _.
  assert (forall r, In r rows -> WebhookQ.claimable ctx r = true) as Hcl.
  { intros r Hr. rewrite <- Hrows in Hr.
    assert (In r (tselect (WebhookQ.claimable ctx) (webhook_outbox (w_db w)))) as Hin.
    { eapply Permutation_in; [apply tsort_perm|]. rewrite <- (firstn_skipn (Z.to_nat limit)).
      apply in_or_app. by left. }
    by apply filter_In in Hin as [_ ?]. }
  split; [done|]. split; simpl in *.
  - intros j oj Hj. destruct (decide (j = i)) as [->|Hne];
      [|rewrite lookup_insert_ne in Hj by done; by eapply Hh].
    rewrite lookup_insert_eq in Hj. injection Hj as <-. rewrite Ho'. intros org event.
    set (f := fun r => indicator (event_is org event r && bool_decide (ob_id r ∈ map ob_id rows))).
    transitivity (sum_by f rows).
    { apply sum_by_mono. intros r Hr. unfold f. rewrite bool_decide_eq_true_2.
      - by rewrite andb_true_r.
      - apply list_elem_of_In. by apply in_map. }
    assert (forall r, 0 <= f r) as Hf by (intros; apply indicator_range).
    rewrite <- Hrows at 1. etrans; [by apply sum_by_firstn|].
    rewrite (sum_by_perm _ _ _ (tsort_perm _ _)), sum_by_select.
    apply sum_by_mono. intros r _. unfold WebhookQ.claimable.
    pose proof (Hf r). destruct (WebhookQ.undispatched r); simpl; [|lia].
    destruct (negb _); unfold f in *; lia.
  - apply exclusive_insert; [done|]. unfold lock_ids at 1. rewrite Ho'.
    intros j oj id Hne Hj Hid Hid'.
    apply list_elem_of_In, in_map_iff in Hid as (r & <- & Hr). apply Hcl in Hr.
    unfold WebhookQ.claimable in Hr. rewrite Hl, bool_decide_eq_true_2 in Hr
      by (by eapply elem_locked_elsewhere). by rewrite andb_false_r in Hr.
Qed.

(** *** The drain, statement by statement *)

(** The writes so far: [done] marked, the deliveries [new] opened. *)
Definition drafts (done : list OutboxRow) (new : list DeliveryRow)
    (log : list (DB -> option DB)) : Prop :=
  (forall d d', replay log d = Some d' ->
     marked (map ob_id done) (webhook_outbox d) (webhook_outbox d') /\
     webhook_deliveries d' = webhook_deliveries d ++ new) /\
  forall org event,
    sum_by (fun r => indicator ((dlv_org_id r =? org)%string && (dlv_event r =? event)%string)) new
    <= sum_by (fun r => indicator (event_is org event r)) done.

(** COMMIT: what was held is dispatched, and pays for the deliveries. *)
Lemma fan_inv_commit s0 w open i o o' new v :
  fan_inv s0 (mkSessions w open) -> open !! i = Some o ->
  drafts (ot_locks o) new (ot_log o) -> replay (ot_log o) (w_db w) = Some v ->
  ot_locks o' = [] ->
  fan_inv s0 (mkSessions (mkWorld (w_tick w) (set_db v (w_st w))) (<[i := o']> open)).
Proof.
  intros (Hs & Hh & He) Hi [Hw Hle] Hv Ho'. destruct (Hw _ _ Hv) as [Hm Hd].
  split; [|split]; simpl in *.
  - intros org event. specialize (Hs org event). specialize (Hle org event).
    pose proof (Hh i o Hi org event) as Hhold.
    pose proof (marked_gain _ org event _ _ Hm) as Hgain.
    unfold fan_slack, dispatched_events, deliveries_of in *. simpl. unfold w_db in *.
    rewrite Hd, sum_by_app. lia.
  - intros j oj Hj. destruct (decide (j = i)) as [->|Hne].
    { rewrite lookup_insert_eq in Hj. injection Hj as <-. rewrite Ho'. apply holds_nil. }
    rewrite lookup_insert_ne in Hj by done. intros org event. etrans; [by apply (Hh j oj)|].
    eapply marked_others; [exact Hm|]. intros id Hid Hid'. by eapply (He i j o oj id).
  - apply exclusive_insert; [done|]. intros j oj id _ _ Hid. unfold lock_ids in Hid.
    rewrite Ho' in Hid. by apply not_elem_of_nil in Hid.
Qed.

(** The log [log'] adds to [log] nothing but the deliveries [more]. *)
Definition opens (more : list DeliveryRow) (log log' : list (DB -> option DB)) : Prop :=
  forall d d', replay log' d = Some d' -> exists v, replay log d = Some v /\
     webhook_outbox d' = webhook_outbox v /\
     webhook_deliveries d' = webhook_deliveries v ++ more.

Lemma opens_endpoint org log log' :
  log' = log \/ (exists ctx, wrote (WebhookQ.GetWebhookEndpoint org) ctx log log') ->
  opens [] log log'.
Proof.
  intros [->|[ctx Hw]] d d' H; setoid_rewrite app_nil_r; [by exists d'|].
  destruct (Hw _ _ H) as (v & Hv & [[a Ha]|[-> _]]); exists v; [|done].
  unfold WebhookQ.GetWebhookEndpoint in Ha. destruct (tfind _ _); [|done]. by injection Ha as _ <-.
Qed.

Definition paid (row : OutboxRow) (new : list DeliveryRow) : Prop :=
  new = [] \/ exists del, new = [del] /\ dlv_org_id del = ob_org_id row /\
    dlv_event del = ob_event row.

(** A row handled: marked, with at most one delivery of its own. *)
Lemma drafts_row done new row more log log1 log2 ctx :
  drafts done new log -> opens more log log1 -> paid row more ->
  wrote (WebhookQ.MarkOutboxDispatched (ob_id row)) ctx log1 log2 ->
  drafts (done ++ [row]) (new ++ more) log2.
Proof.
  intros [Hw Hle] H1 Hp H2. split.
  - intros d d' H. destruct (H2 _ _ H) as (v1 & Hv1 & [[a Ha]|[_ Ha]]); [|done].
    injection Ha as _ <-. destruct (H1 _ _ Hv1) as (v & Hv & Ho & Hd).
    destruct (Hw _ _ Hv) as [Hm Hn]. simpl. rewrite Ho, Hd, Hn, app_assoc, map_app.
    split; [by apply marked_snoc|done].
  - intros org event. rewrite !sum_by_app. specialize (Hle org event). simpl.
    enough (sum_by (fun r => indicator ((dlv_org_id r =? org)%string &&
      (dlv_event r =? event)%string)) more <= indicator (event_is org event row)) by lia.
    destruct Hp as [->|(del & -> & Ho & He)]; simpl; [apply indicator_range|].
    rewrite Ho, He. unfold event_is. lia.
Qed.

Lemma opens_create log log1 log2 log3 id org event url payload ctx v v' a :
  opens [] log log1 -> (forall d, replay log2 d = replay log1 d) ->
  WebhookQ.CreateDelivery id org event url payload ctx v = inl (a, v') ->
  wrote (WebhookQ.CreateDelivery id org event url payload) ctx log2 log3 ->
  exists del, dlv_org_id del = org /\ dlv_event del = event /\ opens [del] log log3.
Proof.
  intros H1 H2 Hc H3. unfold WebhookQ.CreateDelivery in Hc.
  destruct (sql_jsonb ctx payload) as [payload'|] eqn:Ep; [|done].
  exists (mkDeliveryRow id org event url payload' "pending" 0 None None (sql_now ctx) None
            (sql_now ctx)).
  split; [done|]. split; [done|]. intros d d' H. destruct (H3 _ _ H) as (v2 & Hv2 & Hs).
  rewrite H2 in Hv2. destruct (H1 _ _ Hv2) as (v1 & Hv1 & Ho & Hd). rewrite app_nil_r in Hd.
  exists v1. split; [done|]. unfold WebhookQ.CreateDelivery in Hs. rewrite Ep in Hs.
  destruct (tfind _ (webhook_deliveries v2)); [by destruct Hs as [[? ?]|[_ ?]]|].
  destruct Hs as [[a' Ha]|[_ ?]]; [|done]. injection Ha as _ <-. simpl. by rewrite Hd.
Qed.

Section Drain.
Context (s0 : State) (conn : nat).

Abbreviation drains := (txrg (fan_inv s0) conn).

(** The mark and the rest of the rows. *)
Lemma drain_rows_session prefix rows done new created o
    (Q : outcome Z -> OpenTx -> Prop) :
  drafts done new (ot_log o) ->
  (forall n new' o', ot_locks o' = ot_locks o -> drafts (done ++ rows) new' (ot_log o') ->
     Q (Ok n) o') ->
  (forall e o', Q (Err e) o') ->
  drains Q o (PgWebhookRepo.drain_rows (Id.tx_New prefix) rows created).
Proof.
  revert done new created o. induction rows as [|row rows IH];
    intros done new created o Hd HQ Herr; cbn [PgWebhookRepo.drain_rows].
  { apply (HQ _ new); [done|]. by rewrite app_nil_r. }
  assert (forall more o1 created', paid row more -> ot_locks o1 = ot_locks o ->
    opens more (ot_log o) (ot_log o1) ->
    drains Q o1 (do! tx_stmt (WebhookQ.MarkOutboxDispatched (ob_id row)) in
                 PgWebhookRepo.drain_rows (Id.tx_New prefix) rows created')) as Htail.
  { intros more o1 created' Hp Hl1 H1. apply txrg_bind, (txrg_stmt (fan_inv s0)); [|intros; apply Herr].
    intros ctx [] v v' o2 _ Hw Hl2.
    apply (IH (done ++ [row]) (new ++ more)); [by eapply drafts_row|..|done].
    intros n new' o' Hl' Hd'. apply (HQ n new'); [congruence|]. by rewrite <- app_assoc in Hd'. }
  apply txrg_bind, txrg_try, (txrg_stmt (fan_inv s0)).
  - intros ctx ep v v' o1 _ Hw Hl1.
    assert (opens [] (ot_log o) (ot_log o1)) as H1 by (eapply opens_endpoint; eauto).
    destruct (PgWebhookRepo.subscribed (inl ep) (ob_event row)).
    + apply txrg_bind, txrg_bind, (txrg_New (fan_inv s0)). intros id o2 H2 Hl2.
      apply txrg_bind, (txrg_stmt (fan_inv s0)); [|intros; apply Herr].
      intros ctx' [] v2 v2' o3 Hc Hw3 Hl3.
      destruct (opens_create _ _ _ _ _ _ _ _ _ _ _ _ _ H1 H2 Hc Hw3) as (del & Ho & He & H3).
      apply (Htail [del]); [|congruence|done]. right. by exists del.
    + apply (Htail []); [by left|done..].
  - intros e o1 Hlog Hl1. apply (Htail []); [by left|done|by eapply opens_endpoint].
Qed.

(** The whole transaction keeps the invariant and leaves no entry. *)
Lemma drain_session limit prefix :
  rg (fan_inv s0) conn (fun _ o => o = None) None
    (PgWebhookRepo.DrainOutbox_session conn limit (Id.tx_New prefix)).
Proof.
  apply (rg_transact (fan_inv s0)); [|done]. intros now.
  apply txrg_bind, (txrg_lock (fan_inv s0)); [|done].
  intros w open ctx rows v v' o' HG Hi Hl Hv Hc Hw Ho'. cbn in Hv, Ho', Hw. injection Hv as <-.
  split; [by eapply fan_inv_claim|].
  apply txrg_bind, (drain_rows_session _ rows [] []); [| |done].
  - split; [|done]. intros d d' H. destruct (Hw _ _ H) as (v & [= <-] & Hs).
    rewrite app_nil_r. unfold WebhookQ.ClaimUndispatchedOutbox, sql_limit in Hs.
    destruct (_ <? 0); [by destruct Hs as [[? ?]|[_ ?]]|].
    destruct Hs as [[a Ha]|[_ ?]]; [|done]. injection Ha as _ <-. split; [apply marked_nil|done].
  - intros n new o2 Hl2 Hd. rewrite Ho' in Hl2.
    apply txrg_bind, (txrg_commit (fan_inv s0)); [|by intros [[]|?|]].
    intros w2 open2 v2 HG2 Hi2 Hv2. eapply fan_inv_commit; try done. by rewrite Hl2.
Qed.
End Drain.

Section Dispatchers.
Context {aead : AEAD.T} {hmac : HMAC.T} {http : HttpClient.T}
  {http_laws : HttpClient.Laws http}.

Lemma fan_lift {A} s0 conn (Q : outcome A -> option OpenTx -> Prop) o (p : prog World A) :
  guar appends p -> (forall r, Q r o) -> rg (fan_inv s0) conn Q o (lift p).
Proof. apply (rg_lift _ appends). intros w w' open. apply fan_inv_appends. Qed.

Lemma session_tick_rg s0 conn :
  rg (fan_inv s0) conn (fun _ o => o = None) None (Webhooks.session_tick conn).
Proof.
  apply rg_bind, rg_ignore. eapply rg_mono; [|apply drain_session].
  intros [z|e|] o ->; [|by apply fan_lift; [apply fan_deliver_due|]..|done].
  by apply fan_lift; [apply fan_deliver_due|].
Qed.

Lemma session_Run_rg s0 conn n :
  rg (fan_inv s0) conn (fun _ o => o = None) None (Webhooks.session_Run conn n).
Proof.
  induction n as [|n IH]; [done|]. apply rg_bind.
  eapply rg_mono; [|apply session_tick_rg]. by intros [?|?|] o ->.
Qed.

(** Alone, a dispatcher on a session is the dispatcher of the other theorems. *)
Lemma plain_drain limit prefix :
  plain true (PgWebhookRepo.drain_body limit (Id.tx_New prefix)).
Proof.
  apply plain_bind; [apply plain_step|]. intros rows. apply plain_bind.
  2: { intros created. by eapply plain_commit. }
  generalize 0. induction rows as [|row rows IH]; intros created; [done|].
  cbn [PgWebhookRepo.drain_rows]. apply plain_bind; [apply plain_try, plain_stmt|].
  intros ep. apply plain_bind.
  { destruct (PgWebhookRepo.subscribed _ _); [|done].
    apply plain_bind; [apply plain_New|]. intros id. apply plain_bind; [apply plain_stmt|done]. }
  intros created'. apply plain_bind; [apply plain_stmt|done].
Qed.

Lemma session_tick_alone env conn w :
  run env (Webhooks.session_tick conn) (mkSessions w ∅) =
  let '(r, w') := run env Webhooks.tick w in (r, mkSessions w' ∅).
Proof.
  unfold Webhooks.session_tick, Webhooks.tick.
  change (WebhookRepo.DrainOutbox 100 (Id.tx_New "whd"))
    with (transact (PgWebhookRepo.drain_body 100 (Id.tx_New "whd"))).
  rewrite !run_bind, !run_ignore. unfold PgWebhookRepo.DrainOutbox_session.
  rewrite session_alone by apply plain_drain.
  destruct (run env (transact _) w) as [[z|e|] w1]; [apply run_lift..|done].
Qed.
End Dispatchers.

(** The producers of events: calls, over any ports that keep their promises. *)
Section Producers.
Context {credits : CreditRepo.T} {credits_laws : CreditRepo.Laws credits}
  {voice : VoiceProvider.T} {voice_laws : VoiceProvider.Laws voice}
  {outcomes : OutcomeRepo.T} {outcome_laws : OutcomeRepo.Laws outcomes}
  {policies : CallPolicyRepo.T} {policy_laws : CallPolicyRepo.Laws policies}
  {flowrepo : FlowRepo.T} {flow_laws : FlowRepo.Laws flowrepo}
  {notifier : CreditNotifier.T} {notifier_laws : CreditNotifier.Laws notifier}
  {clock : Clock.T} {clock_laws : Clock.Laws clock} {tz : TimeZones.T}.

Lemma fan_TryDeduct org reason : guar appends (CreditRepo.TryDeduct org Calls.creditsPerCall reason).
Proof.
  eapply fan_spec; [apply CreditRepo.TryDeduct_lin|].
  - unfold CreditRepo.small, Calls.creditsPerCall, int32_max. lia.
  - intros st r st' HS. destruct HS as [? ? _ _ (row & _ & _ & _ & ->)|? _|? ?|
      ? ? ? _ _ (row & _ & _ & _ & ->)]; by apply appends_tables.
Qed.

Lemma fan_dial req : guar appends (VoiceProvider.PlaceCall req).
Proof.
  eapply fan_spec; [apply VoiceProvider.PlaceCall_lin|].
  intros st r st' HS. destruct HS; by apply appends_tables.
Qed.

(** A recorded event is not dispatched yet. *)
Lemma fan_record c ev : guar appends (OutcomeRepo.RecordCallOutcome c ev).
Proof.
  eapply fan_spec; [apply OutcomeRepo.Record_lin|].
  intros st r st' HS. destruct HS as [st st' r (now & Hrec)|st e]; [|by apply appends_tables].
  destruct ev as [ev|]; [destruct Hrec as (ob & _ & _ & Hob & ->)|rewrite Hrec];
    [|by apply appends_tables].
  exists [ob]. split; [done|]. split; [|done].
  apply Forall_singleton. unfold WebhookQ.undispatched. by rewrite Hob.
Qed.

Lemma fan_clock : guar appends Clock.Now.
Proof. apply fan_silent, Clock.Now_silent. Qed.

Lemma fan_PlaceCall inp : guar appends (Calls.PlaceCall inp).
Proof.
  unfold Calls.PlaceCall. apply guar_bind; [by apply fan_read, CallPolicyRepo.Get_lin|].
  intros pol. apply guar_bind; [apply fan_clock|]. intros now.
  split_match; [done|]. apply guar_bind; [apply fan_TryDeduct|]. intros [[|] bal]; [|done].
  simpl negb. cbv iota. apply guar_bind.
  { split_match; [apply fan_quiet, CreditNotifier.LowBalance_quiet|done]. }
  intros _. apply guar_bind; [apply fan_dial|]. intros pid.
  apply guar_bind; [apply fan_New|]. intros cid.
  apply guar_bind; [apply fan_clock|]. intros now'. apply fan_record.
Qed.

Lemma fan_RunTestCall activity org to digit name :
  match activity with Some p => ActivityPublisher.Laws p | None => True end ->
  guar appends (Calls.RunTestCall activity org to digit name).
Proof.
  intros Hact. unfold Calls.RunTestCall.
  apply guar_bind; [by apply fan_read, FlowRepo.GetActiveFlow_lin|].
  intros [flow [|]]; [|done]. simpl negb. cbv iota.
  apply guar_bind; [apply fan_TryDeduct|]. intros [[|] bal]; [|done]. simpl negb. cbv iota.
  apply guar_bind; [apply fan_dial|]. intros pid.
  apply guar_bind; [apply fan_New|]. intros cid.
  destruct (Calls.test_outcome flow digit) as [out|]; [|done].
  apply guar_bind; [apply fan_clock|]. intros now.
  apply guar_bind; [apply fan_record|]. intros _. apply guar_bind; [|done].
  unfold Calls.publish. destruct activity; [|done].
  apply fan_quiet, ActivityPublisher.Publish_quiet.
Qed.

(** ** Dispatchers and producers together *)

Context {aead : AEAD.T} {hmac : HMAC.T} {http : HttpClient.T}
  {http_laws : HttpClient.Laws http}.

(** What runs on connection [conn]: a dispatcher, a call, a test call, or any
    handler that only appends undispatched events. *)
Inductive fan_handler (conn : nat) : prog Sessions unit -> Prop :=
| fh_dispatcher n : fan_handler conn (pignore (Webhooks.session_Run conn n))
| fh_PlaceCall inp : fan_handler conn (lift (spawn (Calls.PlaceCall inp)))
| fh_RunTestCall activity org to digit name :
    match activity with Some p => ActivityPublisher.Laws p | None => True end ->
    fan_handler conn (lift (spawn (Calls.RunTestCall activity org to digit name)))
| fh_other {A} (p : prog World A) : guar appends p -> fan_handler conn (lift (spawn p)).

Lemma fan_handler_rg s0 conn p :
  fan_handler conn p -> rg (fan_inv s0) conn (fun _ _ => True) None p.
Proof.
  intros [n|inp|? ? ? ? ? Hact|A q Hq].
  - apply rg_ignore. eapply rg_mono; [|apply session_Run_rg]. done.
  - apply fan_lift; [|done]. apply guar_ignore, fan_PlaceCall.
  - apply fan_lift; [|done]. by apply guar_ignore, fan_RunTestCall.
  - apply fan_lift; [|done]. by apply guar_ignore.
Qed.

(** C16: Webhooks are not duplicated by the fan-out.  Any number of dispatchers
    drain the outbox at once, each in a transaction of its own at READ COMMITTED
    whose statements interleave with the statements of the others and with calls
    recording outcomes; whichever statements or commits fail or lose their
    acknowledgement, the deliveries created for an (org, event) pair never
    outnumber the events of that pair taken off the outbox.  It rests on the
    claim's FOR UPDATE SKIP LOCKED: a dispatcher passes over the rows another one
    holds. *)
Theorem fanout_at_most_once env sched ps w org event :
  (forall conn p, ps !! conn = Some p -> fan_handler conn p) ->
  let st := w_st (se_world (snd (run_sched env sched ps (mkSessions w ∅)))) in
  deliveries_of st org event - deliveries_of (w_st w) org event <=
  dispatched_events st org event - dispatched_events (w_st w) org event.
Proof.
  intros Hps st.
  destruct (run_sched_rg (fan_inv (w_st w)) env sched ps (mkSessions w ∅)) as (Hs & _).
  - intros conn p Hp. by apply fan_handler_rg, Hps.
  - split; [done|]. split; simpl.
    + intros i o Hi. by rewrite lookup_empty in Hi.
    + intros i j oi oj id _ Hi. by rewrite lookup_empty in Hi.
  - specialize (Hs org event). unfold fan_slack in Hs. fold st in Hs. lia.
Qed.
End Producers.

(** C17: DrainOutbox takes the oldest undispatched events, at most [limit] of
    them, and in one transaction marks each as dispatched and opens one pending
    delivery for each that the org's active endpoint subscribes to; it reports
    how many.  Whatever statement fails, it does all of that or none of it. *)
Theorem DrainOutbox_all_or_nothing env limit prefix w :
  0 <= limit <= int32_max ->
  let '(r, w') := run env (PgWebhookRepo.DrainOutbox limit (Id.tx_New prefix)) w in
  let rows := claimed limit (w_db w) in
  (drained rows (w_db w) (w_db w') /\
   forall n, r = Ok n -> n = count_wanted (w_db w) rows) \/
  (w_db w' = w_db w /\ exists e, r = Err e).
Proof.
  intros Hl. pose proof (run_lin _ _ env w (DrainOutbox_lin limit prefix Hl)) as H.
  destruct (run env _ w) as [r w']. simpl in H. unfold w_db.
  revert H. generalize (w_st w) (w_st w'). intros st st' H.
  destruct H as [st d' rows Hd|st e d' Hd|st e]; [left..|right]; simpl.
  - split; [done|]. by intros n [= <-].
  - by split.
  - eauto.
Qed.

(** ** A concrete dispatcher *)

Module WebhookDemo.
(** Toy primitives: sealing prepends the nonce, the MAC is the message. *)
#[export] Instance aead : AEAD.T :=
  {| AEAD.NonceSize := 12; AEAD.Seal n p := n +:+ p;
     AEAD.Open n c := if String.prefix n c then Some (Strings.drop (String.length n) c) else None |}.

#[export] Instance aead_laws : AEAD.Laws aead.
Proof. split. intros n p _. simpl. by rewrite Strings.prefix_app, Cipher.drop_app_length. Qed.

#[export] Instance hmac : HMAC.T := {| HMAC.SHA256 _ m := m |}.

(** A receiver that always answers 200. *)
#[export] Instance http : HttpClient.T :=
  {| HttpClient.NewRequest_ok _ := true; HttpClient.Do _ := ret 200 |}.

#[export] Instance http_laws : HttpClient.Laws http.
Proof. by split. Qed.

Definition env : Env := Accounting.Demo.env.

(** A clock that moves an hour at each reading. *)
Definition slow_env : Env :=
  mkEnv (fun n => Hour * Z.of_nat n) (fun _ => NoFault) (env_rand env) (env_uuid env) Some.

(** Two events on the outbox: one the endpoint subscribes to, one it does not. *)
Definition db : DB :=
  set_webhook_endpoints
    [mkWebhookEndpoint "whep_1" "org" "http://m" "000000000000000000000000whsec_s"
       ["call.completed"] true 0]
    (set_webhook_outbox
       [mkOutboxRow 1 "org" "call.completed" "{}" 0 None;
        mkOutboxRow 2 "org" "call.failed" "{}" 1 None]
       (s_db (w_st Accounting.Demo.world))).

Definition world : World := mkWorld 0 (mkState db [] []).

(** Two dispatchers race with a call. *)
#[local] Existing Instances PgCreditRepo.repo PgOutcomeRepo.repo PgCallPolicyRepo.repo
  PgFlowRepo.repo MockVoice.provider MockVoice.laws RealClock.clock RealClock.laws
  Accounting.Demo.silent_notifier Accounting.Demo.silent_notifier_laws dhaka_only.

Definition pool : list (prog Sessions unit) :=
  [pignore (Webhooks.session_Run 0 2); pignore (Webhooks.session_Run 1 2);
   lift (spawn (Calls.PlaceCall (mkPlaceCallInput "org" "+8801712345678" "")))].

Definition schedule : list nat := flat_map (fun _ => [0; 1; 2]%nat) (seq 0 40).

Example fanned_out_once :
  let st := w_st (se_world (snd (run_sched env schedule pool (mkSessions world ∅)))) in
  (deliveries_of st "org" "call.completed", dispatched_events st "org" "call.completed",
   map dlv_status (webhook_deliveries (s_db st))) = (1, 1, ["delivered"]).
Proof. vm_compute. reflexivity. Qed.

(** Half-way, both have begun, and only the first holds the rows. *)
Example second_claim_is_empty :
  let se := snd (run_sched env [0; 1; 0; 1]%nat pool (mkSessions world ∅)) in
  (lock_ids <$> se_open se !! 0%nat, lock_ids <$> se_open se !! 1%nat) = (Some [1; 2], Some []).
Proof. vm_compute. reflexivity. Qed.

Lemma pool_ok conn p : pool !! conn = Some p -> fan_handler conn p.
Proof.
  assert (forall q, Some q = Some p -> fan_handler conn q -> fan_handler conn p) as H
    by (by intros q [= ->]).
  destruct conn as [|[|[|conn]]]; intros E; [eapply H; [exact E|]..|done];
    [apply fh_dispatcher|apply fh_dispatcher|apply fh_PlaceCall].
Qed.

Lemma fanout_at_most_once_witness :
  let st := w_st (se_world (snd (run_sched env schedule pool (mkSessions world ∅)))) in
  deliveries_of st "org" "call.completed" - 0 <= dispatched_events st "org" "call.completed" - 0.
Proof. exact (fanout_at_most_once env schedule pool world "org" "call.completed" pool_ok). Defined.

Lemma DrainOutbox_all_or_nothing_witness :
  let '(r, w') := run env (PgWebhookRepo.DrainOutbox 100 (Id.tx_New "whd")) world in
  let rows := claimed 100 (w_db world) in
  (drained rows (w_db world) (w_db w') /\
   forall n, r = Ok n -> n = count_wanted (w_db world) rows) \/
  (w_db w' = w_db world /\ exists e, r = Err e).
Proof.
  apply (DrainOutbox_all_or_nothing env 100 "whd" world).
  split; intros H; discriminate H.
Defined.
End WebhookDemo.
