(* ===== verification/WebhookDelivery.v ===== *)
(** * What happens to one delivery

    A dispatcher alone, under faults of the database and of the receiver: the
    attempts counted for a delivery are bounded, its posts by the attempts and the
    faults, and a delivery that ended stays as it is.  Without faults: what is posted is signed with the secret the merchant
    was shown. *)

From S2P Require Import Prelude.
From S2P Require Import Domain.
From S2P Require Import Effects.
From S2P Require Import GoLib.
From S2P Require Import Store.
From S2P Require Import Ports.
From S2P Require Import PgWebhooks.
From S2P Require Import Crypto.
From S2P Require Import Webhooks.
From S2P Require Import NoFault.
From S2P Require Import WebhooksSpec.
From stdpp Require Import gmap strings list.
From Stdlib Require Import ZArith Lia.

Open Scope Z_scope.
Open Scope go_scope.

#[local] Existing Instance PgWebhookRepo.repo.

(** ** The retry invariant *)









(** ** One delivery, run alone *)

Section Alone.
Context {aead : AEAD.T} {hmac : HMAC.T} {http : HttpClient.T}
  {http_laws : HttpClient.Laws http} (env : Env).

Definition dlvs (w : World) : list DeliveryRow := webhook_deliveries (w_db w).



















End Alone.

(** ** Requests sent, against attempts counted

    An attempt sends its request first and counts itself afterwards, in a
    statement whose error is dropped: the count may lag behind the requests by
    the number of failures. *)

Definition is_post (id : string) (e : Effect) : bool :=
  match e with
  | EPost p => existsb (fun h => (fst h =? "X-Yaver-Delivery-Id")%string && (snd h =? id)%string)
                 (post_headers p)
  | _ => false
  end.

(** The requests sent for a delivery. *)
Definition posts (w : World) (id : string) : Z :=
  sum_by (fun e => indicator (is_post id e)) (s_trace (w_st w)).







Section Counting.
Context {aead : AEAD.T} {hmac : HMAC.T} {http : HttpClient.T}
  {http_laws : HttpClient.Laws http} {http_once : HttpClient.SendsOnce http}
  (env : Env) (id : string).















End Counting.


(** ** What the merchant receives *)

(** A client that records every request and answers as [answer] says. *)
Module RecordingHttp.
Definition client (accepts : string -> bool) (answer : HttpPost -> Z + goerr) : HttpClient.T :=
  {| HttpClient.NewRequest_ok := accepts;
     HttpClient.Do p :=
       do! emit_effect (EPost p) in
       match answer p with inl code => ret code | inr e => Effects.fail e end |}.

End RecordingHttp.


Section Signing.
Context (env : Env) (Hnf : forall n, env_fault env n = NoFault).
Context {aead : AEAD.T} {aead_laws : AEAD.Laws aead} {hmac : HMAC.T}.
Context (accepts : string -> bool) (answer : HttpPost -> Z + goerr).

#[local] Instance recording : HttpClient.T := RecordingHttp.client accepts answer.

(** The endpoint an org has after SetEndpoint. *)
Lemma run_SetEndpoint org url events w :
  forallb text_ok (url :: events) = true ->
  (forall n r, In r (webhook_endpoints (w_db w)) -> whe_id r <> id_at env "whep" n) ->
  exists secret w1 ep,
    run env (Webhooks.SetEndpoint org url events) w = (Ok secret, w1) /\
    endpoint_of (w_db w1) org = Some ep /\
    whe_url ep = url /\ whe_events ep = events /\ whe_active ep = true /\
    Cipher.Decrypt (whe_secret_enc ep) = inl secret /\
    (forall org', org' <> org -> endpoint_of (w_db w1) org' = endpoint_of (w_db w) org') /\
    s_trace (w_st w1) = s_trace (w_st w).
Proof.
  intros Htext Hfresh.
  set (secret := "whsec_" +:+ Encoding.base64url (bytes_from (env_rand env (w_tick w)) 24)).
  set (nonce := bytes_from (env_rand env (S (w_tick w))) AEAD.NonceSize).
  set (id := id_at env "whep" (S (S (w_tick w)))).
  set (enc := nonce +:+ AEAD.Seal nonce secret).
  assert (Cipher.Decrypt enc = inl secret) as Hdec
    by (apply Cipher.Decrypt_sealed; apply bytes_from_length).
  assert (run env (Webhooks.SetEndpoint org url events) w =
    run env (do! exec (WebhookQ.UpsertWebhookEndpoint id org url enc events) in ret secret)
      (mkWorld (S (S (S (w_tick w)))) (w_st w))) as -> by done.
  rewrite run_bind, (run_exec env Hnf). unfold WebhookQ.UpsertWebhookEndpoint, with_text.
  rewrite Htext.
  change (w_db (mkWorld _ (w_st w))) with (w_db w).
  unfold endpoint_of.
  destruct (tfind (fun r => (whe_org_id r =? org)%string) (webhook_endpoints (w_db w)))
    as [ep|] eqn:E; simpl.
  - exists secret. do 2 eexists. split; [reflexivity|]. simpl.
    rewrite tfind_tupdate by done. rewrite E. split; [reflexivity|].
    do 3 (split; [done|]). split; [exact Hdec|]. split; [|done].
    intros org' Hne. clear -Hne. induction (webhook_endpoints (w_db w)) as [|x t IH]; simpl; [done|].
    destruct (String.eqb_spec (whe_org_id x) org) as [Ex|]; simpl.
    + apply not_eq_sym, String.eqb_neq in Hne. rewrite Ex, Hne. exact IH.
    + by rewrite IH.
  - rewrite (tfind_fresh whe_id) by (intros r Hr; by apply Hfresh). simpl.
    exists secret. do 2 eexists. split; [reflexivity|]. simpl.
    rewrite tfind_app, E. simpl. rewrite String.eqb_refl. split; [reflexivity|].
    do 3 (split; [done|]). split; [exact Hdec|]. split; [|done].
    intros org' Hne. rewrite tfind_app. simpl.
    apply not_eq_sym, String.eqb_neq in Hne. rewrite Hne. unfold tfind. by destruct (List.find _ _).
Qed.

(** The deliverer's view of an endpoint whose secret decrypts. *)
Lemma run_deliver_endpoint d ep secret w :
  endpoint_of (w_db w) (dd_OrgID d) = Some ep ->
  Cipher.Decrypt (whe_secret_enc ep) = inl secret ->
  let ts := Strconv.Itoa (env_clock env (S (w_tick w)) / Second) in
  let p := mkHttpPost (dd_URL d)
             (Webhooks.content_headers d ts (Webhooks.signature secret ts (dd_Payload d)))
             (dd_Payload d) in
  let w' := mkWorld (S (S (w_tick w))) (w_st w) in
  run env (Webhooks.deliver d) w =
  if accepts (dd_URL d) then
    run env (match answer p with
             | inl code =>
                 if (200 <=? code) && (code <? 300)
                 then pignore (WebhookRepo.MarkDelivered (dd_ID d) code)
                 else Webhooks.fail d code "non-2xx"
             | inr e => Webhooks.fail d 0 (match e with ErrOther m => m | _ => "error" end)
             end) (mkWorld (w_tick w') (add_effect (EPost p) (w_st w)))
  else (Panic, w').
Proof.
  intros He Hd ts p w'. unfold Webhooks.deliver. rewrite run_bind, run_try.
  change (@WebhookRepo.GetEndpoint _) with PgWebhookRepo.GetEndpoint.
  unfold PgWebhookRepo.GetEndpoint. rewrite run_bind, run_try.
  rewrite (run_exec env Hnf). unfold WebhookQ.GetWebhookEndpoint.
  fold (endpoint_of (w_db w) (dd_OrgID d)). rewrite He.
  assert (set_db (w_db w) (w_st w) = w_st w) as -> by apply set_db_id.
  simpl. rewrite Hd. simpl. destruct (accepts (dd_URL d)); simpl; [|done].
  fold ts p. destruct (answer p) as [code|e]; reflexivity.
Qed.

(** Statements leave no trace. *)
Definition traceless (w w' : World) : Prop := s_trace (w_st w') = s_trace (w_st w).

Lemma traceless_exec {A} (s : stmt A) : guar traceless (exec s).
Proof.
  eapply guar_lin; [| |apply exec_lin]; unfold traceless.
  - by intros w w' ->.
  - intros w w' r. generalize (w_st w) (w_st w'). intros st st' H. by inversion H.
Qed.

Lemma traceless_fail d code msg : guar traceless (Webhooks.fail d code msg).
Proof.
  apply guar_bind; [apply guar_Now; unfold traceless; by intros w w' ->|]. intros now.
  repeat split_match; try done; apply guar_ignore, traceless_exec.
Qed.

Lemma settle_trace d (resp : Z + goerr) w :
  s_trace (w_st (snd (run env (match resp with
     | inl code =>
         if (200 <=? code) && (code <? 300)
         then pignore (WebhookRepo.MarkDelivered (dd_ID d) code)
         else Webhooks.fail d code "non-2xx"
     | inr e => Webhooks.fail d 0 (match e with ErrOther m => m | _ => "error" end)
     end) w))) = s_trace (w_st w).
Proof.
  apply (guar_run traceless); [done|unfold traceless; congruence|].
  destruct resp as [code|e]; [split_match|]; [|apply traceless_fail..].
  apply guar_ignore, traceless_exec.
Qed.

(** C26: The request a merchant receives carries, over the timestamp it states
    and the exact body it has, the HMAC under the very secret SetEndpoint
    returned; setting one org's endpoint leaves every other org's alone. *)
Theorem deliveries_are_signed org url events w d :
  forallb text_ok (url :: events) = true ->
  (forall n r, In r (webhook_endpoints (w_db w)) -> whe_id r <> id_at env "whep" n) ->
  dd_OrgID d = org -> accepts (dd_URL d) = true ->
  exists secret w1,
    run env (Webhooks.SetEndpoint org url events) w = (Ok secret, w1) /\
    (forall org', org' <> org -> endpoint_of (w_db w1) org' = endpoint_of (w_db w) org') /\
    (forall w2, webhook_endpoints (w_db w2) = webhook_endpoints (w_db w1) ->
     exists t, let ts := Strconv.Itoa (t / Second) in
       s_trace (w_st (snd (run env (Webhooks.deliver d) w2))) =
       EPost (mkHttpPost (dd_URL d)
         [("Content-Type", "application/json"); ("X-Yaver-Event", dd_Event d);
          ("X-Yaver-Timestamp", ts);
          ("X-Yaver-Signature",
            "sha256=" +:+ Encoding.hex (HMAC.SHA256 secret (ts +:+ "." +:+ dd_Payload d)));
          ("X-Yaver-Delivery-Id", dd_ID d)] (dd_Payload d)) :: s_trace (w_st w2)).
Proof.
  intros Htext Hfresh Horg Hacc.
  destruct (run_SetEndpoint org url events w Htext Hfresh)
    as (secret & w1 & ep & Hrun & Hep & _ & _ & _ & Hdec & Hother & _).
  exists secret, w1. split; [done|]. split; [done|]. intros w2 Hsame.
  assert (endpoint_of (w_db w2) (dd_OrgID d) = Some ep) as Hep2
    by (unfold endpoint_of in *; by rewrite Hsame, Horg).
  exists (env_clock env (S (w_tick w2))). cbv zeta.
  rewrite (run_deliver_endpoint d ep secret w2 Hep2 Hdec), Hacc.
  eapply eq_trans; [apply settle_trace|done].
Qed.

(** SetEndpoint stores any URL, also one http.NewRequest refuses; the
    first delivery to it panics on the nil request, and the dispatcher with it:
    nothing after that delivery is attempted and its attempts never advance. *)
Theorem unparsable_url_stops_dispatcher org url events w d ds :
  forallb text_ok (url :: events) = true ->
  (forall n r, In r (webhook_endpoints (w_db w)) -> whe_id r <> id_at env "whep" n) ->
  dd_OrgID d = org -> dd_URL d = url -> accepts url = false ->
  exists secret w1 ep,
    run env (Webhooks.SetEndpoint org url events) w = (Ok secret, w1) /\
    endpoint_of (w_db w1) org = Some ep /\ whe_url ep = url /\
    (forall w2, webhook_endpoints (w_db w2) = webhook_endpoints (w_db w1) ->
     let '(r, w3) := run env (Webhooks.deliver_all (d :: ds)) w2 in
     r = Panic /\ w_st w3 = w_st w2).
Proof.
  intros Htext Hfresh Horg Hurl Hacc.
  destruct (run_SetEndpoint org url events w Htext Hfresh)
    as (secret & w1 & ep & Hrun & Hep & Hepurl & _ & _ & Hdec & _ & _).
  exists secret, w1, ep. split; [done|]. split; [done|]. split; [done|]. intros w2 Hsame.
  assert (endpoint_of (w_db w2) (dd_OrgID d) = Some ep) as Hep2
    by (unfold endpoint_of in *; by rewrite Hsame, Horg).
  cbn [Webhooks.deliver_all]. rewrite run_bind.
  rewrite (run_deliver_endpoint d ep secret w2 Hep2 Hdec), Hurl, Hacc. done.
Qed.
End Signing.

(** ** The demo world through a whole life *)

Import WebhookDemo.
#[local] Existing Instances aead aead_laws hmac.

Definition refusing : HttpClient.T := RecordingHttp.client (fun _ => true) (fun _ => inl 500).


(** The receiver answers 500 to everything: five attempts, then dead. *)
Example dead_after_five :
  map (fun r => (dlv_status r, dlv_attempts r))
    (dlvs (snd (run slow_env (Webhooks.Run (http := refusing) 8) WebhookDemo.world)))
  = [("dead", 5)].
Proof. vm_compute. reflexivity. Qed.

(** Its receiver saw five posts. *)
Example posted_five_times :
  map (fun r => posts (snd (run slow_env (Webhooks.Run (http := refusing) 8) WebhookDemo.world))
                  (dlv_id r))
    (dlvs (snd (run slow_env (Webhooks.Run (http := refusing) 8) WebhookDemo.world))) = [5].
Proof. vm_compute. reflexivity. Qed.


Definition demo_due : DueDelivery := mkDueDelivery "whd_1" "org" "call.completed" "u" "{}" 0.

Lemma deliveries_are_signed_witness : exists secret w1,
  run WebhookDemo.env (Webhooks.SetEndpoint "org" "u" []) world0 = (Ok secret, w1) /\
  (forall org', org' <> "org" -> endpoint_of (w_db w1) org' = endpoint_of (w_db world0) org') /\
  (forall w2, webhook_endpoints (w_db w2) = webhook_endpoints (w_db w1) ->
   exists t, let ts := Strconv.Itoa (t / Second) in
     s_trace (w_st (snd (run WebhookDemo.env (Webhooks.deliver (http := refusing) demo_due) w2))) =
     EPost (mkHttpPost "u"
       [("Content-Type", "application/json"); ("X-Yaver-Event", "call.completed");
        ("X-Yaver-Timestamp", ts);
        ("X-Yaver-Signature",
          "sha256=" +:+ Encoding.hex (HMAC.SHA256 secret (ts +:+ "." +:+ "{}")));
        ("X-Yaver-Delivery-Id", "whd_1")] "{}") :: s_trace (w_st w2)).
Proof.
  exact (deliveries_are_signed WebhookDemo.env (fun _ => eq_refl) (fun _ => true)
           (fun _ => inl 500) "org" "u" [] world0 demo_due
           eq_refl (fun _ _ H => False_ind _ H) eq_refl eq_refl).
Defined.

Lemma unparsable_url_stops_dispatcher_witness : exists secret w1 ep,
  run WebhookDemo.env (Webhooks.SetEndpoint "org" "u" []) world0 = (Ok secret, w1) /\
  endpoint_of (w_db w1) "org" = Some ep /\ whe_url ep = "u" /\
  (forall w2, webhook_endpoints (w_db w2) = webhook_endpoints (w_db w1) ->
   let '(r, w3) := run WebhookDemo.env
     (Webhooks.deliver_all (http := RecordingHttp.client (fun _ => false) (fun _ => inl 200))
        [demo_due; demo_due]) w2 in
   r = Panic /\ w_st w3 = w_st w2).
Proof.
  exact (unparsable_url_stops_dispatcher WebhookDemo.env (fun _ => eq_refl) (fun _ => false)
           (fun _ => inl 200) "org" "u" [] world0 demo_due [demo_due]
           eq_refl (fun _ _ H => False_ind _ H) eq_refl eq_refl eq_refl).
Defined.
