(* ===== verification/PgAuth.v ===== *)
(** * Users, one-time codes, sessions and organisations in Postgres

    internal/adapter/postgres/auth.go and orgs.go over gen/auth.sql.go and
    gen/orgs.sql.go, with the constraints of migrations/00001_init.sql,
    00005_org_onboarding.sql and 00012_password_auth.sql; the records and ports
    of domain/auth.go.  github.com/google/uuid is the parameter [Uuid].
    lower() is taken to agree with strings.ToLower. *)

From S2P Require Import Prelude.
From S2P Require Import Domain.
From S2P Require Import Effects.
From S2P Require Import GoLib.
From S2P Require Import Store.
From S2P Require Import Ports.
From S2P Require Import PgCredits.
From S2P Require Import PgFlows.
From stdpp Require Import gmap strings list.
From Stdlib Require Import ZArith Lia.

Open Scope Z_scope.
Open Scope go_scope.

(** ** domain/auth.go, domain/messaging.go (SMSSender) *)

Record User := mkUser {
  usr_ID : string; usr_Phone : string; usr_Email : string; usr_Name : string
}.

Definition zeroUser : User := mkUser "" "" "" "".

Record OTP := mkOTP { otpc_ID : string; otpc_CodeHash : string; otpc_Attempts : Z }.

Definition zeroOTP : OTP := mkOTP "" "" 0.

Record SessionUser := mkSessionUser {
  su_UserID : string; su_Phone : string; su_Email : string; su_Name : string;
  su_ExpiresAt : Time
}.

Definition zeroSessionUser : SessionUser := mkSessionUser "" "" "" "" zeroTime.

Module AuthRepo.
Class T := {
  UpsertUserByPhone : string -> prog World User;
  InsertOTP : string -> string -> Time -> prog World unit;
  LatestLiveOTP : string -> prog World (OTP * bool);
  IncrementOTPAttempts : string -> prog World unit;
  ConsumeOTP : string -> prog World unit;
  CreateUserWithPassword : string -> string -> string -> prog World User;
  UserByEmail : string -> prog World (User * string * bool);
  CreateSession : string -> string -> Time -> prog World unit;
  SessionUser : string -> prog World (SessionUser * bool);
  DeleteSession : string -> prog World unit
}.
End AuthRepo.

Module SMSSender.
Class T := { Send : string -> string -> prog World unit }.
Class Laws (S : T) : Prop := { Send_quiet : forall to text, guar quiet (Send to text) }.
End SMSSender.

(** uuid.Parse, giving the canonical form, and the text of 16 random bytes
    (uuid.New). *)
Module Uuid.
Class T := {
  Parse : string -> option string;
  of_bytes : string -> string
}.
Class Laws (U : T) : Prop := {
  Parse_of_bytes : forall b, String.length b = 16%nat ->
    Parse (of_bytes b) = Some (of_bytes b)
}.
Definition parse_error : goerr := ErrOther "invalid UUID".
End Uuid.

(** ** gen/auth.sql.go and the hand-written statements *)

Module AuthQ.
Definition has_phone (phone : string) (r : UserRow) : bool :=
  match user_phone r with Some p => (p =? phone)%string | None => false end.

Definition has_user_id (id : string) (r : UserRow) : bool := (user_id r =? id)%string.

(** lower(email) = lower($1); a NULL email equals nothing. *)
Definition has_email (email : string) (r : UserRow) : bool :=
  match user_email r with
  | Some e => (Strings.ToLower e =? Strings.ToLower email)%string
  | None => false
  end.

Definition UpsertUserByPhone (phone : string) : stmt UserRow := fun ctx d =>
  match tfind (has_phone phone) (users d) with
  | Some r => inl (r, d)
  | None =>
      match tfind (has_user_id (sql_uuid ctx)) (users d) with
      | Some _ => inr unique_violation
      | None =>
          let r := mkUserRow (sql_uuid ctx) (Some phone) None None (sql_now ctx) None in
          inl (r, set_users (users d ++ [r]) d)
      end
  end.

Definition InsertOTP (phone codeHash : string) (expiresAt : Time) : stmt unit :=
  fun ctx d =>
  match tfind (fun r => (otp_id r =? sql_uuid ctx)%string) (otp_codes d) with
  | Some _ => inr unique_violation
  | None =>
      inl (tt, set_otp_codes
        (otp_codes d ++
           [mkOtpRow (sql_uuid ctx) phone codeHash 0 expiresAt None (sql_now ctx)]) d)
  end.

Definition live (phone : string) (now : Time) (r : OtpRow) : bool :=
  (otp_phone r =? phone)%string
  && match otp_consumed_at r with None => true | Some _ => false end
  && (now <? otp_expires_at r).

(** ORDER BY created_at DESC LIMIT 1 *)
Definition LatestLiveOTP (phone : string) : stmt OtpRow := fun ctx d =>
  match tsort (fun r => - otp_created_at r)
          (tselect (live phone (sql_now ctx)) (otp_codes d)) with
  | [] => inr ErrNoRows
  | r :: _ => inl (r, d)
  end.

Definition add_attempt (r : OtpRow) : OtpRow :=
  mkOtpRow (otp_id r) (otp_phone r) (otp_code_hash r) (otp_attempts r + 1)
    (otp_expires_at r) (otp_consumed_at r) (otp_created_at r).

Definition has_otp_id (id : string) (r : OtpRow) : bool := (otp_id r =? id)%string.

(** [attempts] is an int4 column. *)
Definition IncrementOTPAttempts (id : string) : stmt unit := fun _ d =>
  match tfind (fun r => has_otp_id id r && (otp_attempts r =? int32_max)) (otp_codes d) with
  | Some _ => inr numeric_out_of_range
  | None => inl (tt, set_otp_codes (tupdate (has_otp_id id) add_attempt (otp_codes d)) d)
  end.

Definition consume (now : Time) (r : OtpRow) : OtpRow :=
  mkOtpRow (otp_id r) (otp_phone r) (otp_code_hash r) (otp_attempts r)
    (otp_expires_at r) (Some now) (otp_created_at r).

Definition ConsumeOTP (id : string) : stmt unit := fun ctx d =>
  inl (tt, set_otp_codes (tupdate (has_otp_id id) (consume (sql_now ctx)) (otp_codes d)) d).

Definition foreign_key_violation : goerr := ErrPg "23503".

(** Unique token_hash, and the user must exist. *)
Definition CreateSession (tokenHash userID : string) (expiresAt : Time) : stmt unit :=
  fun ctx d =>
  match tfind (fun r => (session_token_hash r =? tokenHash)%string
                        || (session_id r =? sql_uuid ctx)%string) (sessions d) with
  | Some _ => inr unique_violation
  | None =>
      match tfind (has_user_id userID) (users d) with
      | None => inr foreign_key_violation
      | Some _ =>
          inl (tt, set_sessions
            (sessions d ++
               [mkSessionRow (sql_uuid ctx) tokenHash userID expiresAt (sql_now ctx)]) d)
      end
  end.

Definition has_token (tokenHash : string) (r : SessionRow) : bool :=
  (session_token_hash r =? tokenHash)%string.

Definition DeleteSession (tokenHash : string) : stmt unit := fun _ d =>
  inl (tt, set_sessions (tdelete (has_token tokenHash) (sessions d)) d).

(** sessions JOIN users, of a live session. *)
Definition SessionWithUser (tokenHash : string) : stmt (UserRow * Time) := fun ctx d =>
  match tfind (fun s => has_token tokenHash s && (sql_now ctx <? session_expires_at s))
          (sessions d) with
  | None => inr ErrNoRows
  | Some s =>
      match tfind (has_user_id (session_user_id s)) (users d) with
      | None => inr ErrNoRows
      | Some u => inl ((u, session_expires_at s), d)
      end
  end.

(** Unique lower(email), unique id. *)
Definition InsertUser (email name passwordHash : string) : stmt string :=
  with_text [email; name] (fun ctx d =>
  match tfind (fun r => has_email email r || has_user_id (sql_uuid ctx) r) (users d) with
  | Some _ => inr unique_violation
  | None =>
      inl (sql_uuid ctx, set_users
        (users d ++ [mkUserRow (sql_uuid ctx) None (Some email) (Some name) (sql_now ctx)
                       (Some passwordHash)]) d)
  end).

Definition SelectUserByEmail (email : string) : stmt UserRow :=
  with_text [email] (fun _ d =>
  match tfind (has_email email) (users d) with
  | None => inr ErrNoRows
  | Some r => inl (r, d)
  end).
End AuthQ.

(** ** AuthRepo *)

Module PgAuthRepo.
Section Repo.
Context {uuid : Uuid.T}.

Definition row_user (u : UserRow) : User :=
  mkUser (user_id u) (deref (user_phone u)) (deref (user_email u)) (deref (user_name u)).

Definition CreateUserWithPassword (email name passwordHash : string) : prog World User :=
  let! id := ptry (exec (AuthQ.InsertUser email name passwordHash)) in
  match id with
  | inr (ErrPg code) => if (code =? "23505")%string then fail ErrEmailTaken else fail (ErrPg code)
  | inr err => fail err
  | inl id => ret (mkUser id "" email name)
  end.

Definition UserByEmail (email : string) : prog World (User * string * bool) :=
  let! row := ptry (exec (AuthQ.SelectUserByEmail email)) in
  match row with
  | inr ErrNoRows => ret (zeroUser, "", false)
  | inr err => fail err
  | inl u => ret (row_user u, deref (user_password_hash u), true)
  end.

Definition UpsertUserByPhone (phone : string) : prog World User :=
  let! u := exec (AuthQ.UpsertUserByPhone phone) in
  ret (row_user u).

Definition InsertOTP (phone codeHash : string) (expiresAt : Time) : prog World unit :=
  exec (AuthQ.InsertOTP phone codeHash expiresAt).

Definition LatestLiveOTP (phone : string) : prog World (OTP * bool) :=
  let! o := ptry (exec (AuthQ.LatestLiveOTP phone)) in
  match o with
  | inr ErrNoRows => ret (zeroOTP, false)
  | inr err => fail err
  | inl o => ret (mkOTP (otp_id o) (otp_code_hash o) (otp_attempts o), true)
  end.

(** A statement on a parsed id. *)
Definition with_uuid {A} (id : string) (k : string -> prog World A) : prog World A :=
  match Uuid.Parse id with
  | None => fail Uuid.parse_error
  | Some id => k id
  end.

Definition IncrementOTPAttempts (otpID : string) : prog World unit :=
  with_uuid otpID (fun id => exec (AuthQ.IncrementOTPAttempts id)).

Definition ConsumeOTP (otpID : string) : prog World unit :=
  with_uuid otpID (fun id => exec (AuthQ.ConsumeOTP id)).

Definition CreateSession (tokenHash userID : string) (expiresAt : Time) : prog World unit :=
  with_uuid userID (fun uid => exec (AuthQ.CreateSession tokenHash uid expiresAt)).

Definition SessionUser (tokenHash : string) : prog World (SessionUser * bool) :=
  let! row := ptry (exec (AuthQ.SessionWithUser tokenHash)) in
  match row with
  | inr ErrNoRows => ret (zeroSessionUser, false)
  | inr err => fail err
  | inl (u, exp) =>
      ret (mkSessionUser (user_id u) (deref (user_phone u)) (deref (user_email u))
             (deref (user_name u)) exp, true)
  end.

Definition DeleteSession (tokenHash : string) : prog World unit :=
  exec (AuthQ.DeleteSession tokenHash).

#[export] Instance repo : AuthRepo.T :=
  { AuthRepo.UpsertUserByPhone := UpsertUserByPhone; AuthRepo.InsertOTP := InsertOTP;
    AuthRepo.LatestLiveOTP := LatestLiveOTP;
    AuthRepo.IncrementOTPAttempts := IncrementOTPAttempts;
    AuthRepo.ConsumeOTP := ConsumeOTP;
    AuthRepo.CreateUserWithPassword := CreateUserWithPassword;
    AuthRepo.UserByEmail := UserByEmail; AuthRepo.CreateSession := CreateSession;
    AuthRepo.SessionUser := SessionUser; AuthRepo.DeleteSession := DeleteSession }.
End Repo.
End PgAuthRepo.

(** ** gen/orgs.sql.go *)

Module OrgQ.
Definition owned_by (uid : string) (r : OrgRow) : bool := (orgr_owner_user_id r =? uid)%string.
Definition has_id (id : string) (r : OrgRow) : bool := (orgr_id r =? id)%string.

(** ON CONFLICT (owner_user_id) DO NOTHING; the owner must exist. *)
Definition CreateOrg (id name ownerUserID : string) : stmt unit := fun ctx d =>
  match tfind (owned_by ownerUserID) (orgs d) with
  | Some _ => inl (tt, d)
  | None =>
      match tfind (has_id id) (orgs d), tfind (AuthQ.has_user_id ownerUserID) (users d) with
      | Some _, _ => inr unique_violation
      | None, None => inr AuthQ.foreign_key_violation
      | None, Some _ =>
          inl (tt, set_orgs (orgs d ++ [mkOrgRow id name ownerUserID (sql_now ctx)]) d)
      end
  end.

Definition GetOrgByOwner (ownerUserID : string) : stmt OrgRow := fun _ d =>
  match tfind (owned_by ownerUserID) (orgs d) with
  | None => inr ErrNoRows
  | Some r => inl (r, d)
  end.

Definition GetOrgOwnerEmail (id : string) : stmt string := fun _ d =>
  match tfind (has_id id) (orgs d) with
  | None => inr ErrNoRows
  | Some o =>
      match tfind (AuthQ.has_user_id (orgr_owner_user_id o)) (users d) with
      | None => inr ErrNoRows
      | Some u => inl (deref (user_email u), d)
      end
  end.

Definition set_name (name : string) (r : OrgRow) : OrgRow :=
  mkOrgRow (orgr_id r) name (orgr_owner_user_id r) (orgr_created_at r).

Definition RenameOrg (id name : string) : stmt unit :=
  with_text [name] (fun _ d =>
  inl (tt, set_orgs (tupdate (has_id id) (set_name name) (orgs d)) d)).
End OrgQ.

(** ** OrgRepo *)

Module PgOrgRepo.
Definition defaultOrderConfirmSpec : string := json_text
"{
  `entry`: `greet`,
  `nodes`: {
    `greet`:      {`say`: {`tts`: `Press 1 to confirm your order, 2 to cancel, 3 to reschedule.`},
                   `gather`: {`digits`: 1, `timeout_s`: 6},
                   `on`: {`1`: `confirmed`, `2`: `cancelled`, `3`: `reschedule`, `timeout`: `no_input`}},
    `confirmed`:  {`say`: {`audio`: `confirmed.wav`},  `result`: `confirmed`,  `end`: true},
    `cancelled`:  {`say`: {`audio`: `cancelled.wav`},  `result`: `cancelled`,  `end`: true},
    `reschedule`: {`say`: {`audio`: `reschedule.wav`}, `result`: `reschedule`, `end`: true},
    `no_input`:   {`result`: `no_answer`, `end`: true}
  }
}".

Section Repo.
Context {uuid : Uuid.T}.

(** The default flow and the starter credits; every error is dropped. *)
Definition seed (orgID : string) : prog World unit :=
  do! pignore (exec (FlowQ.CreateFlow ("flow_" +:+ orgID) orgID "order_confirm" 1
                       "voice" "ivr" "en" defaultOrderConfirmSpec)) in
  do! pignore (exec (CreditQ.EnsureCreditAccount orgID)) in
  let! bal := ptry (exec (CreditQ.AdjustBalance orgID 500)) in
  match bal with
  | inl _ => pignore (exec (CreditQ.AddLedger ("seed_" +:+ orgID) orgID 500 "signup_grant"))
  | inr _ => ret tt
  end.

Definition EnsureForUser (userID name : string) : prog World Org :=
  PgAuthRepo.with_uuid userID (fun uid =>
    let! row := ptry (exec (OrgQ.GetOrgByOwner uid)) in
    match row with
    | inl row => ret (mkOrg (orgr_id row) (orgr_name row))
    | inr ErrNoRows =>
        let! b := rand_Read 16 in
        let orgID := Uuid.of_bytes b in
        do! exec (OrgQ.CreateOrg orgID name uid) in
        let! row := exec (OrgQ.GetOrgByOwner uid) in
        do! (if (orgr_id row =? orgID)%string then seed orgID else ret tt) in
        ret (mkOrg (orgr_id row) (orgr_name row))
    | inr err => fail err
    end).

Definition OwnerEmail (orgID : OrgID) : prog World string :=
  PgAuthRepo.with_uuid orgID (fun id => exec (OrgQ.GetOrgOwnerEmail id)).

Definition Rename (orgID : OrgID) (name : string) : prog World unit :=
  PgAuthRepo.with_uuid orgID (fun id => exec (OrgQ.RenameOrg id name)).

#[export] Instance repo : OrgStore.T :=
  { OrgStore.EnsureForUser := EnsureForUser; OrgStore.Rename := Rename;
    OrgStore.OwnerEmail := OwnerEmail }.
#[export] Instance laws : OrgStore.Laws repo.
Proof.
  split. intros org. change (guar silent (OwnerEmail org)). unfold OwnerEmail, PgAuthRepo.with_uuid.
  destruct (Uuid.Parse org) as [id|]; [|done].
  apply (guar_lin (fun st _ st' => st' = st)); [done|by intros w w' r H|].
  apply exec_read_lin. intros ctx d a d'. unfold OrgQ.GetOrgOwnerEmail.
  destruct (tfind _ _); [|done]. destruct (tfind _ _); [|done]. by intros [= _ <-].
Qed.
End Repo.
End PgOrgRepo.
