(* ===== verification/Auth.v ===== *)
(** * Login: phone codes, passwords and sessions

    internal/service/auth/auth.go. *)

From S2P Require Import Prelude.
From S2P Require Import Domain.
From S2P Require Import Effects.
From S2P Require Import GoLib.
From S2P Require Import Store.
From S2P Require Import Crypto.
From S2P Require Import Ports.
From S2P Require Import PgAuth.
From stdpp Require Import gmap strings list.
From Stdlib Require Import ZArith Lia.

Open Scope Z_scope.
Open Scope go_scope.

Module Auth.
Definition minPasswordLen : nat := 8.
Definition otpTTL : Z := 5 * Minute.
Definition sessionTTL : Z := 30 * 24 * Hour.
Definition maxAttempts : Z := 5.

(** A big-endian number. *)
Fixpoint be (s : string) (acc : Z) : Z :=
  match s with
  | EmptyString => acc
  | String c s' => be s' (acc * 256 + byte_of c)
  end.

(** rand.Int(rand.Reader, big.NewInt(max)): as many random bits as [max - 1] has,
    drawn again while they are not below [max].  A draw is refused with
    probability below one half; a run of the model draws at most so many times. *)
Definition bit_length (n : Z) : Z := if n <=? 0 then 0 else Z.log2 n + 1.

Fixpoint rand_Int (draws : nat) (max : Z) : prog World Z :=
  match draws with
  | O => panic
  | S draws =>
      let bits := bit_length (max - 1) in
      let! b := rand_Read (Z.to_nat ((bits + 7) / 8)) in
      let n := be b 0 mod 2 ^ bits in
      if n <? max then ret n else rand_Int draws max
  end.

Definition randomCode : prog World string :=
  let! n := rand_Int 64 1000000 in ret (Strconv.Sprintf06d n).

Definition randomToken : prog World string :=
  let! b := rand_Read 32 in ret (Encoding.base64url b).

Section Service.
Context {repo : AuthRepo.T} {clock : Clock.T} {sms : SMSSender.T} {hmac : HMAC.T}
  {sha : SHA256.T} {bcrypt : Bcrypt.T}.
Context (secret : string) (devEcho : bool).

Definition hashCode (code : string) : string := HMAC.SHA256 secret code.
Definition hashToken (token : string) : string := SHA256.Sum256 token.

Definition RequestOTP (phone : string) : prog World string :=
  let! code := randomCode in
  let! now := Clock.Now in
  do! AuthRepo.InsertOTP phone (hashCode code) (now + otpTTL) in
  do! SMSSender.Send phone ("Your Yaver verification code is " +:+ code) in
  ret (if devEcho then code else "").

Definition issueSession (user : User) : prog World (string * SessionUser) :=
  let! token := randomToken in
  let! now := Clock.Now in
  let exp := now + sessionTTL in
  do! AuthRepo.CreateSession (hashToken token) (usr_ID user) exp in
  ret (token, mkSessionUser (usr_ID user) (usr_Phone user) (usr_Email user) (usr_Name user) exp).

Definition VerifyOTP (phone code : string) : prog World (string * SessionUser) :=
  let! '(otp, found) := AuthRepo.LatestLiveOTP phone in
  if negb found || (maxAttempts <=? otpc_Attempts otp) then fail ErrInvalidOTP
  else if negb (otpc_CodeHash otp =? hashCode code)%string then
    do! pignore (AuthRepo.IncrementOTPAttempts (otpc_ID otp)) in
    fail ErrInvalidOTP
  else
    do! AuthRepo.ConsumeOTP (otpc_ID otp) in
    let! user := AuthRepo.UpsertUserByPhone phone in
    issueSession user.

(** strings.TrimSpace(strings.ToLower(email)) *)
Definition fold_email (email : string) : string := Strings.TrimSpace (Strings.ToLower email).

Definition Register (email password name : string) : prog World (string * SessionUser) :=
  let email := fold_email email in
  if (email =? "")%string || (String.length password <? minPasswordLen)%nat
  then fail ErrInvalidCredentials
  else
    let! hash := Bcrypt.GenerateFromPassword password in
    let! user := AuthRepo.CreateUserWithPassword email (Strings.TrimSpace name) hash in
    issueSession user.

Definition Login (email password : string) : prog World (string * SessionUser) :=
  let! '((user, hash), found) := AuthRepo.UserByEmail (fold_email email) in
  if negb found || (hash =? "")%string || negb (Bcrypt.Compare hash password)
  then fail ErrInvalidCredentials
  else issueSession user.

Definition Resolve (token : string) : prog World (SessionUser * bool) :=
  if (token =? "")%string then ret (zeroSessionUser, false)
  else AuthRepo.SessionUser (hashToken token).

Definition Logout (token : string) : prog World unit :=
  if (token =? "")%string then ret tt
  else AuthRepo.DeleteSession (hashToken token).
End Service.
End Auth.
