(* ===== verification/AuthSpec.v ===== *)
(** * What login guarantees

    Without faults of the database: the life of a session, one-time codes used
    once and locked after five wrong guesses, accounts found again whatever the
    spelling of the address, one organisation per user; and what concurrent
    guesses, overlapping presentations of the right code and a lost statement
    do to those promises. *)

From S2P Require Import Prelude.
From S2P Require Import Domain.
From S2P Require Import Effects.
From S2P Require Import GoLib.
From S2P Require Import Store.
From S2P Require Import Crypto.
From S2P Require Import Ports.
From S2P Require Import PgCredits.
From S2P Require Import PgFlows.
From S2P Require Import PgCalls.
From S2P Require Import Calls.
From S2P Require Import PgAuth.
From S2P Require Import Auth.
From S2P Require Import NoFault.
From stdpp Require Import gmap strings list.
From Stdlib Require Import ZArith Lia.

Open Scope Z_scope.
Open Scope go_scope.

(** [find] by a key that is fresh. *)
Lemma tfind_fresh_if {R} (p q : R -> bool) (t : list R) :
  tfind p t = None -> tfind q t = None -> tfind (fun r => p r || q r) t = None.
Proof.
  induction t as [|x t IH]; simpl; [done|]. by destruct (p x), (q x).
Qed.

Section NoFaults.
Context (env : Env) (Hnf : forall n, env_fault env n = NoFault).
Context {uuid : Uuid.T} {sms : SMSSender.T} {hmac : HMAC.T} {sha : SHA256.T}
  {bcrypt : Bcrypt.T} {bcrypt_laws : Bcrypt.Laws bcrypt}.
Context (secret : string) (devEcho : bool).

#[local] Existing Instances PgAuthRepo.repo PgOrgRepo.repo RealClock.clock.

(** The database mints well-formed, distinct uuids; session tokens drawn at
    distinct instants have distinct hashes. *)
Record minting : Prop := {
  mint_parse : forall n, Uuid.Parse (env_uuid env n) = Some (env_uuid env n);
  mint_inj : forall n m, env_uuid env n = env_uuid env m -> n = m
}.

(** The token drawn at a tick. *)
Definition token_at (n : nat) : string := Encoding.base64url (bytes_from (env_rand env n) 32).

(** Nothing in the tables carries an id or a token still to be minted. *)
Record fresh_from (n : nat) (d : DB) : Prop := {
  fresh_users : forall m r, (n <= m)%nat -> In r (users d) -> user_id r <> env_uuid env m;
  fresh_otps : forall m r, (n <= m)%nat -> In r (otp_codes d) -> otp_id r <> env_uuid env m;
  fresh_sessions : forall m r, (n <= m)%nat -> In r (sessions d) ->
    session_id r <> env_uuid env m /\
    session_token_hash r <> SHA256.Sum256 (token_at m)
}.

Context (Hmint : minting).

Definition session_of (u : User) (exp : Time) : SessionUser :=
  mkSessionUser (usr_ID u) (usr_Phone u) (usr_Email u) (usr_Name u) exp.

(** A session is issued: one row, under the hash of the token. *)
Lemma run_issueSession u ur w :
  fresh_from (w_tick w) (w_db w) ->
  Uuid.Parse (usr_ID u) = Some (usr_ID u) ->
  tfind (AuthQ.has_user_id (usr_ID u)) (users (w_db w)) = Some ur ->
  let exp := env_clock env (S (w_tick w)) + Auth.sessionTTL in
  let row := mkSessionRow (env_uuid env (S (S (w_tick w))))
               (Auth.hashToken (token_at (w_tick w))) (usr_ID u) exp
               (env_clock env (S (S (w_tick w)))) in
  run env (Auth.issueSession u) w =
  (Ok (token_at (w_tick w), session_of u exp),
   mkWorld (S (S (S (w_tick w))))
     (set_db (set_sessions (sessions (w_db w) ++ [row]) (w_db w)) (w_st w))).
Proof.
  intros Hf Hp Hu exp row.
  assert (run env (Auth.issueSession u) w =
    run env (do! AuthRepo.CreateSession (Auth.hashToken (token_at (w_tick w))) (usr_ID u) exp in
             ret (token_at (w_tick w), session_of u exp))
      (mkWorld (S (S (w_tick w))) (w_st w))) as -> by done.
  rewrite run_bind. change (@AuthRepo.CreateSession _) with PgAuthRepo.CreateSession.
  unfold PgAuthRepo.CreateSession, PgAuthRepo.with_uuid. rewrite Hp.
  rewrite (run_exec env Hnf). unfold AuthQ.CreateSession.
  change (w_db (mkWorld _ (w_st w))) with (w_db w).
  rewrite tfind_fresh_if, Hu; [done|..].
  - apply (tfind_fresh session_token_hash). intros r Hr.
    by apply (fresh_sessions _ _ Hf (w_tick w) r (le_n _) Hr).
  - apply (tfind_fresh session_id). intros r Hr. simpl.
    apply (fresh_sessions _ _ Hf (S (S (w_tick w))) r); [lia|done].
Qed.

(** Resolving a token against the stored sessions. *)
Definition lookup_session (d : DB) (hash : string) (now : Time) : option (UserRow * Time) :=
  match tfind (fun s => AuthQ.has_token hash s && (now <? session_expires_at s)) (sessions d) with
  | None => None
  | Some s =>
      match tfind (AuthQ.has_user_id (session_user_id s)) (users d) with
      | None => None
      | Some u => Some (u, session_expires_at s)
      end
  end.

Lemma run_Resolve token w :
  token <> "" ->
  run env (Auth.Resolve token) w =
  (Ok (match lookup_session (w_db w) (Auth.hashToken token) (env_clock env (w_tick w)) with
       | Some (u, exp) => (session_of (PgAuthRepo.row_user u) exp, true)
       | None => (zeroSessionUser, false)
       end), tick w).
Proof.
  intros Ht. unfold Auth.Resolve. apply String.eqb_neq in Ht. rewrite Ht.
  change (@AuthRepo.SessionUser _) with PgAuthRepo.SessionUser.
  unfold PgAuthRepo.SessionUser. rewrite run_bind, run_try.
  rewrite run_exec_read; [|done|].
  - unfold AuthQ.SessionWithUser, lookup_session. simpl sql_now.
    destruct (tfind _ (sessions (w_db w))) as [s|]; [|done].
    by destruct (tfind _ (users (w_db w))).
  - intros ctx d a d'. unfold AuthQ.SessionWithUser.
    destruct (tfind _ _); [|done]. destruct (tfind _ _); [|done]. by intros [= _ <-].
Qed.

Lemma token_nonempty n : token_at n <> "".
Proof. unfold token_at. simpl. done. Qed.

Lemma tfind_tdelete {R} (p q : R -> bool) (t : list R) :
  (forall r, p r = true -> q r = false) -> tfind p (tdelete q t) = tfind p t.
Proof.
  intros H. induction t as [|x t IH]; simpl; [done|].
  destruct (q x) eqn:Eq; simpl.
  - rewrite IH. destruct (p x) eqn:Ep; [by rewrite (H _ Ep) in Eq|done].
  - by rewrite IH.
Qed.

Lemma tfind_tdelete_all {R} (p q : R -> bool) (t : list R) :
  (forall r, p r = true -> q r = true) -> tfind p (tdelete q t) = None.
Proof.
  intros H. induction t as [|x t IH]; simpl; [done|].
  destruct (q x) eqn:Eq; simpl; [done|].
  destruct (p x) eqn:Ep; [by rewrite (H _ Ep) in Eq|done].
Qed.

(** A logout deletes the sessions of one token. *)
Lemma run_Logout token w :
  token <> "" ->
  run env (Auth.Logout token) w =
  (Ok tt, mkWorld (S (w_tick w))
     (set_db (set_sessions (tdelete (AuthQ.has_token (Auth.hashToken token))
                              (sessions (w_db w))) (w_db w)) (w_st w))).
Proof.
  intros Ht. unfold Auth.Logout. apply String.eqb_neq in Ht. rewrite Ht.
  change (@AuthRepo.DeleteSession _) with PgAuthRepo.DeleteSession.
  unfold PgAuthRepo.DeleteSession. by rewrite (run_exec env Hnf).
Qed.

(** The life of a session.  The token issued to a user resolves to that
    user, with the same expiry, until thirty days later and never after; once it
    is logged out it never resolves again, while every other token resolves as
    before. *)
Theorem session_lifecycle u ur w :
  fresh_from (w_tick w) (w_db w) ->
  u = PgAuthRepo.row_user ur -> Uuid.Parse (usr_ID u) = Some (usr_ID u) ->
  tfind (AuthQ.has_user_id (usr_ID u)) (users (w_db w)) = Some ur ->
  exists token exp w1,
    run env (Auth.issueSession u) w = (Ok (token, session_of u exp), w1) /\
    exp = env_clock env (S (w_tick w)) + 30 * 24 * Hour /\
    (forall w2, sessions (w_db w2) = sessions (w_db w1) -> users (w_db w2) = users (w_db w1) ->
       run env (Auth.Resolve token) w2 =
         (Ok (if env_clock env (w_tick w2) <? exp then (session_of u exp, true)
              else (zeroSessionUser, false)), tick w2) /\
       exists w3, run env (Auth.Logout token) w2 = (Ok tt, w3) /\
         (forall w4, sessions (w_db w4) = sessions (w_db w3) ->
            run env (Auth.Resolve token) w4 = (Ok (zeroSessionUser, false), tick w4)) /\
         (forall token' now, Auth.hashToken token' <> Auth.hashToken token ->
            lookup_session (w_db w3) (Auth.hashToken token') now =
            lookup_session (w_db w2) (Auth.hashToken token') now)).
Proof.
  intros Hf Hu Hp Hin. pose proof (run_issueSession u ur w Hf Hp Hin) as Hrun.
  do 3 eexists. split; [exact Hrun|]. split; [reflexivity|].
  pose proof (token_nonempty (w_tick w)) as Ht.
  intros w2 Hs Hus. simpl in Hs, Hus. split.
  - rewrite (run_Resolve _ _ Ht). unfold lookup_session. rewrite Hs, Hus, tfind_app.
    rewrite (tfind_none_weaken (AuthQ.has_token (Auth.hashToken (token_at (w_tick w))))).
    + simpl. unfold AuthQ.has_token. simpl. rewrite String.eqb_refl. simpl.
      destruct (_ <? _); [|done]. simpl. rewrite Hin. by rewrite <- Hu.
    + intros r Hr. by bool_prop.
    + apply (tfind_fresh session_token_hash). intros r Hr.
      by apply (fresh_sessions _ _ Hf (w_tick w) r (le_n _) Hr).
  - eexists. split; [by apply run_Logout|]. split.
    + intros w4 Hs4. simpl in Hs4. rewrite (run_Resolve _ _ Ht). unfold lookup_session.
      rewrite Hs4, tfind_tdelete_all; [done|]. intros r Hr. by bool_prop.
    + intros token' now Hne. unfold lookup_session. simpl. rewrite tfind_tdelete; [done|].
      intros r Hr. bool_prop. unfold AuthQ.has_token in *. bool_prop.
      apply String.eqb_neq. congruence.
Qed.

(** ** One-time codes *)

Definition unconsumed (phone : string) (r : OtpRow) : bool :=
  (otp_phone r =? phone)%string
  && match otp_consumed_at r with None => true | Some _ => false end.

(** [row] is the one outstanding code of the phone, under an id of its own. *)
Definition outstanding (phone : string) (row : OtpRow) (d : DB) : Prop :=
  tselect (unconsumed phone) (otp_codes d) = [row] /\
  (forall r, In r (otp_codes d) -> otp_id r = otp_id row -> r = row) /\
  Uuid.Parse (otp_id row) = Some (otp_id row).

Lemma tselect_tselect {R} (p q : R -> bool) (t : list R) :
  tselect p (tselect q t) = tselect (fun r => q r && p r) t.
Proof.
  induction t as [|x t IH]; simpl; [done|].
  destruct (q x); simpl; [|done]. destruct (p x); simpl; by rewrite IH.
Qed.

Lemma tselect_tupdate {R} (p q : R -> bool) f (t : list R) :
  (forall r, p (f r) = p r) -> tselect p (tupdate q f t) = tupdate q f (tselect p t).
Proof.
  intros Hp. induction t as [|x t IH]; simpl; [done|].
  destruct (q x) eqn:Eq; rewrite ?Hp; destruct (p x) eqn:Ep; simpl; by rewrite ?Eq, IH.
Qed.

(** LatestLiveOTP finds the outstanding code while it is live. *)
Lemma latest_outstanding phone row ctx d :
  outstanding phone row d ->
  AuthQ.LatestLiveOTP phone ctx d =
  if sql_now ctx <? otp_expires_at row then inl (row, d) else inr ErrNoRows.
Proof.
  intros (Hsel & _). unfold AuthQ.LatestLiveOTP.
  assert (tselect (AuthQ.live phone (sql_now ctx)) (otp_codes d) =
    tselect (fun r => sql_now ctx <? otp_expires_at r) [row]) as ->.
  { rewrite <- Hsel, tselect_tselect. apply List.filter_ext. intros r.
    unfold AuthQ.live, unconsumed. done. }
  simpl. by destruct (_ <? _).
Qed.

Lemma run_Latest phone row w :
  outstanding phone row (w_db w) ->
  run env (AuthRepo.LatestLiveOTP phone) w =
  (Ok (if env_clock env (w_tick w) <? otp_expires_at row
       then (mkOTP (otp_id row) (otp_code_hash row) (otp_attempts row), true)
       else (zeroOTP, false)), tick w).
Proof.
  intros Ho. change (@AuthRepo.LatestLiveOTP _) with PgAuthRepo.LatestLiveOTP.
  unfold PgAuthRepo.LatestLiveOTP. rewrite run_bind, run_try, run_exec_read; [|done|].
  - rewrite (latest_outstanding _ _ _ _ Ho). simpl sql_now. by destruct (_ <? _).
  - intros ctx d a d'. unfold AuthQ.LatestLiveOTP. split_match; by intros [= _ <-].
Qed.

(** A code that is spent, by attempts or by time. *)
Definition spent (row : OtpRow) (now : Time) : Prop :=
  Auth.maxAttempts <= otp_attempts row \/ otp_expires_at row <= now.

Lemma run_Verify_spent phone row code w :
  outstanding phone row (w_db w) -> spent row (env_clock env (w_tick w)) ->
  run env (Auth.VerifyOTP secret phone code) w = (Err ErrInvalidOTP, tick w).
Proof.
  intros Ho Hs. unfold Auth.VerifyOTP. rewrite run_bind, (run_Latest _ _ _ Ho).
  destruct (_ <? _) eqn:E; [|done]. bool_prop. destruct Hs as [Hs|Hs]; [|lia].
  simpl. apply Z.leb_le in Hs. by rewrite Hs.
Qed.

(** A wrong guess on a live code costs one attempt. *)
Lemma run_Verify_wrong phone row code w :
  outstanding phone row (w_db w) -> ~ spent row (env_clock env (w_tick w)) ->
  otp_code_hash row <> Auth.hashCode secret code ->
  exists w', run env (Auth.VerifyOTP secret phone code) w = (Err ErrInvalidOTP, w') /\
    outstanding phone (AuthQ.add_attempt row) (w_db w') /\
    (w_tick w <= w_tick w')%nat.
Proof.
  intros Ho Hs Hc. unfold spent in Hs. unfold Auth.VerifyOTP.
  rewrite run_bind, (run_Latest _ _ _ Ho).
  assert (Z.ltb (env_clock env (w_tick w)) (otp_expires_at row) = true) as -> by (apply Z.ltb_lt; lia).
  simpl negb. cbn [orb otpc_Attempts otpc_CodeHash otpc_ID].
  assert (Z.leb Auth.maxAttempts (otp_attempts row) = false) as -> by (apply Z.leb_gt; lia).
  apply String.eqb_neq in Hc. rewrite Hc. simpl negb. cbv iota.
  destruct Ho as (Hsel & Hid & Hp).
  rewrite run_bind, run_ignore.
  change (@AuthRepo.IncrementOTPAttempts _) with PgAuthRepo.IncrementOTPAttempts.
  unfold PgAuthRepo.IncrementOTPAttempts, PgAuthRepo.with_uuid. rewrite Hp.
  rewrite (run_exec env Hnf). unfold AuthQ.IncrementOTPAttempts.
  change (w_db (tick w)) with (w_db w).
  assert (tfind (fun r => AuthQ.has_otp_id (otp_id row) r && (otp_attempts r =? int32_max))
            (otp_codes (w_db w)) = None) as ->.
  { destruct (tfind _ _) as [r|] eqn:E; [|done]. apply tfind_some in E as [Hr E].
    unfold AuthQ.has_otp_id in E. bool_prop. rewrite (Hid r Hr) in * by done.
    unfold Auth.maxAttempts, int32_max in *. lia. }
  eexists. split; [reflexivity|]. simpl. split; [|lia].
  split; [|split].
  - simpl. rewrite tselect_tupdate by done. rewrite Hsel. simpl.
    unfold AuthQ.has_otp_id. by rewrite String.eqb_refl.
  - intros r Hr E. simpl in *. unfold tupdate in Hr. apply in_map_iff in Hr as (r0 & <- & Hr).
    unfold AuthQ.has_otp_id in *. destruct (String.eqb_spec (otp_id r0) (otp_id row)) as [Ei|Ei].
    + by rewrite (Hid r0 Hr Ei).
    + done.
  - exact Hp.
Qed.

(** Guesses, one after the other. *)
Fixpoint guess_all (phone : string) (codes : list string) : prog World unit :=
  match codes with
  | [] => ret tt
  | c :: codes => pbind (pignore (Auth.VerifyOTP secret phone c)) (fun _ => guess_all phone codes)
  end.

(** A spent code stays spent. *)
Lemma spent_stays phone row codes code w :
  (forall n m, (n <= m)%nat -> env_clock env n <= env_clock env m) ->
  outstanding phone row (w_db w) -> spent row (env_clock env (w_tick w)) ->
  fst (run env (do! (guess_all phone codes) in (Auth.VerifyOTP secret phone code)) w)
  = Err ErrInvalidOTP.
Proof.
  intros Hmono. revert w. induction codes as [|c codes IH]; intros w Ho Hs.
  - change (fst (run env (Auth.VerifyOTP secret phone code) w) = Err ErrInvalidOTP).
    by rewrite (run_Verify_spent phone row).
  - cbn [guess_all]. rewrite run_bind, run_bind, run_ignore.
    rewrite (run_Verify_spent phone row c w Ho Hs), <- run_bind. apply IH; [done|].
    destruct Hs as [Hs|Hs]; [by left|right].
    specialize (Hmono (w_tick w) (S (w_tick w)) ltac:(lia)). simpl. lia.
Qed.

(** C22: After five wrong guesses a code is dead: even the right one is
    refused, whenever it comes and whatever was guessed. *)
Theorem guesses_lock_code phone row codes code w :
  (forall n m, (n <= m)%nat -> env_clock env n <= env_clock env m) ->
  outstanding phone row (w_db w) -> 0 <= otp_attempts row ->
  Forall (fun c => otp_code_hash row <> Auth.hashCode secret c) codes ->
  (5 <= length codes)%nat ->
  fst (run env (do! (guess_all phone codes) in (Auth.VerifyOTP secret phone code)) w)
  = Err ErrInvalidOTP.
Proof.
  intros Hmono Ho Ha Hcodes Hlen.
  assert (Auth.maxAttempts <= otp_attempts row + Z.of_nat (length codes)) as Hbudget
    by (unfold Auth.maxAttempts; lia).
  clear Hlen Ha. revert row w Ho Hcodes Hbudget.
  induction codes as [|c codes IH]; intros row w Ho Hcodes Hbudget.
  - simpl in Hbudget. change (fst (run env (Auth.VerifyOTP secret phone code) w) = Err ErrInvalidOTP).
    rewrite (run_Verify_spent phone row); [done|done|]. left. lia.
  - apply List.Forall_cons_iff in Hcodes as [Hc Hcodes].
    cbn [guess_all]. rewrite run_bind, run_bind, run_ignore.
    destruct (Z_lt_ge_dec (otp_attempts row) Auth.maxAttempts) as [Hl|Hg];
      [destruct (Z_lt_ge_dec (env_clock env (w_tick w)) (otp_expires_at row)) as [Hl'|Hg']|].
    + destruct (run_Verify_wrong phone row c w Ho) as (w' & -> & Ho' & _);
        [unfold spent; lia|done|].
      rewrite <- run_bind. apply (IH (AuthQ.add_attempt row)); [done|done|].
      simpl. simpl length in Hbudget. lia.
    + rewrite (run_Verify_spent phone row c w Ho) by (right; lia).
      rewrite <- run_bind. apply (spent_stays phone row); [done|done|].
      right. specialize (Hmono (w_tick w) (S (w_tick w)) ltac:(lia)). simpl. lia.
    + rewrite (run_Verify_spent phone row c w Ho) by (left; lia).
      rewrite <- run_bind. apply (spent_stays phone row); [done|done|]. left. lia.
Qed.

Definition users_parse (d : DB) : Prop :=
  forall r, In r (users d) -> Uuid.Parse (user_id r) = Some (user_id r).

Lemma tfind_in {R} (p : R -> bool) (t : list R) r :
  In r t -> p r = true -> exists r', tfind p t = Some r'.
Proof.
  intros Hr Hp. destruct (tfind p t) as [r'|] eqn:E; [eauto|].
  by rewrite (tfind_none _ _ _ E Hr) in Hp.
Qed.

(** The user of a phone, made on first use. *)
Lemma run_UpsertUserByPhone phone w :
  fresh_from (w_tick w) (w_db w) -> users_parse (w_db w) ->
  exists ur us, run env (AuthRepo.UpsertUserByPhone phone) w =
      (Ok (PgAuthRepo.row_user ur),
       mkWorld (S (w_tick w)) (set_db (set_users us (w_db w)) (w_st w))) /\
    user_phone ur = Some phone /\ In ur us /\
    Uuid.Parse (user_id ur) = Some (user_id ur) /\
    fresh_from (S (w_tick w)) (set_users us (w_db w)).
Proof.
  intros Hf Hp. change (@AuthRepo.UpsertUserByPhone _) with PgAuthRepo.UpsertUserByPhone.
  unfold PgAuthRepo.UpsertUserByPhone. rewrite run_bind, (run_exec env Hnf).
  unfold AuthQ.UpsertUserByPhone.
  destruct (tfind (AuthQ.has_phone phone) (users (w_db w))) as [ur|] eqn:E.
  - exists ur, (users (w_db w)). apply tfind_some in E as [Hin Hph].
    assert (set_users (users (w_db w)) (w_db w) = w_db w) as -> by (by destruct (w_db w)).
    split; [done|]. unfold AuthQ.has_phone in Hph.
    destruct (user_phone ur) as [ph|]; [|done]. bool_prop. subst ph.
    split; [done|]. split; [done|]. split; [by apply Hp|].
    destruct Hf as [H1 H2 H3]. split; intros m r Hm Hr;
      [eapply H1|eapply H2|eapply H3]; try done; lia.
  - assert (tfind (AuthQ.has_user_id (env_uuid env (w_tick w))) (users (w_db w)) = None) as Hn
      by (apply (tfind_fresh user_id); intros r Hr;
          by apply (fresh_users _ _ Hf (w_tick w) r (le_n _) Hr)).
    simpl sql_uuid. rewrite Hn.
    do 2 eexists. split; [reflexivity|]. split; [done|].
    split; [apply in_or_app; right; by left|]. split; [apply (mint_parse Hmint)|].
    destruct Hf as [H1 H2 H3]. split; simpl; intros m r Hm Hr.
    + apply in_app_iff in Hr as [Hr|[<-|[]]]; [eapply H1; [|done]; lia|]. simpl.
      intros E'. apply (mint_inj Hmint) in E'. lia.
    + eapply H2; [|done]. lia.
    + eapply H3; [|done]. lia.
Qed.

(** Once its only outstanding code is consumed, a phone has no live code. *)
Lemma none_live phone now now' row t :
  tselect (unconsumed phone) t = [row] ->
  tselect (AuthQ.live phone now)
    (tupdate (AuthQ.has_otp_id (otp_id row)) (AuthQ.consume now') t) = [].
Proof.
  intros Hsel. destruct (tselect (AuthQ.live phone now) _) as [|r l] eqn:E; [done|]. exfalso.
  assert (In r (tselect (AuthQ.live phone now)
    (tupdate (AuthQ.has_otp_id (otp_id row)) (AuthQ.consume now') t))) as Hr
    by (rewrite E; by left).
  unfold tselect, tupdate in Hr. apply List.filter_In in Hr as [Hr Hl].
  apply in_map_iff in Hr as (r0 & <- & Hr0).
  destruct (AuthQ.has_otp_id _ r0) eqn:Eid.
  - unfold AuthQ.live in Hl. simpl in Hl. rewrite andb_false_r in Hl. done.
  - assert (In r0 (tselect (unconsumed phone) t)) as Hin.
    { apply List.filter_In. split; [done|]. unfold AuthQ.live in Hl. by apply andb_prop in Hl as [Hl _]. }
    rewrite Hsel in Hin. destruct Hin as [<-|[]].
    unfold AuthQ.has_otp_id in Eid. by rewrite String.eqb_refl in Eid.
Qed.

(** Without a live code every code is refused, under any fault. *)
Lemma run_Verify_dead env' phone code w :
  (forall now, tselect (AuthQ.live phone now) (otp_codes (w_db w)) = []) ->
  exists e, run env' (Auth.VerifyOTP secret phone code) w = (Err e, tick w) /\
    (env_fault env' (w_tick w) = NoFault -> e = ErrInvalidOTP).
Proof.
  intros Hdead. unfold Auth.VerifyOTP. rewrite run_bind.
  change (@AuthRepo.LatestLiveOTP _) with PgAuthRepo.LatestLiveOTP.
  unfold PgAuthRepo.LatestLiveOTP. rewrite run_bind, run_try. unfold exec.
  rewrite run_act. unfold exec_step, AuthQ.LatestLiveOTP. rewrite Hdead.
  destruct (env_fault env' (w_tick w)); simpl; by eexists.
Qed.

(** C23: While the database serves every statement, the code a phone has
    outstanding (its only one, live and not locked) logs the phone in when it
    is presented, and every presentation that begins after that one has ended
    is refused, whatever code it carries and whatever faults it meets, as long
    as no new code was requested. Presentations that overlap are outside the
    statement: see [overlapping_presentations_both_log_in]. *)
Theorem code_works_once phone row code w :
  fresh_from (w_tick w) (w_db w) -> users_parse (w_db w) ->
  outstanding phone row (w_db w) -> ~ spent row (env_clock env (w_tick w)) ->
  otp_code_hash row = Auth.hashCode secret code ->
  exists token su w1,
    run env (Auth.VerifyOTP secret phone code) w = (Ok (token, su), w1) /\
    su_Phone su = phone /\
    (forall w2, otp_codes (w_db w2) = otp_codes (w_db w1) ->
       run env (Auth.VerifyOTP secret phone code) w2 = (Err ErrInvalidOTP, tick w2)) /\
    (forall env' code' w2, otp_codes (w_db w2) = otp_codes (w_db w1) ->
       exists e, fst (run env' (Auth.VerifyOTP secret phone code') w2) = Err e).
Proof.
  intros Hf Hup Ho Hs Hc. unfold spent in Hs.
  destruct (id Ho) as (Hsel & Hid & Hp).
  set (row' := AuthQ.consume (env_clock env (S (w_tick w)))).
  set (w0 := mkWorld (S (S (w_tick w)))
    (set_db (set_otp_codes (tupdate (AuthQ.has_otp_id (otp_id row)) row' (otp_codes (w_db w)))
       (w_db w)) (w_st w))).
  assert (run env (Auth.VerifyOTP secret phone code) w =
    run env (let! user := AuthRepo.UpsertUserByPhone phone in Auth.issueSession user) w0) as ->.
  { unfold Auth.VerifyOTP. rewrite run_bind, (run_Latest _ _ _ Ho).
    assert (Z.ltb (env_clock env (w_tick w)) (otp_expires_at row) = true) as -> by (apply Z.ltb_lt; lia).
    simpl negb. cbn [orb otpc_Attempts otpc_CodeHash otpc_ID].
    assert (Z.leb Auth.maxAttempts (otp_attempts row) = false) as -> by (apply Z.leb_gt; lia).
    rewrite Hc, String.eqb_refl. simpl negb. cbv iota. rewrite run_bind.
    change (@AuthRepo.ConsumeOTP _) with PgAuthRepo.ConsumeOTP.
    unfold PgAuthRepo.ConsumeOTP, PgAuthRepo.with_uuid. rewrite Hp.
    rewrite (run_exec env Hnf). done. }
  assert (fresh_from (w_tick w0) (w_db w0)) as Hf0.
  { destruct Hf as [H1 H2 H3]. split; simpl; intros m r Hm Hr.
    - eapply H1; [|done]. lia.
    - unfold tupdate in Hr. apply in_map_iff in Hr as (r0 & <- & Hr).
      destruct (AuthQ.has_otp_id _ r0); exact (H2 m r0 ltac:(lia) Hr).
    - eapply H3; [|done]. lia. }
  destruct (run_UpsertUserByPhone phone w0 Hf0 Hup)
    as (ur & us & Hrun & Hph & Hin & Hparse & Hf1).
  rewrite run_bind, Hrun.
  destruct (tfind_in (AuthQ.has_user_id (user_id ur)) us ur Hin (String.eqb_refl _)) as [ur' Hfind].
  rewrite (run_issueSession _ ur'); [|exact Hf1|exact Hparse|exact Hfind].
  do 3 eexists. split; [reflexivity|]. split; [by simpl; rewrite Hph|].
  assert (forall now, tselect (AuthQ.live phone now)
    (tupdate (AuthQ.has_otp_id (otp_id row)) row' (otp_codes (w_db w))) = []) as Hdead
    by (intros now; by apply none_live).
  split.
  - intros w2 E2. destruct (run_Verify_dead env phone code w2) as (e & -> & He);
      [by rewrite E2|by rewrite (He (Hnf _))].
  - intros env' code' w2 E2. destruct (run_Verify_dead env' phone code' w2) as (e & -> & _);
      [by rewrite E2|by exists e].
Qed.

(** ** Passwords *)

(** Past the guards: hash, then create and log in. *)
Lemma run_Register_guards email password name w :
  Auth.fold_email email <> "" -> (8 <= String.length password <= 72)%nat ->
  run env (Auth.Register email password name) w =
  run env (let! user := AuthRepo.CreateUserWithPassword (Auth.fold_email email)
             (Strings.TrimSpace name)
             (Bcrypt.Hash (bytes_from (env_rand env (w_tick w)) 16) password) in
           Auth.issueSession user) (mkWorld (S (w_tick w)) (w_st w)).
Proof.
  intros Hne Hpw. unfold Auth.Register.
  apply String.eqb_neq in Hne. rewrite Hne. unfold Auth.minPasswordLen.
  assert ((String.length password <? 8)%nat = false) as -> by (apply Nat.ltb_ge; lia).
  simpl orb. cbv iota. unfold Bcrypt.GenerateFromPassword.
  assert ((72 <? String.length password)%nat = false) as -> by (apply Nat.ltb_ge; lia).
  done.
Qed.

(** A new account: one row, with the hash of the password. *)
Lemma run_Register_new email password name w :
  let folded := Auth.fold_email email in
  folded <> "" -> (8 <= String.length password <= 72)%nat ->
  forallb text_ok [folded; Strings.TrimSpace name] = true ->
  fresh_from (w_tick w) (w_db w) ->
  tfind (AuthQ.has_email folded) (users (w_db w)) = None ->
  let id := env_uuid env (S (w_tick w)) in
  let hash := Bcrypt.Hash (bytes_from (env_rand env (w_tick w)) 16) password in
  exists token su row w1,
    run env (Auth.Register email password name) w = (Ok (token, su), w1) /\
    su_UserID su = id /\ su_Email su = folded /\
    user_id row = id /\ user_email row = Some folded /\ user_password_hash row = Some hash /\
    users (w_db w1) = users (w_db w) ++ [row].
Proof.
  intros folded Hne Hpw Htext Hf Hnone id hash. rewrite run_Register_guards by done.
  fold folded hash.
  set (w0 := mkWorld (S (w_tick w)) (w_st w)).
  set (row := mkUserRow id None (Some folded) (Some (Strings.TrimSpace name))
                (env_clock env (S (w_tick w))) (Some hash)).
  set (w1 := mkWorld (S (S (w_tick w))) (set_db (set_users (users (w_db w) ++ [row]) (w_db w)) (w_st w))).
  assert (run env (let! user := AuthRepo.CreateUserWithPassword folded (Strings.TrimSpace name) hash
                   in Auth.issueSession user) w0 =
          run env (Auth.issueSession (mkUser id "" folded (Strings.TrimSpace name))) w1) as Hrun.
  { rewrite run_bind. change (@AuthRepo.CreateUserWithPassword _) with PgAuthRepo.CreateUserWithPassword.
    unfold PgAuthRepo.CreateUserWithPassword. rewrite run_bind, run_try, (run_exec env Hnf).
    unfold AuthQ.InsertUser, with_text. rewrite Htext. change (w_db w0) with (w_db w). rewrite tfind_fresh_if; [done|done|].
    apply (tfind_fresh user_id). intros r Hr. apply (fresh_users _ _ Hf (S (w_tick w)) r); [lia|done]. }
  assert (fresh_from (w_tick w1) (w_db w1)) as Hf1.
  { destruct Hf as [H1 H2 H3]. split; simpl; intros m r Hm Hr;
      [|apply (H2 m r); [lia|done]|apply (H3 m r); [lia|done]].
    apply in_app_iff in Hr as [Hr|[<-|[]]]; [apply (H1 m r); [lia|done]|]. simpl.
    intros E. apply (mint_inj Hmint) in E. lia. }
  destruct (tfind_in (AuthQ.has_user_id id) (users (w_db w1)) row) as [ur Hur];
    [apply in_or_app; right; by left|apply String.eqb_refl|].
  pose proof (run_issueSession (mkUser id "" folded (Strings.TrimSpace name)) ur w1 Hf1
    (mint_parse Hmint _) Hur) as Hsess.
  do 2 eexists. exists row. eexists. split; [exact (eq_trans Hrun Hsess)|]. done.
Qed.

(** Logging in against the stored row. *)
Lemma run_Login_issue email password row hash w :
  text_ok (Auth.fold_email email) = true ->
  tfind (AuthQ.has_email (Auth.fold_email email)) (users (w_db w)) = Some row ->
  user_password_hash row = Some hash -> hash <> "" ->
  run env (Auth.Login email password) w =
  run env (if Bcrypt.Compare hash password then Auth.issueSession (PgAuthRepo.row_user row)
           else fail ErrInvalidCredentials) (tick w).
Proof.
  intros Htext Hrow Hh Hne.
  unfold Auth.Login. rewrite run_bind. change (@AuthRepo.UserByEmail _) with PgAuthRepo.UserByEmail.
  unfold PgAuthRepo.UserByEmail. rewrite run_bind, run_try, run_exec_read; [|done|].
  - unfold AuthQ.SelectUserByEmail, with_text. cbn [forallb]. rewrite Htext, Hrow. cbn -[Bcrypt.Compare Auth.issueSession].
    rewrite Hh. apply String.eqb_neq in Hne. simpl deref. rewrite Hne.
    by destruct (Bcrypt.Compare hash password).
  - intros ctx d a d' H%with_text_ok. revert H. split_match; by intros [= _ <-].
Qed.

Lemma fresh_later w : fresh_from (w_tick w) (w_db w) -> fresh_from (w_tick (tick w)) (w_db (tick w)).
Proof.
  intros [H1 H2 H3]. split; simpl; intros m r Hm Hr;
    [apply (H1 m r)|apply (H2 m r)|apply (H3 m r)]; try done; lia.
Qed.

Lemma run_Login email password row hash w :
  text_ok (Auth.fold_email email) = true ->
  fresh_from (w_tick w) (w_db w) ->
  tfind (AuthQ.has_email (Auth.fold_email email)) (users (w_db w)) = Some row ->
  user_password_hash row = Some hash -> hash <> "" ->
  Uuid.Parse (user_id row) = Some (user_id row) ->
  if Bcrypt.Compare hash password then
    exists token w1, run env (Auth.Login email password) w =
      (Ok (token, session_of (PgAuthRepo.row_user row)
                    (env_clock env (S (S (w_tick w))) + Auth.sessionTTL)), w1)
  else run env (Auth.Login email password) w = (Err ErrInvalidCredentials, tick w).
Proof.
  intros Htext Hf Hrow Hh Hne Hp. rewrite (run_Login_issue _ _ _ _ _ Htext Hrow Hh Hne).
  destruct (Bcrypt.Compare hash password); [|done].
  pose proof (fresh_later _ Hf) as Hf1.
  apply tfind_some in Hrow as [Hin _].
  destruct (tfind_in (AuthQ.has_user_id (user_id row)) (users (w_db w)) row Hin
    (String.eqb_refl _)) as [ur Hur].
  do 2 eexists. exact (run_issueSession (PgAuthRepo.row_user row) ur (tick w) Hf1 Hp Hur).
Qed.

(** An account registered under an address is found again under every
    spelling of it that differs in case or outer blanks: the password logs in to
    the same user, a second registration is refused as taken, and a password
    that does not match is refused. *)
Theorem Register_then_Login email password name w :
  let folded := Auth.fold_email email in
  folded <> "" -> (8 <= String.length password <= 72)%nat ->
  forallb text_ok [folded; Strings.TrimSpace name] = true ->
  fresh_from (w_tick w) (w_db w) ->
  tfind (AuthQ.has_email folded) (users (w_db w)) = None ->
  exists token su w1,
    run env (Auth.Register email password name) w = (Ok (token, su), w1) /\
    forall w2 email', users (w_db w2) = users (w_db w1) -> fresh_from (w_tick w2) (w_db w2) ->
      Auth.fold_email email' = folded ->
      (exists token2 su2 w3, run env (Auth.Login email' password) w2 = (Ok (token2, su2), w3) /\
         su_UserID su2 = su_UserID su) /\
      (forall password' name', (8 <= String.length password' <= 72)%nat ->
         text_ok (Strings.TrimSpace name') = true ->
         fst (run env (Auth.Register email' password' name') w2) = Err ErrEmailTaken) /\
      (exists hash, forall password', Bcrypt.Compare hash password' = false ->
         run env (Auth.Login email' password') w2 = (Err ErrInvalidCredentials, tick w2)).
Proof.
  intros folded Hne Hpw Htext Hf Hnone.
  assert (text_ok folded = true) as Hft by (by apply andb_prop in Htext as [? _]).
  destruct (run_Register_new email password name w Hne Hpw Htext Hf Hnone)
    as (token & su & row & w1 & Hrun & Hsu & _ & Hrid & Hre & Hrh & Hus).
  fold folded in Hre. exists token, su, w1. split; [done|]. intros w2 email' Hu2 Hf2 He.
  assert (tfind (AuthQ.has_email (Auth.fold_email email')) (users (w_db w2)) = Some row) as Hrow.
  { rewrite He, Hu2, Hus, tfind_app, Hnone. simpl. unfold AuthQ.has_email.
    rewrite Hre. by rewrite String.eqb_refl. }
  assert (Uuid.Parse (user_id row) = Some (user_id row)) as Hp
    by (rewrite Hrid; apply (mint_parse Hmint)).
  pose proof (fun p => run_Login email' p row _ w2 ltac:(by rewrite He) Hf2 Hrow Hrh
    (Bcrypt.Hash_nonempty _ _) Hp) as Hlogin.
  split; [|split].
  - pose proof (Hlogin password) as H. rewrite Bcrypt.Compare_Hash in H by lia.
    destruct H as (token2 & w3 & ->). do 3 eexists. split; [reflexivity|].
    simpl. by rewrite Hrid, Hsu.
  - intros password' name' Hpw' Hn'. rewrite run_Register_guards by (by rewrite ?He).
    rewrite He, run_bind.
    change (@AuthRepo.CreateUserWithPassword _) with PgAuthRepo.CreateUserWithPassword.
    unfold PgAuthRepo.CreateUserWithPassword. rewrite run_bind, run_try, (run_exec env Hnf).
    unfold AuthQ.InsertUser, with_text. cbn [forallb]. rewrite Hft, Hn'.
    destruct (tfind_in (fun r => AuthQ.has_email folded r || AuthQ.has_user_id
      (env_uuid env (S (w_tick w2))) r) (users (w_db w2)) row) as [r Hr].
    + rewrite He in Hrow. by apply tfind_some in Hrow as [? _].
    + rewrite He in Hrow. apply tfind_some in Hrow as [_ Hrow]. by rewrite Hrow.
    + change (w_db (mkWorld _ (w_st w2))) with (w_db w2). simpl sql_uuid. by rewrite Hr.
  - eexists. intros password' Hc. pose proof (Hlogin password') as H. by rewrite Hc in H.
Qed.

(** ** Organisations *)

(** The org id drawn at a tick, unused so far. *)
Definition org_at (n : nat) : string := Uuid.of_bytes (bytes_from (env_rand env n) 16).

Record org_unused (id : string) (d : DB) : Prop := {
  unused_flow : forall r, In r (flows d) -> flowr_id r <> "flow_" +:+ id;
  unused_credits : org_credits d !! id = None;
  unused_ledger : forall r, In r (credit_ledger d) -> led_id r <> "seed_" +:+ id
}.

Lemma run_exec_ignored {A} (s : stmt A) a d w :
  s (ctx_at env w) (w_db w) = inl (a, d) ->
  run env (pignore (exec s)) w = (Ok tt, mkWorld (S (w_tick w)) (set_db d (w_st w))).
Proof. intros H. by rewrite run_ignore, (run_exec env Hnf), H. Qed.

(** The seed: a flow, 500 credits, and the ledger row that explains them. *)
Lemma run_seed id w spec :
  org_unused id (w_db w) -> env_jsonb env PgOrgRepo.defaultOrderConfirmSpec = Some spec ->
  exists w' flow led, run env (PgOrgRepo.seed id) w = (Ok tt, w') /\
    orgs (w_db w') = orgs (w_db w) /\
    flows (w_db w') = flows (w_db w) ++ [flow] /\
    flowr_org_id flow = id /\ flowr_name flow = "order_confirm" /\ flowr_is_active flow = true /\
    flowr_spec flow = spec /\
    org_credits (w_db w') = <[id := 500]> (org_credits (w_db w)) /\
    credit_ledger (w_db w') = credit_ledger (w_db w) ++ [led] /\
    led_org_id led = id /\ led_delta led = 500 /\ led_reason led = "signup_grant".
Proof.
  intros [Hfl Hc Hl] Hj. unfold PgOrgRepo.seed.
  (* the flow *)
  set (flow := mkFlowRow ("flow_" +:+ id) id "order_confirm" 1 "voice" "ivr" "en" spec true
                 (env_clock env (w_tick w))).
  set (d1 := set_flows (flows (w_db w) ++ [flow]) (w_db w)).
  rewrite run_bind, (run_exec_ignored _ tt d1).
  2: { unfold FlowQ.CreateFlow, with_text.
       change (forallb text_ok _) with true. cbv iota. simpl sql_jsonb. rewrite Hj.
       by rewrite (tfind_fresh flowr_id) by done. }
  set (w1 := mkWorld (S (w_tick w)) (set_db d1 (w_st w))).
  (* the account *)
  set (d2 := set_org_credits (<[id := 0]> (org_credits d1)) d1).
  rewrite run_bind, (run_exec_ignored _ tt d2).
  2: { unfold CreditQ.EnsureCreditAccount. change (org_credits (w_db w1)) with (org_credits (w_db w)).
       by rewrite Hc. }
  set (w2 := mkWorld (S (w_tick w1)) (set_db d2 (w_st w1))).
  (* the grant *)
  set (d3 := set_org_credits (<[id := 500]> (org_credits d2)) d2).
  set (w3 := mkWorld (S (w_tick w2)) (set_db d3 (w_st w2))).
  assert (run env (exec (CreditQ.AdjustBalance id 500)) w2 = (Ok 500, w3)) as Hadj.
  { rewrite (run_exec env Hnf). unfold CreditQ.AdjustBalance.
    change (org_credits (w_db w2)) with (<[id := 0]> (org_credits (w_db w))).
    by rewrite lookup_insert_eq. }
  rewrite run_bind, run_try, Hadj.
  (* its explanation *)
  set (led := mkLedgerRow ("seed_" +:+ id) id 500 "signup_grant" (env_clock env (w_tick w3))).
  rewrite (run_exec_ignored _ tt (set_credit_ledger (credit_ledger (w_db w) ++ [led]) d3)).
  2: { unfold CreditQ.AddLedger. change (credit_ledger (w_db w3)) with (credit_ledger (w_db w)).
       by rewrite (tfind_fresh led_id) by done. }
  eexists. exists flow, led. split; [reflexivity|]. do 6 (split; [done|]).
  split; [|done]. change (<[id := 500]> (<[id := 0]> (org_credits (w_db w))) =
                          <[id := 500]> (org_credits (w_db w))).
  apply insert_insert_eq.
Qed.

(** The first authenticated request of a user opens one organisation, with
    an active order_confirm flow and 500 credits that the ledger explains; every
    later request finds the same organisation and changes nothing. *)
Theorem EnsureForUser_once uid ur name spec w :
  let id := org_at (S (w_tick w)) in
  Uuid.Parse uid = Some uid -> tfind (AuthQ.has_user_id uid) (users (w_db w)) = Some ur ->
  tfind (OrgQ.owned_by uid) (orgs (w_db w)) = None ->
  (forall r, In r (orgs (w_db w)) -> orgr_id r <> id) ->
  org_unused id (w_db w) -> env_jsonb env PgOrgRepo.defaultOrderConfirmSpec = Some spec ->
  exists w1 flow led,
    run env (PgOrgRepo.EnsureForUser uid name) w = (Ok (mkOrg id name), w1) /\
    org_credits (w_db w1) = <[id := 500]> (org_credits (w_db w)) /\
    credit_ledger (w_db w1) = credit_ledger (w_db w) ++ [led] /\
    led_org_id led = id /\ led_delta led = 500 /\
    flows (w_db w1) = flows (w_db w) ++ [flow] /\
    flowr_org_id flow = id /\ flowr_name flow = "order_confirm" /\ flowr_is_active flow = true /\
    forall w2 name', orgs (w_db w2) = orgs (w_db w1) ->
      run env (PgOrgRepo.EnsureForUser uid name') w2 = (Ok (mkOrg id name), tick w2).
Proof.
  intros id Hp Hu Hno Hnew Hun Hj.
  set (row := mkOrgRow id name uid (env_clock env (S (S (w_tick w))))).
  set (w0 := mkWorld (S (S (S (S (w_tick w)))))
    (set_db (set_orgs (orgs (w_db w) ++ [row]) (w_db w)) (w_st w))).
  assert (forall d, orgs d = orgs (w_db w) ++ [row] ->
    tfind (OrgQ.owned_by uid) (orgs d) = Some row) as Hfind.
  { intros d ->. rewrite tfind_app, Hno. simpl. unfold OrgQ.owned_by. simpl.
    by rewrite String.eqb_refl. }
  assert (forall w2, orgs (w_db w2) = orgs (w_db w) ++ [row] ->
    run env (exec (OrgQ.GetOrgByOwner uid)) w2 = (Ok row, tick w2)) as Hget.
  { intros w2 E. rewrite run_exec_read; [|done|].
    - unfold OrgQ.GetOrgByOwner. by rewrite Hfind.
    - intros ctx d a d'. unfold OrgQ.GetOrgByOwner. split_match; by intros [= _ <-]. }
  assert (org_unused id (w_db w0)) as Hun0 by (destruct Hun; by split).
  destruct (run_seed id w0 spec Hun0 Hj)
    as (w1 & flow & led & Hseed & Horgs & Hfl & Hf1 & Hf2 & Hf3 & _ & Hcr & Hled & Hl1 & Hl2 & _).
  exists w1, flow, led. split.
  - transitivity (run env (do! PgOrgRepo.seed id in ret (mkOrg id name)) w0);
      [|by rewrite run_bind, Hseed].
    unfold PgOrgRepo.EnsureForUser, PgAuthRepo.with_uuid. rewrite Hp, run_bind, run_try.
    rewrite (run_exec env Hnf). unfold OrgQ.GetOrgByOwner at 1. rewrite Hno. rewrite run_bind.
    change (run env (rand_Read 16) (tick w))
      with (@Ok string (bytes_from (env_rand env (S (w_tick w))) 16), tick (tick w)).
    cbv iota beta. fold (org_at (S (w_tick w))). fold id. rewrite run_bind, (run_exec env Hnf).
    unfold OrgQ.CreateOrg. change (w_db (tick (tick w))) with (w_db w).
    rewrite Hno, Hu.
    assert (tfind (OrgQ.has_id id) (orgs (w_db w)) = None) as -> by (by apply (tfind_fresh orgr_id)).
    rewrite run_bind. rewrite Hget by done. simpl orgr_id. by rewrite String.eqb_refl.
  - do 8 (split; [done|]). intros w2 name' E. rewrite Horgs in E. simpl in E.
    unfold PgOrgRepo.EnsureForUser, PgAuthRepo.with_uuid. rewrite Hp, run_bind, run_try.
    by rewrite Hget.
Qed.
End NoFaults.

(** ** A concrete world *)

Module AuthDemo.
#[export] Instance uuid : Uuid.T := {| Uuid.Parse s := Some s; Uuid.of_bytes b := b |}.
#[export] Instance hmac : HMAC.T := {| HMAC.SHA256 k m := k +:+ m |}.
#[export] Instance sha : SHA256.T := {| SHA256.Sum256 s := s |}.
#[export] Instance bcrypt : Bcrypt.T :=
  {| Bcrypt.Hash _ p := "$" +:+ p; Bcrypt.Compare h p := (h =? "$" +:+ p)%string |}.
#[export] Instance bcrypt_laws : Bcrypt.Laws bcrypt.
Proof. split; [|done]. intros salt p Hp. apply String.eqb_refl. Qed.

(** Distinct names for the ticks: n strokes. *)
Fixpoint strokes (n : nat) : string :=
  match n with O => "." | S n => "|" +:+ strokes n end.

Lemma strokes_inj n m : strokes n = strokes m -> n = m.
Proof. revert m. induction n as [|n IH]; intros [|m] H; simpl in H; try done.
  injection H as H. by rewrite (IH _ H). Qed.

Definition env : Env :=
  mkEnv (fun n => Z.of_nat n) (fun _ => NoFault)
    (fun n i => byte_chr (Z.of_nat (n + i))) strokes Some.

Lemma mint : minting env.
Proof. split; [done|]. exact strokes_inj. Qed.

Lemma fresh0 n : fresh_from env n emptyDB.
Proof. split; intros m r _ []. Qed.

Definition owner : UserRow := mkUserRow "u" (Some "+8801700000000") None None 0 None.
Definition code_row : OtpRow := mkOtpRow "o" "+8801700000000" "kright" 0 (5 * Minute) None 0.
Definition with_code : World :=
  mkWorld 0 (mkState (set_users [owner] (set_otp_codes [code_row] emptyDB)) [] []).

Lemma outstanding_code : outstanding "+8801700000000" code_row (w_db with_code).
Proof. split; [reflexivity|]. split; [|done]. by intros r [<-|[]]. Qed.

Lemma strokes_not n s : String.prefix "|" s = false -> String.prefix "." s = false ->
  s <> strokes n.
Proof. intros H1 H2 ->. destruct n; simpl in *; [done|]. by rewrite Strings.prefix_nil in H1. Qed.

Lemma fresh_code : fresh_from env 0 (w_db with_code).
Proof.
  split; intros m r _ Hr; [destruct Hr as [<-|[]]|destruct Hr as [<-|[]]|destruct Hr];
    by apply strokes_not.
Qed.

#[local] Existing Instances PgAuthRepo.repo PgOrgRepo.repo RealClock.clock.

Lemma session_lifecycle_witness :
  exists token exp w1,
    run env (Auth.issueSession (PgAuthRepo.row_user owner)) with_code
      = (Ok (token, session_of (PgAuthRepo.row_user owner) exp), w1) /\
    exp = env_clock env 1 + 30 * 24 * Hour /\
    (forall w2, sessions (w_db w2) = sessions (w_db w1) -> users (w_db w2) = users (w_db w1) ->
       run env (Auth.Resolve token) w2 =
         (Ok (if env_clock env (w_tick w2) <? exp
              then (session_of (PgAuthRepo.row_user owner) exp, true)
              else (zeroSessionUser, false)), tick w2) /\
       exists w3, run env (Auth.Logout token) w2 = (Ok tt, w3) /\
         (forall w4, sessions (w_db w4) = sessions (w_db w3) ->
            run env (Auth.Resolve token) w4 = (Ok (zeroSessionUser, false), tick w4)) /\
         (forall token' now, Auth.hashToken token' <> Auth.hashToken token ->
            lookup_session (w_db w3) (Auth.hashToken token') now =
            lookup_session (w_db w2) (Auth.hashToken token') now)).
Proof.
  exact (session_lifecycle env (fun _ => eq_refl) (PgAuthRepo.row_user owner) owner with_code
           fresh_code eq_refl eq_refl eq_refl).
Defined.

Lemma guesses_lock_code_witness :
  fst (run env (do! (guess_all "k" "+8801700000000" ["1"; "2"; "3"; "4"; "5"]) in
                (Auth.VerifyOTP "k" "+8801700000000" "right")) with_code)
  = Err ErrInvalidOTP.
Proof.
  apply (guesses_lock_code env (fun _ => eq_refl) "k" "+8801700000000" code_row).
  - intros n m Hnm. simpl. lia.
  - apply outstanding_code.
  - done.
  - repeat constructor; discriminate.
  - simpl. lia.
Defined.

Lemma code_works_once_witness :
  exists token su w1,
    run env (Auth.VerifyOTP "k" "+8801700000000" "right") with_code = (Ok (token, su), w1) /\
    su_Phone su = "+8801700000000" /\
    (forall w2, otp_codes (w_db w2) = otp_codes (w_db w1) ->
       run env (Auth.VerifyOTP "k" "+8801700000000" "right") w2 = (Err ErrInvalidOTP, tick w2)) /\
    (forall env' code' w2, otp_codes (w_db w2) = otp_codes (w_db w1) ->
       exists e, fst (run env' (Auth.VerifyOTP "k" "+8801700000000" code') w2) = Err e).
Proof.
  apply (code_works_once env (fun _ => eq_refl) "k" mint "+8801700000000" code_row "right").
  - apply fresh_code.
  - by intros r _.
  - apply outstanding_code.
  - intros [H|H]; vm_compute in H; by apply H.
  - reflexivity.
Defined.

Lemma Register_then_Login_witness :
  exists token su w1,
    run env (Auth.Register " Bob@Shop.COM" "password1" "Bob") world0 = (Ok (token, su), w1) /\
    forall w2 email', users (w_db w2) = users (w_db w1) -> fresh_from env (w_tick w2) (w_db w2) ->
      Auth.fold_email email' = "bob@shop.com" ->
      (exists token2 su2 w3, run env (Auth.Login email' "password1") w2 = (Ok (token2, su2), w3) /\
         su_UserID su2 = su_UserID su) /\
      (forall password' name', (8 <= String.length password' <= 72)%nat ->
         text_ok (Strings.TrimSpace name') = true ->
         fst (run env (Auth.Register email' password' name') w2) = Err ErrEmailTaken) /\
      (exists hash, forall password', Bcrypt.Compare hash password' = false ->
         run env (Auth.Login email' password') w2 = (Err ErrInvalidCredentials, tick w2)).
Proof.
  apply (Register_then_Login env (fun _ => eq_refl) mint " Bob@Shop.COM" "password1" "Bob").
  - vm_compute. discriminate.
  - simpl. lia.
  - reflexivity.
  - apply fresh0.
  - reflexivity.
Defined.

Lemma EnsureForUser_once_witness :
  let id := org_at env 1 in
  exists w1 flow led,
    run env (PgOrgRepo.EnsureForUser "u" "My Store") with_code = (Ok (mkOrg id "My Store"), w1) /\
    org_credits (w_db w1) = <[id := 500]> (org_credits (w_db with_code)) /\
    credit_ledger (w_db w1) = credit_ledger (w_db with_code) ++ [led] /\
    led_org_id led = id /\ led_delta led = 500 /\
    flows (w_db w1) = flows (w_db with_code) ++ [flow] /\
    flowr_org_id flow = id /\ flowr_name flow = "order_confirm" /\ flowr_is_active flow = true /\
    forall w2 name', orgs (w_db w2) = orgs (w_db w1) ->
      run env (PgOrgRepo.EnsureForUser "u" name') w2 = (Ok (mkOrg id "My Store"), tick w2).
Proof.
  apply (EnsureForUser_once env (fun _ => eq_refl) "u" owner "My Store"
           PgOrgRepo.defaultOrderConfirmSpec with_code); try reflexivity.
  - intros r [].
  - split; [intros r []|reflexivity|intros r []].
Defined.

(** Ten guesses made at once: each reads the code before any is counted, so the
    right one logs in although nine wrong ones were counted, against a cap of
    five. *)
Definition guesses : list (prog World unit) :=
  map (fun c => spawn (Auth.VerifyOTP "k" "+8801700000000" c))
    ["1"; "2"; "3"; "4"; "5"; "6"; "7"; "8"; "9"; "right"].

Theorem concurrent_guesses_exceed_cap :
  let w := snd (run_sched env (seq 0 10 ++ seq 0 10 ++ [9; 9; 9; 9]%nat) guesses with_code) in
  map otp_attempts (otp_codes (w_db w)) = [9] /\
  map session_user_id (sessions (w_db w)) = ["u"].
Proof. vm_compute. by split. Qed.

(** The right code presented twice at once: both presentations read it before
    either consumes it, and [ConsumeOTP] does not tell the second that the
    first was there, so both open a session. *)
Theorem overlapping_presentations_both_log_in :
  let t := spawn (Auth.VerifyOTP "k" "+8801700000000" "right") in
  let w := snd (run_sched env ([0; 1] ++ repeat 0 20 ++ repeat 1 20)%nat [t; t] with_code) in
  map session_user_id (sessions (w_db w)) = ["u"; "u"].
Proof. vm_compute. reflexivity. Qed.

(** The statement that writes the ledger row of the seed is lost. *)
Definition lossy : Env :=
  mkEnv (env_clock env) (fun n => if (n =? 7)%nat then FaultBefore "conn reset" else NoFault)
    (env_rand env) (env_uuid env) (env_jsonb env).

Definition seeded : World := snd (run lossy (PgOrgRepo.EnsureForUser "u" "My Store") with_code).

(** The request succeeds, the org has 500 credits, and no ledger row explains
    them; the next request finds the org and repairs nothing. *)
Theorem lost_seed_leaves_unexplained_credits :
  let org := org_at lossy 1 in
  fst (run lossy (PgOrgRepo.EnsureForUser "u" "My Store") with_code) = Ok (mkOrg org "My Store") /\
  balance_of (w_st seeded) org = 500 /\ credit_ledger (w_db seeded) = [] /\
  w_db (snd (run env (PgOrgRepo.EnsureForUser "u" "My Store") seeded)) = w_db seeded.
Proof. vm_compute. repeat split; reflexivity. Qed.
End AuthDemo.
