(* ===== verification/PgChat.v ===== *)
(** * Conversations, insights, settings and channels in Postgres

    internal/adapter/postgres/chat.go, chatsettings.go, insights.go and
    channels.go over gen/chat.sql.go, gen/chatsettings.sql.go,
    gen/insights.sql.go and gen/channels.sql.go; the records and ports of
    domain/chat.go and domain/messaging.go.  The text columns of these tables
    hold arbitrary customer text, so their statements refuse what a UTF-8
    database refuses. *)

From S2P Require Import Prelude.
From S2P Require Import Domain.
From S2P Require Import Effects.
From S2P Require Import GoLib.
From S2P Require Import Store.
From S2P Require Import Ports.
From stdpp Require Import gmap strings list.
From Stdlib Require Import ZArith Lia.

Open Scope Z_scope.
Open Scope go_scope.

(** ** domain/chat.go *)

Record Conversation := mkConversation {
  cv_ID : string; cv_Channel : string; cv_ExternalUser : string; cv_Status : string;
  cv_LastMessage : string; cv_MessageCount : Z; cv_CreatedAt : Time; cv_UpdatedAt : Time
}.

Record Message := mkMessage { m_Role : string; m_Content : string; m_CreatedAt : Time }.

Record ChatSettings := mkChatSettings {
  cs_Instructions : string; cs_WidgetTitle : string; cs_Welcome : string; cs_Accent : string
}.

Definition zeroChatSettings : ChatSettings := mkChatSettings "" "" "" "".

Definition DefaultChatSettings : ChatSettings :=
  mkChatSettings "" "Chat with us" "Hi! 👋 How can I help you today?" "#111827".

Record ConversationInsight := mkConversationInsight {
  in_Summary : string; in_Outcome : string; in_Sentiment : string; in_NextAction : string;
  in_CreatedAt : Time
}.

Definition zeroInsight : ConversationInsight := mkConversationInsight "" "" "" "" zeroTime.

Definition OutcomeResolved : string := "resolved".
Definition OutcomePending : string := "pending".
Definition OutcomeSale : string := "sale".
Definition OutcomeNeedsHuman : string := "needs_human".
Definition OutcomeUnknown : string := "unknown".
Definition SentimentPositive : string := "positive".
Definition SentimentNeutral : string := "neutral".
Definition SentimentNegative : string := "negative".

Definition ConvOpen : string := "open".
Definition ConvHandling : string := "handling".
Definition ConvClosed : string := "closed".

Module ChatSettingsRepo.
Class T := {
  Get : OrgID -> prog World ChatSettings;
  Upsert : OrgID -> ChatSettings -> prog World unit
}.
End ChatSettingsRepo.

Module ChatModel.
Class T := { Reply : string -> list Message -> prog World string }.
Class Laws (C : T) : Prop := { Reply_quiet : forall p h, guar quiet (Reply p h) }.
End ChatModel.

Module Summarizer.
Class T := { Summarize : list Message -> ConversationInsight + goerr }.
End Summarizer.

Module InsightRepo.
Class T := {
  Save : OrgID -> string -> ConversationInsight -> prog World unit;
  Get : string -> prog World (ConversationInsight * bool)
}.
End InsightRepo.

Module ChatRepo.
Class T := {
  CreateConversation : OrgID -> string -> prog World unit;
  GetConversation : string -> prog World (OrgID * string * bool);
  ChannelTarget : string -> prog World (string * string);
  SetStatus : string -> string -> prog World unit;
  ListConversations : OrgID -> Z -> prog World (list Conversation);
  AddMessage : string -> string -> string -> prog World unit;
  Messages : string -> prog World (list Message);
  FindOrCreateChannelConversation : OrgID -> string -> string -> prog World string
}.
End ChatRepo.

(** ** domain/messaging.go *)

Record ChannelConnection := mkChannelConnection {
  cc_Type : string; cc_ExternalID : string; cc_CreatedAt : Time
}.

Module ChannelRepo.
Class T := {
  Upsert : OrgID -> string -> string -> string -> string -> prog World unit;
  List : OrgID -> prog World (list ChannelConnection);
  Delete : OrgID -> string -> prog World unit;
  ByExternalID : string -> prog World (OrgID * string * string * string * bool);
  ByOrgAndType : OrgID -> string -> prog World (string * string * bool);
  OrgForVerifyToken : string -> prog World bool
}.
End ChannelRepo.

Module MessagingSender.
Class T := { Send : OutboundMessage -> prog World unit }.
Class Laws (S : T) : Prop := { Send_quiet : forall m, guar quiet (Send m) }.
End MessagingSender.

(** ** gen/chat.sql.go *)

Module ChatQ.
Definition has_id (id : string) (r : ConversationRow) : bool := (conv_id r =? id)%string.

Definition insert_conversation (id orgID channel : string) (externalUser : option string)
  : stmt unit := fun ctx d =>
  match tfind (has_id id) (conversations d) with
  | Some _ => inr unique_violation
  | None =>
      inl (tt, set_conversations
        (conversations d ++
           [mkConversationRow id orgID channel None "open" (sql_now ctx) (sql_now ctx)
              externalUser]) d)
  end.

Definition CreateConversation (id orgID : string) : stmt unit :=
  with_text [id; orgID] (insert_conversation id orgID "chat" None).

Definition CreateChannelConversation (id orgID channel : string)
    (externalUser : option string) : stmt unit :=
  with_text [id; orgID; channel; deref externalUser]
    (insert_conversation id orgID channel externalUser).

(** external_user = $3: NULL on either side matches nothing. *)
Definition same_user (x y : option string) : bool :=
  match x, y with Some a, Some b => (a =? b)%string | _, _ => false end.

Definition open_thread (orgID channel : string) (user : option string) (r : ConversationRow)
  : bool :=
  (conv_org_id r =? orgID)%string && (conv_channel r =? channel)%string
  && same_user (conv_external_user r) user && (conv_status r =? "open")%string.

Definition FindOpenChannelConversation (orgID channel : string) (user : option string)
  : stmt string :=
  with_text [orgID; channel; deref user] (fun _ d =>
    match tsort (fun r => - conv_updated_at r)
            (tselect (open_thread orgID channel user) (conversations d)) with
    | [] => inr ErrNoRows
    | r :: _ => inl (conv_id r, d)
    end).

Definition GetConversation (id : string) : stmt ConversationRow :=
  with_text [id] (fun _ d =>
    match tfind (has_id id) (conversations d) with
    | None => inr ErrNoRows
    | Some r => inl (r, d)
    end).

Definition GetConversationTarget (id : string) : stmt (string * string) :=
  with_text [id] (fun _ d =>
    match tfind (has_id id) (conversations d) with
    | None => inr ErrNoRows
    | Some r => inl ((conv_channel r, deref (conv_external_user r)), d)
    end).

Definition of_conversation (id : string) (r : MessageRow) : bool :=
  (msg_conversation_id r =? id)%string.

(** The conversation must exist. *)
Definition InsertMessage (id conversationID role content : string) : stmt unit :=
  with_text [id; conversationID; role; content] (fun ctx d =>
    match tfind (fun r => (msg_id r =? id)%string) (messages d) with
    | Some _ => inr unique_violation
    | None =>
        match tfind (has_id conversationID) (conversations d) with
        | None => inr (ErrPg "23503")
        | Some _ =>
            inl (tt, set_messages
              (messages d ++ [mkMessageRow id conversationID role content (sql_now ctx)]) d)
        end
    end).

(** The latest message, or the empty text. *)
Definition last_message (d : DB) (id : string) : string :=
  match tsort (fun r => - msg_created_at r) (tselect (of_conversation id) (messages d)) with
  | [] => ""
  | r :: _ => msg_content r
  end.

Definition ListConversationsByOrg (orgID : string) (limit : Z)
  : stmt (list (ConversationRow * (string * Z))) :=
  with_text [orgID] (fun _ d =>
    sql_limit limit
      (map (fun c => (c, (last_message d (conv_id c),
              Z.of_nat (length (tselect (of_conversation (conv_id c)) (messages d))))))
         (tsort (fun r => - conv_updated_at r)
            (tselect (fun r => (conv_org_id r =? orgID)%string) (conversations d)))) d).

Definition ListMessages (conversationID : string) : stmt (list MessageRow) :=
  with_text [conversationID] (fun _ d =>
    inl (tsort msg_created_at (tselect (of_conversation conversationID) (messages d)), d)).

Definition set_status (status : string) (now : Time) (r : ConversationRow) : ConversationRow :=
  mkConversationRow (conv_id r) (conv_org_id r) (conv_channel r) (conv_customer_id r) status
    (conv_created_at r) now (conv_external_user r).

Definition SetConversationStatus (id status : string) : stmt unit :=
  with_text [id; status] (fun ctx d =>
    inl (tt, set_conversations
      (tupdate (has_id id) (set_status status (sql_now ctx)) (conversations d)) d)).

Definition touch (now : Time) (r : ConversationRow) : ConversationRow :=
  set_status (conv_status r) now r.

Definition TouchConversation (id : string) : stmt unit :=
  with_text [id] (fun ctx d =>
    inl (tt, set_conversations
      (tupdate (has_id id) (touch (sql_now ctx)) (conversations d)) d)).

(** gen/chatsettings.sql.go *)
Definition GetChatSettings (orgID : string) : stmt ChatSettingRow :=
  with_text [orgID] (fun _ d =>
    match chat_settings d !! orgID with None => inr ErrNoRows | Some r => inl (r, d) end).

Definition UpsertChatSettings (orgID instructions widgetTitle welcome accent : string)
  : stmt unit :=
  with_text [orgID; instructions; widgetTitle; welcome; accent] (fun ctx d =>
    inl (tt, set_chat_settings
      (<[orgID := mkChatSettingRow instructions widgetTitle welcome accent (sql_now ctx)]>
         (chat_settings d)) d)).

(** gen/insights.sql.go: the conversation must exist; a second insight keeps
    the org of the first. *)
Definition GetInsight (conversationID : string) : stmt InsightRow :=
  with_text [conversationID] (fun _ d =>
    match conversation_insights d !! conversationID with
    | None => inr ErrNoRows
    | Some r => inl (r, d)
    end).

Definition UpsertInsight (conversationID orgID summary outcome sentiment nextAction : string)
  : stmt unit :=
  with_text [conversationID; orgID; summary; outcome; sentiment; nextAction] (fun ctx d =>
    match conversation_insights d !! conversationID with
    | Some r =>
        inl (tt, set_conversation_insights
          (<[conversationID := mkInsightRow (insr_org_id r) summary outcome sentiment
               nextAction (sql_now ctx)]> (conversation_insights d)) d)
    | None =>
        match tfind (has_id conversationID) (conversations d) with
        | None => inr (ErrPg "23503")
        | Some _ =>
            inl (tt, set_conversation_insights
              (<[conversationID := mkInsightRow orgID summary outcome sentiment nextAction
                   (sql_now ctx)]> (conversation_insights d)) d)
        end
    end).
End ChatQ.

(** ** gen/channels.sql.go *)

Module ChannelQ.
Definition mine (orgID typ : string) (r : ChannelRow) : bool :=
  (chan_org_id r =? orgID)%string && (chan_type r =? typ)%string.

Definition has_external (externalID : string) (r : ChannelRow) : bool :=
  (chan_external_id r =? externalID)%string.

Definition DeleteChannel (orgID typ : string) : stmt unit :=
  with_text [orgID; typ] (fun _ d =>
    inl (tt, set_channel_connections (tdelete (mine orgID typ) (channel_connections d)) d)).

Definition get_channel (p : ChannelRow -> bool) : stmt ChannelRow := fun _ d =>
  match tfind p (channel_connections d) with None => inr ErrNoRows | Some r => inl (r, d) end.

Definition GetChannelByExternalID (externalID : string) : stmt ChannelRow :=
  with_text [externalID] (get_channel (has_external externalID)).

Definition GetChannelByOrgAndType (orgID typ : string) : stmt ChannelRow :=
  with_text [orgID; typ] (get_channel (mine orgID typ)).

Definition GetChannelByVerifyToken (verifyToken : string) : stmt ChannelRow :=
  with_text [verifyToken] (get_channel (fun r => (chan_verify_token r =? verifyToken)%string)).

Definition ListChannelsByOrg (orgID : string) : stmt (list ChannelRow) :=
  with_text [orgID] (fun _ d =>
    inl (tsort_by chan_type
           (tselect (fun r => (chan_org_id r =? orgID)%string) (channel_connections d)), d)).

Definition set_channel (externalID accessToken verifyToken : string) (r : ChannelRow)
  : ChannelRow :=
  mkChannelRow (chan_id r) (chan_org_id r) (chan_type r) externalID accessToken verifyToken
    (chan_created_at r).

(** ON CONFLICT (org_id, type) DO UPDATE; the external id is unique, and so is
    the id of a new row. *)
Definition UpsertChannel (id orgID typ externalID accessToken verifyToken : string)
  : stmt unit :=
  with_text [id; orgID; typ; externalID; verifyToken] (fun ctx d =>
    match tfind (fun r => has_external externalID r && negb (mine orgID typ r))
            (channel_connections d) with
    | Some _ => inr unique_violation
    | None =>
        match tfind (mine orgID typ) (channel_connections d) with
        | Some _ =>
            inl (tt, set_channel_connections
              (tupdate (mine orgID typ) (set_channel externalID accessToken verifyToken)
                 (channel_connections d)) d)
        | None =>
            match tfind (fun r => (chan_id r =? id)%string) (channel_connections d) with
            | Some _ => inr unique_violation
            | None =>
                inl (tt, set_channel_connections
                  (channel_connections d ++
                     [mkChannelRow id orgID typ externalID accessToken verifyToken
                        (sql_now ctx)]) d)
            end
        end
    end).
End ChannelQ.

(** ** The repositories *)

Module PgChatRepo.
Definition CreateConversation (orgID : OrgID) (cid : string) : prog World unit :=
  exec (ChatQ.CreateConversation cid orgID).

Definition FindOrCreateChannelConversation (orgID : OrgID) (channel externalUser : string)
  : prog World string :=
  let! existing := ptry (exec (ChatQ.FindOpenChannelConversation orgID channel
                                 (strPtr externalUser))) in
  match existing with
  | inl existing => ret existing
  | inr ErrNoRows =>
      let! cid := Id.New "conv" in
      do! exec (ChatQ.CreateChannelConversation cid orgID channel (strPtr externalUser)) in
      ret cid
  | inr err => fail err
  end.

Definition GetConversation (cid : string) : prog World (OrgID * string * bool) :=
  let! row := ptry (exec (ChatQ.GetConversation cid)) in
  match row with
  | inr ErrNoRows => ret ("", "", false)
  | inr err => fail err
  | inl row => ret (conv_org_id row, conv_status row, true)
  end.

Definition ChannelTarget (cid : string) : prog World (string * string) :=
  exec (ChatQ.GetConversationTarget cid).

Definition SetStatus (cid status : string) : prog World unit :=
  exec (ChatQ.SetConversationStatus cid status).

Definition ListConversations (orgID : OrgID) (limit : Z) : prog World (list Conversation) :=
  let! rows := exec (ChatQ.ListConversationsByOrg orgID (int32_of limit)) in
  ret (map (fun '(r, (last, count)) =>
         mkConversation (conv_id r) (conv_channel r) (deref (conv_external_user r))
           (conv_status r) last count (conv_created_at r) (conv_updated_at r)) rows).

Definition AddMessage (conversationID role content : string) : prog World unit :=
  let! id := Id.New "msg" in
  do! exec (ChatQ.InsertMessage id conversationID role content) in
  exec (ChatQ.TouchConversation conversationID).

Definition row_message (r : MessageRow) : Message :=
  mkMessage (msg_role r) (msg_content r) (msg_created_at r).

Definition Messages (conversationID : string) : prog World (list Message) :=
  let! rows := exec (ChatQ.ListMessages conversationID) in
  ret (map row_message rows).

#[export] Instance repo : ChatRepo.T :=
  { ChatRepo.CreateConversation := CreateConversation;
    ChatRepo.GetConversation := GetConversation; ChatRepo.ChannelTarget := ChannelTarget;
    ChatRepo.SetStatus := SetStatus; ChatRepo.ListConversations := ListConversations;
    ChatRepo.AddMessage := AddMessage; ChatRepo.Messages := Messages;
    ChatRepo.FindOrCreateChannelConversation := FindOrCreateChannelConversation }.
End PgChatRepo.

Module PgChatSettingsRepo.
Definition Get (orgID : OrgID) : prog World ChatSettings :=
  let! row := ptry (exec (ChatQ.GetChatSettings orgID)) in
  match row with
  | inr ErrNoRows => ret DefaultChatSettings
  | inr err => fail err
  | inl r => ret (mkChatSettings (cset_instructions r) (cset_widget_title r) (cset_welcome r)
                    (cset_accent r))
  end.

Definition Upsert (orgID : OrgID) (s : ChatSettings) : prog World unit :=
  exec (ChatQ.UpsertChatSettings orgID (cs_Instructions s) (cs_WidgetTitle s) (cs_Welcome s)
          (cs_Accent s)).

#[export] Instance repo : ChatSettingsRepo.T :=
  { ChatSettingsRepo.Get := Get; ChatSettingsRepo.Upsert := Upsert }.
End PgChatSettingsRepo.

Module PgInsightRepo.
Definition Save (orgID : OrgID) (conversationID : string) (i : ConversationInsight)
  : prog World unit :=
  exec (ChatQ.UpsertInsight conversationID orgID (in_Summary i) (in_Outcome i)
          (in_Sentiment i) (in_NextAction i)).

Definition Get (conversationID : string) : prog World (ConversationInsight * bool) :=
  let! row := ptry (exec (ChatQ.GetInsight conversationID)) in
  match row with
  | inr ErrNoRows => ret (zeroInsight, false)
  | inr err => fail err
  | inl r => ret (mkConversationInsight (insr_summary r) (insr_outcome r) (insr_sentiment r)
                    (insr_next_action r) (insr_created_at r), true)
  end.

#[export] Instance repo : InsightRepo.T :=
  { InsightRepo.Save := Save; InsightRepo.Get := Get }.
End PgInsightRepo.

Module PgChannelRepo.
Definition Upsert (orgID : OrgID) (typ externalID encToken verifyToken : string)
  : prog World unit :=
  let! id := Id.New "chan" in
  exec (ChannelQ.UpsertChannel id orgID typ externalID encToken verifyToken).

Definition List (orgID : OrgID) : prog World (list ChannelConnection) :=
  let! rows := exec (ChannelQ.ListChannelsByOrg orgID) in
  ret (map (fun r => mkChannelConnection (chan_type r) (chan_external_id r)
                       (chan_created_at r)) rows).

Definition Delete (orgID : OrgID) (typ : string) : prog World unit :=
  exec (ChannelQ.DeleteChannel orgID typ).

Definition ByExternalID (externalID : string)
  : prog World (OrgID * string * string * string * bool) :=
  let! row := ptry (exec (ChannelQ.GetChannelByExternalID externalID)) in
  match row with
  | inr ErrNoRows => ret ("", "", "", "", false)
  | inr err => fail err
  | inl r => ret (chan_org_id r, chan_type r, chan_access_token r, chan_verify_token r, true)
  end.

Definition ByOrgAndType (orgID : OrgID) (typ : string) : prog World (string * string * bool) :=
  let! row := ptry (exec (ChannelQ.GetChannelByOrgAndType orgID typ)) in
  match row with
  | inr ErrNoRows => ret ("", "", false)
  | inr err => fail err
  | inl r => ret (chan_external_id r, chan_access_token r, true)
  end.

Definition OrgForVerifyToken (verifyToken : string) : prog World bool :=
  let! row := ptry (exec (ChannelQ.GetChannelByVerifyToken verifyToken)) in
  match row with
  | inr ErrNoRows => ret false
  | inr err => fail err
  | inl _ => ret true
  end.

#[export] Instance repo : ChannelRepo.T :=
  { ChannelRepo.Upsert := Upsert; ChannelRepo.List := List; ChannelRepo.Delete := Delete;
    ChannelRepo.ByExternalID := ByExternalID; ChannelRepo.ByOrgAndType := ByOrgAndType;
    ChannelRepo.OrgForVerifyToken := OrgForVerifyToken }.
End PgChannelRepo.
