(* ===== verification/Assistant.v ===== *)
(** * The assistants: replies, summaries, setup

    internal/adapter/chat/builtin: the rule-based chat model (builtin.go) and
    the keyword summarizer (summarize.go); and internal/service/onboarding. *)

From S2P Require Import Prelude.
From S2P Require Import Domain.
From S2P Require Import Effects.
From S2P Require Import GoLib.
From S2P Require Import Store.
From S2P Require Import Ports.
From S2P Require Import PgChat.
From stdpp Require Import gmap strings list.
From Stdlib Require Import ZArith Lia.

Open Scope Z_scope.
Open Scope go_scope.

Definition containsAny (s : string) (words : list string) : bool :=
  existsb (Strings.Contains s) words.

Module Builtin.
Record intent := mkIntent { triggers : list string; intent_reply : string }.

Definition intents : list intent := [
  mkIntent ["hi"; "hello"; "hey"; "salam"; "assalam"]
    "Hello! 👋 I'm here to help with your order — tracking, returns, delivery, or anything else. What do you need?";
  mkIntent ["track"; "where"; "status"; "order status"; "kobe"; "delivery date"]
    "I can check that for you. Could you share your order number? Most orders arrive within 2–3 working days inside Dhaka and 3–5 days outside.";
  mkIntent ["return"; "refund"; "exchange"; "ferot"]
    "No problem — returns are accepted within 7 days of delivery for unused items. Would you like me to start a return request?";
  mkIntent ["delivery"; "shipping"; "charge"; "cost of delivery"; "koto"]
    "Delivery is 60৳ inside Dhaka and 120৳ outside. Cash on delivery is available everywhere.";
  mkIntent ["cancel"]
    "I can help cancel that. If the order hasn't shipped yet, cancellation is free — please share your order number.";
  mkIntent ["thanks"; "thank"; "dhonnobad"]
    "You're welcome! 🙏 Anything else I can help with?"].

Definition fallback : string :=
  "Thanks for your message! I've noted it and a team member will follow up shortly. Meanwhile, I can help with order tracking, returns, or delivery info.".

(** The content of the latest user turn. *)
Fixpoint last_user (history : list Message) (acc : string) : string :=
  match history with
  | [] => acc
  | m :: history =>
      last_user history (if (m_Role m =? "user")%string then m_Content m else acc)
  end.

(** The first intent one of whose triggers occurs. *)
Fixpoint find_reply (last : string) (ins : list intent) : string :=
  match ins with
  | [] => fallback
  | i :: ins =>
      if containsAny last (triggers i) then intent_reply i else find_reply last ins
  end.

Definition reply_text (history : list Message) : string :=
  let last := Strings.ToLower (last_user history "") in
  if (last =? "")%string then "Hello! How can I help you today?"
  else find_reply last intents.

#[export] Instance model : ChatModel.T :=
  { ChatModel.Reply _ history := ret (reply_text history) }.

#[export] Instance laws : ChatModel.Laws model.
Proof. by split. Qed.
End Builtin.

Module Heuristic.
Definition negativeWords : list string :=
  ["angry"; "worst"; "terrible"; "scam"; "cheat"; "refund"; "complaint"; "kharap"; "baje"; "problem"].
Definition positiveWords : list string :=
  ["thanks"; "thank"; "great"; "perfect"; "dhonnobad"; "good"; "love"; "happy"].
Definition humanWords : list string :=
  ["human"; "agent"; "manager"; "speak to"; "talk to someone"; "representative"; "call me"].
Definition saleWords : list string :=
  ["buy"; "order"; "purchase"; "checkout"; "confirm"; "place order"; "kinbo"; "kinte chai"].
Definition resolvedWords : list string :=
  ["thanks"; "thank"; "solved"; "got it"; "understood"; "dhonnobad"; "ok thanks"].

(** The digits of a count into a buffer of [fuel] bytes, least first. *)
Fixpoint itoa_digits (fuel : nat) (n : Z) (acc : string) : string :=
  match fuel with
  | O => acc
  | S f => if 0 <? n then itoa_digits f (n / 10) (String (byte_chr (48 + n mod 10)) acc) else acc
  end.

Definition itoa (n : Z) : string := if n =? 0 then "0" else itoa_digits 20 n "".

(** Truncated at 140 bytes. *)
Definition summarize (lastUser : string) (turns : Z) : string :=
  let msg := Strings.TrimSpace lastUser in
  let msg := if 140 <? Z.of_nat (String.length msg)
             then Strings.TrimSpace (Strings.take 140 msg) +:+ "…" else msg in
  let turnWord := if turns =? 1 then "message" else "messages" in
  itoa turns +:+ " customer " +:+ turnWord +:+ "; latest: " +:+
  String (byte_chr 34) (msg +:+ String (byte_chr 34) "").

(** The customer's words, the last of them, and the number of turns. *)
Fixpoint user_turns (history : list Message) (text last : string) (turns : Z)
  : string * string * Z :=
  match history with
  | [] => (text, last, turns)
  | m :: history =>
      if (m_Role m =? "user")%string
      then user_turns history (text +:+ " " +:+ Strings.ToLower (m_Content m)) (m_Content m)
             (turns + 1)
      else user_turns history text last turns
  end.

Definition sentiment_of (text : string) : string :=
  if containsAny text negativeWords then SentimentNegative
  else if containsAny text positiveWords then SentimentPositive
  else SentimentNeutral.

Definition outcome_of (text : string) : string * string :=
  if containsAny text humanWords
  then (OutcomeNeedsHuman, "Assign a team member — the customer asked for a person.")
  else if containsAny text saleWords
  then (OutcomeSale, "Confirm the order details and payment method.")
  else if containsAny text resolvedWords
  then (OutcomeResolved, "No action needed — the customer's question was answered.")
  else if (sentiment_of text =? SentimentNegative)%string
  then (OutcomeNeedsHuman, "Reach out personally — the customer sounds unhappy.")
  else (OutcomePending, "Follow up with the customer to close the loop.").

Definition Summarize (history : list Message) : ConversationInsight :=
  let '(text, last, turns) := user_turns history "" "" 0 in
  if turns =? 0 then
    mkConversationInsight "No customer messages yet." OutcomeUnknown SentimentNeutral
      "Wait for the customer to reply." zeroTime
  else
    let '(outcome, nextAction) := outcome_of text in
    mkConversationInsight (summarize last turns) outcome (sentiment_of text) nextAction zeroTime.

#[export] Instance summarizer : Summarizer.T :=
  { Summarizer.Summarize history := inl (Summarize history) }.
End Heuristic.

(** ** The setup assistant: internal/service/onboarding/onboarding.go, one question
    to the chat model under a prompt that tells the progress of the org *)

Module Onboarding.
Definition nl : string := String (byte_chr 10) EmptyString.

Definition systemPrompt : string :=
  "You are Yaver's setup assistant. Yaver is a multi-channel customer-engagement platform for e-commerce — voice IVR, an embeddable AI chat widget, and WhatsApp/Messenger — that turns store events into confirmed orders, recovered carts, and answered questions." +:+ nl +:+ nl +:+
  "Help the merchant finish setup. The core steps are:" +:+ nl +:+
  "1. Name your store (Settings)." +:+ nl +:+
  "2. Send a test call from the Dashboard." +:+ nl +:+
  "3. Create a secret API key and POST store events to /v1/events." +:+ nl +:+
  "4. Connect a webhook to receive outcomes." +:+ nl +:+
  "Then: embed the chat widget with a publishable key, or connect WhatsApp/Messenger." +:+ nl +:+ nl +:+
  "Be concise, friendly, and concrete. Prefer a next action over a long explanation. If asked something unrelated to using Yaver, gently steer back.".

Record Progress := mkProgress {
  pg_StoreNamed : bool; pg_HasAPIKey : bool; pg_WebhookSet : bool; pg_HasFlow : bool
}.

Definition mark (done : bool) : string := if done then "done" else "not done".

Definition statusLines (p : Progress) : string :=
  "- Store named: " +:+ mark (pg_StoreNamed p) +:+ nl +:+
  "- API key created: " +:+ mark (pg_HasAPIKey p) +:+ nl +:+
  "- Webhook connected: " +:+ mark (pg_WebhookSet p) +:+ nl +:+
  "- Has a flow: " +:+ mark (pg_HasFlow p).

Section Service.
Context {model : ChatModel.T}.

Definition Ask (p : Progress) (question : string) : prog World string :=
  let system := systemPrompt +:+ nl +:+ nl +:+ "Current setup status:" +:+ nl +:+ statusLines p in
  ChatModel.Reply system [mkMessage "user" question zeroTime].
End Service.
End Onboarding.
