(* ===== verification/Chat.v ===== *)
(** * The chat channel: conversations and replies

    internal/service/chat/chat.go. *)

From S2P Require Import Prelude.
From S2P Require Import Domain.
From S2P Require Import Effects.
From S2P Require Import GoLib.
From S2P Require Import Store.
From S2P Require Import Ports.
From S2P Require Import PgChat.
From stdpp Require Import gmap strings list.
From Stdlib Require Import ZArith Lia.

Open Scope Z_scope.
Open Scope go_scope.

Module Chat.
Definition defaultPrompt : string :=
  "You are a friendly customer-support assistant for a Bangladeshi online store. Be concise and helpful.".

(** At most 80 bytes of a message. *)
Definition preview (text : string) : string :=
  if 80 <? Z.of_nat (String.length text) then Strings.take 80 text +:+ "…" else text.

Definition validStatus (status : string) : bool :=
  (status =? ConvOpen)%string || (status =? ConvHandling)%string || (status =? ConvClosed)%string.

Section Service.
Context {repo : ChatRepo.T} {settings : ChatSettingsRepo.T} {model : ChatModel.T}
  {summarizer : Summarizer.T} {insights : InsightRepo.T}.
(* a nil publisher is allowed *)
Context (activity : option ActivityPublisher.T).

Definition publish (e : ActivityEvent) : prog World unit :=
  match activity with
  | Some a => ActivityPublisher.PublishActivity e
  | None => ret tt
  end.

Definition Settings (orgID : OrgID) : prog World ChatSettings := ChatSettingsRepo.Get orgID.

Definition SaveSettings (orgID : OrgID) (cs : ChatSettings) : prog World unit :=
  ChatSettingsRepo.Upsert orgID cs.

Definition owns (orgID : OrgID) (convID : string) : prog World unit :=
  let! '((owner, _), found) := ChatRepo.GetConversation convID in
  if negb found || negb (owner =? orgID)%string then fail ErrNotFound else ret tt.

(** The org's instructions, or the default. *)
Definition prompt_of (cs : ChatSettings + goerr) : string :=
  match cs with
  | inl cs => if (cs_Instructions cs =? "")%string then defaultPrompt else cs_Instructions cs
  | inr _ => defaultPrompt
  end.

Definition reply (orgID : OrgID) (convID text : string) : prog World string :=
  do! ChatRepo.AddMessage convID "user" text in
  do! publish (mkActivityEvent "chat.message" orgID "New chat message" (preview text) zeroTime) in
  let! '((_, status), _) := ChatRepo.GetConversation convID in
  if (status =? ConvHandling)%string then ret ""
  else
    let! history := ChatRepo.Messages convID in
    let! cs := ptry (ChatSettingsRepo.Get orgID) in
    let! reply := ChatModel.Reply (prompt_of cs) history in
    do! ChatRepo.AddMessage convID "assistant" reply in
    ret reply.

Definition Send (orgID : OrgID) (convID text : string) : prog World (string * string) :=
  let! convID :=
    (if (convID =? "")%string then
       let! convID := Id.New "conv" in
       do! ChatRepo.CreateConversation orgID convID in
       ret convID
     else
       do! owns orgID convID in
       ret convID) in
  let! reply := reply orgID convID text in
  ret (convID, reply).

Definition SendChannel (orgID : OrgID) (channel externalUser text : string)
  : prog World string :=
  let! convID := ChatRepo.FindOrCreateChannelConversation orgID channel externalUser in
  reply orgID convID text.

Definition List (orgID : OrgID) : prog World (list Conversation) :=
  ChatRepo.ListConversations orgID 100.

Definition Messages (orgID : OrgID) (convID : string) : prog World (list Message) :=
  do! owns orgID convID in
  ChatRepo.Messages convID.

Definition Summarize (orgID : OrgID) (convID : string) : prog World ConversationInsight :=
  do! owns orgID convID in
  let! history := ChatRepo.Messages convID in
  match Summarizer.Summarize history with
  | inr err => fail err
  | inl i =>
      do! InsightRepo.Save orgID convID i in
      let! '(saved, _) := InsightRepo.Get convID in
      ret saved
  end.

Definition Insight (orgID : OrgID) (convID : string)
  : prog World (ConversationInsight * bool) :=
  do! owns orgID convID in
  InsightRepo.Get convID.

Definition SetStatus (orgID : OrgID) (convID status : string) : prog World unit :=
  if negb (validStatus status) then fail ErrFlowInvalid
  else
    do! owns orgID convID in
    ChatRepo.SetStatus convID status.

Definition AgentReply (orgID : OrgID) (convID text : string) : prog World (string * string) :=
  do! owns orgID convID in
  do! ChatRepo.SetStatus convID ConvHandling in
  do! ChatRepo.AddMessage convID "agent" text in
  ChatRepo.ChannelTarget convID.
End Service.
End Chat.
