(* ===== verification/Messaging.v ===== *)
(** * Messaging channels: connections, inbound and outbound messages

    internal/service/messaging/messaging.go; the assistant is the interface
    [Assistant] that the chat service satisfies. *)

From S2P Require Import Prelude.
From S2P Require Import Domain.
From S2P Require Import Effects.
From S2P Require Import GoLib.
From S2P Require Import Store.
From S2P Require Import Crypto.
From S2P Require Import Ports.
From S2P Require Import PgChat.
From S2P Require Import Chat.
From stdpp Require Import gmap strings list.
From Stdlib Require Import ZArith Lia.

Open Scope Z_scope.
Open Scope go_scope.

Module Assistant.
Class T := { SendChannel : OrgID -> string -> string -> string -> prog World string }.

(** *chat.Service is an Assistant. *)
#[export] Instance of_chat {repo : ChatRepo.T} {settings : ChatSettingsRepo.T}
    {model : ChatModel.T} (activity : option ActivityPublisher.T) : T :=
  { SendChannel := Chat.SendChannel activity }.
End Assistant.

Module Messaging.
Section Service.
Context {conns : ChannelRepo.T} {assistant : Assistant.T} {sender : MessagingSender.T}
  {aead : AEAD.T}.

Definition Connect (orgID : OrgID) (typ externalID accessToken verifyToken : string)
  : prog World unit :=
  let! enc := Cipher.Encrypt accessToken in
  ChannelRepo.Upsert orgID typ externalID enc verifyToken.

Definition List (orgID : OrgID) : prog World (list ChannelConnection) := ChannelRepo.List orgID.

Definition Disconnect (orgID : OrgID) (typ : string) : prog World unit :=
  ChannelRepo.Delete orgID typ.

Definition SendOutbound (orgID : OrgID) (channel toUser text : string) : prog World unit :=
  let! '((externalID, encToken), found) := ChannelRepo.ByOrgAndType orgID channel in
  if negb found then ret tt
  else match Cipher.Decrypt encToken with
       | inr err => fail err
       | inl token =>
           MessagingSender.Send (mkOutboundMessage channel externalID token toUser text)
       end.

Definition VerifyChallenge (verifyToken : string) : prog World bool :=
  let! ok := ptry (ChannelRepo.OrgForVerifyToken verifyToken) in
  ret (match ok with inl ok => ok | inr _ => false end).

Definition HandleInbound (toExternalID from text : string) : prog World unit :=
  let! '((((orgID, typ), encToken), _), found) := ChannelRepo.ByExternalID toExternalID in
  if negb found then ret tt
  else
    let! reply := Assistant.SendChannel orgID typ from text in
    if (reply =? "")%string then ret tt
    else match Cipher.Decrypt encToken with
         | inr err => fail err
         | inl token =>
             MessagingSender.Send (mkOutboundMessage typ toExternalID token from reply)
         end.
End Service.
End Messaging.

(** internal/adapter/messaging/logsender: it records what it would send. *)
Module LogMessaging.
#[export] Instance sender : MessagingSender.T :=
  { MessagingSender.Send m := emit_effect (EChannelSend m) }.
End LogMessaging.
