(* ===== verification/ChatSpec.v ===== *)
(** * What the chat channel guarantees

    Tenants are isolated under any fault; a first message is answered and read
    back; an inbound channel message is always answered by the assistant, human
    takeover or not; what the keyword assistant never says; and a summary that
    the database refuses. *)

From S2P Require Import Prelude.
From S2P Require Import Domain.
From S2P Require Import Effects.
From S2P Require Import GoLib.
From S2P Require Import Json.
From S2P Require Import Store.
From S2P Require Import Ports.
From S2P Require Import PgCredits.
From S2P Require Import PgFlows.
From S2P Require Import PgCalls.
From S2P Require Import PgChat.
From S2P Require Import Assistant.
From S2P Require Import Chat.
From S2P Require Import NoFault.
From stdpp Require Import gmap strings list.
From Stdlib Require Import ZArith Lia.

Open Scope Z_scope.
Open Scope go_scope.

#[local] Existing Instances PgChatRepo.repo PgChatSettingsRepo.repo PgInsightRepo.repo.

(** ** Reads *)

Lemma GetConversation_read id : read_only (ChatQ.GetConversation id).
Proof.
  apply with_text_read. intros ctx d a d'. split_match; by intros [= _ <-].
Qed.

Lemma ListMessages_read id : read_only (ChatQ.ListMessages id).
Proof. apply with_text_read. by intros ctx d a d' [= _ <-]. Qed.

Lemma FindOpen_read org ch u : read_only (ChatQ.FindOpenChannelConversation org ch u).
Proof. apply with_text_read. intros ctx d a d'. split_match; by intros [= _ <-]. Qed.

Lemma GetChatSettings_read org : read_only (ChatQ.GetChatSettings org).
Proof. apply with_text_read. intros ctx d a d'. split_match; by intros [= _ <-]. Qed.

(** ** Tenant isolation *)

Definition conversation_of (d : DB) (id : string) : option ConversationRow :=
  tfind (ChatQ.has_id id) (conversations d).

(** Asking for a conversation of another org fails, and only reads. *)
Lemma run_owns_foreign env org id w row :
  conversation_of (w_db w) id = Some row -> conv_org_id row <> org ->
  exists e, run env (Chat.owns org id) w = (Err e, tick w).
Proof.
  intros Hrow Hne. unfold Chat.owns. rewrite run_bind.
  change (@ChatRepo.GetConversation _) with PgChatRepo.GetConversation.
  unfold PgChatRepo.GetConversation. rewrite run_bind, run_try.
  destruct (run_read_any env _ w (GetConversation_read id)) as (r & -> & Hok & Hno & Hp).
  destruct r as [a|e|]; [|destruct e; simpl; eauto|done].
  - destruct (Hok a eq_refl) as (ctx & E). unfold ChatQ.GetConversation, with_text in E.
    destruct (forallb _ _); [|done]. fold (conversation_of (w_db w) id) in E.
    rewrite Hrow in E. injection E as <-. simpl.
    apply String.eqb_neq in Hne. rewrite Hne. simpl. eauto.
Qed.

Section Isolation.
Context {model : ChatModel.T} {summarizer : Summarizer.T}.
Context (activity : option ActivityPublisher.T).

(** The operations of an org on a named conversation. *)
Inductive conversation_op (org : OrgID) (id : string) : forall A, prog World A -> Prop :=
| op_Send text : id <> "" -> conversation_op org id _ (Chat.Send activity org id text)
| op_Messages : conversation_op org id _ (Chat.Messages org id)
| op_Summarize : conversation_op org id _ (Chat.Summarize org id)
| op_Insight : conversation_op org id _ (Chat.Insight org id)
| op_SetStatus status : conversation_op org id _ (Chat.SetStatus org id status)
| op_AgentReply text : conversation_op org id _ (Chat.AgentReply org id text).

(** C18: A conversation of one org is out of every other org's reach: sending
    to it, reading it, summarising it, moving it or answering in it fails, and
    changes nothing in the state, whatever else fails. *)
Theorem conversations_are_isolated env org id A (op : prog World A) w row :
  conversation_op org id A op ->
  conversation_of (w_db w) id = Some row -> conv_org_id row <> org ->
  exists e, fst (run env op w) = Err e /\ w_st (snd (run env op w)) = w_st w.
Proof.
  intros Hop Hrow Hne. destruct (run_owns_foreign env org id w row Hrow Hne) as [e He].
  destruct Hop as [text Hid| | | |status|text].
  - exists e. unfold Chat.Send. apply String.eqb_neq in Hid. rewrite Hid.
    by rewrite run_bind, run_bind, He.
  - exists e. unfold Chat.Messages. by rewrite run_bind, He.
  - exists e. unfold Chat.Summarize. by rewrite run_bind, He.
  - exists e. unfold Chat.Insight. by rewrite run_bind, He.
  - unfold Chat.SetStatus. destruct (negb _); [by eexists|].
    exists e. by rewrite run_bind, He.
  - exists e. unfold Chat.AgentReply. by rewrite run_bind, He.
Qed.
End Isolation.

(** ** The status of a conversation *)

Definition status_of (d : DB) (id : string) : option string :=
  option_map conv_status (conversation_of d id).

Definition same_status (w w' : World) : Prop :=
  forall id, status_of (w_db w') id = status_of (w_db w) id.

Lemma same_status_conversations w w' :
  conversations (w_db w') = conversations (w_db w) -> same_status w w'.
Proof. unfold same_status, status_of, conversation_of. by intros ->. Qed.

Lemma same_status_quiet w w' : quiet w w' -> same_status w w'.
Proof. intros (Hd & _). apply same_status_conversations. unfold w_db. by rewrite Hd. Qed.

Lemma same_status_stmt {A} (s : stmt A) :
  (forall ctx d a d', s ctx d = inl (a, d') -> forall id, status_of d' id = status_of d id) ->
  guar same_status (exec s).
Proof.
  intros Hs. eapply guar_lin; [| |apply exec_lin].
  - intros w w' E. by apply same_status_quiet, quiet_silent.
  - intros w w' r. unfold same_status, w_db. generalize (w_st w) (w_st w'). intros st st' HS.
    inversion HS; subst; intros id; try done; simpl; by eapply Hs.
Qed.

Lemma same_status_AddMessage id role content :
  guar same_status (ChatRepo.AddMessage id role content).
Proof.
  change (guar same_status (PgChatRepo.AddMessage id role content)).
  unfold PgChatRepo.AddMessage. apply guar_bind.
  { apply guar_New. intros w w' E. by apply same_status_quiet, quiet_silent. }
  intros mid. apply guar_bind; [|intros _]; apply same_status_stmt; intros ctx d a d' H id';
    apply with_text_ok in H.
  - destruct (tfind _ _); [done|]. destruct (tfind _ _); [|done]. invc H. done.
  - invc H. unfold status_of, conversation_of. simpl.
    rewrite tfind_tupdate_key by done.
    destruct (tfind _ _) as [r|]; [|done]. simpl. by destruct (ChatQ.has_id id r).
Qed.

(** ** Inbound messages *)

Definition conv_key (d : DB) : Prop := NoDup (map conv_id (conversations d)).

Lemma conversation_of_in d r :
  conv_key d -> In r (conversations d) -> conversation_of d (conv_id r) = Some r.
Proof.
  unfold conv_key, conversation_of. induction (conversations d) as [|x t IH]; simpl; [done|].
  intros Hk Hin. inversion Hk as [|? ? Hx Hk']; subst.
  destruct (ChatQ.has_id (conv_id r) x) eqn:E; unfold ChatQ.has_id in E; bool_prop.
  - destruct Hin as [->|Hr]; [done|]. exfalso. apply Hx. rewrite E.
    apply list_elem_of_In. by apply in_map.
  - destruct Hin as [->|Hr]; [done|]. by apply IH.
Qed.

Lemma run_create_open env id org ch user w u w' :
  run env (exec (ChatQ.CreateChannelConversation id org ch user)) w = (Ok u, w') ->
  status_of (w_db w') id = Some ConvOpen.
Proof.
  intros H. apply run_exec_inv in H as (ctx & d & E & ->). apply with_text_ok in E.
  unfold ChatQ.insert_conversation in E. destruct (tfind _ _) eqn:Ef; [done|]. invc E.
  unfold status_of, conversation_of. cbn [set_conversations conversations].
  rewrite tfind_app, Ef. cbn [tfind List.find].
  by match goal with |- context [ChatQ.has_id id ?row] =>
    assert (ChatQ.has_id id row = true) as -> by apply String.eqb_refl end.
Qed.

(** The thread an inbound message goes to is open. *)
Lemma run_FindOrCreate_open env org ch user w id w' :
  conv_key (w_db w) ->
  run env (ChatRepo.FindOrCreateChannelConversation org ch user) w = (Ok id, w') ->
  status_of (w_db w') id = Some ConvOpen.
Proof.
  intros Hk. change (@ChatRepo.FindOrCreateChannelConversation _)
    with PgChatRepo.FindOrCreateChannelConversation.
  unfold PgChatRepo.FindOrCreateChannelConversation. rewrite run_bind, run_try.
  destruct (run_read_any env _ w (FindOpen_read org ch (strPtr user))) as (r & -> & Hok & _ & _).
  destruct r as [a|e|]; [| |done].
  - intros [= <- <-]. destruct (Hok a eq_refl) as (ctx & E). apply with_text_ok in E.
    destruct (tsort _ _) as [|row l] eqn:Es; [done|]. injection E as <-.
    assert (In row (tsort (fun r => - conv_updated_at r)
      (tselect (ChatQ.open_thread org ch (strPtr user)) (conversations (w_db w))))) as Hin
      by (rewrite Es; by left).
    apply in_tsort, List.filter_In in Hin as [Hin Hopen].
    unfold status_of. change (w_db (tick w)) with (w_db w).
    rewrite (conversation_of_in _ _ Hk Hin). simpl. f_equal.
    unfold ChatQ.open_thread in Hopen. bool_prop. by bool_prop.
  - destruct e; try done. rewrite run_bind, run_New, run_bind.
    set (cid := id_at env "conv" _). clearbody cid.
    destruct (run env (exec _) _) as [[[]|e|] w1] eqn:Ex; [|done..].
    intros [= <- <-]. by eapply run_create_open.
Qed.

Section Inbound.
Context {model : ChatModel.T} {model_laws : ChatModel.Laws model}.
Context (activity : option ActivityPublisher.T).
Context (Hact : match activity with Some p => ActivityPublisher.Laws p | None => True end).

Lemma publish_same_status e : guar same_status (Chat.publish activity e).
Proof.
  unfold Chat.publish. destruct activity; [|done].
  eapply guar_mono; [apply same_status_quiet|]. apply ActivityPublisher.Publish_quiet.
Qed.

(** On a conversation nobody handles, a reply that comes back is the model's. *)
Lemma run_reply_answers env org id text w r w' :
  status_of (w_db w) id = Some ConvOpen ->
  run env (Chat.reply activity org id text) w = (Ok r, w') ->
  exists prompt history w1 w2, run env (ChatModel.Reply prompt history) w1 = (Ok r, w2).
Proof.
  intros Hst Hrun. unfold Chat.reply in Hrun.
  apply run_bind_ok in Hrun as ([] & w1 & H1 & Hrun).
  apply run_bind_ok in Hrun as ([] & w2 & H2 & Hrun).
  apply run_bind_ok in Hrun as ([[owner status] found] & w3 & H3 & Hrun).
  assert (status_of (w_db w2) id = Some ConvOpen) as Hst2.
  { assert (forall x y z, same_status x y -> same_status y z -> same_status x z) as Htr
      by (intros x y z Hxy Hyz i; by rewrite Hyz).
    assert (same_status w w1) as E1
      by (replace w1 with (snd (run env (ChatRepo.AddMessage id "user" text) w)) by (by rewrite H1);
          apply guar_run; [done|exact Htr|apply same_status_AddMessage]).
    assert (same_status w1 w2) as E2.
    { pose proof (publish_same_status (mkActivityEvent "chat.message" org "New chat message"
        (Chat.preview text) zeroTime)) as Hp.
      apply (guar_run same_status _ env w1) in Hp; [|done|exact Htr]. by rewrite H2 in Hp. }
    rewrite E2, E1. exact Hst. }
  assert (status = ConvOpen) as ->.
  { change (@ChatRepo.GetConversation _) with PgChatRepo.GetConversation in H3.
    unfold PgChatRepo.GetConversation in H3. rewrite run_bind, run_try in H3.
    destruct (run_read_any env _ w2 (GetConversation_read id)) as (q & Eq & Hok & Hno & _).
    rewrite Eq in H3. unfold status_of, conversation_of in Hst2.
    destruct q as [row|e|]; [| |done].
    - injection H3 as _ <- _ _. destruct (Hok row eq_refl) as (ctx & E). apply with_text_ok in E.
      destruct (tfind _ _) as [row'|]; [|done]. injection E as ->. by injection Hst2.
    - destruct e; try done. destruct (Hno eq_refl) as (ctx & E).
      unfold ChatQ.GetConversation, with_text in E. destruct (forallb _ _); [|done].
      by destruct (tfind _ _). }
  change (ConvOpen =? ConvHandling)%string with false in Hrun. cbv iota in Hrun.
  apply run_bind_ok in Hrun as (history & w4 & _ & Hrun).
  apply run_bind_ok in Hrun as (cs & w5 & _ & Hrun).
  apply run_bind_ok in Hrun as (reply & w6 & Hmodel & Hrun).
  apply run_bind_ok in Hrun as ([] & w7 & _ & Hrun). injection Hrun as <- _.
  by eexists _, _, _, _.
Qed.
End Inbound.

(** The built-in model always says something. *)
Lemma reply_text_nonempty history : Builtin.reply_text history <> "".
Proof.
  unfold Builtin.reply_text. destruct (_ =? _)%string; [done|].
  assert (forall ins, Forall (fun i => Builtin.intent_reply i <> "") ins ->
    forall last, Builtin.find_reply last ins <> "") as H.
  { induction 1 as [|i ins Hi _ IH]; intros last; simpl; [done|].
    destruct (containsAny _ _); [done|apply IH]. }
  apply H. repeat constructor; done.
Qed.

(** An inbound channel message is always answered by the assistant: a
    delivery that succeeds comes back with a reply, whatever conversations of
    that customer an agent is handling, because only open threads are looked up
    and a handled one is followed by a new one. *)
Theorem SendChannel_never_stays_silent env activity org ch user text w r w' :
  match activity with Some p => ActivityPublisher.Laws p | None => True end ->
  conv_key (w_db w) ->
  run env (Chat.SendChannel (model := Builtin.model) activity org ch user text) w = (Ok r, w') ->
  r <> "".
Proof.
  intros Hact Hk Hrun. unfold Chat.SendChannel in Hrun.
  apply run_bind_ok in Hrun as (id & w1 & H1 & Hrun).
  apply run_FindOrCreate_open in H1; [|done].
  apply (run_reply_answers activity Hact env org id text w1) in Hrun; [|done].
  destruct Hrun as (p & h & w2 & w3 & H). injection H as <- _. apply reply_text_nonempty.
Qed.

(** ** A first message, answered and read back *)

(** What the built-in model answers to a message: the turns before it do not
    matter. *)
Definition answer (text : string) : string :=
  let last := Strings.ToLower text in
  if (last =? "")%string then "Hello! How can I help you today?"
  else Builtin.find_reply last Builtin.intents.

Lemma reply_text_user h text t :
  Builtin.reply_text (h ++ [mkMessage "user" text t]) = answer text.
Proof.
  unfold Builtin.reply_text. assert (forall acc,
    Builtin.last_user (h ++ [mkMessage "user" text t]) acc = text) as ->; [|done].
  induction h as [|m h IH]; intros acc; [done|]. apply IH.
Qed.

Lemma answer_text_ok text : text_ok (answer text) = true.
Proof.
  unfold answer. destruct (_ =? _)%string; [by vm_compute|].
  assert (forall ins, Forall (fun i => text_ok (Builtin.intent_reply i) = true) ins ->
    forall last, text_ok (Builtin.find_reply last ins) = true) as H.
  { induction 1 as [|i ins Hi _ IH]; intros last; [by vm_compute|].
    cbn [Builtin.find_reply]. destruct (containsAny _ _); [done|apply IH]. }
  apply H. repeat constructor; by vm_compute.
Qed.

Section Transcript.
Context (env : Env) (Hnf : forall n, env_fault env n = NoFault).
Context (Hmono : forall n m, (n <= m)%nat -> env_clock env n <= env_clock env m).
Context (activity : option ActivityPublisher.T).
(** Publishing to the feed returns, within so many ticks, and leaves the
    database alone. *)
Context (pub_ticks : nat).
Context (Hpub : forall e w, exists w', run env (Chat.publish activity e) w = (Ok tt, w') /\
  w_db w' = w_db w /\ (w_tick w <= w_tick w' <= pub_ticks + w_tick w)%nat).

(** The ids minted up to a horizon do not repeat. *)
Context (horizon : nat).
Context (Hids : forall p n m, (n < horizon)%nat -> (m < horizon)%nat ->
  id_at env p n = id_at env p m -> n = m).

(** No message or conversation has an id that is still to be minted, nor a
    creation time that is still to come. *)
Definition chat_fresh (w : World) : Prop :=
  (forall n r, (w_tick w <= n < horizon)%nat -> In r (messages (w_db w)) ->
     msg_id r <> id_at env "msg" n /\ msg_conversation_id r <> id_at env "conv" n /\
     msg_created_at r <= env_clock env n) /\
  (forall n r, (w_tick w <= n < horizon)%nat -> In r (conversations (w_db w)) ->
     conv_id r <> id_at env "conv" n).

Lemma run_InsertMessage id conv role content row w :
  tfind (fun r => (msg_id r =? id)%string) (messages (w_db w)) = None ->
  conversation_of (w_db w) conv = Some row ->
  forallb text_ok [id; conv; role; content] = true ->
  run env (exec (ChatQ.InsertMessage id conv role content)) w =
  (Ok tt, mkWorld (S (w_tick w)) (set_db (set_messages (messages (w_db w) ++
     [mkMessageRow id conv role content (env_clock env (w_tick w))]) (w_db w)) (w_st w))).
Proof.
  intros Hid Hc Ht. rewrite (run_exec env Hnf). unfold ChatQ.InsertMessage, with_text.
  rewrite Ht, Hid. unfold conversation_of in Hc. by rewrite Hc.
Qed.

Lemma run_TouchConversation conv w :
  text_ok conv = true ->
  run env (exec (ChatQ.TouchConversation conv)) w =
  (Ok tt, mkWorld (S (w_tick w)) (set_db (set_conversations
     (tupdate (ChatQ.has_id conv) (ChatQ.touch (env_clock env (w_tick w)))
        (conversations (w_db w))) (w_db w)) (w_st w))).
Proof.
  intros Ht. rewrite (run_exec env Hnf). unfold ChatQ.TouchConversation, with_text.
  cbn [forallb]. by rewrite Ht.
Qed.

(** One turn is appended; the conversation is touched. *)
Definition after_turn (conv role content : string) (w : World) : World :=
  mkWorld (3 + w_tick w)
    (set_db (set_conversations (tupdate (ChatQ.has_id conv)
       (ChatQ.touch (env_clock env (2 + w_tick w))) (conversations (w_db w)))
       (set_messages (messages (w_db w) ++
          [mkMessageRow (id_at env "msg" (w_tick w)) conv role content
             (env_clock env (1 + w_tick w))]) (w_db w))) (w_st w)).

Lemma run_AddMessage conv role content row w :
  chat_fresh w -> (w_tick w < horizon)%nat -> conversation_of (w_db w) conv = Some row ->
  forallb text_ok [conv; role; content] = true ->
  run env (ChatRepo.AddMessage conv role content) w = (Ok tt, after_turn conv role content w).
Proof.
  intros [Hm _] Hlt Hc Ht. change (@ChatRepo.AddMessage _) with PgChatRepo.AddMessage.
  assert (forallb text_ok [id_at env "msg" (w_tick w); conv; role; content] = true) as Ht'.
  { cbn [forallb]. rewrite id_text_ok by done. exact Ht. }
  assert (text_ok conv = true) as Hcv by (cbn [forallb] in Ht; by bool_prop).
  unfold after_turn.
  assert (forall r, In r (messages (w_db w)) -> msg_id r <> id_at env "msg" (w_tick w)) as Hid
    by (intros r Hr; by apply (Hm _ _ (conj (le_n _) Hlt) Hr)).
  unfold PgChatRepo.AddMessage. rewrite run_bind, run_New, run_bind.
  set (mid := id_at env "msg" (w_tick w)) in *. clearbody mid.
  rewrite (run_InsertMessage _ _ _ _ row (tick w)); [|by apply (tfind_fresh msg_id)|done..].
  rewrite run_TouchConversation by done. reflexivity.
Qed.

Lemma conversation_of_id d conv row : conversation_of d conv = Some row ->
  In row (conversations d) /\ conv_id row = conv.
Proof. intros H. apply tfind_some in H as [? H]. by apply String.eqb_eq in H. Qed.

(** A step that keeps the tables keeps them fresh. *)
Lemma chat_fresh_mono w w' :
  chat_fresh w -> w_db w' = w_db w -> (w_tick w <= w_tick w')%nat -> chat_fresh w'.
Proof.
  intros [Hm Hc] Hd Ht. unfold chat_fresh. rewrite Hd.
  split; intros n r Hn Hr; [apply Hm|apply Hc]; done || lia.
Qed.

Lemma after_turn_fresh conv role content row w :
  chat_fresh w -> (w_tick w < horizon)%nat -> conversation_of (w_db w) conv = Some row ->
  chat_fresh (after_turn conv role content w).
Proof.
  intros [Hm Hc] Hlt Hrow. apply conversation_of_id in Hrow as [Hin Hid].
  split; intros n r Hn Hr; simpl in Hn.
  - change (In r (messages (w_db w) ++ [mkMessageRow (id_at env "msg" (w_tick w)) conv role
      content (env_clock env (1 + w_tick w))])) in Hr.
    apply in_app_or in Hr as [Hr|[<-|[]]]; [apply Hm; [lia|done]|].
    split; [|split].
    + intros E. apply Hids in E; lia.
    + change (conv <> id_at env "conv" n). rewrite <- Hid. apply Hc; [lia|done].
    + apply Hmono. lia.
  - change (In r (tupdate (ChatQ.has_id conv) (ChatQ.touch (env_clock env (2 + w_tick w)))
      (conversations (w_db w)))) in Hr.
    apply in_map_iff in Hr as (r0 & <- & Hr0).
    assert (conv_id r0 <> id_at env "conv" n) as H by (apply Hc; [lia|done]).
    by destruct (ChatQ.has_id conv r0).
Qed.

Lemma after_turn_conversation conv role content row w :
  conversation_of (w_db w) conv = Some row ->
  conversation_of (w_db (after_turn conv role content w)) conv =
  Some (ChatQ.touch (env_clock env (2 + w_tick w)) row).
Proof.
  intros H. pose proof (conversation_of_id _ _ _ H) as [_ Hid].
  change (tfind (ChatQ.has_id conv) (tupdate (ChatQ.has_id conv)
    (ChatQ.touch (env_clock env (2 + w_tick w))) (conversations (w_db w))) =
    Some (ChatQ.touch (env_clock env (2 + w_tick w)) row)).
  rewrite tfind_tupdate; [|done]. unfold conversation_of in H. by rewrite H.
Qed.

(** The turns of a conversation, oldest first. *)
Definition history_of (d : DB) (conv : string) : list Message :=
  map PgChatRepo.row_message
    (tsort msg_created_at (tselect (ChatQ.of_conversation conv) (messages d))).

Lemma after_turn_history conv role content w :
  chat_fresh w -> (1 + w_tick w < horizon)%nat ->
  history_of (w_db (after_turn conv role content w)) conv =
  history_of (w_db w) conv ++ [mkMessage role content (env_clock env (1 + w_tick w))].
Proof.
  intros [Hm _] Hlt. unfold history_of.
  change (messages (w_db (after_turn conv role content w))) with
    (messages (w_db w) ++ [mkMessageRow (id_at env "msg" (w_tick w)) conv role content
       (env_clock env (1 + w_tick w))]).
  set (row := mkMessageRow _ _ _ _ _).
  unfold tselect. rewrite List.filter_app.
  assert (List.filter (ChatQ.of_conversation conv) [row] = [row]) as ->.
  { unfold row. cbn [List.filter]. unfold ChatQ.of_conversation. cbn [msg_conversation_id].
    by rewrite String.eqb_refl. }
  rewrite tsort_last, map_app; [done|].
  intros r Hr. apply List.filter_In in Hr as [Hr _]. apply (Hm (1 + w_tick w)%nat); [lia|done].
Qed.

Lemma run_Messages conv w :
  text_ok conv = true ->
  run env (ChatRepo.Messages conv) w = (Ok (history_of (w_db w) conv), tick w).
Proof.
  intros Ht. change (@ChatRepo.Messages _) with PgChatRepo.Messages.
  unfold PgChatRepo.Messages. rewrite run_bind, (run_exec_read env Hnf) by apply ListMessages_read.
  unfold ChatQ.ListMessages, with_text. cbn [forallb]. by rewrite Ht.
Qed.

Lemma run_GetConversation conv row w :
  text_ok conv = true -> conversation_of (w_db w) conv = Some row ->
  run env (ChatRepo.GetConversation conv) w = (Ok (conv_org_id row, conv_status row, true), tick w).
Proof.
  intros Ht H. change (@ChatRepo.GetConversation _) with PgChatRepo.GetConversation.
  unfold PgChatRepo.GetConversation.
  rewrite run_bind, run_try, (run_exec_read env Hnf) by apply GetConversation_read.
  unfold ChatQ.GetConversation, with_text. cbn [forallb]. rewrite Ht. cbn [andb].
  unfold conversation_of in H. by rewrite H.
Qed.

Lemma run_GetSettings org w :
  exists r, run env (ptry (ChatSettingsRepo.Get org)) w = (Ok r, tick w).
Proof.
  change (@ChatSettingsRepo.Get _) with PgChatSettingsRepo.Get.
  unfold PgChatSettingsRepo.Get.
  rewrite run_try, run_bind, run_try, (run_exec_read env Hnf) by apply GetChatSettings_read.
  destruct (ChatQ.GetChatSettings org _ _) as [[r d]|e]; [by eexists|].
  destruct e; by eexists.
Qed.

(** What one exchange leaves: the conversation [conv], still nobody's but [org]'s and
    the assistant's, with two turns more, and nothing else that a later one needs
    changed. *)
Record exchanged (org conv text : string) (h : list Message) (w w' : World) : Prop := {
  ex_fresh : chat_fresh w';
  ex_ticks : (w_tick w' <= 14 + pub_ticks + w_tick w)%nat;
  ex_row : exists row, conversation_of (w_db w') conv = Some row /\
    conv_org_id row = org /\ conv_status row <> ConvHandling;
  ex_history : exists t1 t2, history_of (w_db w') conv = h ++
    [mkMessage "user" text t1; mkMessage "assistant" (answer text) t2];
  ex_keys : api_keys (w_db w') = api_keys (w_db w)
}.

(** One exchange with the built-in model. *)
Lemma run_reply org conv text row w :
  chat_fresh w -> (12 + pub_ticks + w_tick w < horizon)%nat ->
  conversation_of (w_db w) conv = Some row ->
  conv_status row <> ConvHandling -> text_ok conv = true -> text_ok text = true ->
  exists w',
    run env (Chat.reply (model := Builtin.model) activity org conv text) w
      = (Ok (answer text), w') /\
    (w_tick w' <= 12 + pub_ticks + w_tick w)%nat /\
    exchanged (conv_org_id row) conv text (history_of (w_db w) conv) w w'.
Proof.
  intros Hf Hlt Hrow Hst Hc Ht. unfold Chat.reply. rewrite run_bind.
  rewrite (run_AddMessage _ _ _ row) by (first [done | lia | cbn [forallb]; by rewrite Hc, Ht]).
  assert (w_tick w < horizon)%nat as Hlt0 by lia.
  assert (1 + w_tick w < horizon)%nat as Hlt0' by lia.
  pose proof (after_turn_fresh conv "user" text row w Hf Hlt0 Hrow) as Hf1.
  pose proof (after_turn_conversation conv "user" text row w Hrow) as Hrow1.
  pose proof (after_turn_history conv "user" text w Hf Hlt0') as Hh1.
  assert (w_tick (after_turn conv "user" text w) = 3 + w_tick w)%nat as Htk by done.
  assert (api_keys (w_db (after_turn conv "user" text w)) = api_keys (w_db w)) as Hk1 by done.
  set (w1 := after_turn conv "user" text w) in *.
  set (row1 := ChatQ.touch (env_clock env (2 + w_tick w)) row) in Hrow1.
  set (t1 := env_clock env _) in Hh1. clearbody w1.
  rewrite run_bind.
  destruct (Hpub (mkActivityEvent "chat.message" org "New chat message" (Chat.preview text)
    zeroTime) w1) as (w2 & -> & Hd2 & Ht2 & Ht2').
  pose proof (chat_fresh_mono w1 w2 Hf1 Hd2 Ht2) as Hf2. rewrite <- Hd2 in Hrow1, Hh1, Hk1.
  rewrite run_bind, (run_GetConversation conv row1) by done. cbn [fst snd].
  assert ((conv_status row1 =? ConvHandling)%string = false) as -> by (by apply String.eqb_neq).
  rewrite run_bind, run_Messages by done.
  change (w_db (tick w2)) with (w_db w2). rewrite Hh1, run_bind.
  destruct (run_GetSettings org (tick (tick w2))) as (cs & ->). rewrite run_bind.
  change (run env (ChatModel.Reply (Chat.prompt_of cs)
    (history_of (w_db w) conv ++ [mkMessage "user" text t1])) (tick (tick (tick w2))))
    with (Ok (Builtin.reply_text (history_of (w_db w) conv ++ [mkMessage "user" text t1])),
      tick (tick (tick w2))).
  rewrite reply_text_user, run_bind.
  set (w3 := tick (tick (tick w2))).
  assert (chat_fresh w3) as Hf3 by (apply (chat_fresh_mono w2); [done|done|simpl; lia]).
  change (w_db w2) with (w_db w3) in Hrow1, Hh1, Hk1.
  pose proof (answer_text_ok text) as Ha.
  assert (w_tick w3 = 3 + w_tick w2)%nat as Ht3 by done.
  rewrite (run_AddMessage _ _ _ row1) by (first [done | lia | cbn [forallb]; by rewrite Hc, Ha]).
  eexists. split; [reflexivity|].
  assert (w_tick (after_turn conv "assistant" (answer text) w3) = 3 + w_tick w3)%nat as Ht4 by done.
  split; [lia|split; [|lia|..]].
  - apply (after_turn_fresh _ _ _ row1); done || lia.
  - eexists. by split; [apply after_turn_conversation|].
  - exists t1. eexists. rewrite after_turn_history, Hh1 by (done || lia). by rewrite <- app_assoc.
  - exact Hk1.
Qed.

Lemma run_CreateConversation org w :
  chat_fresh w -> (w_tick w < horizon)%nat -> text_ok org = true ->
  exists w' row, run env (ChatRepo.CreateConversation org (id_at env "conv" (w_tick w))) (tick w)
      = (Ok tt, w') /\ chat_fresh w' /\ w_tick w' = (2 + w_tick w)%nat /\
    conversation_of (w_db w') (id_at env "conv" (w_tick w)) = Some row /\
    conv_org_id row = org /\ conv_status row = ConvOpen /\
    history_of (w_db w') (id_at env "conv" (w_tick w)) = [] /\
    api_keys (w_db w') = api_keys (w_db w).
Proof.
  intros [Hm Hc] Hlt Ho. change (@ChatRepo.CreateConversation _) with PgChatRepo.CreateConversation.
  unfold PgChatRepo.CreateConversation. rewrite (run_exec env Hnf).
  pose proof (id_text_ok env "conv" (w_tick w) eq_refl) as Hidt.
  assert (forall r, In r (conversations (w_db w)) -> conv_id r <> id_at env "conv" (w_tick w)) as H1
    by (intros r Hr; apply Hc; [lia|done]).
  assert (forall r, In r (messages (w_db w)) ->
    msg_conversation_id r <> id_at env "conv" (w_tick w)) as H2
    by (intros r Hr; by apply (Hm _ _ (conj (le_n _) Hlt) Hr)).
  assert (forall n, (S (w_tick w) <= n < horizon)%nat -> id_at env "conv" (w_tick w) <> id_at env "conv" n)
    as H3 by (intros n Hn E; apply Hids in E; lia).
  set (cid := id_at env "conv" (w_tick w)) in *. clearbody cid.
  unfold ChatQ.CreateConversation, with_text, ChatQ.insert_conversation. cbn [forallb].
  rewrite Hidt, Ho. cbn [andb].
  assert (tfind (ChatQ.has_id cid) (conversations (w_db (tick w))) = None) as Hn
    by (apply (tfind_fresh conv_id); exact H1).
  rewrite Hn. eexists _, _. split; [reflexivity|].
  split; [|split; [done|split; [|split; [|split; [|split; [|done]]]]]].
  - split; intros n r Hr Hin; cbn in Hr.
    + apply Hm; [lia|exact Hin].
    + change (In r (conversations (w_db w) ++ [mkConversationRow cid org "chat" None "open"
        (sql_now (ctx_at env (tick w))) (sql_now (ctx_at env (tick w))) None])) in Hin.
      apply in_app_or in Hin as [Hin|[<-|[]]]; [apply Hc; [lia|done]|]. cbn [conv_id].
      apply H3. lia.
  - unfold conversation_of. cbn [w_db set_db set_conversations conversations w_st s_db].
    rewrite tfind_app. change (w_db w) with (w_db (tick w)). 
    rewrite Hn. cbn [tfind List.find]. unfold ChatQ.has_id at 1. cbn [conv_id].
    by rewrite String.eqb_refl.
  - done.
  - done.
  - unfold history_of. cbn [w_db set_db set_conversations messages w_st s_db].
    assert (tselect (ChatQ.of_conversation cid) (messages (w_db (tick w))) = []) as ->; [|done].
    apply list_filter_none. intros r Hr. by apply String.eqb_neq, H2.
Qed.

(** Where a message goes: a new conversation, or one of the org that no agent
    handles, with the turns it has. *)
Inductive thread (w : World) (org : OrgID) : string -> list Message -> Prop :=
| thread_new : thread w org "" []
| thread_old id row :
    id <> "" -> text_ok id = true -> conversation_of (w_db w) id = Some row ->
    conv_org_id row = org -> conv_status row <> ConvHandling ->
    thread w org id (history_of (w_db w) id).

Lemma run_owns org conv row w :
  text_ok conv = true -> conversation_of (w_db w) conv = Some row -> conv_org_id row = org ->
  run env (Chat.owns org conv) w = (Ok tt, tick w).
Proof.
  intros Hc Hrow <-. unfold Chat.owns. rewrite run_bind, (run_GetConversation _ row) by done.
  cbn [fst snd]. by rewrite String.eqb_refl.
Qed.

(** Send to a thread, new or not. *)
Lemma run_Send org id text h w :
  chat_fresh w -> (14 + pub_ticks + w_tick w < horizon)%nat ->
  text_ok org = true -> text_ok text = true -> thread w org id h ->
  exists conv w',
    run env (Chat.Send (model := Builtin.model) activity org id text) w
      = (Ok (conv, answer text), w') /\
    conv = (if (id =? "")%string then id_at env "conv" (w_tick w) else id) /\
    text_ok conv = true /\ exchanged org conv text h w w'.
Proof.
  intros Hf Hlt Ho Ht Hth. unfold Chat.Send. rewrite run_bind.
  destruct Hth as [|id row Hid Hidt Hrow Horg Hst].
  - destruct (run_CreateConversation org w Hf ltac:(lia) Ho)
      as (w0 & row & H & Hf' & Htk & Hr & Horg & Hst & Hh & Hk).
    change (("" =? "")%string) with true. cbv iota. rewrite run_bind, run_New, run_bind, H.
    cbn [run ret]. pose proof (id_text_ok env "conv" (w_tick w) eq_refl) as Hct.
    destruct (run_reply org _ text row w0 Hf' ltac:(lia) Hr ltac:(by rewrite Hst) Hct Ht)
      as (w' & Hrun & Htk' & [Hf'' _ Hrow' Hhist Hk']).
    eexists _, w'. rewrite run_bind, Hrun. split; [reflexivity|]. split; [done|]. split; [done|].
    split; [done|lia|by rewrite <- Horg|by rewrite Hh in Hhist|by rewrite <- Hk].
  - apply String.eqb_neq in Hid. rewrite Hid, run_bind, (run_owns _ _ row) by done.
    assert (chat_fresh (tick w)) as Hf0 by (by apply (chat_fresh_mono w); [..|simpl; lia]).
    destruct (run_reply org id text row (tick w) Hf0 ltac:(simpl; lia) Hrow Hst Hidt Ht)
      as (w' & Hrun & Htk' & [Hf'' _ Hrow' Hhist Hk']).
    eexists _, w'. cbn [run ret].
    rewrite run_bind, Hrun. split; [reflexivity|]. split; [done|]. split; [done|].
    split; [done|simpl in Htk'; lia|by rewrite <- Horg|done|done].
Qed.

(** While an agent handles the conversation the text is stored and the reply is
    empty. *)
Lemma run_Send_handled org id text row w :
  chat_fresh w -> (4 + w_tick w < horizon)%nat -> id <> "" -> text_ok id = true ->
  text_ok text = true -> conversation_of (w_db w) id = Some row -> conv_org_id row = org ->
  conv_status row = ConvHandling ->
  exists w' t, run env (Chat.Send (model := Builtin.model) activity org id text) w
      = (Ok (id, ""), w') /\
    history_of (w_db w') id = history_of (w_db w) id ++ [mkMessage "user" text t].
Proof.
  intros Hf Hlt Hid Hidt Ht Hrow Horg Hst. unfold Chat.Send.
  apply String.eqb_neq in Hid. rewrite Hid, run_bind, run_bind, (run_owns _ _ row) by done.
  cbn [run ret]. rewrite run_bind. unfold Chat.reply. rewrite run_bind.
  assert (chat_fresh (tick w)) as Hf0 by (by apply (chat_fresh_mono w); [..|simpl; lia]).
  rewrite (run_AddMessage _ _ _ row)
    by (first [done | simpl; lia | cbn [forallb]; by rewrite Hidt, Ht]).
  pose proof (after_turn_conversation id "user" text row (tick w) Hrow) as Hrow1.
  assert (1 + w_tick (tick w) < horizon)%nat as Hlt1 by (simpl; lia).
  pose proof (after_turn_history id "user" text (tick w) Hf0 Hlt1) as Hh1.
  set (w1 := after_turn id "user" text (tick w)) in *. clearbody w1. rewrite run_bind.
  destruct (Hpub (mkActivityEvent "chat.message" org "New chat message" (Chat.preview text)
    zeroTime) w1) as (w2 & -> & Hd2 & _). rewrite <- Hd2 in Hrow1, Hh1.
  rewrite run_bind, (run_GetConversation id _ w2 Hidt Hrow1). cbn [fst snd].
  assert (forall t, conv_status (ChatQ.touch t row) = ConvHandling) as -> by done. change (ConvHandling =? ConvHandling)%string with true. cbv iota.
  eexists _, _. split; [reflexivity|]. exact Hh1.
Qed.

(** A conversation with the built-in assistant: whatever was said
    before, Send answers the text by its keywords and the conversation then
    reads back as it was, followed by the customer's text and that answer. *)
Theorem Send_transcript org id text h w :
  chat_fresh w -> (14 + pub_ticks + w_tick w < horizon)%nat ->
  text_ok org = true -> text_ok text = true -> thread w org id h ->
  exists conv w' t1 t2 w'',
    run env (Chat.Send (model := Builtin.model) activity org id text) w
      = (Ok (conv, answer text), w') /\
    (id = "" \/ conv = id) /\
    run env (Chat.Messages org conv) w' =
      (Ok (h ++ [mkMessage "user" text t1; mkMessage "assistant" (answer text) t2]), w'').
Proof.
  intros Hf Hlt Ho Ht Hth.
  destruct (run_Send org id text h w Hf Hlt Ho Ht Hth)
    as (conv & w' & Hrun & Hconv & Hc & [_ _ (row & Hrow & Horg & _) (t1 & t2 & Hh) _]).
  exists conv, w', t1, t2, (tick (tick w')). split; [done|]. split.
  { destruct (String.eqb_spec id ""); [by left|by right]. }
  unfold Chat.Messages. by rewrite run_bind, (run_owns _ _ row), run_Messages, <- Hh by done.
Qed.
End Transcript.
