(* ===== verification/MessagingSpec.v ===== *)
(** * Messaging channels: what a connected channel does with messages

    A channel's token is sealed by Connect and opened, unchanged, for every
    message sent through the channel (messaging.go over channels.go). *)

From S2P Require Import Prelude.
From S2P Require Import Domain.
From S2P Require Import Effects.
From S2P Require Import GoLib.
From S2P Require Import Json.
From S2P Require Import Store.
From S2P Require Import Crypto.
From S2P Require Import Ports.
From S2P Require Import NoFault.
From S2P Require Import PgChat.
From S2P Require Import Chat.
From S2P Require Import Messaging.
From S2P Require Import ChatSpec.
From stdpp Require Import gmap strings list.
From Stdlib Require Import ZArith Lia.

Open Scope Z_scope.
Open Scope go_scope.

(** [connected d org typ ext enc]: the channel of (org, typ), which is also the
    one found under its external id. *)
Definition connected (d : DB) (org typ ext enc : string) : Prop :=
  exists r r',
    tfind (ChannelQ.mine org typ) (channel_connections d) = Some r /\
    tfind (ChannelQ.has_external ext) (channel_connections d) = Some r' /\
    chan_external_id r = ext /\ chan_access_token r = enc /\
    chan_org_id r' = org /\ chan_type r' = typ /\ chan_access_token r' = enc.

(** The rows another (org, type) holds under an external id. *)
Definition claimed_by_other (d : DB) (org typ ext : string) : option ChannelRow :=
  tfind (fun r => ChannelQ.has_external ext r && negb (ChannelQ.mine org typ r))
    (channel_connections d).

Lemma set_channel_connected org typ ext enc verify t :
  tfind (fun r => ChannelQ.has_external ext r && negb (ChannelQ.mine org typ r)) t = None ->
  is_Some (tfind (ChannelQ.mine org typ) t) ->
  exists r r',
    tfind (ChannelQ.mine org typ)
      (tupdate (ChannelQ.mine org typ) (ChannelQ.set_channel ext enc verify) t) = Some r /\
    tfind (ChannelQ.has_external ext)
      (tupdate (ChannelQ.mine org typ) (ChannelQ.set_channel ext enc verify) t) = Some r' /\
    chan_external_id r = ext /\ chan_access_token r = enc /\
    chan_org_id r' = org /\ chan_type r' = typ /\ chan_access_token r' = enc.
Proof.
  intros Hother [r0 Hr0].
  rewrite tfind_tupdate by done. rewrite Hr0. eexists _. simpl.
  enough (exists r', tfind (ChannelQ.has_external ext)
      (tupdate (ChannelQ.mine org typ) (ChannelQ.set_channel ext enc verify) t) = Some r' /\
    chan_org_id r' = org /\ chan_type r' = typ /\ chan_access_token r' = enc)
    as (r' & H1 & H2 & H3 & H4) by (exists r'; by split_and!).
  revert Hother Hr0. induction t as [|x t IH]; simpl; [done|].
  destruct (ChannelQ.mine org typ x) eqn:Em; simpl.
  - intros _ _. unfold ChannelQ.has_external at 1. simpl. rewrite String.eqb_refl.
    eexists. split; [done|]. unfold ChannelQ.mine in Em. bool_prop. by simpl.
  - rewrite andb_true_r. destruct (ChannelQ.has_external ext x); [done|]. apply IH.
Qed.

Lemma UpsertChannel_connected ctx id org typ ext enc verify d :
  claimed_by_other d org typ ext = None ->
  tfind (fun r => (chan_id r =? id)%string) (channel_connections d) = None ->
  forallb text_ok [id; org; typ; ext; verify] = true ->
  exists d', ChannelQ.UpsertChannel id org typ ext enc verify ctx d = inl (tt, d') /\
    connected d' org typ ext enc.
Proof.
  intros Hother Hid Ht. unfold ChannelQ.UpsertChannel, with_text. rewrite Ht.
  unfold claimed_by_other in Hother. rewrite Hother.
  destruct (tfind (ChannelQ.mine org typ) (channel_connections d)) as [r|] eqn:Er.
  - eexists. split; [done|]. unfold connected. cbn [set_channel_connections channel_connections].
    apply set_channel_connected; [done|by rewrite Er].
  - rewrite Hid. eexists. split; [done|]. unfold connected.
    cbn [set_channel_connections channel_connections]. set (row := mkChannelRow _ _ _ _ _ _ _).
    assert (ChannelQ.mine org typ row = true) as Hm
      by (unfold ChannelQ.mine; simpl; by rewrite !String.eqb_refl).
    assert (ChannelQ.has_external ext row = true) as He by apply String.eqb_refl.
    assert (tfind (ChannelQ.has_external ext) (channel_connections d) = None) as Hn.
    { destruct (tfind (ChannelQ.has_external ext) _) as [r|] eqn:E; [|done]. apply tfind_some in E as [Hin Hx].
      pose proof (tfind_none _ _ r Hother Hin) as H. pose proof (tfind_none _ _ r Er Hin) as H'.
      cbn beta in H. by rewrite Hx, H' in H. }
    exists row, row. rewrite !tfind_app, Er, Hn. cbn [tfind List.find]. rewrite Hm, He.
    by split_and!.
Qed.

#[local] Existing Instances PgChannelRepo.repo.

Lemma get_channel_read p : read_only (ChannelQ.get_channel p).
Proof. intros ctx d a d'. unfold ChannelQ.get_channel. split_match; [|done]. by intros [= _ <-]. Qed.

Section Channels.
Context (env : Env) (Hnf : forall n, env_fault env n = NoFault).
Context {aead : AEAD.T} {aead_laws : AEAD.Laws aead}.
Context {assistant : Assistant.T} {sender : MessagingSender.T}.

(** What Encrypt returns decrypts to the plaintext. *)
Lemma run_Encrypt token w :
  exists enc, run env (Cipher.Encrypt token) w = (Ok enc, tick w) /\
    Cipher.Decrypt enc = inl token.
Proof.
  exists (bytes_from (env_rand env (w_tick w)) AEAD.NonceSize +:+
          AEAD.Seal (bytes_from (env_rand env (w_tick w)) AEAD.NonceSize) token).
  split; [done|]. apply Cipher.Decrypt_sealed, bytes_from_length.
Qed.

Lemma run_ByExternalID org typ ext enc w :
  connected (w_db w) org typ ext enc -> text_ok ext = true ->
  exists verify, run env (ChannelRepo.ByExternalID ext) w
    = (Ok (org, typ, enc, verify, true), tick w).
Proof.
  intros (r & r' & _ & Hf & _ & _ & <- & <- & <-) Ht.
  change (@ChannelRepo.ByExternalID _) with PgChannelRepo.ByExternalID.
  unfold PgChannelRepo.ByExternalID. rewrite run_bind, run_try, (run_exec_read env Hnf).
  - unfold ChannelQ.GetChannelByExternalID, with_text, ChannelQ.get_channel. cbn [forallb].
    rewrite Ht. cbn [andb]. rewrite Hf. by eexists.
  - apply with_text_read, get_channel_read.
Qed.

Lemma run_ByOrgAndType org typ ext enc w :
  connected (w_db w) org typ ext enc -> text_ok org = true -> text_ok typ = true ->
  run env (ChannelRepo.ByOrgAndType org typ) w = (Ok (ext, enc, true), tick w).
Proof.
  intros (r & r' & Hf & _ & <- & <- & _ & _ & _) Ho Ht.
  change (@ChannelRepo.ByOrgAndType _) with PgChannelRepo.ByOrgAndType.
  unfold PgChannelRepo.ByOrgAndType. rewrite run_bind, run_try, (run_exec_read env Hnf).
  - unfold ChannelQ.GetChannelByOrgAndType, with_text, ChannelQ.get_channel. cbn [forallb].
    rewrite Ho, Ht. cbn [andb]. by rewrite Hf.
  - apply with_text_read, get_channel_read.
Qed.

(** C32: A channel connected with an access token answers with it: as long as
    its row is unchanged, a message to its external id goes to the assistant as
    one of the org's, and a non-empty answer is sent back to the sender with
    exactly the token the org connected; outbound messages carry it too. *)
Theorem Connect_then_answer org typ ext token verify w :
  claimed_by_other (w_db w) org typ ext = None ->
  (forall n r, In r (channel_connections (w_db w)) -> chan_id r <> id_at env "chan" n) ->
  forallb text_ok [org; typ; ext; verify] = true ->
  exists w1, run env (Messaging.Connect org typ ext token verify) w = (Ok tt, w1) /\
    forall w2, channel_connections (w_db w2) = channel_connections (w_db w1) ->
      (forall user text,
         run env (Messaging.SendOutbound org typ user text) w2 =
         run env (MessagingSender.Send (mkOutboundMessage typ ext token user text)) (tick w2)) /\
      (forall from text,
         run env (Messaging.HandleInbound ext from text) w2 =
         match run env (Assistant.SendChannel org typ from text) (tick w2) with
         | (Ok reply, w3) =>
             if (reply =? "")%string then (Ok tt, w3)
             else run env (MessagingSender.Send (mkOutboundMessage typ ext token from reply)) w3
         | (Err e, w3) => (Err e, w3)
         | (Panic, w3) => (Panic, w3)
         end).
Proof.
  intros Hother Hids Ht.
  assert (text_ok org = true /\ text_ok typ = true /\ text_ok ext = true) as (Ho & Hty & He)
    by (cbn [forallb] in Ht; by bool_prop).
  destruct (run_Encrypt token w) as (enc & Henc & Hdec).
  unfold Messaging.Connect. rewrite run_bind, Henc.
  change (@ChannelRepo.Upsert _) with PgChannelRepo.Upsert.
  unfold PgChannelRepo.Upsert.
  rewrite run_bind, run_New.
  pose proof (id_text_ok env "chan" (w_tick (tick w)) eq_refl) as Hcid.
  assert (tfind (fun r => (chan_id r =? id_at env "chan" (w_tick (tick w)))%string)
    (channel_connections (w_db w)) = None) as Hfr by (apply (tfind_fresh chan_id), Hids).
  set (cid := id_at env "chan" (w_tick (tick w))) in *. clearbody cid.
  rewrite (run_exec env Hnf).
  destruct (UpsertChannel_connected (ctx_at env (tick (tick w))) cid org typ ext enc verify
    (w_db (tick (tick w))) Hother Hfr) as (d' & -> & Hcon); [cbn [forallb]; by rewrite Hcid|].
  eexists. split; [reflexivity|]. intros w2 Hw2.
  assert (connected (w_db w2) org typ ext enc) as Hc2
    by (unfold connected in *; rewrite Hw2; exact Hcon).
  split.
  - intros user text. unfold Messaging.SendOutbound.
    rewrite run_bind, (run_ByOrgAndType _ _ _ _ _ Hc2 Ho Hty). cbn [negb]. by rewrite Hdec.
  - intros from text. unfold Messaging.HandleInbound.
    destruct (run_ByExternalID _ _ _ _ _ Hc2 He) as [v Hv]. rewrite run_bind, Hv. cbn [negb].
    rewrite run_bind. destruct (run env (Assistant.SendChannel _ _ _ _) _) as [[reply|e|] w3];
      [|done..]. destruct (reply =? "")%string; [done|]. by rewrite Hdec.
Qed.
End Channels.
