(* ===== verification/AssistantSpec.v ===== *)
(** * The built-in assistant and the keyword summarizer: what they say

    builtin.go matches keywords inside words; summarize.go cuts the latest
    message at a byte offset and prints counts with its own itoa. *)

From S2P Require Import Prelude.
From S2P Require Import Domain.
From S2P Require Import Effects.
From S2P Require Import GoLib.
From S2P Require Import Json.
From S2P Require Import Store.
From S2P Require Import Ports.
From S2P Require Import NoFault.
From S2P Require Import PgChat.
From S2P Require Import Assistant.
From S2P Require Import Chat.
From S2P Require Import ChatSpec.
From stdpp Require Import gmap strings list.
From Stdlib Require Import ZArith Lia.

Open Scope Z_scope.
Open Scope go_scope.

(** ** Keywords inside words *)

Lemma Contains_prefix s p q :
  String.prefix q p = true -> Strings.Contains s p = true -> Strings.Contains s q = true.
Proof.
  intros Hq. apply Strings.prefix_split in Hq as [r ->].
  assert (forall s, String.prefix (q +:+ r) s = true -> String.prefix q s = true) as Hp.
  { intros t Ht. apply Strings.prefix_split in Ht as [u ->].
    rewrite JsonFacts.app_assoc_s. apply Strings.prefix_app. }
  induction s as [|c s IH]; cbn [Strings.Contains]; intros H; apply orb_prop in H as [H|H];
    apply orb_true_intro; [left; by apply Hp|done|left; by apply Hp|right; by apply IH].
Qed.

Lemma Contains_suffix s c p :
  Strings.Contains s (String c p) = true -> Strings.Contains s p = true.
Proof.
  revert s. induction s as [|d s IH]; intros H; [done|].
  cbn [Strings.Contains String.prefix] in *. apply orb_true_intro. right.
  apply orb_prop in H as [H|H]; [|by apply IH].
  destruct (Ascii.ascii_dec c d) as [_|]; [|done].
  destruct s; cbn [Strings.Contains]; by rewrite H.
Qed.

(** A question about shipping is never answered: the greeting's keyword
    hi occurs in the word, and the greeting is tried first, so every message
    that mentions shipping is answered with hello. *)
Theorem shipping_is_greeted text :
  Strings.Contains (Strings.ToLower text) "shipping" = true ->
  answer text = "Hello! 👋 I'm here to help with your order — tracking, returns, delivery, or anything else. What do you need?".
Proof.
  intros H. unfold answer.
  assert (Strings.Contains (Strings.ToLower text) "hi" = true) as Hhi.
  { apply Contains_suffix in H. by apply (Contains_prefix _ "hipping" "hi"). }
  destruct (Strings.ToLower text =? "")%string eqn:E; [bool_prop; by rewrite E in H|].
  unfold Builtin.intents. cbn [Builtin.find_reply Builtin.triggers].
  unfold containsAny at 1. cbn [existsb]. rewrite Hhi. reflexivity.
Qed.

Lemma shipping_is_greeted_witness :
  answer "How much is Shipping to Sylhet?" =
  "Hello! 👋 I'm here to help with your order — tracking, returns, delivery, or anything else. What do you need?".
Proof. apply (shipping_is_greeted "How much is Shipping to Sylhet?"). by vm_compute. Defined.

(** ** The count *)

Lemma itoa_digits_ref fuel n acc :
  Heuristic.itoa_digits fuel n acc = Strconv.digits_of fuel n acc.
Proof.
  revert n acc. induction fuel as [|f IH]; intros n acc; simpl; [done|].
  rewrite (Z.leb_antisym 0 n). destruct (0 <? n); simpl; [apply IH|done].
Qed.

(** The summarizer's own itoa prints a count as strconv.Itoa does. *)
Lemma itoa_ref n : 0 <= n -> Heuristic.itoa n = Strconv.Itoa n.
Proof.
  intros Hn. unfold Heuristic.itoa, Strconv.Itoa. destruct (n =? 0); [done|].
  assert ((n <? 0)%Z = false) as -> by (by apply Z.ltb_ge). apply itoa_digits_ref.
Qed.

Lemma itoa_digits_printable fuel n acc :
  Strings.forallb printable acc = true ->
  Strings.forallb printable (Heuristic.itoa_digits fuel n acc) = true.
Proof.
  revert n acc. induction fuel as [|f IH]; intros n acc Ha; cbn [Heuristic.itoa_digits]; [done|].
  destruct (0 <? n); [|done]. apply IH. cbn [Strings.forallb]. rewrite Ha, andb_true_r.
  unfold printable. rewrite byte_of_chr. pose proof (Z.mod_pos_bound n 10 ltac:(lia)).
  rewrite Z.mod_small by lia. apply andb_true_intro. split; [apply Z.ltb_lt|apply Z.ltb_lt]; lia.
Qed.

Lemma itoa_printable n : Strings.forallb printable (Heuristic.itoa n) = true.
Proof.
  unfold Heuristic.itoa. destruct (n =? 0); [done|]. by apply itoa_digits_printable.
Qed.

(** ** Cutting a message inside a letter *)

Lemma Valid_printable p s :
  Strings.forallb printable p = true -> Utf8.Valid (p +:+ s) = Utf8.Valid s.
Proof.
  unfold Utf8.Valid. induction p as [|c p IH]; [done|]. cbn. intros H.
  apply andb_prop in H as [Hc H]. unfold printable in Hc. apply andb_prop in Hc as [_ Hc].
  rewrite Hc. by apply IH.
Qed.

(** The letter ka, n times: three bytes each. *)
Fixpoint kas (n : nat) : string :=
  match n with O => "" | S n => "ক" +:+ kas n end.

Lemma kas_add n m : kas (n + m) = kas n +:+ kas m.
Proof. induction n as [|n IH]; simpl; [done|]. by rewrite IH. Qed.

Lemma rev_onto_app s t acc :
  Strings.rev_onto (s +:+ t) acc = Strings.rev_onto t (Strings.rev_onto s acc).
Proof. revert acc. induction s as [|c s IH]; intros acc; simpl; [done|]. apply IH. Qed.

Lemma TrimSpace_kas n : Strings.TrimSpace (kas n) = kas n.
Proof.
  destruct n as [|n]; [done|].
  assert (Strings.trim_left (kas (S n)) = kas (S n)) as E by done.
  unfold Strings.TrimSpace. rewrite E.
  replace (S n) with (n + 1)%nat by lia. rewrite kas_add, rev_onto_app.
  set (r := Strings.rev_onto (kas n) "").
  assert (Strings.trim_reversed (Strings.rev_onto (kas 1) r) = Strings.rev_onto (kas 1) r) as ->
    by done.
  rewrite Strings.rev_onto_twice. unfold r. by rewrite Strings.rev_onto_twice.
Qed.

Lemma take_app_le n s t :
  (n <= String.length s)%nat -> Strings.take n (s +:+ t) = Strings.take n s.
Proof.
  revert s. induction n as [|n IH]; intros [|c s] Hn; simpl in *;
    first [done | lia | by destruct t | by rewrite IH by lia].
Qed.

Lemma kas_length n : String.length (kas n) = (3 * n)%nat.
Proof. induction n as [|n IH]; [done|]. cbn [kas]. rewrite Strings.length_app, IH. simpl. lia. Qed.

Lemma summarize_kas n turns :
  (47 <= n)%nat -> text_ok (Heuristic.summarize (kas n) turns) = false.
Proof.
  intros Hn. unfold Heuristic.summarize. rewrite TrimSpace_kas, kas_length.
  assert ((140 <? Z.of_nat (3 * n))%Z = true) as -> by (apply Z.ltb_lt; lia).
  replace n with (47 + (n - 47))%nat by lia. rewrite kas_add, take_app_le;
    [|rewrite kas_length; lia].
  unfold text_ok. apply andb_false_iff. left.
  rewrite Valid_printable by apply itoa_printable.
  rewrite Valid_printable by done.
  rewrite Valid_printable by (by destruct (turns =? 1)).
  rewrite Valid_printable by done. by vm_compute.
Qed.

Lemma user_turns_last h text last turns :
  snd (fst (Heuristic.user_turns h text last turns)) = Builtin.last_user h last.
Proof.
  revert text last turns. induction h as [|m h IH]; intros text last turns; [done|].
  simpl. destruct (m_Role m =? "user")%string; apply IH.
Qed.

Lemma user_turns_pos h text last turns :
  0 < turns -> 0 < snd (Heuristic.user_turns h text last turns).
Proof.
  revert text last turns. induction h as [|m h IH]; intros text last turns Ht; [done|].
  simpl. destruct (m_Role m =? "user")%string; apply IH; lia.
Qed.

Lemma user_turns_some h text last :
  Builtin.last_user h last <> last -> snd (Heuristic.user_turns h text last 0) <> 0.
Proof.
  revert text last. induction h as [|m h IH]; intros text last H; [done|]. simpl in *.
  destruct (m_Role m =? "user")%string; [|by apply IH].
  apply not_eq_sym, Z.lt_neq, user_turns_pos. lia.
Qed.

Lemma Summarize_kas h n :
  (47 <= n)%nat -> Builtin.last_user h "" = kas n ->
  text_ok (in_Summary (Heuristic.Summarize h)) = false.
Proof.
  intros Hn Hl. unfold Heuristic.Summarize.
  pose proof (user_turns_last h "" "" 0) as Hlast.
  pose proof (user_turns_some h "" "") as Hpos.
  destruct (Heuristic.user_turns h "" "" 0) as [[text last] turns]. simpl in Hlast, Hpos.
  assert (turns <> 0) as Ht by (apply Hpos; rewrite Hl; destruct n; [lia|done]).
  apply Z.eqb_neq in Ht. rewrite Ht. rewrite Hlast, Hl.
  destruct (Heuristic.outcome_of text) as [o a]. by apply summarize_kas.
Qed.

(** ** The summary that cannot be stored *)

#[local] Existing Instances PgChatRepo.repo PgInsightRepo.repo Heuristic.summarizer.

Lemma GetInsight_read id : read_only (ChatQ.GetInsight id).
Proof. apply with_text_read. intros ctx d a d'. split_match; by intros [= _ <-]. Qed.

(** The owner check only reads. *)
Lemma run_owns_any env org conv w :
  exists r, run env (Chat.owns org conv) w = (r, tick w) /\ r <> Panic.
Proof.
  unfold Chat.owns. rewrite run_bind. change (@ChatRepo.GetConversation _)
    with PgChatRepo.GetConversation. unfold PgChatRepo.GetConversation.
  rewrite run_bind, run_try.
  destruct (run_read_any env _ w (GetConversation_read conv)) as (r & -> & _ & _ & Hp).
  destruct r as [row|e|]; [| |done].
  - cbn. destruct (conv_org_id row =? org)%string; by eexists.
  - destruct e; by eexists.
Qed.

(** A statement that fails on its own changes nothing, whatever the fault. *)
Lemma run_exec_refused {A} env (s : stmt A) w :
  (forall ctx, exists e, s ctx (w_db w) = inr e) ->
  exists e, run env (exec s) w = (Err e, tick w).
Proof.
  intros Hs. unfold exec. rewrite run_act. unfold exec_step.
  destruct (Hs (sql_ctx env (w_tick w) (env_clock env (w_tick w)))) as [e E].
  destruct (env_fault env (w_tick w)); rewrite ?E; by eexists.
Qed.

(** A conversation whose latest customer message is a long run of Bangla
    letters can never be summarised: the summary cuts the message at byte 140,
    inside a letter, and the database refuses the broken text every time. *)
Theorem long_bangla_is_never_summarized env org conv n w :
  (47 <= n)%nat -> Builtin.last_user (history_of (w_db w) conv) "" = kas n ->
  exists e, fst (run env (Chat.Summarize org conv) w) = Err e /\
    w_st (snd (run env (Chat.Summarize org conv) w)) = w_st w.
Proof.
  intros Hn Hlast. unfold Chat.Summarize. rewrite run_bind.
  destruct (run_owns_any env org conv w) as (r & -> & Hr).
  destruct r as [[]|e|]; [|by eexists|done]. rewrite run_bind.
  change (@ChatRepo.Messages _) with PgChatRepo.Messages. unfold PgChatRepo.Messages.
  rewrite run_bind.
  destruct (run_read_any env _ (tick w) (ListMessages_read conv)) as (r & -> & Hok & _ & Hp).
  destruct r as [rows|e|]; [|by eexists|done].
  destruct (Hok rows eq_refl) as (ctx & E). apply with_text_ok in E. injection E as <-.
  fold (history_of (w_db (tick w)) conv). change (w_db (tick w)) with (w_db w).
  change (run env (ret ?x) ?v) with (Ok x, v). cbv beta iota.
  cbn [Summarizer.Summarize Heuristic.summarizer]. rewrite run_bind.
  change (@InsightRepo.Save _) with PgInsightRepo.Save. unfold PgInsightRepo.Save.
  pose proof (Summarize_kas _ n Hn Hlast) as Hbad.
  set (i := Heuristic.Summarize _) in *.
  destruct (run_exec_refused env (ChatQ.UpsertInsight conv org (in_Summary i) (in_Outcome i)
    (in_Sentiment i) (in_NextAction i)) (tick (tick w))) as [e ->]; [|by eexists].
  intros c. exists invalid_byte_sequence. unfold ChatQ.UpsertInsight, with_text.
  cbn [forallb]. rewrite Hbad. by rewrite !andb_false_r.
Qed.
