(* ===== verification/ChatDemo.v ===== *)
(** * The chat theorems at concrete inputs *)

From S2P Require Import Prelude.
From S2P Require Import Domain.
From S2P Require Import Effects.
From S2P Require Import GoLib.
From S2P Require Import Store.
From S2P Require Import Crypto.
From S2P Require Import Ports.
From S2P Require Import NoFault.
From S2P Require Import PgChat.
From S2P Require Import Assistant.
From S2P Require Import Chat.
From S2P Require Import Messaging.
From S2P Require Import ChatSpec.
From S2P Require Import MessagingSpec.
From S2P Require Import AssistantSpec.
From stdpp Require Import gmap strings list.
From Stdlib Require Import ZArith Lia.

Open Scope Z_scope.
Open Scope go_scope.

Module ChatDemo.
#[export] Instance aead : AEAD.T :=
  {| AEAD.NonceSize := 12; AEAD.Seal n p := n +:+ p;
     AEAD.Open n c := if String.prefix n c then Some (Strings.drop (String.length n) c) else None |}.

#[export] Instance aead_laws : AEAD.Laws aead.
Proof.
  split. intros nonce p _. simpl. by rewrite Strings.prefix_app, Cipher.drop_app_length.
Qed.

Import DemoEnv.

(** An org with an open conversation, one an agent handles, and a channel. *)
Definition thread_row (id org status : string) : ConversationRow :=
  mkConversationRow id org "messenger" None status 0 0 (Some "psid").

Definition db : DB :=
  set_messages [mkMessageRow "m_0" "conv_a" "user" "Where is my parcel?" 0;
                mkMessageRow "m_1" "conv_b" "user" (kas 50) 0]
    (set_conversations [thread_row "conv_a" "org" "open"; thread_row "conv_b" "org" "handling"]
       (set_channel_connections [mkChannelRow "chan_0" "rival" "messenger" "page_9" "x" "v" 0]
          emptyDB)).

Definition world : World := mkWorld 0 (mkState db [] []).

#[local] Existing Instances PgChatRepo.repo PgChatSettingsRepo.repo PgInsightRepo.repo
  PgChannelRepo.repo Builtin.model Heuristic.summarizer LogMessaging.sender.

Lemma conversations_are_isolated_witness :
  exists e, fst (run env (Chat.AgentReply "rival" "conv_a" "hello") world) = Err e /\
    w_st (snd (run env (Chat.AgentReply "rival" "conv_a" "hello") world)) = w_st world.
Proof.
  eapply (conversations_are_isolated None env "rival" "conv_a" _ _ world); [constructor|reflexivity|].
  discriminate.
Defined.

Lemma SendChannel_never_stays_silent_witness :
  exists w', run env (Chat.SendChannel None "org" "messenger" "psid" "hello again") world =
      (Ok (answer "hello again"), w') /\ answer "hello again" <> "".
Proof.
  eexists. split; [vm_compute; reflexivity|].
  eapply (SendChannel_never_stays_silent env None "org" "messenger" "psid" "hello again" world);
    [done| |vm_compute; reflexivity].
  repeat constructor; set_solver.
Defined.

Lemma world_fresh : chat_fresh env horizon world.
Proof.
  split; intros n r Hn Hr.
  - destruct Hr as [<-|[<-|[]]]; (split; [discriminate|split; [discriminate|simpl; lia]]).
  - destruct Hr as [<-|[<-|[]]]; discriminate.
Qed.

Lemma Send_transcript_witness :
  exists conv w' t1 t2 w'',
    run env (Chat.Send None "org" "conv_a" "any news?") world = (Ok (conv, answer "any news?"), w') /\
    ("conv_a" = "" \/ conv = "conv_a") /\
    run env (Chat.Messages "org" conv) w' =
      (Ok ([mkMessage "user" "Where is my parcel?" 0] ++
           [mkMessage "user" "any news?" t1; mkMessage "assistant" (answer "any news?") t2]), w'').
Proof.
  apply (Send_transcript env (fun _ => eq_refl) clock_mono None 0) with (horizon := horizon).
  - intros e w. exists w. done.
  - apply ids_distinct.
  - apply world_fresh.
  - unfold horizon. simpl. lia.
  - by vm_compute.
  - by vm_compute.
  - exact (thread_old world "org" "conv_a" (thread_row "conv_a" "org" "open") ltac:(done)
             eq_refl eq_refl eq_refl ltac:(done)).
Defined.

Lemma Connect_then_answer_witness :
  exists w1, run env (Messaging.Connect "org" "messenger" "page_1" "token" "verify") world
      = (Ok tt, w1) /\
    forall w2, channel_connections (w_db w2) = channel_connections (w_db w1) ->
      (forall user text,
         run env (Messaging.SendOutbound "org" "messenger" user text) w2 =
         run env (MessagingSender.Send (mkOutboundMessage "messenger" "page_1" "token" user text))
           (tick w2)) /\
      (forall from text,
         run env (Messaging.HandleInbound (assistant := Assistant.of_chat None) "page_1" from text) w2 =
         match run env (Chat.SendChannel None "org" "messenger" from text) (tick w2) with
         | (Ok reply, w3) =>
             if (reply =? "")%string then (Ok tt, w3)
             else run env (MessagingSender.Send
                    (mkOutboundMessage "messenger" "page_1" "token" from reply)) w3
         | (Err e, w3) => (Err e, w3)
         | (Panic, w3) => (Panic, w3)
         end).
Proof.
  apply (Connect_then_answer env (fun _ => eq_refl) (assistant := Assistant.of_chat None)
    "org" "messenger" "page_1" "token" "verify" world); [reflexivity| |by vm_compute].
  intros n r [<-|[]]. discriminate.
Defined.

Lemma long_bangla_is_never_summarized_witness :
  exists e, fst (run env (Chat.Summarize "org" "conv_b") world) = Err e /\
    w_st (snd (run env (Chat.Summarize "org" "conv_b") world)) = w_st world.
Proof.
  apply (long_bangla_is_never_summarized env "org" "conv_b" 50 world); [lia|reflexivity].
Defined.
End ChatDemo.
