(* ===== verification/PgCampaigns.v ===== *)
(** * Customers and campaigns in Postgres

    internal/adapter/postgres/customers.go and campaigns.go over
    gen/customers.sql.go and gen/campaigns.sql.go; the records and ports of
    domain/customer.go and domain/campaign.go. *)

From S2P Require Import Prelude.
From S2P Require Import Domain.
From S2P Require Import Effects.
From S2P Require Import GoLib.
From S2P Require Import Store.
From S2P Require Import Ports.
From stdpp Require Import gmap strings list.
From Stdlib Require Import ZArith Lia.

Open Scope Z_scope.
Open Scope go_scope.

(** ** domain/customer.go and domain/campaign.go *)

Record Customer := mkCustomer {
  cu_ID : string; cu_Phone : string; cu_Name : string; cu_ExternalID : string;
  cu_DND : bool; cu_CreatedAt : Time
}.

Module CustomerRepo.
Class T := {
  Upsert : OrgID -> string -> string -> string -> prog World (string * bool);
  ListByOrg : OrgID -> Z -> prog World (list Customer);
  SetDND : OrgID -> string -> bool -> prog World unit
}.

(** Nothing but the customers table changes. *)
Definition only_customers (w w' : World) : Prop :=
  exists cs, w_st w' = set_db (set_customers cs (w_db w)) (w_st w).

Class Laws (C : T) : Prop := {
  Upsert_only : forall org phone name ext, guar only_customers (Upsert org phone name ext)
}.
End CustomerRepo.

Record Campaign := mkCampaign {
  ca_ID : string; ca_Name : string; ca_Status : string; ca_TargetCount : Z;
  ca_CreatedAt : Time; ca_StartedAt : option Time; ca_ScheduledAt : option Time
}.

Definition zeroCampaign : Campaign := mkCampaign "" "" "" 0 zeroTime None None.

Record Recipient := mkRecipient { re_Phone : string; re_Name : string }.

Record CampaignRef := mkCampaignRef { cr_ID : string; cr_OrgID : OrgID }.

Module CampaignRepo.
Class T := {
  Create : OrgID -> string -> string -> prog World unit;
  ListByOrg : OrgID -> prog World (list Campaign);
  Get : string -> prog World (Campaign * OrgID * bool);
  MarkStarted : OrgID -> string -> Z -> prog World unit;
  AddRecipient : OrgID -> string -> Recipient -> prog World unit;
  Recipients : string -> prog World (list Recipient);
  Schedule : OrgID -> string -> Time -> prog World unit;
  DueCampaigns : Time -> prog World (list CampaignRef)
}.
End CampaignRepo.

(** ** gen/customers.sql.go *)

Module CustomerQ.
Definition of_org (orgID : string) (r : CustomerRow) : bool := (cust_org_id r =? orgID)%string.

Definition same (orgID phone : string) (r : CustomerRow) : bool :=
  (cust_org_id r =? orgID)%string && (cust_phone r =? phone)%string.

Definition has_id (id : string) (r : CustomerRow) : bool := (cust_id r =? id)%string.

Definition ListCustomersByOrg (orgID : string) (limit : Z) : stmt (list CustomerRow) :=
  fun _ d =>
    sql_limit limit (tsort (fun r => - cust_created_at r) (tselect (of_org orgID) (customers d))) d.

Definition set_dnd (dnd : bool) (r : CustomerRow) : CustomerRow :=
  mkCustomerRow (cust_id r) (cust_org_id r) (cust_phone r) (cust_name r) (cust_external_id r)
    dnd (cust_created_at r).

Definition SetCustomerDND (id orgID : string) (dnd : bool) : stmt unit :=
  with_text [id] (fun _ d =>
    inl (tt, set_customers
      (tupdate (fun r => has_id id r && of_org orgID r) (set_dnd dnd) (customers d)) d)).

(** COALESCE(EXCLUDED.x, customers.x) *)
Definition coalesce {A} (x y : option A) : option A := match x with Some _ => x | None => y end.

Definition merge (name externalID : option string) (r : CustomerRow) : CustomerRow :=
  mkCustomerRow (cust_id r) (cust_org_id r) (cust_phone r) (coalesce name (cust_name r))
    (coalesce externalID (cust_external_id r)) (cust_dnd r) (cust_created_at r).

(** ON CONFLICT (org_id, phone) DO UPDATE; a new customer may be called. *)
Definition UpsertCustomer (id orgID phone : string) (name externalID : option string)
  : stmt (string * bool) :=
  with_text [id; orgID; phone; deref name; deref externalID] (fun ctx d =>
    match tfind (same orgID phone) (customers d) with
    | Some r =>
        inl ((cust_id r, cust_dnd r),
             set_customers (tupdate (same orgID phone) (merge name externalID) (customers d)) d)
    | None =>
        match tfind (has_id id) (customers d) with
        | Some _ => inr unique_violation
        | None =>
            inl ((id, false),
                 set_customers (customers d ++
                   [mkCustomerRow id orgID phone name externalID false (sql_now ctx)]) d)
        end
    end).
End CustomerQ.

(** ** gen/campaigns.sql.go *)

Module CampaignQ.
Definition has_id (id : string) (r : CampaignRow) : bool := (camp_id r =? id)%string.

Definition mine (id orgID : string) (r : CampaignRow) : bool :=
  has_id id r && (camp_org_id r =? orgID)%string.

Definition of_campaign (campaignID : string) (r : RecipientRow) : bool :=
  (rcp_campaign_id r =? campaignID)%string.

(** ON CONFLICT (campaign_id, phone) DO NOTHING; the campaign must exist. *)
Definition AddRecipient (id campaignID orgID phone name : string) : stmt unit :=
  with_text [id; campaignID; orgID; phone; name] (fun _ d =>
    match tfind (fun r => of_campaign campaignID r && (rcp_phone r =? phone)%string)
            (campaign_recipients d) with
    | Some _ => inl (tt, d)
    | None =>
        match tfind (fun r => (rcp_id r =? id)%string) (campaign_recipients d) with
        | Some _ => inr unique_violation
        | None =>
            match tfind (has_id campaignID) (campaigns d) with
            | None => inr (ErrPg "23503")
            | Some _ =>
                inl (tt, set_campaign_recipients
                  (campaign_recipients d ++ [mkRecipientRow id campaignID orgID phone name]) d)
            end
        end
    end).

Definition CountRecipients (campaignID : string) : stmt Z := fun _ d =>
  inl (Z.of_nat (length (tselect (of_campaign campaignID) (campaign_recipients d))), d).

Definition CreateCampaign (id orgID name : string) : stmt unit :=
  with_text [id; orgID; name] (fun ctx d =>
    match tfind (has_id id) (campaigns d) with
    | Some _ => inr unique_violation
    | None =>
        inl (tt, set_campaigns
          (campaigns d ++ [mkCampaignRow id orgID name "draft" 0 (sql_now ctx) None None]) d)
    end).

(** A campaign without a fire time is never due. *)
Definition is_due (now : Time) (r : CampaignRow) : bool :=
  (camp_status r =? "scheduled")%string &&
  match camp_scheduled_at r with Some at_ => at_ <=? now | None => false end.

Definition DueCampaigns (now : Time) : stmt (list (string * string)) := fun _ d =>
  inl (map (fun r => (camp_id r, camp_org_id r))
         (tsort (fun r => default 0 (camp_scheduled_at r)) (tselect (is_due now) (campaigns d))),
       d).

Definition GetCampaign (id : string) : stmt CampaignRow :=
  with_text [id] (fun _ d =>
    match tfind (has_id id) (campaigns d) with
    | None => inr ErrNoRows
    | Some r => inl (r, d)
    end).

Definition ListCampaignsByOrg (orgID : string) : stmt (list CampaignRow) := fun _ d =>
  inl (tsort (fun r => - camp_created_at r)
         (tselect (fun r => (camp_org_id r =? orgID)%string) (campaigns d)), d).

Definition ListRecipients (campaignID : string) : stmt (list (string * string)) := fun _ d =>
  inl (map (fun r => (rcp_phone r, rcp_name r))
         (tsort_by rcp_phone (tselect (of_campaign campaignID) (campaign_recipients d))), d).

Definition schedule_row (at_ : Time) (r : CampaignRow) : CampaignRow :=
  mkCampaignRow (camp_id r) (camp_org_id r) (camp_name r) "scheduled" (camp_target_count r)
    (camp_created_at r) (camp_started_at r) (Some at_).

(** Only a draft is scheduled. *)
Definition ScheduleCampaign (id orgID : string) (at_ : Time) : stmt unit :=
  with_text [id] (fun _ d =>
    inl (tt, set_campaigns
      (tupdate (fun r => mine id orgID r && (camp_status r =? "draft")%string)
         (schedule_row at_) (campaigns d)) d)).

Definition start_row (targetCount : Z) (now : Time) (r : CampaignRow) : CampaignRow :=
  mkCampaignRow (camp_id r) (camp_org_id r) (camp_name r) "completed" targetCount
    (camp_created_at r) (Some now) (camp_scheduled_at r).

Definition startable (id orgID : string) (r : CampaignRow) : bool :=
  mine id orgID r &&
  ((camp_status r =? "draft")%string || (camp_status r =? "scheduled")%string).

Definition StartCampaign (id orgID : string) (targetCount : Z) : stmt unit :=
  with_text [id] (fun ctx d =>
    inl (tt, set_campaigns
      (tupdate (startable id orgID) (start_row targetCount (sql_now ctx)) (campaigns d)) d)).
End CampaignQ.

(** ** The repositories *)

Module PgCustomerRepo.
Definition Upsert (orgID : OrgID) (phone name externalID : string)
  : prog World (string * bool) :=
  let! id := Id.New "cust" in
  exec (CustomerQ.UpsertCustomer id orgID phone (strPtr name) (strPtr externalID)).

Definition row_customer (r : CustomerRow) : Customer :=
  mkCustomer (cust_id r) (cust_phone r) (deref (cust_name r)) (deref (cust_external_id r))
    (cust_dnd r) (cust_created_at r).

Definition ListByOrg (orgID : OrgID) (limit : Z) : prog World (list Customer) :=
  let! rows := exec (CustomerQ.ListCustomersByOrg orgID (int32_of limit)) in
  ret (map row_customer rows).

Definition SetDND (orgID : OrgID) (custID : string) (dnd : bool) : prog World unit :=
  exec (CustomerQ.SetCustomerDND custID orgID dnd).

#[export] Instance repo : CustomerRepo.T :=
  { CustomerRepo.Upsert := Upsert; CustomerRepo.ListByOrg := ListByOrg;
    CustomerRepo.SetDND := SetDND }.

Lemma only_customers_id w w' : w_st w' = w_st w -> CustomerRepo.only_customers w w'.
Proof.
  intros E. exists (customers (w_db w)). rewrite E. unfold w_db. by destruct (w_st w) as [[] ? ?].
Qed.

Lemma guar_exec_only {A} (s : stmt A) :
  (forall ctx d a d', s ctx d = inl (a, d') -> exists cs, d' = set_customers cs d) ->
  guar CustomerRepo.only_customers (exec s).
Proof.
  intros Hs. eapply guar_lin; [apply only_customers_id| |apply exec_lin].
  intros w w' r H. inversion H as [st ctx a d E|st ctx e E|st m E|st ctx a d m E]; subst;
    try (by apply only_customers_id); destruct (Hs _ _ _ _ E) as (cs & ->); by exists cs.
Qed.

#[export] Instance laws : CustomerRepo.Laws repo.
Proof.
  split. intros org phone name ext. change (guar CustomerRepo.only_customers
    (Upsert org phone name ext)). unfold Upsert.
  apply guar_bind; [apply guar_New, only_customers_id|]. intros id. apply guar_exec_only.
  intros ctx d a d' H. unfold CustomerQ.UpsertCustomer, with_text in H.
  destruct (forallb text_ok _); [|done].
  destruct (tfind (CustomerQ.same org phone) (customers d)); [invc H; by eexists|].
  destruct (tfind (CustomerQ.has_id id) (customers d)); [done|]. invc H. by eexists.
Qed.
End PgCustomerRepo.

Module PgCampaignRepo.
Definition row_campaign (r : CampaignRow) : Campaign :=
  mkCampaign (camp_id r) (camp_name r) (camp_status r) (camp_target_count r)
    (camp_created_at r) (camp_started_at r) (camp_scheduled_at r).

Definition Create (orgID : OrgID) (id name : string) : prog World unit :=
  exec (CampaignQ.CreateCampaign id orgID name).

Definition ListByOrg (orgID : OrgID) : prog World (list Campaign) :=
  let! rows := exec (CampaignQ.ListCampaignsByOrg orgID) in
  ret (map row_campaign rows).

Definition Get (cid : string) : prog World (Campaign * OrgID * bool) :=
  let! row := ptry (exec (CampaignQ.GetCampaign cid)) in
  match row with
  | inr ErrNoRows => ret (zeroCampaign, "", false)
  | inr err => fail err
  | inl row => ret (row_campaign row, camp_org_id row, true)
  end.

Definition MarkStarted (orgID : OrgID) (id : string) (targetCount : Z) : prog World unit :=
  exec (CampaignQ.StartCampaign id orgID (int32_of targetCount)).

Definition AddRecipient (orgID : OrgID) (campaignID : string) (rec : Recipient)
  : prog World unit :=
  let! id := Id.New "rcp" in
  exec (CampaignQ.AddRecipient id campaignID orgID (re_Phone rec) (re_Name rec)).

Definition Recipients (campaignID : string) : prog World (list Recipient) :=
  let! rows := exec (CampaignQ.ListRecipients campaignID) in
  ret (map (fun '(phone, name) => mkRecipient phone name) rows).

Definition Schedule (orgID : OrgID) (id : string) (at_ : Time) : prog World unit :=
  exec (CampaignQ.ScheduleCampaign id orgID at_).

Definition DueCampaigns (now : Time) : prog World (list CampaignRef) :=
  let! rows := exec (CampaignQ.DueCampaigns now) in
  ret (map (fun '(id, org) => mkCampaignRef id org) rows).

#[export] Instance repo : CampaignRepo.T :=
  { CampaignRepo.Create := Create; CampaignRepo.ListByOrg := ListByOrg; CampaignRepo.Get := Get;
    CampaignRepo.MarkStarted := MarkStarted; CampaignRepo.AddRecipient := AddRecipient;
    CampaignRepo.Recipients := Recipients; CampaignRepo.Schedule := Schedule;
    CampaignRepo.DueCampaigns := DueCampaigns }.
End PgCampaignRepo.
