(* ===== verification/Orchestrator.v ===== *)
(** * The job queue: the Orchestrator port and the in-process worker pool

    domain/ports.go (Orchestrator) and internal/adapter/orchestrator/local: the
    channel of jobs is the queue [s_jobs] of the world, oldest first.  A sender
    on a full channel waits for a worker, which only delays its next step, so the
    queue has no bound here. *)

From S2P Require Import Prelude.
From S2P Require Import Domain.
From S2P Require Import Effects.
From S2P Require Import Store.
From S2P Require Import Ports.
From stdpp Require Import gmap strings list.
From Stdlib Require Import ZArith Lia.

Open Scope Z_scope.
Open Scope go_scope.

Definition set_jobs (jobs : list PlaceCallInput) (st : State) : State :=
  mkState (s_db st) (s_trace st) jobs.

Module Orchestrator.
Class T := { EnqueuePlaceCall : PlaceCallInput -> prog World unit }.

(** A job is queued or it is not; an error may hide a job that was. *)
Inductive Enqueue_spec (inp : PlaceCallInput) : step_spec unit :=
| enqueue_ok st : Enqueue_spec inp st (Ok tt) (set_jobs (s_jobs st ++ [inp]) st)
| enqueue_unacked st e : Enqueue_spec inp st (Err e) (set_jobs (s_jobs st ++ [inp]) st)
| enqueue_failed st e : Enqueue_spec inp st (Err e) st.

Class Laws (O : T) : Prop := {
  Enqueue_lin : forall inp, lin (Enqueue_spec inp) (EnqueuePlaceCall inp)
}.
End Orchestrator.

Module LocalOrchestrator.
Definition EnqueuePlaceCall (inp : PlaceCallInput) : prog World unit :=
  act (fun _ w => (Ok tt, mkWorld (w_tick w) (set_jobs (s_jobs (w_st w) ++ [inp]) (w_st w)))).

#[export] Instance orch : Orchestrator.T :=
  { Orchestrator.EnqueuePlaceCall := EnqueuePlaceCall }.

#[export] Instance laws : Orchestrator.Laws orch.
Proof. split. intros inp. apply lin_act. intros env w. apply Orchestrator.enqueue_ok. Qed.

(** Receiving from the channel. *)
Definition take : prog World (option PlaceCallInput) :=
  act (fun _ w =>
    match s_jobs (w_st w) with
    | [] => (Ok None, w)
    | inp :: rest => (Ok (Some inp), mkWorld (w_tick w) (set_jobs rest (w_st w)))
    end).

(** One worker, over at most so many receptions: a job's error is only logged;
    with nothing to receive it waits. *)
Fixpoint worker (placeCall : PlaceCallInput -> prog World unit) (receptions : nat)
  : prog World unit :=
  match receptions with
  | O => ret tt
  | S receptions =>
      let! job := take in
      match job with
      | None => worker placeCall receptions
      | Some inp => do! pignore (placeCall inp) in worker placeCall receptions
      end
  end.
End LocalOrchestrator.
