(* ===== verification/WorkerPool.v ===== *)
(** * The worker pool of internal/adapter/orchestrator/local

    local.go as it runs: a channel of 256 jobs, workers that range over it, and
    Shutdown, which closes the channel and waits for the workers.  The rest of the
    development uses the queue of Orchestrator, which has no bound and no end; it
    is shown here to be what the pool implements. *)

From S2P Require Import Prelude.
From S2P Require Import Domain.
From S2P Require Import Effects.
From S2P Require Import Store.
From S2P Require Import Ports.
From S2P Require Import Orchestrator.
From S2P Require Import Machine.
From stdpp Require Import list strings.
From Stdlib Require Import Lia Ascii.

Open Scope nat_scope.

Module WorkerPool.
Definition job : Type := PlaceCallInput.

(** make(chan func(), 256) *)
Definition buffer_size : nat := 256.

(** A worker at the head of its loop, in a job, or past the end of the channel. *)
Inductive worker : Type := Ranging | Running (j : job) | Returned.

Record pool := mkPool { jobs : list job; closed : bool; workers : list worker }.

Definition New (n : nat) : pool := mkPool [] false (repeat Ranging n).

Inductive action : Type :=
| Enqueue (j : job)        (* EnqueuePlaceCall, by any goroutine *)
| Range (i : nat)          (* the receive of worker i *)
| Finish (i : nat)         (* the job of worker i returns *)
| Close.                   (* the first half of Shutdown *)

Inductive event : Type := Queued (j : job) | Began (j : job) | Ended (j : job).

Definition set_worker (i : nat) (k : worker) (js : list job) (p : pool) : pool :=
  mkPool js (closed p) (<[i := k]> (workers p)).

Definition range (i : nat) (p : pool) : turn event pool :=
  match workers p !! i with
  | Some Ranging =>
      match jobs p with
      | j :: rest => Moves [Began j] (set_worker i (Running j) rest p)
      | [] => if closed p then Moves [] (set_worker i Returned [] p) else Waits
      end
  | _ => Waits
  end.

Definition enqueue (j : job) (p : pool) : turn event pool :=
  if closed p then Panics
  else if length (jobs p) <? buffer_size
  then Moves [Queued j] (mkPool (jobs p ++ [j]) false (workers p)) else Waits.

Definition finish (i : nat) (p : pool) : turn event pool :=
  match workers p !! i with
  | Some (Running j) => Moves [Ended j] (set_worker i Ranging (jobs p) p)
  | _ => Waits
  end.

Definition close (p : pool) : turn event pool :=
  if closed p then Panics else Moves [] (mkPool (jobs p) true (workers p)).

Definition act (a : action) : pool -> turn event pool :=
  match a with
  | Enqueue j => enqueue j
  | Range i => range i
  | Finish i => finish i
  | Close => close
  end.

(** wg.Wait returns. *)
Definition all_returned (p : pool) : bool :=
  forallb (fun k => match k with Returned => true | _ => false end) (workers p).

(** ** The history of a pool *)

Definition queued (tr : list event) : list job :=
  omap (fun e => match e with Queued j => Some j | _ => None end) tr.
Definition begun (tr : list event) : list job :=
  omap (fun e => match e with Began j => Some j | _ => None end) tr.
Definition ended (tr : list event) : list job :=
  omap (fun e => match e with Ended j => Some j | _ => None end) tr.

Definition running (p : pool) : list job :=
  omap (fun k => match k with Running j => Some j | _ => None end) (workers p).

Lemma running_set i k js p k0 :
  workers p !! i = Some k0 ->
  running p ++ omap (fun k => match k with Running j => Some j | _ => None end) [k]
  ≡ₚ running (set_worker i k js p) ++
     omap (fun k => match k with Running j => Some j | _ => None end) [k0].
Proof.
  unfold running, set_worker. simpl. intros H.
  rewrite insert_take_drop by (by eapply lookup_lt_Some).
  rewrite <- (take_drop_middle _ _ _ H) at 1. rewrite !omap_app. simpl.
  destruct k0, k; simpl; solve_Permutation.
Qed.

(** Jobs are begun in the order they were queued, each once; a worker returns only
    from a closed, empty channel. *)
Record accounted (n : nat) (tr : list event) (p : pool) : Prop := {
  ac_fifo : begun tr ++ jobs p = queued tr;
  ac_once : ended tr ++ running p ≡ₚ begun tr;
  ac_bound : length (jobs p) <= buffer_size;
  ac_workers : length (workers p) = n;
  ac_returned : Returned ∈ workers p -> closed p = true /\ jobs p = []
}.

Lemma begun_app tr tr' : begun (tr ++ tr') = begun tr ++ begun tr'.
Proof. apply omap_app. Qed.
Lemma ended_app tr tr' : ended (tr ++ tr') = ended tr ++ ended tr'.
Proof. apply omap_app. Qed.
Lemma queued_app tr tr' : queued (tr ++ tr') = queued tr ++ queued tr'.
Proof. apply omap_app. Qed.

Lemma New_accounted n : accounted n [] (New n).
Proof.
  split; simpl; try done; try lia.
  - unfold running. simpl. induction n; simpl; auto.
  - by rewrite repeat_length.
  - intros H. by apply list_elem_of_In, repeat_spec in H.
Qed.

Lemma set_returned i k (ws : list worker) :
  Returned ∈ <[i := k]> ws -> k = Returned \/ Returned ∈ ws.
Proof.
  intros H. apply list_elem_of_lookup in H as [j H]. apply list_lookup_insert_Some in H.
  destruct H as [(-> & -> & _)|[_ H]]; [by left|right]. by eapply list_elem_of_lookup_2.
Qed.

Lemma act_accounted n tr p a events p' :
  accounted n tr p -> act a p = Moves events p' -> accounted n (tr ++ events) p'.
Proof.
  intros [Hf Ho Hb Hw Hr]. destruct a as [j|i|i|]; simpl.
  - unfold enqueue. destruct (closed p); [done|].
    destruct (Nat.ltb_spec (length (jobs p)) buffer_size); [|done]. intros [= <- <-].
    split; rewrite ?begun_app, ?ended_app, ?queued_app; simpl; rewrite ?app_nil_r; try done.
    + by rewrite app_assoc, Hf.
    + rewrite length_app. simpl. lia.
    + intros H1. by apply Hr in H1 as [? _].
  - unfold range. destruct (workers p !! i) as [[| |]|] eqn:Ei; try done.
    destruct (jobs p) as [|j rest] eqn:Ej.
    + destruct (closed p) eqn:Ec; [|done]. intros [= <- <-]. rewrite app_nil_r.
      split; simpl; try done; try lia.
      * pose proof (running_set i Returned [] p Ranging Ei) as H. simpl in H.
        rewrite !app_nil_r in H. by rewrite <- H.
      * by rewrite length_insert.
    + intros [= <- <-].
      split; rewrite ?begun_app, ?ended_app, ?queued_app; simpl; rewrite ?app_nil_r.
      * rewrite <- Hf. by rewrite <- app_assoc.
      * pose proof (running_set i (Running j) rest p Ranging Ei) as H. simpl in H.
        rewrite app_nil_r in H. rewrite <- H, app_assoc, Ho. done.
      * simpl in Hb. lia.
      * by rewrite length_insert.
      * intros H. apply set_returned in H as [H|H]; [done|]. by apply Hr in H as [_ ?].
  - unfold finish. destruct (workers p !! i) as [[|j|]|] eqn:Ei; try done. intros [= <- <-].
    split; rewrite ?begun_app, ?ended_app, ?queued_app; simpl; rewrite ?app_nil_r; try done.
    + pose proof (running_set i Ranging (jobs p) p (Running j) Ei) as H. simpl in H.
      rewrite app_nil_r in H. rewrite <- Ho, H. solve_Permutation.
    + by rewrite length_insert.
    + intros H. apply set_returned in H as [H|H]; [done|]. by apply Hr.
  - unfold close. destruct (closed p) eqn:Ec; [done|]. intros [= <- <-]. rewrite app_nil_r.
    split; simpl; try done. intros H. by apply Hr in H as [? _].
Qed.

Lemma reached_accounted n tr p : reached act (New n) tr p -> accounted n tr p.
Proof.
  apply (reached_inv act (accounted n)); [apply New_accounted|]. intros. by eapply act_accounted.
Qed.

(** ** Shutdown *)

(** What is left to do: three turns for a job in the channel, two for one that
    runs, one for a worker at its loop. *)
Definition turns_of (k : worker) : nat :=
  match k with Running _ => 2 | Ranging => 1 | Returned => 0 end.

Definition work (p : pool) : nat := 3 * length (jobs p) + sum_list_with turns_of (workers p).

Lemma turns_insert i k k0 (ws : list worker) :
  ws !! i = Some k0 ->
  sum_list_with turns_of (<[i := k]> ws) + turns_of k0 = sum_list_with turns_of ws + turns_of k.
Proof.
  revert i. induction ws as [|x ws IH]; intros [|i] H; simplify_eq/=; [lia|].
  specialize (IH i H). lia.
Qed.

(** The workers' turns. *)
Definition takes_turn (a : action) : bool :=
  match a with Range _ | Finish _ => true | _ => false end.

Lemma turn_works a p events p' :
  takes_turn a = true -> act a p = Moves events p' ->
  closed p' = closed p /\ work p' < work p /\ queued events = [].
Proof.
  intros Ht. destruct a as [j|i|i|]; try done; simpl; unfold range, finish.
  - destruct (workers p !! i) as [[| |]|] eqn:Ei; try done.
    pose proof (fun k => turns_insert i k _ _ Ei) as Hi. simpl in Hi.
    destruct (jobs p) as [|j rest] eqn:Ej; [destruct (closed p) eqn:Ec; [|done]|];
      intros [= <- <-]; unfold work; simpl; rewrite Ej; simpl.
    + specialize (Hi Returned). simpl in Hi. repeat split; [done|lia].
    + specialize (Hi (Running j)). simpl in Hi. repeat split; lia.
  - destruct (workers p !! i) as [[|j|]|] eqn:Ei; try done. intros [= <- <-].
    pose proof (turns_insert i Ranging _ _ Ei) as Hi. simpl in Hi.
    unfold work. simpl. repeat split; lia.
Qed.

(** Once the channel is closed there are no others. *)
Lemma closed_turns a p events p' :
  closed p = true -> act a p = Moves events p' -> takes_turn a = true.
Proof. intros Hc. destruct a; simpl; unfold enqueue, close; by rewrite ?Hc. Qed.

Lemma act_closed a p events p' :
  closed p = true -> act a p = Moves events p' ->
  closed p' = true /\ work p' < work p /\ queued events = [].
Proof.
  intros Hc Ha. destruct (turn_works a p events p') as (Hc' & H); [by eapply closed_turns|done|].
  by rewrite Hc'.
Qed.

Lemma play_closed actions p tr p' :
  closed p = true -> play act actions p = Some (tr, p') ->
  closed p' = true /\ length actions + work p' <= work p /\ queued tr = [].
Proof.
  revert p tr. induction actions as [|a actions IH]; intros p tr Hc; simpl.
  { by intros [= <- <-]. }
  destruct (act a p) as [| |events p1] eqn:Ea; try done.
  destruct (act_closed _ _ _ _ Hc Ea) as (Hc1 & Hlt & Hq).
  destruct (play act actions p1) as [[tr1 p2]|] eqn:Ep; [|done]. simpl. intros [= <- <-].
  destruct (IH p1 tr1 Hc1 Ep) as (Hc2 & Hle & Hq1).
  rewrite queued_app, Hq, Hq1. repeat split; [done|lia].
Qed.

(** A closed pool with a worker that has not returned can move. *)
Lemma closed_moves p :
  closed p = true -> all_returned p = false ->
  exists a events p', act a p = Moves events p'.
Proof.
  intros Hc Hr. unfold all_returned in Hr.
  assert (exists i k, workers p !! i = Some k /\ k <> Returned) as (i & k & Hi & Hk).
  { clear Hc. induction (workers p) as [|k ws IH]; [done|]. simpl in Hr.
    destruct k; [by exists 0, Ranging|by exists 0, (Running j)|].
    destruct (IH Hr) as (i & k & H & Hk). by exists (S i), k. }
  destruct k as [|j|]; [|exists (Finish i)|done].
  - exists (Range i). simpl. unfold range. rewrite Hi. destruct (jobs p); [rewrite Hc|]; eauto.
  - simpl. unfold finish. rewrite Hi. eauto.
Qed.

Lemma returned_runs_nothing p : all_returned p = true -> running p = [].
Proof.
  unfold all_returned, running. induction (workers p) as [|[| |] ws IH]; simpl; try done.
Qed.

(** When every worker has returned, every job that was queued has run to its end. *)
Lemma drained_all n tr p :
  0 < n -> reached act (New n) tr p -> all_returned p = true -> ended tr ≡ₚ queued tr.
Proof.
  intros Hn Hr Ha. apply reached_accounted in Hr as [Hf Ho _ Hw Hret].
  rewrite (returned_runs_nothing _ Ha), app_nil_r in Ho.
  assert (Returned ∈ workers p) as Hin.
  { unfold all_returned in Ha. destruct (workers p) as [|k ws]; [simpl in Hw; lia|].
    simpl in Ha. destruct k; try done. by left. }
  destruct (Hret Hin) as [_ Hj]. rewrite Hj, app_nil_r in Hf. by rewrite Ho, Hf.
Qed.

Lemma work_bound p : work p <= 3 * length (jobs p) + 2 * length (workers p).
Proof.
  assert (forall ws, sum_list_with turns_of ws <= 2 * length ws) as Hs.
  { induction ws as [|[| |] ws IH]; simpl; lia. }
  unfold work. specialize (Hs (workers p)). lia.
Qed.

(** After Shutdown has closed the channel, the workers take a bounded number of
    turns; until they have all returned one of them can move; and when they have,
    every job that was queued since New has run to its end, exactly once. *)
Theorem shutdown_drains n tr p actions tr' p' :
  0 < n -> reached act (New n) tr p -> closed p = true ->
  play act actions p = Some (tr', p') ->
  length actions <= 3 * length (jobs p) + 2 * n /\
  ((exists a events p'', act a p' = Moves events p'') \/
   (all_returned p' = true /\ ended (tr ++ tr') ≡ₚ queued tr)).
Proof.
  intros Hn Hr Hc Hp. destruct (play_closed _ _ _ _ Hc Hp) as (Hc' & Hle & Hq).
  pose proof (reached_trans act _ _ _ _ _ Hr (play_reached act _ _ _ _ Hp)) as Hr'.
  split.
  - apply reached_accounted in Hr as [_ _ _ Hw _]. pose proof (work_bound p). lia.
  - destruct (all_returned p') eqn:Ea; [right|left; by apply closed_moves].
    split; [done|]. rewrite (drained_all n _ p' Hn Hr' Ea), queued_app, Hq. by rewrite app_nil_r.
Qed.

(** ** What the pool implements *)

(** The operations of the queue of Orchestrator that a history stands for. *)
Fixpoint replay (tr : list event) : prog World (list (option job)) :=
  match tr with
  | [] => ret []
  | Queued j :: tr => do! LocalOrchestrator.EnqueuePlaceCall j in replay tr
  | Began j :: tr =>
      let! x := LocalOrchestrator.take in
      let! xs := replay tr in
      ret (x :: xs)
  | Ended _ :: tr => replay tr
  end.

Lemma run_replay env tr tr' w xs w' ys w'' :
  run env (replay tr) w = (Ok xs, w') -> run env (replay tr') w' = (Ok ys, w'') ->
  run env (replay (tr ++ tr')) w = (Ok (xs ++ ys), w'').
Proof.
  revert w xs. induction tr as [|[j|j|j] tr IH]; intros w xs; cbn [replay app].
  - by intros [= <- ->].
  - intros H H'. apply run_bind_ok in H as (x & w1 & H1 & H2). rewrite run_bind, H1. by apply IH.
  - intros H H'. apply run_bind_ok in H as (x & w1 & H1 & H2).
    apply run_bind_ok in H2 as (xs1 & w2 & H2 & H3). injection H3 as <- <-.
    by rewrite run_bind, H1, run_bind, (IH _ _ H2 H').
  - apply IH.
Qed.

(** One turn of the pool, as the queue takes it. *)
Lemma act_replays env a p events p' w :
  act a p = Moves events p' -> s_jobs (w_st w) = jobs p ->
  exists w', run env (replay events) w = (Ok (map Some (begun events)), w') /\
    w_st w' = set_jobs (jobs p') (w_st w).
Proof.
  intros Ha Hj.
  assert (Hsame : w_st w = set_jobs (jobs p) (w_st w)) by (rewrite <- Hj; by destruct (w_st w)).
  destruct a as [j|i|i|]; simpl in Ha.
  - unfold enqueue in Ha. destruct (closed p), (length (jobs p) <? buffer_size); simplify_eq/=.
    eexists. split; [reflexivity|]. simpl. by rewrite Hj.
  - unfold range in Ha. destruct (workers p !! i) as [[| |]|]; try done.
    destruct (jobs p) as [|j rest] eqn:Ej; [destruct (closed p); [|done]|]; simplify_eq/=.
    + by eexists.
    + rewrite Hj. simpl. eexists. by split; [reflexivity|].
  - unfold finish in Ha. destruct (workers p !! i) as [[|j|]|]; simplify_eq/=. by eexists.
  - unfold close in Ha. destruct (closed p); simplify_eq/=. by eexists.
Qed.

(** C12: The bounded channel, its workers and its closing implement the unbounded queue
    that every other theorem is about: along any run of the pool from New, the
    queue accepts each job when the pool does, gives the workers the same jobs in
    the same order, and holds the jobs of the channel at the end; the rest of the
    world is as it was. *)
Theorem pool_refines_queue n tr p env w :
  reached act (New n) tr p -> s_jobs (w_st w) = [] ->
  exists w', run env (replay tr) w = (Ok (map Some (begun tr)), w') /\
    w_st w' = set_jobs (jobs p) (w_st w).
Proof.
  intros Hr Hw. induction Hr as [|tr p a events p' _ IH Ha].
  - exists w. split; [done|]. simpl in *. destruct (w_st w). simpl in *. by subst.
  - destruct IH as (w1 & Hrun & Hst).
    destruct (act_replays env a p events p' w1 Ha) as (w2 & Hrun' & Hst'); [by rewrite Hst|].
    exists w2. split.
    + rewrite begun_app, map_app. by eapply run_replay.
    + rewrite Hst', Hst. by destruct (w_st w).
Qed.

(** ** At concrete inputs: two workers, three jobs, a shutdown in between *)

Definition env0 : Env :=
  mkEnv (fun _ => 0%Z) (fun _ => NoFault) (fun _ _ => Ascii.zero) (fun _ => "u"%string) Some.
Definition world0 : World := mkWorld 0 (mkState emptyDB [] []).

Definition call (phone : string) : job := mkPlaceCallInput "org" phone "".

Definition before_shutdown : list action :=
  [Enqueue (call "1"); Enqueue (call "2"); Range 0; Enqueue (call "3"); Finish 0; Close].
Definition during_shutdown : list action :=
  [Range 1; Range 0; Finish 1; Range 1; Finish 0; Range 0].

(** A goroutine that has not been waited for, as the campaign scheduler, and still
    enqueues panics. *)
Example late_enqueue_panics :
  option_map (fun r => act (Enqueue (call "4")) (snd r)) (play act before_shutdown (New 2))
  = Some Panics.
Proof. reflexivity. Qed.

Definition at_shutdown : pool := mkPool [call "2"; call "3"] true [Ranging; Ranging].

Definition history : list event :=
  [Queued (call "1"); Queued (call "2"); Began (call "1"); Queued (call "3"); Ended (call "1")].

Lemma at_shutdown_reached : reached act (New 2) history at_shutdown.
Proof. apply (play_reached act before_shutdown). reflexivity. Qed.

Definition drained : pool := mkPool [] true [Returned; Returned].

Lemma shutdown_drains_witness :
  length during_shutdown <= 3 * length (jobs at_shutdown) + 2 * 2 /\
  ((exists a events p'', act a drained = Moves events p'') \/
   (all_returned drained = true /\
    ended (history ++ [Began (call "2"); Began (call "3"); Ended (call "2"); Ended (call "3")])
    ≡ₚ queued history)).
Proof.
  apply (shutdown_drains 2 history at_shutdown); [lia|apply at_shutdown_reached|done|].
  reflexivity.
Defined.

Lemma pool_refines_queue_witness :
  exists w', run env0 (replay history) world0 = (Ok (map Some (begun history)), w') /\
    w_st w' = set_jobs (jobs at_shutdown) (w_st world0).
Proof. by apply (pool_refines_queue 2 _ at_shutdown env0 world0 at_shutdown_reached). Defined.
End WorkerPool.
