(* ===== verification/Campaigns.v ===== *)
(** * Campaigns and customers: batch calls over a list of recipients

    internal/service/campaigns/campaigns.go and
    internal/service/customers/customers.go. *)

From S2P Require Import Prelude.
From S2P Require Import Domain.
From S2P Require Import Effects.
From S2P Require Import GoLib.
From S2P Require Import Phone.
From S2P Require Import Csv.
From S2P Require Import Store.
From S2P Require Import Ports.
From S2P Require Import PgCampaigns.
From S2P Require Import Orchestrator.
From stdpp Require Import gmap strings list.
From Stdlib Require Import ZArith Lia.

Open Scope Z_scope.
Open Scope go_scope.

Module Customers.
Section Service.
Context {repo : CustomerRepo.T}.

Definition List (orgID : OrgID) (limit : Z) : prog World (list Customer) :=
  let limit := if (limit <=? 0) || (500 <? limit) then 100 else limit in
  CustomerRepo.ListByOrg orgID limit.

Definition SetDND (orgID : OrgID) (id : string) (dnd : bool) : prog World unit :=
  CustomerRepo.SetDND orgID id dnd.
End Service.
End Customers.

Module Campaigns.
Definition campaignFlow : string := "order_confirm".

Section Service.
Context {repo : CampaignRepo.T} {customers : CustomerRepo.T} {flows : FlowRepo.T}
  {orch : Orchestrator.T} {clock : Clock.T}.

Definition Create (orgID : OrgID) (name : string) : prog World string :=
  let! cid := Id.New "camp" in
  do! CampaignRepo.Create orgID cid name in
  ret cid.

Definition List (orgID : OrgID) : prog World (list Campaign) := CampaignRepo.ListByOrg orgID.

Definition Get (orgID : OrgID) (id : string) : prog World Campaign :=
  let! '((c, owner), found) := CampaignRepo.Get id in
  if negb found || negb (owner =? orgID)%string then fail ErrNotFound else ret c.

(** The loop over the records of the file; every Read consumes, so the length
    of the text is fuel enough ([Csv.Read_rest]). *)
Fixpoint import_loop (fuel : nat) (orgID : OrgID) (campaignID : string) (data : string)
    (seen : list string) (added : Z) : prog World Z :=
  match fuel with
  | O => ret added
  | S fuel =>
      match Csv.Read data with
      | Csv.EOF => ret added
      | Csv.ParseError => fail ErrFlowInvalid
      | Csv.Row [] rest => import_loop fuel orgID campaignID rest seen added
      | Csv.Row (first :: others) rest =>
          match Phone.NormalizeBD (Strings.TrimSpace first) with
          | inr _ => import_loop fuel orgID campaignID rest seen added
          | inl e164 =>
              if existsb (String.eqb e164) seen
              then import_loop fuel orgID campaignID rest seen added
              else
                let name := match others with [] => "" | name :: _ => Strings.TrimSpace name end in
                do! CampaignRepo.AddRecipient orgID campaignID (mkRecipient e164 name) in
                import_loop fuel orgID campaignID rest (e164 :: seen) (added + 1)
          end
      end
  end.

Definition ImportRecipients (orgID : OrgID) (campaignID csvData : string) : prog World Z :=
  do! Get orgID campaignID in
  let data := Csv.crlf csvData in
  import_loop (S (String.length data)) orgID campaignID data [] 0.

Definition Schedule (orgID : OrgID) (id : string) (at_ : Time) : prog World unit :=
  let! now := Clock.Now in
  if negb (now <? at_) then fail ErrFlowInvalid
  else
    do! Get orgID id in
    CampaignRepo.Schedule orgID id at_.

(** The recipients as customers, with their do-not-disturb flags. *)
Fixpoint recipient_targets (orgID : OrgID) (recips : list Recipient)
  : prog World (list (string * bool)) :=
  match recips with
  | [] => ret []
  | r :: recips =>
      let! '(_, dnd) := CustomerRepo.Upsert orgID (re_Phone r) (re_Name r) "" in
      let! targets := recipient_targets orgID recips in
      ret ((re_Phone r, dnd) :: targets)
  end.

Fixpoint enqueue_all (orgID : OrgID) (flowID : FlowID) (targets : list (string * bool))
    (queued : Z) : prog World Z :=
  match targets with
  | [] => ret queued
  | (phone, dnd) :: targets =>
      if dnd : bool then enqueue_all orgID flowID targets queued
      else
        do! Orchestrator.EnqueuePlaceCall (mkPlaceCallInput orgID phone flowID) in
        enqueue_all orgID flowID targets (queued + 1)
  end.

Definition dispatch (orgID : OrgID) (campaignID : string) : prog World Z :=
  let! f := ptry (FlowRepo.GetActiveFlow orgID campaignFlow) in
  let flowID := match f with inl (f, true) => flow_ID f | _ => "" end in
  let! recips := CampaignRepo.Recipients campaignID in
  let! targets :=
    (match recips with
     | _ :: _ => recipient_targets orgID recips
     | [] =>
         let! custs := CustomerRepo.ListByOrg orgID 500 in
         ret (map (fun c => (cu_Phone c, cu_DND c)) custs)
     end) in
  enqueue_all orgID flowID targets 0.

Definition Start (orgID : OrgID) (id : string) : prog World Z :=
  let! c := Get orgID id in
  if (ca_Status c =? "completed")%string then ret (ca_TargetCount c)
  else
    let! queued := dispatch orgID id in
    do! CampaignRepo.MarkStarted orgID id queued in
    ret queued.

(** The sweep: a campaign whose dispatch or mark fails is left for the next. *)
Fixpoint run_due (due : list CampaignRef) (started : Z) : prog World Z :=
  match due with
  | [] => ret started
  | ref :: due =>
      let! queued := ptry (dispatch (cr_OrgID ref) (cr_ID ref)) in
      match queued with
      | inr _ => run_due due started
      | inl queued =>
          let! marked := ptry (CampaignRepo.MarkStarted (cr_OrgID ref) (cr_ID ref) queued) in
          match marked with
          | inr _ => run_due due started
          | inl _ => run_due due (started + 1)
          end
      end
  end.

Definition RunDue : prog World Z :=
  let! now := Clock.Now in
  let! due := CampaignRepo.DueCampaigns now in
  run_due due 0.
End Service.
End Campaigns.
