(* ===== verification/CampaignsSpec.v ===== *)
(** * Campaigns: who is called, how often, and what an import keeps

    The campaigns service over the Postgres repositories, any flow repository
    and any orchestrator that keep their promises; and what two starts that
    overlap do. *)

From S2P Require Import Prelude.
From S2P Require Import Domain.
From S2P Require Import Effects.
From S2P Require Import GoLib.
From S2P Require Import Phone.
From S2P Require Import Csv.
From S2P Require Import Store.
From S2P Require Import Ports.
From S2P Require Import NoFault.
From S2P Require Import PgFlows.
From S2P Require Import Calls.
From S2P Require Import PgCampaigns.
From S2P Require Import Orchestrator.
From S2P Require Import Campaigns.
From stdpp Require Import gmap strings list.
From Stdlib Require Import ZArith Lia.

Open Scope Z_scope.
Open Scope go_scope.

#[local] Existing Instances PgCustomerRepo.repo PgCampaignRepo.repo.

(** ** Who may be called *)

(** A known customer of the org who has not asked to be left alone. *)
Definition callable (d : DB) (org phone : string) : bool :=
  match tfind (CustomerQ.same org phone) (customers d) with
  | Some r => negb (cust_dnd r)
  | None => false
  end.

Definition opted_out (d : DB) (org phone : string) : Prop :=
  exists r, tfind (CustomerQ.same org phone) (customers d) = Some r /\ cust_dnd r = true.

(** UNIQUE (org_id, phone). *)
Definition customer_key (d : DB) : Prop :=
  NoDup (map (fun r => (cust_org_id r, cust_phone r)) (customers d)).

(** The customers of [d] are those of [d'], with the same flags. *)
Definition keeps_flags (d d' : DB) : Prop :=
  forall org phone r, tfind (CustomerQ.same org phone) (customers d) = Some r ->
  exists r', tfind (CustomerQ.same org phone) (customers d') = Some r' /\ cust_dnd r' = cust_dnd r.

Lemma keeps_flags_refl d : keeps_flags d d.
Proof. intros org phone r H. by exists r. Qed.

Lemma keeps_flags_trans d1 d2 d3 :
  keeps_flags d1 d2 -> keeps_flags d2 d3 -> keeps_flags d1 d3.
Proof.
  intros H1 H2 org phone r H. destruct (H1 _ _ _ H) as (r1 & Hr1 & E1).
  destruct (H2 _ _ _ Hr1) as (r2 & Hr2 & E2). exists r2. by rewrite E2.
Qed.

Lemma keeps_flags_callable d d' org phone :
  keeps_flags d d' -> callable d' org phone = true -> ~ opted_out d org phone.
Proof.
  intros Hk Hc (r & Hr & Hd). destruct (Hk _ _ _ Hr) as (r' & Hr' & E).
  unfold callable in Hc. rewrite Hr', E, Hd in Hc. done.
Qed.

Lemma same_refl org phone r :
  CustomerQ.same org phone r = true -> cust_org_id r = org /\ cust_phone r = phone.
Proof. unfold CustomerQ.same. intros H. by bool_prop. Qed.

Lemma tfind_same d r :
  customer_key d -> In r (customers d) ->
  tfind (CustomerQ.same (cust_org_id r) (cust_phone r)) (customers d) = Some r.
Proof.
  unfold customer_key. induction (customers d) as [|x t IH]; simpl; [done|].
  intros Hk Hin. inversion Hk as [|? ? Hx Hk']; subst.
  destruct (CustomerQ.same (cust_org_id r) (cust_phone r) x) eqn:E.
  - destruct Hin as [->|Hr]; [done|]. exfalso. apply same_refl in E as [E1 E2]. apply Hx.
    rewrite E1, E2. apply list_elem_of_In.
    by apply (in_map (fun r => (cust_org_id r, cust_phone r))).
  - destruct Hin as [->|Hr]; [|by apply IH].
    unfold CustomerQ.same in E. by rewrite !String.eqb_refl in E.
Qed.

(** An upsert keeps every flag, and reports the customer's. *)
Lemma UpsertCustomer_flags ctx id org phone name ext d cid dnd d' :
  CustomerQ.UpsertCustomer id org phone name ext ctx d = inl ((cid, dnd), d') ->
  keeps_flags d d' /\ callable d' org phone = negb dnd /\
  campaigns d' = campaigns d /\ campaign_recipients d' = campaign_recipients d.
Proof.
  intros H. apply with_text_ok in H.
  destruct (tfind (CustomerQ.same org phone) (customers d)) as [r|] eqn:Er.
  - invc H. split; [|split; [|done]].
    + intros o p r0 Hr0. cbn [set_customers customers].
      rewrite tfind_tupdate_key by done. rewrite Hr0. cbn [option_map].
      destruct (CustomerQ.same org phone r0); by eexists.
    + unfold callable. cbn [set_customers customers].
      rewrite tfind_tupdate by done. by rewrite Er.
  - destruct (tfind (CustomerQ.has_id id) (customers d)); [done|]. invc H. split; [|split; [|done]].
    + intros o p r0 Hr0. exists r0. cbn [set_customers customers]. by rewrite tfind_app, Hr0.
    + unfold callable. cbn [set_customers customers]. rewrite tfind_app, Er.
      cbn [tfind List.find]. unfold CustomerQ.same. cbn [cust_org_id cust_phone].
      by rewrite !String.eqb_refl.
Qed.

Lemma UpsertCustomer_key ctx id org phone name ext d x d' :
  CustomerQ.UpsertCustomer id org phone name ext ctx d = inl (x, d') ->
  customer_key d -> customer_key d'.
Proof.
  intros H Hk. apply with_text_ok in H. unfold customer_key in *.
  destruct (tfind (CustomerQ.same org phone) (customers d)) as [r|] eqn:Er.
  - invc H. cbn [set_customers customers]. unfold tupdate. rewrite map_map.
    erewrite map_ext; [exact Hk|]. intros c. by destruct (CustomerQ.same org phone c).
  - destruct (tfind (CustomerQ.has_id id) (customers d)); [done|]. invc H.
    cbn [set_customers customers]. rewrite map_app. apply NoDup_app. split; [done|].
    split; [|apply NoDup_singleton]. intros y Hy Hin. apply list_elem_of_In in Hin as [<-|[]].
    apply list_elem_of_In, in_map_iff in Hy as (c & E & Hc). simpl in E. injection E as E1 E2.
    apply (tfind_none _ _ c) in Er; [|done]. unfold CustomerQ.same in Er.
    by rewrite E1, E2, !String.eqb_refl in Er.
Qed.

Definition known (d : DB) (org phone : string) : Prop :=
  exists r, tfind (CustomerQ.same org phone) (customers d) = Some r.

Lemma UpsertCustomer_known ctx id org phone name ext d x d' :
  CustomerQ.UpsertCustomer id org phone name ext ctx d = inl (x, d') -> known d' org phone.
Proof.
  intros H. apply with_text_ok in H. unfold known.
  destruct (tfind (CustomerQ.same org phone) (customers d)) as [r|] eqn:Er.
  - invc H. cbn [set_customers customers]. rewrite tfind_tupdate by done. rewrite Er. by eexists.
  - destruct (tfind (CustomerQ.has_id id) (customers d)); [done|]. invc H.
    cbn [set_customers customers]. rewrite tfind_app, Er. cbn [tfind List.find].
    unfold CustomerQ.same. cbn [cust_org_id cust_phone]. rewrite !String.eqb_refl. by eexists.
Qed.

(** ** Before anything is queued *)

(** What a dispatch may do before it queues: the customers gain rows. *)
Definition prepares (w w' : World) : Prop :=
  s_jobs (w_st w') = s_jobs (w_st w) /\ keeps_flags (w_db w) (w_db w') /\
  campaigns (w_db w') = campaigns (w_db w) /\
  campaign_recipients (w_db w') = campaign_recipients (w_db w) /\
  (customer_key (w_db w) -> customer_key (w_db w')).

Lemma prepares_silent w w' : w_st w' = w_st w -> prepares w w'.
Proof.
  intros E. unfold prepares, w_db. rewrite E. split_and!; try done. apply keeps_flags_refl.
Qed.

Lemma prepares_trans w1 w2 w3 : prepares w1 w2 -> prepares w2 w3 -> prepares w1 w3.
Proof.
  intros (J1 & K1 & C1 & R1 & U1) (J2 & K2 & C2 & R2 & U2).
  split_and!; try congruence; [by eapply keeps_flags_trans|auto].
Qed.

#[local] Hint Resolve prepares_silent : guar.

Lemma run_exec_prepares {A} env (s : stmt A) w r w' :
  (forall ctx a d, s ctx (w_db w) = inl (a, d) ->
     keeps_flags (w_db w) d /\ campaigns d = campaigns (w_db w) /\
     campaign_recipients d = campaign_recipients (w_db w) /\
     (customer_key (w_db w) -> customer_key d)) ->
  run env (exec s) w = (r, w') -> prepares w w'.
Proof.
  intros Hs Hrun. pose proof (run_lin _ _ env w (exec_lin s)) as HS. rewrite Hrun in HS.
  simpl in HS. unfold prepares, w_db in *.
  inversion HS as [st ctx a d E|st ctx e E|st m E|st ctx a d m E]; subst;
    try (by apply prepares_silent); destruct (Hs _ _ _ E) as (K & C & R & U); by split_and!.
Qed.

Lemma run_Upsert env org phone name ext w r w' :
  run env (CustomerRepo.Upsert org phone name ext) w = (r, w') ->
  prepares w w' /\ forall cid dnd, r = Ok (cid, dnd) -> callable (w_db w') org phone = negb dnd.
Proof.
  change (@CustomerRepo.Upsert _) with PgCustomerRepo.Upsert. unfold PgCustomerRepo.Upsert.
  rewrite run_New_bind. set (id := id_at env "cust" (w_tick w)). clearbody id.
  intros H. split.
  - apply (prepares_trans _ (tick w)); [by apply prepares_silent|].
    eapply run_exec_prepares; [|exact H].
    intros ctx [cid dnd] d E. pose proof (UpsertCustomer_key _ _ _ _ _ _ _ _ _ E) as Hk.
    apply UpsertCustomer_flags in E as (? & _ & ? & ?). done.
  - intros cid dnd ->. apply run_exec_inv in H as (ctx & d & E & ->).
    by apply UpsertCustomer_flags in E as (_ & ? & _).
Qed.

(** A flag read stays what the dispatch sees: only new customers are added. *)
Lemma keeps_callable d d' org phone b :
  (exists r, tfind (CustomerQ.same org phone) (customers d) = Some r) ->
  keeps_flags d d' -> callable d org phone = b -> callable d' org phone = b.
Proof.
  intros (r & Hr) Hk <-. destruct (Hk _ _ _ Hr) as (r' & Hr' & E).
  unfold callable. by rewrite Hr, Hr', E.
Qed.

Lemma Upsert_known env org phone name ext w cid dnd w' :
  run env (CustomerRepo.Upsert org phone name ext) w = (Ok (cid, dnd), w') ->
  known (w_db w') org phone.
Proof.
  change (@CustomerRepo.Upsert _) with PgCustomerRepo.Upsert. unfold PgCustomerRepo.Upsert.
  rewrite run_New_bind. set (id := id_at env "cust" (w_tick w)). clearbody id.
  intros H. apply run_exec_inv in H as (ctx & d & E & ->).
  by apply UpsertCustomer_known in E.
Qed.

(** The flags of a list of targets are those of the table. *)
Definition flags_match (d : DB) (org : string) (targets : list (string * bool)) : Prop :=
  Forall (fun t => callable d org (fst t) = negb (snd t) /\ known d org (fst t)) targets.

Lemma run_recipient_targets env org recips w r w' :
  run env (Campaigns.recipient_targets org recips) w = (r, w') ->
  prepares w w' /\ forall targets, r = Ok targets ->
    map fst targets = map re_Phone recips /\ flags_match (w_db w') org targets.
Proof.
  revert w r w'. induction recips as [|x recips IH]; intros w r w' H; cbn [Campaigns.recipient_targets] in H.
  - invc H. split; [by apply prepares_silent|]. intros ts [= <-]. split; [done|constructor].
  - rewrite run_bind in H.
    destruct (run env (CustomerRepo.Upsert org (re_Phone x) (re_Name x) "") w)
      as [[[cid dnd]|e|] w1] eqn:E1; pose proof (run_Upsert _ _ _ _ _ _ _ _ E1) as [P1 F1].
    2,3: invc H; by split.
    specialize (F1 _ _ eq_refl). pose proof (Upsert_known _ _ _ _ _ _ _ _ _ E1) as K1.
    rewrite run_bind in H.
    destruct (run env (Campaigns.recipient_targets org recips) w1) as [[ts|e|] w2] eqn:E2;
      apply IH in E2 as [P2 F2]; [|invc H; split; [by eapply prepares_trans|done]..].
    invc H. split; [by eapply prepares_trans|]. intros ts' [= <-].
    destruct (F2 _ eq_refl) as [M2 F2']. simpl. rewrite M2. split; [done|].
    constructor; [|done]. simpl. destruct P2 as (_ & Hk & _).
    split; [by eapply keeps_callable|]. destruct K1 as (r & Hr).
    destruct (Hk _ _ _ Hr) as (r' & Hr' & _). by exists r'.
Qed.

(** ** What is queued *)

(** The calls of the targets that may be called, in order. *)
Definition calls_of (org : OrgID) (flowID : FlowID) (targets : list (string * bool))
  : list PlaceCallInput :=
  map (fun t => mkPlaceCallInput org (fst t) flowID)
    (List.filter (fun t => negb (snd t)) targets).

(** The same, from the table. *)
Definition calls_to (d : DB) (org : OrgID) (flowID : FlowID) (phones : list string)
  : list PlaceCallInput :=
  map (fun p => mkPlaceCallInput org p flowID) (List.filter (callable d org) phones).

Lemma calls_of_to d org flowID targets :
  flags_match d org targets ->
  calls_of org flowID targets = calls_to d org flowID (map fst targets).
Proof.
  unfold calls_of, calls_to. induction 1 as [|[p dnd] ts [H _] _ IH]; [done|]. simpl in *.
  rewrite H. destruct dnd; simpl; [done|]. by f_equal.
Qed.

(** The phones of a campaign: the imported recipients, or the customers. *)
Definition target_phones (d : DB) (org id : string) : list string :=
  match tsort_by rcp_phone (tselect (CampaignQ.of_campaign id) (campaign_recipients d)) with
  | [] => map cust_phone
            (firstn 500 (tsort (fun r => - cust_created_at r)
                           (tselect (CustomerQ.of_org org) (customers d))))
  | rs => map rcp_phone rs
  end.

Section Dispatch.
Context {orch : Orchestrator.T} {orch_laws : Orchestrator.Laws orch}.
Context {flows : FlowRepo.T} {flow_laws : FlowRepo.Laws flows}.

Lemma run_enqueue env inp w r w' :
  run env (Orchestrator.EnqueuePlaceCall inp) w = (r, w') ->
  w_db w' = w_db w /\
  ((r = Ok tt /\ s_jobs (w_st w') = s_jobs (w_st w) ++ [inp]) \/
   (exists e, r = Err e) /\
   (s_jobs (w_st w') = s_jobs (w_st w) ++ [inp] \/ s_jobs (w_st w') = s_jobs (w_st w))).
Proof.
  intros H. pose proof (run_lin _ _ env w (Orchestrator.Enqueue_lin inp)) as HS.
  rewrite H in HS. simpl in HS. unfold w_db.
  inversion HS as [st E1 E2 E3|st e E1 E2 E3|st e E1 E2 E3].
  - split; [done|]. by left.
  - split; [done|]. right. split; [by eexists|by left].
  - split; [done|]. right. split; [by eexists|by right].
Qed.

Lemma run_enqueue_all env org flowID targets queued w r w' :
  run env (Campaigns.enqueue_all org flowID targets queued) w = (r, w') ->
  w_db w' = w_db w /\
  exists k, s_jobs (w_st w') = s_jobs (w_st w) ++ firstn k (calls_of org flowID targets) /\
    forall n, r = Ok n ->
      k = length (calls_of org flowID targets) /\
      n = queued + Z.of_nat (length (calls_of org flowID targets)).
Proof.
  revert queued w r w'. induction targets as [|[p dnd] ts IH]; intros queued w r w' H;
    cbn [Campaigns.enqueue_all] in H.
  - invc H. split; [done|]. exists 0%nat. rewrite app_nil_r. split; [done|].
    intros n [= <-]. simpl. lia.
  - destruct dnd; [by apply IH in H|]. rewrite run_bind in H.
    destruct (run env (Orchestrator.EnqueuePlaceCall _) w) as [r1 w1] eqn:E1.
    apply run_enqueue in E1 as [D1 J1].
    destruct J1 as [[-> J1]|[[e ->] J1]].
    + apply IH in H as (D2 & k & J2 & N2). split; [congruence|].
      exists (S k). split; [by rewrite J2, J1, <- app_assoc|].
      intros n Hn. destruct (N2 n Hn) as [-> ->]. cbn [length calls_of List.filter map negb snd].
      split; [done|]. unfold calls_of. simpl. lia.
    + invc H. split; [done|].
      destruct J1 as [J1|J1]; [exists 1%nat|exists 0%nat]; (split; [|done]); rewrite J1;
        [done|by rewrite app_nil_r].
Qed.

Lemma run_campaign_flow env org name w :
  exists r w', run env (ptry (FlowRepo.GetActiveFlow org name)) w = (r, w') /\ w_st w' = w_st w /\
    (r = Panic \/ exists x, r = Ok x).
Proof.
  rewrite run_try. pose proof (run_lin _ _ env w (FlowRepo.GetActiveFlow_lin org name)) as H.
  destruct (run env (FlowRepo.GetActiveFlow org name) w) as [[a|e|] w1]; simpl in H;
    eexists _, _; (split; [reflexivity|]); (split; [done|]); eauto.
Qed.

(** A read of the repositories that reports success. *)
Lemma run_read_ok {A} env (s : stmt A) w r w' :
  read_only s -> run env (exec s) w = (r, w') ->
  w_st w' = w_st w /\ r <> Panic /\ forall a, r = Ok a -> exists ctx, s ctx (w_db w) = inl (a, w_db w).
Proof.
  intros Hs H. destruct (run_read_any env s w Hs) as (r' & Hr & Hok & _ & Hp).
  rewrite Hr in H. invc H. done.
Qed.

Lemma ListRecipients_read id : read_only (CampaignQ.ListRecipients id).
Proof. by intros ctx d a d' [= _ <-]. Qed.

Lemma ListCustomers_read org n : read_only (CustomerQ.ListCustomersByOrg org n).
Proof.
  intros ctx d a d'. unfold CustomerQ.ListCustomersByOrg, sql_limit.
  destruct (n <? 0); [done|]. by intros [= _ <-].
Qed.

(** The customers branch: the flags listed are those of the table. *)
Lemma listed_flags d org rows :
  customer_key d ->
  Forall (fun r => In r (customers d) /\ cust_org_id r = org) rows ->
  flags_match d org (map (fun r => (cust_phone r, cust_dnd r)) rows).
Proof.
  intros Hk. induction 1 as [|r rows [Hin <-] _ IH]; [constructor|].
  constructor; [|done]. simpl. pose proof (tfind_same d r Hk Hin) as E.
  split; [|by exists r]. unfold callable. by rewrite E.
Qed.

Lemma Forall_firstn {A} (P : A -> Prop) n l : Forall P l -> Forall P (firstn n l).
Proof. intros H. revert n. induction H; intros [|n]; simpl; constructor; auto. Qed.

Lemma run_targets env org id w r w' :
  customer_key (w_db w) ->
  run env (let! recips := CampaignRepo.Recipients id in
           match recips with
           | _ :: _ => Campaigns.recipient_targets org recips
           | [] =>
               let! custs := CustomerRepo.ListByOrg org 500 in
               ret (map (fun c => (cu_Phone c, cu_DND c)) custs)
           end) w = (r, w') ->
  prepares w w' /\ target_phones (w_db w') org id = target_phones (w_db w) org id /\
  forall targets, r = Ok targets ->
    map fst targets = target_phones (w_db w) org id /\ flags_match (w_db w') org targets.
Proof.
  assert (forall w1 w2, w_st w2 = w_st w1 ->
    target_phones (w_db w2) org id = target_phones (w_db w1) org id) as Hsame
    by (intros w1 w2 E; unfold w_db; by rewrite E).
  intros Hk. change (@CampaignRepo.Recipients _) with PgCampaignRepo.Recipients.
  unfold PgCampaignRepo.Recipients. rewrite run_bind, run_bind.
  destruct (run env (exec (CampaignQ.ListRecipients id)) w) as [r1 w1] eqn:E1.
  apply (run_read_ok _ _ _ _ _ (ListRecipients_read id)) in E1 as (S1 & Hp1 & Hok1).
  assert (w_db w1 = w_db w) as D1 by (unfold w_db; by rewrite S1).
  destruct r1 as [rows|e|]; [|intros [= <- <-]; split; [by apply prepares_silent|]; split; [by apply Hsame|done]|done].
  destruct (Hok1 rows eq_refl) as (ctx & E). injection E as <-.
  change (run env (ret ?x) ?v) with (Ok x, v). cbv beta iota.
  destruct (tsort_by rcp_phone (tselect (CampaignQ.of_campaign id) (campaign_recipients (w_db w))))
    as [|x rs] eqn:Ers.
  - cbn [map]. change (@CustomerRepo.ListByOrg _) with PgCustomerRepo.ListByOrg.
    unfold PgCustomerRepo.ListByOrg. rewrite run_bind, run_bind.
    destruct (run env (exec (CustomerQ.ListCustomersByOrg org (int32_of 500))) w1) as [r2 w2] eqn:E2.
    apply (run_read_ok _ _ _ _ _ (ListCustomers_read org _)) in E2 as (S2 & Hp2 & Hok2).
    assert (prepares w w2) as P2 by (apply prepares_silent; congruence).
    assert (target_phones (w_db w2) org id = target_phones (w_db w) org id) as T2
      by (apply Hsame; congruence).
    destruct r2 as [rows|e|]; [|by intros [= <- <-]|done].
    destruct (Hok2 rows eq_refl) as (ctx2 & E2). injection E2 as <-.
    change (run env (ret ?x) ?v) with (Ok x, v). cbv beta iota. intros [= <- <-].
    split; [done|]. split; [done|]. intros ts [= <-]. rewrite !map_map. rewrite D1.
    split; [unfold target_phones; by rewrite Ers|].
    apply (listed_flags (w_db w2) org). 
    + unfold customer_key, w_db in *. by rewrite S2, S1.
    + assert (w_db w2 = w_db w) as -> by (unfold w_db; by rewrite S2, S1).
      apply (Forall_firstn _ 500). apply List.Forall_forall. intros r Hr.
      apply in_tsort, List.filter_In in Hr as [Hin Ho]. split; [done|]. by apply String.eqb_eq.
  - set (recips := map _ (map _ (x :: rs))). intros H.
    assert (run env (Campaigns.recipient_targets org recips) w1 = (r, w')) as H' by exact H.
    pose proof (run_recipient_targets _ _ _ _ _ _ H') as [P2 F2].
    assert (prepares w w') as P by (apply (prepares_trans _ w1); [by apply prepares_silent|done]).
    split; [done|]. unfold target_phones. destruct P as (_ & _ & _ & R & _). rewrite R, Ers.
    split; [done|]. intros ts Hts. destruct (F2 _ Hts) as [M2 Hf]. split; [|done].
    rewrite M2. unfold recips. by rewrite !map_map.
Qed.

Lemma run_bind_assoc {A B C} env (p : prog World A) (k : A -> prog World B)
    (h : B -> prog World C) w :
  run env (let! x := p in let! y := k x in h y) w =
  run env (let! y := (let! x := p in k x) in h y) w.
Proof. rewrite !run_bind. destruct (run env p w) as [[a|e|] w1]; [by rewrite run_bind|done..]. Qed.

(** What a dispatch leaves alone, besides the queue and the new customers. *)
Definition undisturbed (w w' : World) (org id : string) : Prop :=
  keeps_flags (w_db w) (w_db w') /\ campaigns (w_db w') = campaigns (w_db w) /\
  customer_key (w_db w') /\
  target_phones (w_db w') org id = target_phones (w_db w) org id.

Lemma run_dispatch_full env org id w r w' :
  customer_key (w_db w) ->
  run env (Campaigns.dispatch org id) w = (r, w') ->
  undisturbed w w' org id /\ exists flowID k,
    let due := calls_to (w_db w') org flowID (target_phones (w_db w) org id) in
    s_jobs (w_st w') = s_jobs (w_st w) ++ firstn k due /\
    forall n, r = Ok n -> k = length due /\ n = Z.of_nat (length due) /\
      Forall (known (w_db w') org) (target_phones (w_db w) org id).
Proof.
  intros Hk. unfold Campaigns.dispatch. rewrite run_bind.
  destruct (run_campaign_flow env org Campaigns.campaignFlow w) as (f & w0 & -> & S0 & Hf).
  assert (w_db w0 = w_db w) as D0 by (unfold w_db; by rewrite S0).
  destruct Hf as [->|[x ->]].
  { intros [= <- <-]. unfold undisturbed. rewrite D0.
    split; [split_and!; try done; apply keeps_flags_refl|]. exists "", 0%nat. cbn [firstn].
    by rewrite app_nil_r, S0. }
  set (flowID := match x with inl (f0, true) => flow_ID f0 | _ => "" end).
  cbv beta iota zeta. rewrite run_bind_assoc, run_bind.
  match goal with |- context [run env ?q w0] => destruct (run env q w0) as [r1 w1] eqn:E1 end.
  apply run_targets in E1 as (P1 & T1 & F1); [|by rewrite D0].
  destruct P1 as (J1 & K1 & C1 & _ & U1). rewrite D0, S0 in *.
  destruct r1 as [ts|e|].
  2, 3: intros [= <- <-]; split; [split_and!; auto|]; exists "", 0%nat; cbn [firstn];
    by rewrite app_nil_r.
  destruct (F1 ts eq_refl) as [M1 Hm]. intros H.
  apply run_enqueue_all in H as (D2 & k & J2 & N2). unfold undisturbed. rewrite D2.
  split; [split_and!; auto|]. exists flowID, k.
  rewrite (calls_of_to _ _ _ _ Hm), M1 in *. cbv zeta. split; [by rewrite J2, J1|].
  intros n Hn. apply N2 in Hn as [-> ->]. split; [done|]. split; [lia|].
  rewrite <- M1. apply Forall_map. eapply Forall_impl; [exact Hm|]. by intros t [_ ?].
Qed.

Lemma run_dispatch env org id w r w' :
  customer_key (w_db w) ->
  run env (Campaigns.dispatch org id) w = (r, w') ->
  exists flowID k,
    let due := calls_to (w_db w') org flowID (target_phones (w_db w) org id) in
    s_jobs (w_st w') = s_jobs (w_st w) ++ firstn k due /\
    keeps_flags (w_db w) (w_db w') /\
    campaigns (w_db w') = campaigns (w_db w) /\
    forall n, r = Ok n -> k = length due /\ n = Z.of_nat (length due).
Proof.
  intros Hk H. destruct (run_dispatch_full _ _ _ _ _ _ Hk H)
    as ((K & C & _ & _) & flowID & k & J & N).
  exists flowID, k. cbv zeta. split_and!; try done. intros n Hn. by destruct (N n Hn) as (? & ? & _).
Qed.

(** ** Starting a campaign *)

Definition campaign_of (d : DB) (id : string) : option CampaignRow :=
  tfind (CampaignQ.has_id id) (campaigns d).

Lemma GetCampaign_read id : read_only (CampaignQ.GetCampaign id).
Proof. intros ctx d a d' H. apply with_text_ok in H. split_match; by invc H. Qed.

Lemma run_Get env org id w r w' :
  run env (Campaigns.Get org id) w = (r, w') ->
  w_st w' = w_st w /\
  forall c, r = Ok c -> exists row, campaign_of (w_db w) id = Some row /\
    camp_org_id row = org /\ c = PgCampaignRepo.row_campaign row.
Proof.
  unfold Campaigns.Get. rewrite run_bind.
  change (@CampaignRepo.Get _) with PgCampaignRepo.Get. unfold PgCampaignRepo.Get.
  rewrite run_bind, run_try.
  destruct (run env (exec (CampaignQ.GetCampaign id)) w) as [r1 w1] eqn:E1.
  apply (run_read_ok _ _ _ _ _ (GetCampaign_read id)) in E1 as (S1 & Hp & Hok).
  destruct r1 as [row|e|]; [| |done].
  - destruct (Hok row eq_refl) as (ctx & E). apply with_text_ok in E.
    change (run env (ret ?x) ?v) with (Ok x, v). cbv beta iota. cbn [negb orb].
    destruct (camp_org_id row =? org)%string eqn:Eo; cbn [negb];
      intros [= <- <-]; (split; [done|]); [|done]. intros c [= <-]. exists row.
    split_and!; try done; [|by bool_prop]. unfold campaign_of.
    destruct (tfind (CampaignQ.has_id id) _); [|done]. by invc E.
  - destruct e; intros [= <- <-]; done.
Qed.

(** The number a completed campaign reports is the number of jobs it queued. *)
Lemma run_MarkStarted env org id n w r w' :
  run env (CampaignRepo.MarkStarted org id n) w = (r, w') ->
  s_jobs (w_st w') = s_jobs (w_st w) /\ customers (w_db w') = customers (w_db w) /\
  forall u row, r = Ok u -> campaign_of (w_db w) id = Some row ->
    CampaignQ.startable id org row = true ->
    exists now, campaign_of (w_db w') id = Some (CampaignQ.start_row (int32_of n) now row).
Proof.
  change (@CampaignRepo.MarkStarted _) with PgCampaignRepo.MarkStarted.
  unfold PgCampaignRepo.MarkStarted. intros H.
  pose proof (run_lin _ _ env w (exec_lin (CampaignQ.StartCampaign id org (int32_of n)))) as HS.
  rewrite H in HS. simpl in HS. unfold w_db in *. split; [|split].
  - by inversion HS.
  - inversion HS as [st ctx a d E|st ctx e E|st m E|st ctx a d m E]; try congruence;
      apply with_text_ok in E; injection E as _ <-; by destruct (w_st w), (w_st w').
  - intros u row -> Hrow Hst. apply run_exec_inv in H as (ctx & d & E & Hd).
    apply with_text_ok in E. injection E as _ E. exists (sql_now ctx). unfold campaign_of, w_db in *.
    rewrite Hd, <- E. cbn [set_campaigns campaigns]. rewrite tfind_tupdate_key by done.
    rewrite Hrow. cbn [option_map]. by rewrite Hst.
Qed.

(** C9: A campaign calls every target it may call, and nobody else.  Whatever
    fails, the jobs a start queues are the first of its targets (the imported
    recipients by phone, or the latest 500 customers) that the org has as
    customers who have not opted out, in order; nobody who had opted out is among
    them; and when it succeeds either the campaign had already completed and
    nothing happens, or all of them are queued and counted. *)
Theorem Start_calls_the_callable env org id w r w' :
  customer_key (w_db w) ->
  run env (Campaigns.Start org id) w = (r, w') ->
  exists flowID k,
    let due := calls_to (w_db w') org flowID (target_phones (w_db w) org id) in
    s_jobs (w_st w') = s_jobs (w_st w) ++ firstn k due /\
    (forall p, callable (w_db w') org p = true -> ~ opted_out (w_db w) org p) /\
    forall n, r = Ok n ->
      (exists row, campaign_of (w_db w) id = Some row /\ camp_status row = "completed" /\
         n = camp_target_count row /\ w_st w' = w_st w /\ k = 0%nat) \/
      (k = length due /\ n = Z.of_nat (length due)).
Proof.
  intros Hk. unfold Campaigns.Start. rewrite run_bind.
  destruct (run env (Campaigns.Get org id) w) as [r0 w0] eqn:E0.
  apply run_Get in E0 as [S0 G0].
  assert (w_db w0 = w_db w) as D0 by (unfold w_db; by rewrite S0).
  destruct r0 as [c|e|].
  - destruct (G0 c eq_refl) as (row & Hrow & Horg & ->). simpl ca_Status. simpl ca_TargetCount.
    destruct (camp_status row =? "completed")%string eqn:Ec.
    + intros [= <- <-]. exists "", 0%nat. cbn [firstn]. rewrite app_nil_r, S0, D0.
      split_and!; [done|intros p; apply keeps_flags_callable, keeps_flags_refl|].
      intros n [= <-]. left. exists row. bool_prop. by split_and!.
    + rewrite run_bind. destruct (run env (Campaigns.dispatch org id) w0) as [r1 w1] eqn:E1. intros H.
      apply run_dispatch in E1 as (flowID & k & J1 & K1 & C1 & N1); [|by rewrite D0].
      rewrite D0, S0 in *. exists flowID, k.
      destruct r1 as [n|e|];
        [|injection H as <- <-; cbv zeta; split_and!; [done|intros p; by apply keeps_flags_callable|done]..].
      destruct (N1 n eq_refl) as [-> ->]. rewrite run_bind in H.
      destruct (run env (CampaignRepo.MarkStarted org id _) w1) as [r2 w2] eqn:E2.
      apply run_MarkStarted in E2 as (J2 & Cu2 & _).
      assert (forall p, callable (w_db w2) org p = callable (w_db w1) org p) as Hc
        by (intros p; unfold callable; by rewrite Cu2).
      assert (calls_to (w_db w2) org flowID (target_phones (w_db w) org id) =
              calls_to (w_db w1) org flowID (target_phones (w_db w) org id)) as Ecalls.
      { unfold calls_to. f_equal. apply List.filter_ext. exact Hc. }
      destruct r2 as [[]|e|]; injection H as <- <-; cbv zeta; rewrite Ecalls;
        (split_and!; [by rewrite J2|intros p; rewrite Hc; by apply keeps_flags_callable|]);
        intros n Hn; [injection Hn as <-; by right|done..].
  - intros [= <- <-]. exists "", 0%nat. cbn [firstn]. rewrite app_nil_r, S0, D0.
    split_and!; [done|intros p; apply keeps_flags_callable, keeps_flags_refl|done].
  - intros [= <- <-]. exists "", 0%nat. cbn [firstn]. rewrite app_nil_r, S0, D0.
    split_and!; [done|intros p; apply keeps_flags_callable, keeps_flags_refl|done].
Qed.

(** The statuses of campaign.go. *)
Definition status_known (row : CampaignRow) : Prop :=
  camp_status row = "draft" \/ camp_status row = "scheduled" \/ camp_status row = "completed".

(** A successful start leaves the campaign completed, with its count. *)
Lemma run_Start_completes env org id w n w' row :
  customer_key (w_db w) -> campaign_of (w_db w) id = Some row -> status_known row ->
  run env (Campaigns.Start org id) w = (Ok n, w') -> n <= int32_max ->
  exists row', campaign_of (w_db w') id = Some row' /\ camp_org_id row' = camp_org_id row /\
    camp_status row' = "completed" /\ camp_target_count row' = n.
Proof.
  intros Hk Hrow Hst Hrun Hn. unfold Campaigns.Start in Hrun.
  apply run_bind_ok in Hrun as (c & w0 & E0 & Hrun).
  apply run_Get in E0 as [S0 G0]. destruct (G0 c eq_refl) as (row0 & Hrow0 & Horg & ->).
  assert (row0 = row) as -> by congruence. clear Hrow0.
  assert (w_db w0 = w_db w) as D0 by (unfold w_db; by rewrite S0).
  simpl ca_Status in Hrun. simpl ca_TargetCount in Hrun.
  destruct (camp_status row =? "completed")%string eqn:Ec.
  - injection Hrun as <- <-. exists row. rewrite D0. bool_prop. by split_and!.
  - apply run_bind_ok in Hrun as (q & w1 & E1 & Hrun).
    apply run_bind_ok in Hrun as (u & w2 & E2 & Hrun). injection Hrun as -> ->.
    apply run_dispatch in E1 as (flowID & k & _ & _ & C1 & N1); [|by rewrite D0].
    destruct (N1 n eq_refl) as [_ Hnn].
    apply run_MarkStarted in E2 as (_ & _ & M2).
    assert (campaign_of (w_db w1) id = Some row) as Hrow1
      by (unfold campaign_of in *; by rewrite C1, D0).
    destruct (M2 u row eq_refl Hrow1) as (now & M).
    { unfold CampaignQ.startable, CampaignQ.mine. apply tfind_some in Hrow as [_ ->].
      rewrite Horg, String.eqb_refl. cbn [andb].
      destruct Hst as [-> | [-> | E]]; [done|done|]. by rewrite E in Ec. }
    eexists. split; [exact M|]. simpl. split_and!; [done|done|].
    apply int32_of_id. unfold int32_min. lia.
Qed.

(** Starting a campaign again calls nobody: after a start that succeeded,
    any later start, whatever fails, changes nothing, and if it succeeds it
    reports the same count. *)
Theorem Start_twice_calls_once env org id w n w1 row w2 r w3 :
  customer_key (w_db w) -> campaign_of (w_db w) id = Some row -> status_known row ->
  run env (Campaigns.Start org id) w = (Ok n, w1) -> n <= int32_max ->
  campaigns (w_db w2) = campaigns (w_db w1) ->
  run env (Campaigns.Start org id) w2 = (r, w3) ->
  w_st w3 = w_st w2 /\ forall m, r = Ok m -> m = n.
Proof.
  intros Hk Hrow Hst Hrun Hn Hw2 Hagain.
  destruct (run_Start_completes _ _ _ _ _ _ _ Hk Hrow Hst Hrun Hn)
    as (row' & Hrow' & _ & Hc & Ht).
  unfold Campaigns.Start in Hagain. rewrite run_bind in Hagain.
  destruct (run env (Campaigns.Get org id) w2) as [r0 w0] eqn:E0.
  apply run_Get in E0 as [S0 G0]. destruct r0 as [c|e|]; [|by injection Hagain as <- <-..].
  destruct (G0 c eq_refl) as (row0 & Hrow0 & _ & ->).
  assert (row0 = row') as -> by (unfold campaign_of in *; rewrite Hw2 in Hrow0; congruence).
  simpl ca_Status in Hagain. simpl ca_TargetCount in Hagain. rewrite Hc in Hagain.
  injection Hagain as <- <-. split; [done|]. by intros m [= <-].
Qed.

(** *** Two starts at once *)

(** A start after it has read that the campaign is not completed. *)
Definition start_rest (org : OrgID) (id : string) : prog World Z :=
  let! queued := Campaigns.dispatch org id in
  do! CampaignRepo.MarkStarted org id queued in
  ret queued.

Definition start_thread (org : OrgID) (id : string) : prog World unit :=
  do! Campaigns.Start org id in ret tt.

(** Reading the status is a step of its own. *)
Lemma start_reads env org id w row :
  campaign_of (w_db w) id = Some row -> camp_org_id row = org ->
  camp_status row <> "completed" ->
  exists p, thread_step env (start_thread org id) w = (p, tick w) /\
    (p = (do! start_rest org id in ret tt) \/ exists e, p = Done (Err e)).
Proof.
  intros Hrow Horg Hst. unfold start_thread, Campaigns.Start, Campaigns.Get.
  change (@CampaignRepo.Get _) with PgCampaignRepo.Get.
  destruct (run_read_any env (CampaignQ.GetCampaign id) w (GetCampaign_read id))
    as (r & Hr & Hok & _ & Hp).
  unfold PgCampaignRepo.Get, exec in *. rewrite run_act in Hr. unfold act.
  cbn [pbind ptry thread_step]. rewrite Hr. eexists. split; [reflexivity|].
  destruct r as [row'|e|]; [left|right|done].
  - destruct (Hok row' eq_refl) as (ctx & E). apply with_text_ok in E.
    unfold campaign_of in Hrow. rewrite Hrow in E. injection E as <-.
    apply String.eqb_neq in Hst. cbn. rewrite Horg, String.eqb_refl. cbn. by rewrite Hst.
  - destruct e; cbn; eauto.
Qed.

Lemma run_start_rest env org id w n w' :
  customer_key (w_db w) -> run env (start_rest org id) w = (Ok n, w') ->
  map pci_ToPhone (s_jobs (w_st w')) = map pci_ToPhone (s_jobs (w_st w)) ++
    List.filter (callable (w_db w') org) (target_phones (w_db w) org id) /\
  Forall (known (w_db w') org) (target_phones (w_db w) org id) /\
  keeps_flags (w_db w) (w_db w') /\ customer_key (w_db w') /\
  target_phones (w_db w') org id = target_phones (w_db w) org id.
Proof.
  intros Hk H. apply run_bind_ok in H as (q & w1 & E1 & H).
  apply run_bind_ok in H as (u & w2 & E2 & H). injection H as _ <-.
  destruct (run_dispatch_full _ _ _ _ _ _ Hk E1) as ((K & C & U & T) & flowID & k & J & N).
  destruct (N q eq_refl) as (-> & _ & Hkn). rewrite firstn_all in J.
  assert (s_jobs (w_st w2) = s_jobs (w_st w1) /\ customers (w_db w2) = customers (w_db w1) /\
    campaign_recipients (w_db w2) = campaign_recipients (w_db w1)) as (J2 & Cu & R).
  { change (@CampaignRepo.MarkStarted _) with PgCampaignRepo.MarkStarted in E2.
    unfold PgCampaignRepo.MarkStarted in E2.
    pose proof (run_lin _ _ env w1 (exec_lin (CampaignQ.StartCampaign id org (int32_of q)))) as HS.
    rewrite E2 in HS. simpl in HS. unfold w_db in *.
    inversion HS as [st ctx a d E|st ctx e E|st m E|st ctx a d m E]; try congruence;
      apply with_text_ok in E; injection E as _ <-; by destruct (w_st w1), (w_st w2). }
  assert (forall p, callable (w_db w2) org p = callable (w_db w1) org p) as Hc
    by (intros p; unfold callable; by rewrite Cu).
  split_and!.
  - rewrite J2, J, map_app. f_equal. unfold calls_to. rewrite map_map. cbn [pci_ToPhone].
    rewrite map_id. apply List.filter_ext. intros p. by rewrite Hc.
  - eapply Forall_impl; [exact Hkn|]. intros p. unfold known. by rewrite Cu.
  - intros o p r Hr. destruct (K _ _ _ Hr) as (r' & ? & ?). exists r'. by rewrite Cu.
  - unfold customer_key. by rewrite Cu.
  - rewrite <- T. unfold target_phones. by rewrite R, Cu.
Qed.

(** C39: Starting is not safe against itself.  Take any campaign that is not
    completed and two starts of it that overlap: both read its status before
    either marks it, then one goes on to its end and the other after it.
    Whatever the targets, the flow and the environment, when neither of the two
    fails every target that may be called has been queued twice. *)
Theorem concurrent_starts_call_twice env org id w row k1 k2 w' :
  customer_key (w_db w) -> campaign_of (w_db w) id = Some row -> camp_org_id row = org ->
  camp_status row <> "completed" ->
  run_sched env ([0; 1] ++ repeat 0 k1 ++ repeat 1 k2)%nat
    [start_thread org id; start_thread org id] w = ([Done (Ok tt); Done (Ok tt)], w') ->
  let called := List.filter (callable (w_db w') org) (target_phones (w_db w) org id) in
  map pci_ToPhone (s_jobs (w_st w')) = map pci_ToPhone (s_jobs (w_st w)) ++ called ++ called.
Proof.
  intros Hk Hrow Horg Hst.
  destruct (start_reads env org id w row Hrow Horg Hst) as (p1 & H1 & P1).
  destruct (start_reads env org id (tick w) row Hrow Horg Hst) as (p2 & H2 & P2).
  set (w0 := tick (tick w)) in *. rewrite run_sched_app.
  set (t := start_thread org id) in *.
  rewrite (run_sched_cons env 0 [1]%nat [t; t] t w p1 (tick w) eq_refl H1).
  change (<[0%nat := p1]> [t; t]) with [p1; t].
  rewrite (run_sched_cons env 1 [] [p1; t] t (tick w) p2 w0 eq_refl H2).
  change (<[1%nat := p2]> [p1; t]) with [p1; p2]. cbn [run_sched]. rewrite run_sched_app.
  destruct (sched_solo env 0 k1 [p1; p2] p1 w0 eq_refl) as (q1 & w1 & -> & R1).
  change (<[0%nat := q1]> [p1; p2]) with [q1; p2].
  destruct (sched_solo env 1 k2 [q1; p2] p2 w1 eq_refl) as (q2 & w2 & -> & R2).
  change (<[1%nat := q2]> [q1; p2]) with [q1; q2]. intros [= -> -> ->].
  specialize (R1 _ eq_refl). specialize (R2 _ eq_refl).
  destruct P1 as [->|[e ->]]; [|done]. destruct P2 as [->|[e ->]]; [|done].
  apply run_bind_ok in R1 as (n1 & v1 & R1 & Ev1). injection Ev1 as ->.
  apply run_bind_ok in R2 as (n2 & v2 & R2 & Ev2). injection Ev2 as ->.
  destruct (run_start_rest _ _ _ _ _ _ (Hk : customer_key (w_db w0)) R1) as (J1 & Kn & K1 & U1 & T1).
  destruct (run_start_rest _ _ _ _ _ _ U1 R2) as (J2 & _ & K2 & _ & _).
  change (s_jobs (w_st w0)) with (s_jobs (w_st w)) in J1.
  change (w_db w0) with (w_db w) in *. cbv zeta.
  rewrite J2, J1, T1, <- app_assoc. do 2 f_equal.
  clear -Kn K2. induction Kn as [|p ps Hp Hps IH]; [done|]. simpl.
  rewrite (keeps_callable _ _ _ _ _ Hp K2 eq_refl). destruct (callable _ _ p); [by f_equal|done].
Qed.
End Dispatch.

(** ** Importing recipients *)

(** The recipients of a file: the first row of each valid phone. *)
Fixpoint importable (rows : list (list string)) (seen : list string) : list Recipient :=
  match rows with
  | [] => []
  | [] :: rows => importable rows seen
  | (first :: others) :: rows =>
      match Phone.NormalizeBD (Strings.TrimSpace first) with
      | inr _ => importable rows seen
      | inl e164 =>
          if existsb (String.eqb e164) seen then importable rows seen
          else mkRecipient e164
                 (match others with [] => "" | name :: _ => Strings.TrimSpace name end)
               :: importable rows (e164 :: seen)
      end
  end.

(** The list a campaign has. *)
Definition recipients_of (d : DB) (id : string) : list Recipient :=
  map (fun r => mkRecipient (rcp_phone r) (rcp_name r))
    (tselect (CampaignQ.of_campaign id) (campaign_recipients d)).

(** The new recipients are appended, those whose phone is there already are
    not. *)
Fixpoint add_all (old news : list Recipient) : list Recipient :=
  match news with
  | [] => old
  | x :: news =>
      add_all (if existsb (fun y => (re_Phone y =? re_Phone x)%string) old
               then old else old ++ [x]) news
  end.

Lemma add_all_nodup old news :
  NoDup (map re_Phone old) -> NoDup (map re_Phone (add_all old news)).
Proof.
  revert old. induction news as [|x news IH]; intros old H; simpl; [done|]. apply IH.
  destruct (existsb _ old) eqn:E; [done|]. rewrite map_app. apply NoDup_app.
  split; [done|]. split; [|apply NoDup_singleton].
  intros p Hp Hx. apply list_elem_of_In in Hp. apply list_elem_of_In in Hx.
  destruct Hx as [<-|[]]. apply in_map_iff in Hp as (y & Ey & Hy).
  assert (existsb (fun y => (re_Phone y =? re_Phone x)%string) old = true) as E'; [|congruence].
  apply existsb_exists. exists y. split; [done|]. by apply String.eqb_eq.
Qed.

Lemma recipients_find id phone d :
  existsb (fun y => (re_Phone y =? phone)%string) (recipients_of d id) =
  match tfind (fun r => CampaignQ.of_campaign id r && (rcp_phone r =? phone)%string)
    (campaign_recipients d) with Some _ => true | None => false end.
Proof.
  unfold recipients_of. induction (campaign_recipients d) as [|r t IH]; [done|].
  cbn [tselect List.filter tfind List.find]. unfold tselect in IH.
  destruct (CampaignQ.of_campaign id r); cbn [map existsb andb]; [|exact IH].
  cbn [re_Phone]. destruct (rcp_phone r =? phone)%string; [done|exact IH].
Qed.

Section Importing.
Context (env : Env) (Hnf : forall n, env_fault env n = NoFault).
(** The ids minted up to a horizon do not repeat, and are not in use. *)
Context (horizon : nat).
Context (Hids : forall n m, (n < horizon)%nat -> (m < horizon)%nat ->
  id_at env "rcp" n = id_at env "rcp" m -> n = m).

Definition rcp_fresh (w : World) : Prop :=
  forall n r, (w_tick w <= n < horizon)%nat -> In r (campaign_recipients (w_db w)) ->
    rcp_id r <> id_at env "rcp" n.

Lemma run_AddRecipient org id x w row :
  campaign_of (w_db w) id = Some row -> rcp_fresh w -> (w_tick w < horizon)%nat ->
  forallb text_ok [id; org; re_Phone x; re_Name x] = true ->
  exists w', run env (CampaignRepo.AddRecipient org id x) w = (Ok tt, w') /\
    w_tick w' = (2 + w_tick w)%nat /\ rcp_fresh w' /\ campaigns (w_db w') = campaigns (w_db w) /\
    recipients_of (w_db w') id = add_all (recipients_of (w_db w) id) [x].
Proof.
  intros Hrow Hf Hlt Ht. change (@CampaignRepo.AddRecipient _) with PgCampaignRepo.AddRecipient.
  unfold PgCampaignRepo.AddRecipient. rewrite run_New_bind.
  assert (forall r, In r (campaign_recipients (w_db w)) -> rcp_id r <> id_at env "rcp" (w_tick w))
    as Hid by (intros r Hr; apply Hf; [lia|done]).
  assert (forall n, (S (w_tick w) <= n < horizon)%nat -> id_at env "rcp" (w_tick w) <> id_at env "rcp" n)
    as Hnew by (intros n Hn E; apply Hids in E; lia).
  pose proof (id_text_ok env "rcp" (w_tick w) eq_refl) as Hidt.
  set (rid := id_at env "rcp" (w_tick w)) in *. clearbody rid.
  rewrite (run_exec env Hnf). unfold CampaignQ.AddRecipient, with_text.
  assert (forallb text_ok [rid; id; org; re_Phone x; re_Name x] = true) as -> by
    (cbn [forallb] in *; by rewrite Hidt).
  pose proof (recipients_find id (re_Phone x) (w_db w)) as Hex.
  change (w_db (tick w)) with (w_db w). cbn [add_all]. rewrite Hex.
  destruct (tfind (fun r => CampaignQ.of_campaign id r && (rcp_phone r =? re_Phone x)%string) _)
    as [found|].
  - eexists. split; [reflexivity|]. cbn [w_tick w_db w_st s_db set_db tick].
    split_and!; try done. intros n r Hn Hr. apply Hf; [cbn in Hn; lia|exact Hr].
  - rewrite (tfind_fresh rcp_id) by exact Hid. unfold campaign_of in Hrow. rewrite Hrow.
    eexists. split; [reflexivity|]. cbn [w_tick w_db w_st s_db set_db tick].
    split_and!; try done.
    + intros n r Hn Hr. cbn in Hn, Hr. apply in_app_or in Hr as [Hr|[<-|[]]];
        [apply Hf; [lia|exact Hr]|]. apply Hnew. lia.
    + unfold recipients_of. cbn [set_campaign_recipients campaign_recipients].
      unfold tselect. rewrite List.filter_app, map_app. f_equal. cbn [List.filter].
      unfold CampaignQ.of_campaign at 1. cbn [rcp_campaign_id]. rewrite String.eqb_refl.
      by destruct x.
Qed.

Lemma add_all_cons old x news : add_all old (x :: news) = add_all (add_all old [x]) news.
Proof. done. Qed.

Lemma run_import_loop org id rows fuel seen added w row :
  (length rows < fuel)%nat -> Forall (fun r => r <> []) rows ->
  campaign_of (w_db w) id = Some row -> rcp_fresh w ->
  (w_tick w + 2 * length rows < horizon)%nat ->
  text_ok id = true -> text_ok org = true ->
  Forall (fun x => text_ok (re_Name x) = true) (importable rows seen) ->
  exists w', run env (Campaigns.import_loop fuel org id (Csv.print rows) seen added) w =
      (Ok (added + Z.of_nat (length (importable rows seen))), w') /\
    recipients_of (w_db w') id = add_all (recipients_of (w_db w) id) (importable rows seen).
Proof.
  revert fuel seen added w. induction rows as [|r rows IH]; intros fuel seen added w Hfu Hne Hrow
    Hf Hlt Hid Horg Hnames; (destruct fuel as [|fuel]; [lia|]).
  - exists w. split; [|done]. cbn. by rewrite Z.add_0_r.
  - apply Forall_cons in Hne as [Hr Hne]. cbn [length] in *.
    cbn [Csv.print Campaigns.import_loop]. rewrite (Csv.Read_print r) by done.
    destruct r as [|first others]; [done|]. cbn [importable] in *.
    destruct (Phone.NormalizeBD (Strings.TrimSpace first)) as [e164|err] eqn:En;
      [|by apply IH; try lia].
    destruct (existsb (String.eqb e164) seen); [by apply IH; try lia|].
    set (x := mkRecipient e164 _) in *. apply Forall_cons in Hnames as [Hx Hnames].
    rewrite run_bind.
    destruct (run_AddRecipient org id x w row Hrow Hf ltac:(lia)) as (w1 & -> & Ht1 & Hf1 & Hc1 & Hr1).
    { cbn [forallb]. unfold x at 1. cbn [re_Phone].
      rewrite Hid, Horg, (normalized_text_ok _ _ En), Hx. done. }
    destruct (IH fuel (e164 :: seen) (added + 1) w1) as (w2 & Hrun & Hr2); try done; try lia.
    { unfold campaign_of in *. by rewrite Hc1. }
    exists w2. rewrite Hrun, Hr2, Hr1. split; [|done]. cbn [length]. do 2 f_equal. lia.
Qed.

Lemma print_length rows : Forall (fun r => r <> []) rows ->
  (length rows <= String.length (Csv.print rows))%nat.
Proof.
  induction 1 as [|r rows Hr _ IH]; [simpl; lia|]. cbn [Csv.print length].
  pose proof (Csv.Read_rest _ _ _ (Csv.Read_print r (Csv.print rows) Hr)). lia.
Qed.

(** Importing a file: every row whose first field is a Bangladeshi phone
    number in any format, quoted or not, adds that number once; rows with no such
    number are skipped, a number that the file or the campaign already has is not
    added again, the count returned is the number of distinct valid numbers of the
    file, and a campaign without duplicates stays without. *)
Theorem Import_keeps_each_phone_once org id rows w row :
  campaign_of (w_db w) id = Some row -> camp_org_id row = org -> rcp_fresh w ->
  (1 + w_tick w + 2 * length rows < horizon)%nat ->
  text_ok id = true -> text_ok org = true ->
  Forall (fun r => r <> [] /\ forallb Csv.no_cr r = true) rows ->
  Forall (fun x => text_ok (re_Name x) = true) (importable rows []) ->
  exists w', run env (Campaigns.ImportRecipients org id (Csv.print rows)) w =
      (Ok (Z.of_nat (length (importable rows []))), w') /\
    recipients_of (w_db w') id = add_all (recipients_of (w_db w) id) (importable rows []) /\
    (NoDup (map re_Phone (recipients_of (w_db w) id)) ->
     NoDup (map re_Phone (recipients_of (w_db w') id))).
Proof.
  intros Hrow Horg Hf Hlt Hid Ho Hrows Hnames.
  assert (Forall (fun r => r <> []) rows /\ Forall (fun r => forallb Csv.no_cr r = true) rows)
    as [Hne Hcr] by (split; eapply List.Forall_impl; try exact Hrows; by intros r [? ?]).
  unfold Campaigns.ImportRecipients. rewrite run_bind.
  assert (run env (Campaigns.Get org id) w = (Ok (PgCampaignRepo.row_campaign row), tick w)) as ->.
  { unfold Campaigns.Get. rewrite run_bind. change (@CampaignRepo.Get _) with PgCampaignRepo.Get.
    unfold PgCampaignRepo.Get. rewrite run_bind, run_try, (run_exec_read env Hnf)
      by apply GetCampaign_read.
    unfold CampaignQ.GetCampaign, with_text. cbn [forallb]. rewrite Hid. cbn [andb].
    unfold campaign_of in Hrow. rewrite Hrow. cbn. by rewrite Horg, String.eqb_refl. }
  rewrite Csv.crlf_print by done.
  destruct (run_import_loop org id rows (S (String.length (Csv.print rows))) [] 0 (tick w) row)
    as (w' & Hrun & Hr); try done.
  - pose proof (print_length rows Hne). lia.
  - intros n r Hn Hr. apply Hf; [cbn in Hn; lia|exact Hr].
  - exists w'. rewrite Hrun. split; [done|]. split; [done|]. rewrite Hr. apply add_all_nodup.
Qed.
End Importing.

(** ** At concrete inputs *)

Module CampaignDemo.
Import DemoEnv.

Definition campaign (id status : string) : CampaignRow :=
  mkCampaignRow id "org" "Eid sale" status 0 0 None (Some 0).

(** One campaign to start, one that is scheduled, two recipients each; one of
    them is a customer who has opted out. *)
Definition db : DB :=
  set_campaigns [campaign "camp_1" "draft"; campaign "camp_2" "scheduled"]
    (set_campaign_recipients
       [mkRecipientRow "r1" "camp_1" "org" "+8801712345678" "Rahim";
        mkRecipientRow "r2" "camp_1" "org" "+8801812345678" "Karim";
        mkRecipientRow "r3" "camp_2" "org" "+8801912345678" "Salma"]
       (set_customers
          [mkCustomerRow "c1" "org" "+8801812345678" None None true 0] emptyDB)).

Definition world : World := mkWorld 0 (mkState db [] []).

#[local] Existing Instances PgFlowRepo.repo PgFlowRepo_laws LocalOrchestrator.orch
  LocalOrchestrator.laws RealClock.clock.

Lemma customers_distinct : customer_key db.
Proof. unfold customer_key. simpl. apply NoDup_singleton. Qed.

Definition started : World := snd (run env (Campaigns.Start "org" "camp_1") world).

Lemma Start_calls_the_callable_witness :
  exists flowID k,
    let due := calls_to (w_db started) "org" flowID ["+8801712345678"; "+8801812345678"] in
    s_jobs (w_st started) = firstn k due /\
    (forall p, callable (w_db started) "org" p = true -> ~ opted_out (w_db world) "org" p) /\
    forall n, Ok 1 = Ok n ->
      (exists row, campaign_of (w_db world) "camp_1" = Some row /\ camp_status row = "completed" /\
         n = camp_target_count row /\ w_st started = w_st world /\ k = 0%nat) \/
      (k = length due /\ n = Z.of_nat (length due)).
Proof.
  apply (Start_calls_the_callable env "org" "camp_1" world (Ok 1) started).
  - apply customers_distinct.
  - vm_compute. reflexivity.
Defined.

Lemma Start_twice_calls_once_witness :
  w_st (snd (run env (Campaigns.Start "org" "camp_1") started)) = w_st started /\
  forall m, fst (run env (Campaigns.Start "org" "camp_1") started) = Ok m -> m = 1.
Proof.
  eapply (Start_twice_calls_once env "org" "camp_1" world 1 started (campaign "camp_1" "draft")).
  - apply customers_distinct.
  - reflexivity.
  - by left.
  - vm_compute. reflexivity.
  - done.
  - reflexivity.
  - vm_compute. reflexivity.
Defined.

(** A file with a header, two spellings of one number, and a name with a quote
    and a comma. *)
Definition file : list (list string) :=
  [["phone"; "name"]; ["01712 345-678"; " Rahim, " +:+ String (byte_chr 34) "R"];
   ["+880 1712345678"; "again"]; ["01912345678"]].

Lemma Import_keeps_each_phone_once_witness :
  exists w', run env (Campaigns.ImportRecipients "org" "camp_2" (Csv.print file)) world =
      (Ok 2, w') /\
    recipients_of (w_db w') "camp_2" =
      [mkRecipient "+8801912345678" "Salma";
       mkRecipient "+8801712345678" ("Rahim, " +:+ String (byte_chr 34) "R")] /\
    (NoDup (map re_Phone (recipients_of (w_db world) "camp_2")) ->
     NoDup (map re_Phone (recipients_of (w_db w') "camp_2"))).
Proof.
  apply (Import_keeps_each_phone_once env (fun _ => eq_refl) horizon (ids_distinct "rcp")
           "org" "camp_2" file world (campaign "camp_2" "scheduled")).
  - reflexivity.
  - reflexivity.
  - intros n r _ [<-|[<-|[<-|[]]]]; discriminate.
  - unfold horizon. simpl. lia.
  - by vm_compute.
  - by vm_compute.
  - repeat constructor; try discriminate; by vm_compute.
  - repeat constructor; by vm_compute.
Defined.

(** Two requests to start one campaign, made at once: both read the draft. *)
Definition overlap : list nat := ([0; 1] ++ repeat 0 20 ++ repeat 1 20)%nat.
Definition starts : list (prog World unit) :=
  [start_thread "org" "camp_1"; start_thread "org" "camp_1"].

Example overlapping_starts :
  map pci_ToPhone (s_jobs (w_st (snd (run_sched env overlap starts world))))
  = ["+8801712345678"; "+8801712345678"].
Proof. vm_compute. reflexivity. Qed.

Lemma concurrent_starts_call_twice_witness :
  exists w', run_sched env overlap starts world = ([Done (Ok tt); Done (Ok tt)], w') /\
    let called := List.filter (callable (w_db w') "org")
                    (target_phones (w_db world) "org" "camp_1") in
    map pci_ToPhone (s_jobs (w_st w')) = [] ++ called ++ called.
Proof.
  assert (exists w', run_sched env overlap starts world = ([Done (Ok tt); Done (Ok tt)], w'))
    as [w' E] by (eexists; vm_compute; reflexivity).
  exists w'. split; [exact E|].
  exact (concurrent_starts_call_twice env "org" "camp_1" world (campaign "camp_1" "draft")
    20 20 w' customers_distinct eq_refl eq_refl ltac:(done) E).
Defined.

(** The statement that marks the campaign completed is lost once. *)
Definition lossy : Env :=
  mkEnv (env_clock env)
    (fun n => if (n =? 6)%nat then FaultBefore "conn reset" else NoFault)
    (env_rand env) (env_uuid env) (env_jsonb env).

(** A scheduled campaign whose completion is not recorded is called again
    by the next sweep, from the first recipient. *)
Theorem lost_mark_calls_again :
  let swept := snd (run lossy Campaigns.RunDue world) in
  fst (run lossy Campaigns.RunDue world) = Ok 0 /\
  map pci_ToPhone (s_jobs (w_st swept)) = ["+8801912345678"] /\
  map pci_ToPhone (s_jobs (w_st (snd (run env Campaigns.RunDue swept)))) =
    ["+8801912345678"; "+8801912345678"].
Proof. vm_compute. by repeat split. Qed.
End CampaignDemo.
