(* ===== verification/PgIngest.v ===== *)
(** * API keys and merchant events in Postgres

    internal/adapter/postgres/ingest.go over gen/ingest.sql.go; the records and
    ports of domain/ingest.go. *)

From S2P Require Import Prelude.
From S2P Require Import Domain.
From S2P Require Import Effects.
From S2P Require Import GoLib.
From S2P Require Import Store.
From S2P Require Import Ports.
From stdpp Require Import gmap strings list.
From Stdlib Require Import ZArith Lia.

Open Scope Z_scope.
Open Scope go_scope.

(** ** domain/ingest.go *)

Record APIKeyInfo := mkAPIKeyInfo {
  ak_Prefix : string; ak_Name : string; ak_Kind : string; ak_CreatedAt : Time;
  ak_LastUsedAt : option Time
}.

Record IngestEvent := mkIngestEvent {
  ie_ID : string; ie_OrgID : string; ie_Type : string; ie_ExternalEventID : string;
  ie_Phone : string; ie_Payload : string
}.

Module APIKeyRepo.
Class T := {
  Create : string -> string -> string -> string -> string -> string -> prog World unit;
  ByPrefix : string -> prog World (string * string * string * string * bool);
  Touch : string -> prog World unit;
  ListByOrg : string -> prog World (list APIKeyInfo)
}.
End APIKeyRepo.

Module EventRepo.
Class T := { Insert : IngestEvent -> prog World bool }.

Definition same_event (orgID externalEventID : string) (r : EventRow) : bool :=
  (event_org_id r =? orgID)%string && (event_external_event_id r =? externalEventID)%string.

(** One row for the org and the merchant's event id, if there was none. *)
Inductive Insert_spec (e : IngestEvent) : step_spec bool :=
| insert_ok st st' row r :
    event_org_id row = ie_OrgID e -> event_external_event_id row = ie_ExternalEventID e ->
    tfind (same_event (ie_OrgID e) (ie_ExternalEventID e)) (events (s_db st)) = None ->
    st' = set_db (set_events (events (s_db st) ++ [row]) (s_db st)) st ->
    (forall b, r = Ok b -> b = true) -> Insert_spec e st r st'
| insert_duplicate st :
    is_Some (tfind (same_event (ie_OrgID e) (ie_ExternalEventID e)) (events (s_db st))) ->
    Insert_spec e st (Ok false) st
| insert_failed st err : Insert_spec e st (Err err) st.

Class Laws (C : T) : Prop := { Insert_lin : forall e, lin (Insert_spec e) (Insert e) }.
End EventRepo.

(** ** gen/ingest.sql.go *)

Module IngestQ.
Definition has_prefix (prefix : string) (r : ApiKeyRow) : bool := (key_prefix r =? prefix)%string.

Definition has_key_id (id : string) (r : ApiKeyRow) : bool := (key_id r =? id)%string.

(** The prefix is unique, and so is the id. *)
Definition CreateAPIKey (id orgID prefix secretHash : string) (name : option string)
    (kind : string) : stmt unit := fun ctx d =>
  match tfind (fun r => has_prefix prefix r || has_key_id id r) (api_keys d) with
  | Some _ => inr unique_violation
  | None =>
      inl (tt, set_api_keys
        (api_keys d ++ [mkApiKeyRow id orgID prefix secretHash name (sql_now ctx) None kind]) d)
  end.

Definition GetAPIKeyByPrefix (prefix : string) : stmt ApiKeyRow :=
  with_text [prefix] (fun _ d =>
    match tfind (has_prefix prefix) (api_keys d) with
    | None => inr ErrNoRows
    | Some r => inl (r, d)
    end).

(** external_event_id is unique per org; jsonb normalises the payload. *)
Definition InsertEvent (id orgID typ externalEventID payload : string) : stmt string :=
  with_text [id; orgID; typ; externalEventID] (fun ctx d =>
    match sql_jsonb ctx payload with
    | None => inr invalid_text
    | Some payload' =>
        match tfind (EventRepo.same_event orgID externalEventID) (events d) with
        | Some _ => inr ErrNoRows
        | None =>
            match tfind (fun r => (event_id r =? id)%string) (events d) with
            | Some _ => inr unique_violation
            | None =>
                inl (id, set_events
                  (events d ++ [mkEventRow id orgID typ externalEventID payload' "received"
                                  (sql_now ctx)]) d)
            end
        end
    end).

Definition ListAPIKeysByOrg (orgID : string) : stmt (list ApiKeyRow) := fun _ d =>
  inl (tsort (fun r => - key_created_at r)
         (tselect (fun r => (key_org_id r =? orgID)%string) (api_keys d)), d).

Definition touch_key (now : Time) (r : ApiKeyRow) : ApiKeyRow :=
  mkApiKeyRow (key_id r) (key_org_id r) (key_prefix r) (key_secret_hash r) (key_name r)
    (key_created_at r) (Some now) (key_kind r).

Definition TouchAPIKey (id : string) : stmt unit := fun ctx d =>
  inl (tt, set_api_keys (tupdate (has_key_id id) (touch_key (sql_now ctx)) (api_keys d)) d).
End IngestQ.

(** ** The repositories *)

Module PgAPIKeyRepo.
Definition Create (id orgID prefix secretHash name kind : string) : prog World unit :=
  exec (IngestQ.CreateAPIKey id orgID prefix secretHash (strPtr name) kind).

Definition ByPrefix (prefix : string)
  : prog World (string * string * string * string * bool) :=
  let! row := ptry (exec (IngestQ.GetAPIKeyByPrefix prefix)) in
  match row with
  | inr ErrNoRows => ret ("", "", "", "", false)
  | inr err => fail err
  | inl row => ret (key_id row, key_org_id row, key_kind row, key_secret_hash row, true)
  end.

Definition Touch (id : string) : prog World unit := exec (IngestQ.TouchAPIKey id).

Definition ListByOrg (orgID : string) : prog World (list APIKeyInfo) :=
  let! rows := exec (IngestQ.ListAPIKeysByOrg orgID) in
  ret (map (fun r => mkAPIKeyInfo (key_prefix r) (deref (key_name r)) (key_kind r)
                       (key_created_at r) (key_last_used_at r)) rows).

#[export] Instance repo : APIKeyRepo.T :=
  { APIKeyRepo.Create := Create; APIKeyRepo.ByPrefix := ByPrefix; APIKeyRepo.Touch := Touch;
    APIKeyRepo.ListByOrg := ListByOrg }.
End PgAPIKeyRepo.

Module PgEventRepo.
(** ON CONFLICT DO NOTHING returns no row: a duplicate. *)
Definition Insert (e : IngestEvent) : prog World bool :=
  let! id := ptry (exec (IngestQ.InsertEvent (ie_ID e) (ie_OrgID e) (ie_Type e)
                           (ie_ExternalEventID e) (ie_Payload e))) in
  match id with
  | inr ErrNoRows => ret false
  | inr err => fail err
  | inl _ => ret true
  end.

#[export] Instance repo : EventRepo.T := { EventRepo.Insert := Insert }.

#[export] Instance laws : EventRepo.Laws repo.
Proof.
  split. intros e. change (lin (EventRepo.Insert_spec e) (Insert e)). unfold Insert.
  apply lin_exec_try; unfold lin_done.
  - intros st ctx a d H. eexists. split; [done|]. apply with_text_ok in H.
    destruct (sql_jsonb ctx (ie_Payload e)); [|done].
    destruct (tfind (EventRepo.same_event _ _) _) eqn:E; [done|].
    destruct (tfind (fun r => (event_id r =? _)%string) _); [done|]. injection H as <- <-.
    eapply (EventRepo.insert_ok e st _ (mkEventRow _ _ _ _ _ _ _));
      [reflexivity|reflexivity|done|reflexivity|]. by intros b [= <-].
  - intros st ctx err H. left. unfold IngestQ.InsertEvent, with_text in H.
    destruct (forallb text_ok _); [|injection H as <-; eexists; split; [done|];
      apply EventRepo.insert_failed].
    destruct (sql_jsonb ctx (ie_Payload e)); [|injection H as <-; eexists; split; [done|];
      apply EventRepo.insert_failed].
    destruct (tfind (EventRepo.same_event _ _) _) eqn:E.
    + injection H as <-. eexists. split; [done|]. apply EventRepo.insert_duplicate. by rewrite E.
    + destruct (tfind (fun r => (event_id r =? _)%string) _); [|done]. injection H as <-. eexists. split; [done|].
      apply EventRepo.insert_failed.
  - intros st m. eexists. split; [done|]. apply EventRepo.insert_failed.
  - intros st ctx a d m H. eexists. split; [done|]. apply with_text_ok in H.
    destruct (sql_jsonb ctx (ie_Payload e)); [|done].
    destruct (tfind (EventRepo.same_event _ _) _) eqn:E; [done|].
    destruct (tfind (fun r => (event_id r =? _)%string) _); [done|]. injection H as <- <-.
    by eapply (EventRepo.insert_ok e st _ (mkEventRow _ _ _ _ _ _ _)).
Qed.
End PgEventRepo.
