(* ===== verification/Ingest.v ===== *)
(** * Merchant API keys and event intake

    pkg/apikey/apikey.go, internal/service/apikeys/apikeys.go and
    internal/service/ingest/ingest.go. *)

From S2P Require Import Prelude.
From S2P Require Import Domain.
From S2P Require Import Effects.
From S2P Require Import GoLib.
From S2P Require Import Phone.
From S2P Require Import Store.
From S2P Require Import Crypto.
From S2P Require Import Ports.
From S2P Require Import PgCampaigns.
From S2P Require Import Orchestrator.
From S2P Require Import PgIngest.
From stdpp Require Import gmap strings list.
From Stdlib Require Import ZArith Lia.

Open Scope Z_scope.
Open Scope go_scope.

(** ** pkg/apikey *)

Module Apikey.
Definition SecretScheme : string := "yvr_sk_".
Definition PublishableScheme : string := "yvr_pk_".
Definition schemeLen : nat := String.length SecretScheme.
Definition prefixLen : nat := schemeLen + 8.
Definition randLen : nat := 24.

Section Apikey.
Context {sha : SHA256.T}.

(** The full key, its lookup prefix and its hash. *)
Definition gen (scheme : string) : prog World (string * string * string) :=
  let! b := rand_Read randLen in
  let full := scheme +:+ Encoding.base64url b in
  ret (full, Strings.take prefixLen full, SHA256.Sum256 full).

Definition Generate : prog World (string * string * string) := gen SecretScheme.
Definition GeneratePublishable : prog World (string * string * string) := gen PublishableScheme.

Definition Prefix (full : string) : option string :=
  if negb (Strings.HasPrefix full "yvr_") || (String.length full <? prefixLen)%nat then None
  else Some (Strings.take prefixLen full).

Definition Verify (full storedHash : string) : bool := (SHA256.Sum256 full =? storedHash)%string.
End Apikey.
End Apikey.

(** ** The API-key service *)

Module APIKeys.
Section Service.
Context {sha : SHA256.T} {repo : APIKeyRepo.T}.

Definition Mint (orgID : OrgID) (name : string) : prog World string :=
  let! '((full, prefix), hash) := Apikey.Generate in
  let! id := Id.New "key" in
  do! APIKeyRepo.Create id orgID prefix hash name "secret" in
  ret full.

Definition MintPublishable (orgID : OrgID) (name : string) : prog World string :=
  let! '((full, prefix), hash) := Apikey.GeneratePublishable in
  let! id := Id.New "key" in
  do! APIKeyRepo.Create id orgID prefix hash name "publishable" in
  ret full.

Definition List (orgID : OrgID) : prog World (list APIKeyInfo) := APIKeyRepo.ListByOrg orgID.

Definition Authenticate (presented : string) : prog World (OrgID * string * bool) :=
  match Apikey.Prefix presented with
  | None => ret ("", "", false)
  | Some prefix =>
      let! '((((keyID, org), k), hash), found) := APIKeyRepo.ByPrefix prefix in
      if negb found || negb (Apikey.Verify presented hash) then ret ("", "", false)
      else
        do! pignore (APIKeyRepo.Touch keyID) in
        ret (org, k, true)
  end.
End Service.
End APIKeys.

(** ** Event intake *)

Module Ingest.
(** The flow an event type is handled by; other types are only stored. *)
Definition eventFlow (typ : string) : option string :=
  if (typ =? "order_placed")%string then Some "order_confirm"
  else if (typ =? "abandoned_cart")%string then Some "cart_recovery"
  else if (typ =? "out_for_delivery")%string then Some "delivery_reminder"
  else None.

Record Event := mkEvent {
  ev_Type : string; ev_ExternalID : string; ev_Phone : string; ev_CustomerName : string;
  ev_CustomerRef : string; ev_Payload : string
}.

Section Service.
Context {events : EventRepo.T} {customers : CustomerRepo.T} {flows : FlowRepo.T}
  {orch : Orchestrator.T}.

(** Normalised; an empty phone stays empty. *)
Definition normalize (phone : string) : string + goerr :=
  if (phone =? "")%string then inl ""
  else match Phone.NormalizeBD phone with
       | inl e164 => inl e164
       | inr _ => inr ErrInvalidPhone
       end.

Definition Accept (orgID : OrgID) (ev : Event) : prog World (string * bool) :=
  match normalize (ev_Phone ev) with
  | inr err => fail err
  | inl e164 =>
      let! eventID := Id.New "evt" in
      let! inserted := EventRepo.Insert
        (mkIngestEvent eventID orgID (ev_Type ev) (ev_ExternalID ev) e164 (ev_Payload ev)) in
      if negb inserted then ret ("", true)
      else
        let! dnd :=
          (if negb (e164 =? "")%string then
             let! '(_, dnd) := CustomerRepo.Upsert orgID e164 (ev_CustomerName ev)
                                 (ev_CustomerRef ev) in
             ret dnd
           else ret false) in
        do! (match eventFlow (ev_Type ev) with
             | Some flowName =>
                 if negb (e164 =? "")%string && negb dnd then
                   let! '(f, found) := FlowRepo.GetActiveFlow orgID flowName in
                   if found : bool then
                     Orchestrator.EnqueuePlaceCall (mkPlaceCallInput orgID e164 (flow_ID f))
                   else ret tt
                 else ret tt
             | None => ret tt
             end) in
        ret (eventID, false)
  end.
End Service.
End Ingest.
