(* ===== verification/IngestSpec.v ===== *)
(** * Event intake and API keys: what a merchant event leads to

    The intake service, the worker pool and the calls they place, over any ports
    that keep their promises; what happens to a call whose event was stored before
    a failure; the API keys over Postgres. *)

From S2P Require Import Prelude.
From S2P Require Import Domain.
From S2P Require Import Effects.
From S2P Require Import GoLib.
From S2P Require Import Phone.
From S2P Require Import Store.
From S2P Require Import Crypto.
From S2P Require Import Ports.
From S2P Require Import FlowEngine.
From S2P Require Import PgCredits.
From S2P Require Import PgFlows.
From S2P Require Import PgCalls.
From S2P Require Import Accounting.
From S2P Require Import NoFault.
From S2P Require Import FlowsSpec.
From S2P Require Import CallPolicy.
From S2P Require Import Calls.
From S2P Require Import PgCampaigns.
From S2P Require Import Orchestrator.
From S2P Require Import PgIngest.
From S2P Require Import Ingest.
From stdpp Require Import gmap strings list.
From Stdlib Require Import ZArith Lia.

Open Scope Z_scope.
Open Scope go_scope.

(** ** Calls and the events they answer *)

Definition ind (b : bool) : Z := if b then 1 else 0.

(** The events stored for an org. *)
Definition events_of (st : State) (o : OrgID) : Z :=
  sum_by (fun r => ind (event_org_id r =? o)%string) (events (s_db st)).

(** The calls queued for an org. *)
Definition queued (st : State) (o : OrgID) : Z :=
  sum_by (fun j => ind (pci_OrgID j =? o)%string) (s_jobs st).

(** The events that no call has used up. *)
Definition unused (st : State) (o : OrgID) : Z := events_of st o - queued st o - dials st o.

(** A step that uses up no event. *)
Definition steady (w w' : World) : Prop := forall o, unused (w_st w) o <= unused (w_st w') o.

Lemma steady_same w w' :
  events (w_db w') = events (w_db w) -> s_jobs (w_st w') = s_jobs (w_st w) ->
  (forall o, dials (w_st w') o = dials (w_st w) o) -> steady w w'.
Proof.
  intros He Hj Hd o. unfold unused, events_of, queued. unfold w_db in He.
  rewrite He, Hj, Hd. lia.
Qed.

Lemma steady_quiet w w' : quiet w w' -> steady w w'.
Proof. intros (Hd & Hj & Ht). apply steady_same; [unfold w_db; by rewrite Hd|done|done]. Qed.

Lemma steady_silent w w' : w_st w' = w_st w -> steady w w'.
Proof. intros E. by apply steady_quiet, quiet_silent. Qed.

Lemma guar_steady_quiet {A} (p : prog World A) : guar quiet p -> guar steady p.
Proof. apply guar_mono, steady_quiet. Qed.

Lemma guar_steady_read {A} (p : prog World A) :
  lin (fun st _ st' => st' = st) p -> guar steady p.
Proof.
  intros Hp. eapply guar_lin; [apply steady_silent| |exact Hp].
  intros w w' r. apply steady_silent.
Qed.

(** [budget o base]: the tokens held are events of the org no call has used. *)
Definition budget (o : OrgID) (base t : Z) (st : State) : Prop := base + t <= unused st o.

Definition owed (o org : OrgID) : Z := ind (org =? o)%string.

Lemma owed_range o org : 0 <= owed o org <= 1.
Proof. unfold owed, ind. destruct (_ =? _)%string; lia. Qed.

Section Budget.
Context {credits : CreditRepo.T} {credits_laws : CreditRepo.Laws credits}
  {voice : VoiceProvider.T} {voice_laws : VoiceProvider.Laws voice}
  {outcomes : OutcomeRepo.T} {outcome_laws : OutcomeRepo.Laws outcomes}
  {policies : CallPolicyRepo.T} {policy_laws : CallPolicyRepo.Laws policies}
  {flows : FlowRepo.T} {flow_laws : FlowRepo.Laws flows}
  {notifier : CreditNotifier.T} {notifier_laws : CreditNotifier.Laws notifier}
  {clock : Clock.T} {clock_laws : Clock.Laws clock}
  {events_repo : EventRepo.T} {event_laws : EventRepo.Laws events_repo}
  {customers_repo : CustomerRepo.T} {customer_laws : CustomerRepo.Laws customers_repo}
  {orch : Orchestrator.T} {orch_laws : Orchestrator.Laws orch}
  {tz : TimeZones.T}.
Context (o : OrgID) (base : Z).

Abbreviation kept := (wpt (on_state (budget o base))).

Lemma kept_steady {A} (Q : outcome A -> Z -> Prop) t (p : prog World A) :
  0 <= t -> guar steady p -> (forall r, Q r t) -> kept Q t p.
Proof.
  intros Ht Hp HQ. apply (wpt_guar _ steady); [done| |done|done].
  intros t' w w' Hs Hb. unfold on_state, budget in *. specialize (Hs o). lia.
Qed.

Lemma kept_bind {A B} (Q : outcome B -> Z -> Prop) t (p : prog World A) k :
  0 <= t -> guar steady p -> (forall a, kept Q t (k a)) -> (forall e, Q (Err e) t) -> Q Panic t ->
  kept Q t (pbind p k).
Proof.
  intros Ht Hp Hk He Hpan. apply wpt_bind, kept_steady; [done|done|]. by intros [a|e|]; cbn [bind_post].
Qed.

(** No token is overdrawn. *)
Definition any {A} : outcome A -> Z -> Prop := fun _ t => 0 <= t.

Ltac kept_done := unfold any; (lia || (intros; lia) || (simpl; lia)).

(** Dialling, and queueing, use up what is owed. *)
Lemma kept_dial {A} req (k : ProviderCallID -> prog World A) :
  (forall pid, kept any 0 (k pid)) ->
  kept any (owed o (req_OrgID req)) (let! pid := VoiceProvider.PlaceCall req in k pid).
Proof.
  intros Hk. pose proof (owed_range o (req_OrgID req)) as Hr.
  apply wpt_bind. eapply (wpt_lin (VoiceProvider.PlaceCall_spec req));
    [lia|apply VoiceProvider.PlaceCall_lin|].
  intros st rest r st' Hrest HI HS. exists 0. split; [lia|].
  assert (budget o base (0 + rest) st') as Hb.
  { unfold budget, unused, events_of, queued, dials in *.
    inversion HS; subst; unfold add_effect; cbn [s_db s_jobs s_trace dials_to sum_by fold_right];
      unfold dials_to, sum_by, owed, ind in *; cbn [fold_right]; try (destruct (_ =? _)%string); lia. }
  split; [done|]. destruct r as [pid|e|]; cbn [bind_post]; [apply Hk|kept_done..].
Qed.

Lemma kept_enqueue inp :
  kept any (owed o (pci_OrgID inp)) (Orchestrator.EnqueuePlaceCall inp).
Proof.
  pose proof (owed_range o (pci_OrgID inp)) as Hr.
  eapply (wpt_lin (Orchestrator.Enqueue_spec inp)); [lia|apply Orchestrator.Enqueue_lin|].
  intros st rest r st' Hrest HI HS. exists 0. split; [lia|]. split; [|kept_done].
  unfold budget, unused, events_of, queued, dials in *.
  inversion HS; subst; unfold set_jobs; cbn [s_db s_jobs s_trace]; rewrite ?sum_by_app;
    cbn [sum_by fold_right]; unfold owed, ind in *; try (destruct (pci_OrgID inp =? o)%string); lia.
Qed.

(** A new event is what a call may be owed to. *)
Lemma kept_insert {A} e (k : bool -> prog World A) :
  kept any (owed o (ie_OrgID e)) (k true) -> kept any 0 (k false) ->
  kept any 0 (let! b := EventRepo.Insert e in k b).
Proof.
  intros Ht Hf. pose proof (owed_range o (ie_OrgID e)) as Hr.
  apply wpt_bind. eapply (wpt_lin (EventRepo.Insert_spec e)); [lia|apply EventRepo.Insert_lin|].
  intros st rest r st' Hrest HI HS.
  inversion HS as [st0 st1 row r0 Ho _ _ Est Hb|st0 _|st0 err]; subst.
  - exists (owed o (ie_OrgID e)). split; [lia|]. split.
    + unfold budget, unused, events_of, queued, dials in *. cbn [set_db s_db s_jobs s_trace].
      cbn [set_events events]. rewrite sum_by_app. cbn [sum_by fold_right].
      rewrite Ho. unfold owed, ind in *. destruct (ie_OrgID e =? o)%string; lia.
    + destruct r as [b|err|]; cbn [bind_post]; [|kept_done..]. by rewrite (Hb b eq_refl).
  - exists 0. split; [lia|]. split; [done|]. exact Hf.
  - exists 0. split; [lia|]. split; [done|]. kept_done.
Qed.

Lemma kept_zero {A} t (p : prog World A) : 0 <= t -> kept any 0 p -> kept any t p.
Proof.
  intros Ht. apply wpt_weaken; [lia| |kept_done]. intros a b w Hab. unfold on_state, budget. lia.
Qed.

Lemma steady_Upsert org phone name ext : guar steady (CustomerRepo.Upsert org phone name ext).
Proof.
  eapply guar_mono; [|apply CustomerRepo.Upsert_only]. intros w w' (cs & E).
  apply steady_same; unfold w_db; by rewrite E.
Qed.

Lemma kept_Accept org ev : kept any 0 (Ingest.Accept org ev).
Proof.
  unfold Ingest.Accept. destruct (Ingest.normalize _) as [e164|err]; [|kept_done].
  apply kept_bind; [done|apply guar_New, steady_silent| |kept_done..]. intros id.
  apply kept_insert; cbn [negb ie_OrgID]; [|kept_done].
  pose proof (owed_range o org) as Hr. apply kept_bind; [lia| | |kept_done..].
  { destruct (negb _); [|done]. apply guar_bind; [apply steady_Upsert|]. by intros [? ?]. }
  intros dnd. apply wpt_bind.
  assert (kept any (owed o org) (match Ingest.eventFlow (Ingest.ev_Type ev) with
     | Some flowName =>
         if negb (e164 =? "")%string && negb dnd then
           let! '(f, found) := FlowRepo.GetActiveFlow org flowName in
           if found : bool then
             Orchestrator.EnqueuePlaceCall (mkPlaceCallInput org e164 (flow_ID f))
           else ret tt
         else ret tt
     | None => ret tt
     end)) as H.
  { destruct (Ingest.eventFlow _); [|kept_done]. destruct (_ && _); [|kept_done].
    apply kept_bind; [lia|apply guar_steady_read, FlowRepo.GetActiveFlow_lin| |kept_done..].
    intros [f found]. destruct found; [|kept_done]. exact (kept_enqueue (mkPlaceCallInput org e164 _)). }
  eapply wpt_mono; [|exact H]. by intros [[]|e|] t.
Qed.

Lemma steady_deduct org reason :
  guar steady (CreditRepo.TryDeduct org Calls.creditsPerCall reason).
Proof.
  eapply guar_lin; [apply steady_silent| |apply CreditRepo.TryDeduct_lin].
  - intros w w' r. unfold steady, unused, events_of, queued, dials.
    generalize (w_st w) (w_st w'). intros st st' HS o'.
    inversion HS as [s s' _ _ Hp|s _|s e|s s' e _ _ Hp]; subst; try lia;
      destruct Hp as (row & _ & _ & _ & ->); simpl; lia.
  - unfold CreditRepo.small, Calls.creditsPerCall, int32_max. lia.
Qed.

Lemma steady_record c ev : guar steady (OutcomeRepo.RecordCallOutcome c ev).
Proof.
  eapply guar_lin; [apply steady_silent| |apply OutcomeRepo.Record_lin].
  intros w w' r. unfold steady, unused, events_of, queued, dials.
  generalize (w_st w) (w_st w'). intros st st' HS o'.
  inversion HS as [s s' r' Hrec|s e]; subst; [|lia]. destruct Hrec as (now & Hrec).
  destruct ev as [e|]; [destruct Hrec as (ob & _ & _ & _ & ->)|rewrite Hrec]; simpl; lia.
Qed.

Lemma steady_clock : guar steady Clock.Now.
Proof. eapply guar_mono; [|apply Clock.Now_silent]. apply steady_silent. Qed.

Lemma kept_PlaceCall inp : kept any (owed o (pci_OrgID inp)) (Calls.PlaceCall inp).
Proof.
  pose proof (owed_range o (pci_OrgID inp)) as Hr. unfold Calls.PlaceCall.
  apply kept_bind; [lia|apply guar_steady_read, CallPolicyRepo.Get_lin| |kept_done..]. intros pol.
  apply kept_bind; [lia|apply steady_clock| |kept_done..]. intros now.
  destruct (negb (CallPolicy.Allows pol now)); [kept_done|].
  apply kept_bind; [lia|apply steady_deduct| |kept_done..]. intros [ok balance].
  destruct (negb ok); [kept_done|]. apply kept_bind; [lia| | |kept_done..].
  { destruct (_ && _); [|done]. apply guar_steady_quiet, CreditNotifier.LowBalance_quiet. }
  intros _. apply (kept_dial (mkCallRequest (pci_OrgID inp) (pci_ToPhone inp) "" zeroFlow)).
  intros pid. apply kept_bind; [done|apply guar_New, steady_silent| |kept_done..]. intros cid.
  apply kept_bind; [done|apply steady_clock| |kept_done..]. intros now'.
  apply kept_steady; [done|apply steady_record|kept_done].
Qed.

(** A worker owes for a job what the queue owed for it. *)
Lemma kept_worker n : kept any 0 (LocalOrchestrator.worker Calls.PlaceCall n).
Proof.
  induction n as [|n IH]; [kept_done|]. cbn [LocalOrchestrator.worker].
  apply wpt_bind. unfold LocalOrchestrator.take. apply wpt_act. intros env w rest Hrest HI.
  destruct (s_jobs (w_st w)) as [|inp jobs] eqn:Ej.
  - exists 0. split; [done|]. split; [exact HI|]. exact IH.
  - pose proof (owed_range o (pci_OrgID inp)) as Hr.
    exists (owed o (pci_OrgID inp)). split; [lia|]. split.
    + unfold on_state, budget, unused, events_of, queued, dials in *. cbn [snd fst w_st].
      unfold set_jobs. cbn [s_db s_jobs s_trace]. rewrite Ej in HI.
      cbn [sum_by fold_right] in HI. unfold sum_by, owed, ind in *.
      destruct (pci_OrgID inp =? o)%string; lia.
    + cbn [fst bind_post]. apply wpt_bind, wpt_bind, wpt_try.
      eapply (wpt_mono _ any); [|apply kept_PlaceCall].
      assert (forall t, 0 <= t -> kept any t (LocalOrchestrator.worker Calls.PlaceCall n)) as IH'
        by (intros t Ht; by apply kept_zero).
      intros [[]|e|] t Ht; cbn [try_post bind_post]; [by apply IH'..|exact Ht].
Qed.
End Budget.

Section Pools.
Context {credits : CreditRepo.T} {credits_laws : CreditRepo.Laws credits}
  {voice : VoiceProvider.T} {voice_laws : VoiceProvider.Laws voice}
  {outcomes : OutcomeRepo.T} {outcome_laws : OutcomeRepo.Laws outcomes}
  {policies : CallPolicyRepo.T} {policy_laws : CallPolicyRepo.Laws policies}
  {flows : FlowRepo.T} {flow_laws : FlowRepo.Laws flows}
  {notifier : CreditNotifier.T} {notifier_laws : CreditNotifier.Laws notifier}
  {clock : Clock.T} {clock_laws : Clock.Laws clock}
  {events_repo : EventRepo.T} {event_laws : EventRepo.Laws events_repo}
  {customers_repo : CustomerRepo.T} {customer_laws : CustomerRepo.Laws customers_repo}
  {orch : Orchestrator.T} {orch_laws : Orchestrator.Laws orch}
  {tz : TimeZones.T}.

(** Requests that post events, workers that place calls, and handlers that
    neither queue nor dial. *)
Inductive intake : prog World unit -> Prop :=
| in_Accept org ev : intake (spawn (Ingest.Accept org ev))
| in_worker n : intake (spawn (LocalOrchestrator.worker Calls.PlaceCall n))
| in_other {A} (p : prog World A) : guar steady p -> intake (spawn p).

(** C8: No call without an event.  However many deliveries of merchant events
    and however many workers run at once, under every interleaving and whatever
    fails, the calls dialled and queued for an org grow by no more than the
    events stored for it. *)
Theorem calls_need_events env sched ps w org :
  Forall intake ps ->
  let st := w_st (snd (run_sched env sched ps w)) in
  (dials st org + queued st org) - (dials (w_st w) org + queued (w_st w) org) <=
  events_of st org - events_of (w_st w) org.
Proof.
  intros Hps st.
  destruct (run_sched_inv (on_state (budget org (unused (w_st w) org))) env sched ps w)
    as (t & Ht & H).
  - intros p Hp. rewrite List.Forall_forall in Hps.
    destruct (Hps p Hp) as [o ev|n|A q Hq]; apply wpt_spawn;
      (eapply (wpt_mono _ any); [done|]);
      [apply kept_Accept|apply kept_worker|by apply kept_steady].
  - unfold on_state, budget. lia.
  - unfold on_state, budget, unused in H. fold st in H. lia.
Qed.
End Pools.

(** ** What an event leads to *)

#[local] Existing Instances PgEventRepo.repo PgCustomerRepo.repo LocalOrchestrator.orch
  PgAPIKeyRepo.repo.

Definition event_known (d : DB) (org ext : string) : bool :=
  match tfind (EventRepo.same_event org ext) (events d) with Some _ => true | None => false end.

(** A customer of the org who has opted out; an unknown one has not. *)
Definition opts_out (d : DB) (org phone : string) : bool :=
  match tfind (CustomerQ.same org phone) (customers d) with Some r => cust_dnd r | None => false end.


Lemma normalize_text_ok phone e164 : Ingest.normalize phone = inl e164 -> text_ok e164 = true.
Proof.
  unfold Ingest.normalize. destruct (phone =? "")%string; [by intros [= <-]|].
  destruct (Phone.NormalizeBD phone) as [x|] eqn:E; [|done]. intros [= <-].
  by apply normalized_text_ok in E.
Qed.

Lemma eventFlow_text_ok typ name : Ingest.eventFlow typ = Some name -> text_ok name = true.
Proof. unfold Ingest.eventFlow. repeat split_match; by intros [= <-]. Qed.

Section Accept.
Context (env : Env) (Hnf : forall n, env_fault env n = NoFault).
Context {flows : FlowRepo.T} (org : OrgID) (active : string -> Flow * bool).
(** What the flow repository answers for the flow of an event type, from its table and
    without changing anything. *)
Definition answers (table : list FlowRow) (typ : string) : Prop :=
  forall name w, Ingest.eventFlow typ = Some name -> Store.flows (w_db w) = table ->
  exists w', run env (FlowRepo.GetActiveFlow org name) w = (Ok (active name), w') /\
    w_st w' = w_st w.

(** The call an event asks for. *)
Definition asked_call (ev : Ingest.Event) (e164 : string) (out : bool) : list PlaceCallInput :=
  if negb (e164 =? "")%string && negb out then
    match Ingest.eventFlow (Ingest.ev_Type ev) with
    | Some name => if snd (active name) then [mkPlaceCallInput org e164 (flow_ID (fst (active name)))]
                   else []
    | None => []
    end
  else [].

Lemma run_Insert_dup id ev e164 w :
  forallb text_ok [id; org; Ingest.ev_Type ev; Ingest.ev_ExternalID ev] = true ->
  is_Some (env_jsonb env (Ingest.ev_Payload ev)) ->
  event_known (w_db w) org (Ingest.ev_ExternalID ev) = true ->
  run env (EventRepo.Insert (mkIngestEvent id org (Ingest.ev_Type ev) (Ingest.ev_ExternalID ev)
    e164 (Ingest.ev_Payload ev))) w = (Ok false, tick w).
Proof.
  intros Ht [p Hp] Hk. change (@EventRepo.Insert _) with PgEventRepo.Insert.
  unfold PgEventRepo.Insert. rewrite run_bind, run_try, (run_exec env Hnf).
  unfold IngestQ.InsertEvent, with_text. cbn [ie_ID ie_OrgID ie_Type ie_ExternalEventID ie_Payload].
  rewrite Ht. cbn [sql_jsonb ctx_at sql_ctx sql_ctx_locked]. rewrite Hp. unfold event_known in Hk.
  by destruct (tfind (EventRepo.same_event org _) _).
Qed.

Lemma run_Insert_new id ev e164 w :
  forallb text_ok [id; org; Ingest.ev_Type ev; Ingest.ev_ExternalID ev] = true ->
  is_Some (env_jsonb env (Ingest.ev_Payload ev)) ->
  event_known (w_db w) org (Ingest.ev_ExternalID ev) = false ->
  (forall r, In r (events (w_db w)) -> event_id r <> id) ->
  exists row, event_id row = id /\ event_org_id row = org /\
    event_external_event_id row = Ingest.ev_ExternalID ev /\
    run env (EventRepo.Insert (mkIngestEvent id org (Ingest.ev_Type ev) (Ingest.ev_ExternalID ev)
      e164 (Ingest.ev_Payload ev))) w =
    (Ok true, mkWorld (S (w_tick w)) (set_db (set_events (events (w_db w) ++ [row]) (w_db w)) (w_st w))).
Proof.
  intros Ht [p Hp] Hk Hid. change (@EventRepo.Insert _) with PgEventRepo.Insert.
  unfold PgEventRepo.Insert. eexists (mkEventRow id org _ _ p _ _).
  split_and!; [done|done|reflexivity|].
  rewrite run_bind, run_try, (run_exec env Hnf).
  unfold IngestQ.InsertEvent, with_text. cbn [ie_ID ie_OrgID ie_Type ie_ExternalEventID ie_Payload].
  rewrite Ht. cbn [sql_jsonb ctx_at sql_ctx sql_ctx_locked]. rewrite Hp. unfold event_known in Hk.
  destruct (tfind (EventRepo.same_event org _) _); [done|].
  rewrite (tfind_fresh event_id) by done. reflexivity.
Qed.

Lemma run_Upsert_flag phone name ext w :
  forallb text_ok [org; phone; name; ext] = true ->
  (forall r, In r (customers (w_db w)) -> cust_id r <> id_at env "cust" (w_tick w)) ->
  exists cid w', run env (CustomerRepo.Upsert org phone name ext) w =
      (Ok (cid, opts_out (w_db w) org phone), w') /\ CustomerRepo.only_customers w w'.
Proof.
  intros Ht Hid. change (@CustomerRepo.Upsert _) with PgCustomerRepo.Upsert.
  unfold PgCustomerRepo.Upsert. rewrite run_New_bind.
  pose proof (id_text_ok env "cust" (w_tick w) eq_refl) as Hidt.
  set (cid := id_at env "cust" (w_tick w)) in *. clearbody cid.
  rewrite (run_exec env Hnf). unfold CustomerQ.UpsertCustomer, with_text.
  rewrite !deref_strPtr. cbn [forallb] in *. rewrite Hidt, Ht. cbn [andb].
  change (w_db (tick w)) with (w_db w). unfold opts_out.
  destruct (tfind (CustomerQ.same org phone) (customers (w_db w))) as [r|] eqn:Er.
  - eexists _, _. split; [reflexivity|]. by eexists.
  - unfold CustomerQ.has_id. rewrite (tfind_fresh cust_id) by done.
    eexists _, _. split; [reflexivity|]. by eexists.
Qed.

Lemma run_flag ev e164 w :
  (forall n r, In r (customers (w_db w)) -> cust_id r <> id_at env "cust" n) ->
  text_ok e164 = true ->
  forallb text_ok [org; Ingest.ev_Type ev; Ingest.ev_ExternalID ev; Ingest.ev_CustomerName ev;
    Ingest.ev_CustomerRef ev] = true ->
  exists w', run env (if negb (e164 =? "")%string then
      let! '(_, dnd) := CustomerRepo.Upsert org e164 (Ingest.ev_CustomerName ev)
                          (Ingest.ev_CustomerRef ev) in ret dnd
    else ret false) w =
    (Ok (negb (e164 =? "")%string && opts_out (w_db w) org e164), w') /\
    CustomerRepo.only_customers w w'.
Proof.
  intros Hcu He Ht. destruct (negb (e164 =? "")%string).
  2: { exists w. split; [done|]. exists (customers (w_db w)). unfold w_db. by destruct (w_st w) as [[]]. }
  rewrite run_bind.
  destruct (run_Upsert_flag e164 (Ingest.ev_CustomerName ev) (Ingest.ev_CustomerRef ev) w)
    as (cid & w' & -> & H); [|intros r Hr; by apply Hcu|by exists w'].
  cbn [forallb] in *. rewrite He. bool_prop. bool_prop.
  repeat (apply andb_true_intro; split; try done).
Qed.

Lemma run_ask ev e164 out w :
  answers (Store.flows (w_db w)) (Ingest.ev_Type ev) ->
  exists w', run env (match Ingest.eventFlow (Ingest.ev_Type ev) with
     | Some flowName =>
         if negb (e164 =? "")%string && negb (negb (e164 =? "")%string && out) then
           let! '(f, found) := FlowRepo.GetActiveFlow org flowName in
           if found : bool then
             Orchestrator.EnqueuePlaceCall (mkPlaceCallInput org e164 (flow_ID f))
           else ret tt
         else ret tt
     | None => ret tt
     end) w = (Ok tt, w') /\
    w_st w' = set_jobs (s_jobs (w_st w) ++ asked_call ev e164 out) (w_st w).
Proof.
  intros Hans. unfold asked_call.
  assert (w_st w = set_jobs (s_jobs (w_st w) ++ []) (w_st w)) as Hsame
    by (rewrite app_nil_r; by destruct (w_st w)).
  destruct (Ingest.eventFlow _) as [name|] eqn:En; [|exists w; by destruct (_ && _)].
  destruct (negb (e164 =? "")%string); cbn [andb]; [|by exists w].
  destruct (negb out); [|by exists w].
  rewrite run_bind. destruct (Hans name w En eq_refl) as (w1 & -> & S1).
  destruct (active name) as [f found]. cbn [fst snd].
  destruct found; [|exists w1; by rewrite S1].
  eexists. split; [reflexivity|]. cbn [w_st]. by rewrite S1.
Qed.

Lemma id_texts ev n :
  forallb text_ok [org; Ingest.ev_Type ev; Ingest.ev_ExternalID ev; Ingest.ev_CustomerName ev;
    Ingest.ev_CustomerRef ev] = true ->
  forallb text_ok [id_at env "evt" n; org; Ingest.ev_Type ev; Ingest.ev_ExternalID ev] = true.
Proof.
  intros Ht. cbn [forallb] in *. rewrite id_text_ok by done. bool_prop. bool_prop.
  repeat (apply andb_true_intro; split; try done).
Qed.

(** An event that is stored already. *)
Lemma run_Accept_dup ev e164 w :
  Ingest.normalize (Ingest.ev_Phone ev) = inl e164 ->
  forallb text_ok [org; Ingest.ev_Type ev; Ingest.ev_ExternalID ev; Ingest.ev_CustomerName ev;
    Ingest.ev_CustomerRef ev] = true ->
  is_Some (env_jsonb env (Ingest.ev_Payload ev)) ->
  event_known (w_db w) org (Ingest.ev_ExternalID ev) = true ->
  run env (Ingest.Accept org ev) w = (Ok ("", true), tick (tick w)).
Proof.
  intros En Ht Hp Hk. unfold Ingest.Accept. rewrite En, run_New_bind, run_bind.
  by rewrite (run_Insert_dup _ ev e164 (tick w)) by (done || by apply id_texts).
Qed.

(** The intake on each branch, and all that it changes. *)
Lemma run_Accept ev w :
  (forall n r, In r (events (w_db w)) -> event_id r <> id_at env "evt" n) ->
  (forall n r, In r (customers (w_db w)) -> cust_id r <> id_at env "cust" n) ->
  forallb text_ok [org; Ingest.ev_Type ev; Ingest.ev_ExternalID ev; Ingest.ev_CustomerName ev;
    Ingest.ev_CustomerRef ev] = true ->
  is_Some (env_jsonb env (Ingest.ev_Payload ev)) ->
  answers (Store.flows (w_db w)) (Ingest.ev_Type ev) ->
  match Ingest.normalize (Ingest.ev_Phone ev) with
  | inr err => err = ErrInvalidPhone /\ run env (Ingest.Accept org ev) w = (Err err, w)
  | inl e164 =>
      if event_known (w_db w) org (Ingest.ev_ExternalID ev) then
        exists w', run env (Ingest.Accept org ev) w = (Ok ("", true), w') /\ w_st w' = w_st w
      else
        exists row cs w', run env (Ingest.Accept org ev) w = (Ok (event_id row, false), w') /\
          event_org_id row = org /\ event_external_event_id row = Ingest.ev_ExternalID ev /\
          w_st w' = mkState
            (set_customers cs (set_events (events (w_db w) ++ [row]) (w_db w))) (s_trace (w_st w))
            (s_jobs (w_st w) ++ asked_call ev e164 (opts_out (w_db w) org e164))
  end.
Proof.
  intros Hev Hcu Ht Hp Hans. unfold Ingest.Accept.
  destruct (Ingest.normalize (Ingest.ev_Phone ev)) as [e164|err] eqn:En.
  2: { split; [|done]. unfold Ingest.normalize in En. destruct (_ =? _)%string; [done|].
       destruct (Phone.NormalizeBD _); [done|]. by invc En. }
  destruct (event_known (w_db w) org (Ingest.ev_ExternalID ev)) eqn:Ek.
  - exists (tick (tick w)). split; [|done]. rewrite <- (run_Accept_dup ev e164 w) by done.
    unfold Ingest.Accept. by rewrite En.
  - rewrite run_New_bind. pose proof (id_texts ev (w_tick w) Ht) as Hti.
    pose proof (Hev (w_tick w)) as Hev'.
    set (eid := id_at env "evt" (w_tick w)) in *. clearbody eid.
    rewrite run_bind.
    destruct (run_Insert_new eid ev e164 (tick w) Hti Hp Ek Hev')
      as (row & <- & Hro & Hre & ->). cbn [negb]. exists row.
    set (w1 := mkWorld _ _). change (events (w_db (tick w))) with (events (w_db w)) in w1.
    change (w_db (tick w)) with (w_db w) in w1.
    rewrite run_bind.
    destruct (run_flag ev e164 w1) as (w2 & -> & cs & S2);
      [done|by apply normalize_text_ok in En|done|].
    change (opts_out (w_db w1) org e164) with (opts_out (w_db w) org e164).
    rewrite run_bind.
    destruct (run_ask ev e164 (opts_out (w_db w) org e164) w2) as (w3 & -> & S3);
      [unfold w_db; by rewrite S2|].
    exists cs, w3. split_and!; [done..|]. by rewrite S3, S2.
Qed.

(** C28: What the intake does with an event, on every branch.  A phone that is
    not a Bangladeshi number is refused; an event the org has sent before changes
    nothing; a new one is stored, and asks for exactly one call, of the flow its
    type maps to, when there is such an active flow, a phone, and the customer
    has not opted out, and for none otherwise. *)
Theorem Accept_decides ev w :
  (forall n r, In r (events (w_db w)) -> event_id r <> id_at env "evt" n) ->
  (forall n r, In r (customers (w_db w)) -> cust_id r <> id_at env "cust" n) ->
  forallb text_ok [org; Ingest.ev_Type ev; Ingest.ev_ExternalID ev; Ingest.ev_CustomerName ev;
    Ingest.ev_CustomerRef ev] = true ->
  is_Some (env_jsonb env (Ingest.ev_Payload ev)) ->
  answers (Store.flows (w_db w)) (Ingest.ev_Type ev) ->
  match Ingest.normalize (Ingest.ev_Phone ev) with
  | inr err => err = ErrInvalidPhone /\ run env (Ingest.Accept org ev) w = (Err err, w)
  | inl e164 =>
      if event_known (w_db w) org (Ingest.ev_ExternalID ev) then
        exists w', run env (Ingest.Accept org ev) w = (Ok ("", true), w') /\ w_st w' = w_st w
      else
        exists row w', run env (Ingest.Accept org ev) w = (Ok (event_id row, false), w') /\
          event_org_id row = org /\ event_external_event_id row = Ingest.ev_ExternalID ev /\
          events (w_db w') = events (w_db w) ++ [row] /\
          s_jobs (w_st w') = s_jobs (w_st w) ++
            asked_call ev e164 (opts_out (w_db w) org e164)
  end.
Proof.
  intros Hev Hcu Ht Hp Hans. pose proof (run_Accept ev w Hev Hcu Ht Hp Hans) as H.
  destruct (Ingest.normalize (Ingest.ev_Phone ev)) as [e164|err]; [|done].
  destruct (event_known _ _ _); [done|].
  destruct H as (row & cs & w' & Hrun & Ho & Hx & Hst). exists row, w'.
  unfold w_db. by rewrite Hst.
Qed.
End Accept.

(** *** Calls that get lost *)

Section Lost.
#[local] Existing Instances PgEventRepo.laws PgCustomerRepo.laws.
Context {flows : FlowRepo.T} {flow_laws : FlowRepo.Laws flows}.

(** Whatever fails, a stored event is never acted upon again. *)
Lemma Accept_known env org ev w :
  event_known (w_db w) org (Ingest.ev_ExternalID ev) = true ->
  let '(r, w') := run env (Ingest.Accept org ev) w in
  w_st w' = w_st w /\ (r = Ok ("", true) \/ exists e, r = Err e).
Proof.
  intros Hk. unfold Ingest.Accept. destruct (Ingest.normalize _) as [e164|err]; [|simpl; eauto].
  rewrite run_New_bind, run_bind.
  pose proof (run_lin _ _ env (tick w) (EventRepo.Insert_lin
    (mkIngestEvent (id_at env "evt" (w_tick w)) org (Ingest.ev_Type ev) (Ingest.ev_ExternalID ev)
       e164 (Ingest.ev_Payload ev)))) as H.
  destruct (run env (EventRepo.Insert _) _) as [r w1]. cbn [fst snd] in H.
  change (w_st (tick w)) with (w_st w) in H. unfold event_known, w_db in Hk.
  inversion H as [st st' row r' _ _ Hnone _ _|st _|st err]; subst.
  - cbn [ie_OrgID ie_ExternalEventID] in Hnone. by rewrite Hnone in Hk.
  - cbn [negb run ret]. eauto.
  - eauto.
Qed.

Definition jobs_same (w w' : World) : Prop := s_jobs (w_st w') = s_jobs (w_st w).

Lemma jobs_same_lin {A} (S : step_spec A) env (p : prog World A) w :
  lin S p -> (forall st r st', S st r st' -> s_jobs st' = s_jobs st) ->
  jobs_same w (snd (run env p w)).
Proof. intros Hp HS. eapply HS, (run_lin _ _ _ _ Hp). Qed.

(** The intake queues its call last: an error means that it queued none. *)
Lemma Accept_error_unqueued env org ev w e w' :
  run env (Ingest.Accept org ev) w = (Err e, w') -> jobs_same w w'.
Proof.
  unfold Ingest.Accept. destruct (Ingest.normalize _) as [e164|err]; [|by intros [= _ <-]].
  rewrite run_New_bind, run_bind.
  set (ie := mkIngestEvent _ _ _ _ _ _).
  pose proof (jobs_same_lin _ env _ (tick w) (EventRepo.Insert_lin ie)) as H1.
  destruct (run env (EventRepo.Insert ie) (tick w)) as [[[]|err|] w1].
  4: done.
  3: { intros [= _ <-]. apply H1. by inversion 1; subst. }
  2: done.
  assert (jobs_same w w1) as J1 by (apply H1; by inversion 1; subst). clear H1.
  cbn [negb]. rewrite run_bind.
  set (flag := if negb (e164 =? "")%string then _ else _).
  assert (jobs_same w1 (snd (run env flag w1))) as J2.
  { unfold flag. destruct (negb _); [|done]. rewrite run_bind.
    pose proof (guar_run jobs_same (CustomerRepo.Upsert org e164 (Ingest.ev_CustomerName ev)
      (Ingest.ev_CustomerRef ev)) env w1) as H.
    assert (jobs_same w1 (snd (run env (CustomerRepo.Upsert org e164 (Ingest.ev_CustomerName ev)
      (Ingest.ev_CustomerRef ev)) w1))) as H'.
    { apply H; [done|unfold jobs_same; congruence|].
      eapply guar_mono; [|apply CustomerRepo.Upsert_only]. intros x y (cs & E).
      unfold jobs_same. by rewrite E. }
    by destruct (run env _ w1) as [[[]|?|] w2]. }
  destruct (run env flag w1) as [[dnd|err|] w2]; [|by intros [= _ <-]; etrans|done].
  cbn [snd] in J2. rewrite run_bind. destruct (Ingest.eventFlow _) as [name|]; [|done].
  destruct (_ && _); [|done]. rewrite run_bind.
  pose proof (jobs_same_lin _ env _ w2 (FlowRepo.GetActiveFlow_lin org name)
                ltac:(by intros ? ? ? ->)) as J3.
  destruct (run env (FlowRepo.GetActiveFlow org name) w2) as [[[f []]|err|] w3]; [done..| |done].
  intros [= _ <-]. unfold jobs_same in *. cbn [snd] in J3. congruence.
Qed.

(** C40: A call whose event was stored before the failure is lost for ever.  When
    the intake returns an error although the event is in the table (whichever
    statement failed), it has queued no call; and in every later world in which
    the event is still stored, whatever the merchant sends again under the same
    event id changes nothing, whatever else fails: the answer is "duplicate"
    when nothing does, and no call is ever queued. *)
Theorem lost_call_is_never_retried env org ev w e w1 :
  run env (Ingest.Accept org ev) w = (Err e, w1) ->
  event_known (w_db w1) org (Ingest.ev_ExternalID ev) = true ->
  s_jobs (w_st w1) = s_jobs (w_st w) /\
  forall env' ev' w2, Ingest.ev_ExternalID ev' = Ingest.ev_ExternalID ev ->
    event_known (w_db w2) org (Ingest.ev_ExternalID ev) = true ->
    let '(r, w3) := run env' (Ingest.Accept org ev') w2 in
    w_st w3 = w_st w2 /\ (r = Ok ("", true) \/ exists e', r = Err e') /\
    ((forall n, env_fault env' n = NoFault) ->
     (exists e164, Ingest.normalize (Ingest.ev_Phone ev') = inl e164) ->
     forallb text_ok [org; Ingest.ev_Type ev'; Ingest.ev_ExternalID ev';
       Ingest.ev_CustomerName ev'; Ingest.ev_CustomerRef ev'] = true ->
     is_Some (env_jsonb env' (Ingest.ev_Payload ev')) -> r = Ok ("", true)).
Proof.
  intros Hrun Hk. split; [by eapply Accept_error_unqueued|].
  intros env' ev' w2 Hx Hk2. rewrite <- Hx in Hk2.
  pose proof (Accept_known env' org ev' w2 Hk2) as H.
  destruct (run env' (Ingest.Accept org ev') w2) as [r w3] eqn:E. destruct H as [H1 H2].
  split; [done|]. split; [done|]. intros Hnf [e164 Hn] Ht Hp.
  rewrite (run_Accept_dup env' Hnf org ev' e164 w2 Hn Ht Hp Hk2) in E. by injection E as <-.
Qed.
End Lost.

(** ** API keys *)

Lemma b64_digit_printable d : 0 <= d < 64 -> printable (Encoding.b64_digit d) = true.
Proof.
  intros Hd. unfold Encoding.b64_digit, printable.
  repeat match goal with |- context [if ?b then _ else _] => destruct b eqn:? end;
    bool_prop; rewrite byte_of_chr, Z.mod_small by lia; apply andb_true_intro;
    split; apply Z.ltb_lt; lia.
Qed.

Lemma base64url_printable s : Strings.forallb printable (Encoding.base64url s) = true.
Proof. apply base64url_forall, b64_digit_printable. Qed.

Lemma take_printable n s :
  Strings.forallb printable s = true -> Strings.forallb printable (Strings.take n s) = true.
Proof.
  revert s. induction n as [|n IH]; intros [|c s] H; try done. cbn in *.
  apply andb_prop in H as [-> H]. by apply IH.
Qed.

Section Keys.
Context {sha : SHA256.T}.

(** The row of a prefix. *)
Definition key_of (d : DB) (prefix : string) : option ApiKeyRow :=
  tfind (IngestQ.has_prefix prefix) (api_keys d).

Lemma GetAPIKey_read prefix : read_only (IngestQ.GetAPIKeyByPrefix prefix).
Proof. intros ctx d a d' H. apply with_text_ok in H. split_match; by invc H. Qed.

(** Touching a key changes nothing but when it was last used. *)
Definition same_keys (d d' : DB) : Prop :=
  forall prefix, option_map (fun r => (key_org_id r, key_kind r, key_secret_hash r)) (key_of d' prefix)
               = option_map (fun r => (key_org_id r, key_kind r, key_secret_hash r)) (key_of d prefix).

Lemma touched_same_keys id now d :
  same_keys d (set_api_keys (tupdate (IngestQ.has_key_id id) (IngestQ.touch_key now)
    (api_keys d)) d).
Proof.
  intros prefix. unfold key_of.
  change (api_keys (set_api_keys ?t d)) with t.
  induction (api_keys d) as [|r t IH]; [done|]. cbn [tupdate map tfind List.find].
  assert (IngestQ.has_prefix prefix (if IngestQ.has_key_id id r then IngestQ.touch_key now r else r)
    = IngestQ.has_prefix prefix r) as -> by (by destruct (IngestQ.has_key_id id r)).
  destruct (IngestQ.has_prefix prefix r); [by destruct (IngestQ.has_key_id id r)|exact IH].
Qed.

(** C24: Authentication is sound, whatever fails: a presented key is accepted
    only as the org and the kind of a stored key that has its prefix and the
    SHA-256 of exactly that key. *)
Theorem Authenticate_sound env presented w org kind w' :
  run env (APIKeys.Authenticate presented) w = (Ok (org, kind, true), w') ->
  exists r, In r (api_keys (w_db w)) /\
    key_prefix r = Strings.take 15 presented /\ key_secret_hash r = SHA256.Sum256 presented /\
    key_org_id r = org /\ key_kind r = kind.
Proof.
  unfold APIKeys.Authenticate. destruct (Apikey.Prefix presented) as [prefix|] eqn:Ep; [|done].
  assert (Strings.take 15 presented = prefix) as Epre.
  { unfold Apikey.Prefix in Ep. destruct (_ || _); [done|]. by injection Ep as <-. }
  clear Ep. change (@APIKeyRepo.ByPrefix _) with PgAPIKeyRepo.ByPrefix. unfold PgAPIKeyRepo.ByPrefix.
  rewrite run_bind, run_bind, run_try.
  destruct (run_read_any env _ w (GetAPIKey_read prefix))
    as (r & -> & Hok & _ & Hp).
  destruct r as [row|e|]; [|destruct e; done|done].
  destruct (Hok row eq_refl) as (ctx & E). apply with_text_ok in E.
  destruct (tfind (IngestQ.has_prefix _) (api_keys (w_db w))) as [row'|] eqn:Er; [|done].
  injection E as ->. apply tfind_some in Er as [Hin Hpre].
  change (run env (ret ?x) ?v) with (Ok x, v). cbv beta iota. cbn [negb orb].
  unfold Apikey.Verify.
  destruct (SHA256.Sum256 presented =? key_secret_hash row)%string eqn:Eh; cbn [negb]; [|done].
  rewrite run_bind, run_ignore. destruct (run env (APIKeyRepo.Touch _) _) as [[[]|e|] w2];
    intros H; try done; injection H as <- <- _; exists row; unfold IngestQ.has_prefix in Hpre;
    bool_prop; split_and!; congruence.
Qed.

Lemma tfind_neither prefix id t :
  tfind (IngestQ.has_prefix prefix) t = None -> (forall r, In r t -> key_id r <> id) ->
  tfind (fun r => IngestQ.has_prefix prefix r || IngestQ.has_key_id id r) t = None.
Proof.
  induction t as [|r t IH]; [done|]. cbn [tfind List.find]. fold (tfind (IngestQ.has_prefix prefix) t).
  destruct (IngestQ.has_prefix prefix r); [done|]. intros Hf Hi. cbn [orb].
  assert (IngestQ.has_key_id id r = false) as -> by (apply String.eqb_neq, Hi; by left).
  apply IH; [done|]. intros r' Hr'. apply Hi. by right.
Qed.

Section Minting.
Context (env : Env) (Hnf : forall n, env_fault env n = NoFault).

(** Either mint: the scheme and the kind it is stored with. *)
Definition mint (publishable : bool) (org name : string) : prog World string :=
  if publishable then APIKeys.MintPublishable org name else APIKeys.Mint org name.
Definition scheme_of (publishable : bool) : string :=
  if publishable then Apikey.PublishableScheme else Apikey.SecretScheme.
Definition kind_of (publishable : bool) : string :=
  if publishable then "publishable" else "secret".

Definition new_key (publishable : bool) (w : World) : string :=
  scheme_of publishable +:+ Encoding.base64url (bytes_from (env_rand env (w_tick w)) 24).

Lemma new_key_prefix publishable w :
  Apikey.Prefix (new_key publishable w) = Some (Strings.take 15 (new_key publishable w)) /\
  text_ok (Strings.take 15 (new_key publishable w)) = true.
Proof.
  split.
  - unfold new_key. by destruct publishable.
  - apply printable_text_ok, take_printable. unfold new_key. rewrite Strings.forallb_app.
    rewrite base64url_printable. by destruct publishable.
Qed.

Lemma run_ByPrefix prefix r w :
  text_ok prefix = true -> key_of (w_db w) prefix = Some r ->
  run env (APIKeyRepo.ByPrefix prefix) w =
  (Ok (key_id r, key_org_id r, key_kind r, key_secret_hash r, true), tick w).
Proof.
  intros Ht Hr. change (@APIKeyRepo.ByPrefix _) with PgAPIKeyRepo.ByPrefix.
  unfold PgAPIKeyRepo.ByPrefix.
  rewrite run_bind, run_try, (run_exec_read env Hnf) by apply GetAPIKey_read.
  unfold IngestQ.GetAPIKeyByPrefix, with_text. cbn [forallb]. rewrite Ht. cbn [andb].
  unfold key_of in Hr. by rewrite Hr.
Qed.

(** A key of a stored row, with the row's hash: accepted, and the row touched. *)
Lemma run_Authenticate full r w :
  Apikey.Prefix full = Some (Strings.take 15 full) -> text_ok (Strings.take 15 full) = true ->
  key_of (w_db w) (Strings.take 15 full) = Some r -> key_secret_hash r = SHA256.Sum256 full ->
  run env (APIKeys.Authenticate full) w =
  (Ok (key_org_id r, key_kind r, true),
   mkWorld (2 + w_tick w) (set_db (set_api_keys (tupdate (IngestQ.has_key_id (key_id r))
     (IngestQ.touch_key (env_clock env (1 + w_tick w))) (api_keys (w_db w))) (w_db w)) (w_st w))).
Proof.
  intros Hp Ht Hr Hh. unfold APIKeys.Authenticate. rewrite Hp. cbv iota.
  rewrite run_bind, (run_ByPrefix _ r) by done. cbn [negb orb].
  unfold Apikey.Verify. rewrite Hh, String.eqb_refl. cbn [negb].
  rewrite run_bind, run_ignore. change (@APIKeyRepo.Touch _) with PgAPIKeyRepo.Touch.
  unfold PgAPIKeyRepo.Touch. by rewrite (run_exec env Hnf).
Qed.

Lemma run_mint publishable org name w :
  (forall n r, In r (api_keys (w_db w)) -> key_id r <> id_at env "key" n) ->
  key_of (w_db w) (Strings.take 15 (new_key publishable w)) = None ->
  exists w', run env (mint publishable org name) w = (Ok (new_key publishable w), w') /\
    exists r, api_keys (w_db w') = api_keys (w_db w) ++ [r] /\
      key_prefix r = Strings.take 15 (new_key publishable w) /\
      key_secret_hash r = SHA256.Sum256 (new_key publishable w) /\
      key_org_id r = org /\ key_kind r = kind_of publishable.
Proof.
  intros Hid Hfree.
  assert (run env (mint publishable org name) w =
    run env (let! id := Id.New "key" in
             do! PgAPIKeyRepo.Create id org (Strings.take 15 (new_key publishable w))
                   (SHA256.Sum256 (new_key publishable w)) name (kind_of publishable) in
             ret (new_key publishable w)) (tick w)) as -> by (by destruct publishable).
  rewrite run_New_bind. pose proof (Hid (w_tick (tick w))) as Hid'.
  set (id := id_at env "key" _) in *. clearbody id. unfold PgAPIKeyRepo.Create.
  rewrite run_bind, (run_exec env Hnf). unfold IngestQ.CreateAPIKey.
  assert (tfind (fun r => IngestQ.has_prefix (Strings.take 15 (new_key publishable w)) r ||
    IngestQ.has_key_id id r) (api_keys (w_db (tick (tick w)))) = None) as ->.
  { apply tfind_neither; [exact Hfree|exact Hid']. }
  eexists. split; [reflexivity|]. eexists. split; [reflexivity|]. done.
Qed.

(** C29: A key works as soon as it is minted: as long as its row is there it
    authenticates as its org, with the kind it was minted for, and a different
    key that shares its lookup prefix is refused. *)
Theorem Mint_then_Authenticate publishable org name w :
  (forall n r, In r (api_keys (w_db w)) -> key_id r <> id_at env "key" n) ->
  key_of (w_db w) (Strings.take 15 (new_key publishable w)) = None ->
  exists full w1, run env (mint publishable org name) w = (Ok full, w1) /\
    String.prefix (scheme_of publishable) full = true /\
    forall w2, api_keys (w_db w2) = api_keys (w_db w1) ->
      (exists w3, run env (APIKeys.Authenticate full) w2 = (Ok (org, kind_of publishable, true), w3)) /\
      forall other, Strings.take 15 other = Strings.take 15 full ->
        SHA256.Sum256 other <> SHA256.Sum256 full ->
        exists w3, run env (APIKeys.Authenticate other) w2 = (Ok ("", "", false), w3).
Proof.
  intros Hid Hfree.
  destruct (run_mint publishable org name w Hid Hfree) as (w1 & Hrun & r & Hk & Hpre & Hh & Ho & Hki).
  exists (new_key publishable w), w1. split; [done|]. split; [apply Strings.prefix_app|].
  intros w2 Hw2. destruct (new_key_prefix publishable w) as [Hp Htext].
  set (full := new_key publishable w) in *. clearbody full.
  assert (key_of (w_db w2) (Strings.take 15 full) = Some r) as Hr.
  { unfold key_of in *. rewrite Hw2, Hk, tfind_app, Hfree. cbn [tfind List.find].
    unfold IngestQ.has_prefix. by rewrite Hpre, String.eqb_refl. }
  split.
  - eexists. rewrite (run_Authenticate full r w2) by done. by rewrite Ho, Hki.
  - intros other Hpo Hne. unfold APIKeys.Authenticate.
    destruct (Apikey.Prefix other) as [prefix|] eqn:Epo; [|by eexists].
    assert (prefix = Strings.take 15 full) as ->.
    { unfold Apikey.Prefix in Epo. destruct (_ || _); [done|]. injection Epo as <-. exact Hpo. }
    rewrite run_bind, (run_ByPrefix _ r) by done. cbn [negb orb]. unfold Apikey.Verify. rewrite Hh.
    apply String.eqb_neq in Hne. rewrite Hne. by eexists.
Qed.
End Minting.
End Keys.

(** ** Concrete inputs *)

Module IngestDemo.
Import Accounting.Demo.

#[local] Existing Instances PgCreditRepo.repo PgOutcomeRepo.repo PgCallPolicyRepo.repo
  PgFlowRepo.repo PgFlowRepo_laws MockVoice.provider MockVoice.laws RealClock.clock RealClock.laws
  silent_notifier silent_notifier_laws dhaka_only PgEventRepo.repo PgEventRepo.laws
  PgCustomerRepo.repo PgCustomerRepo.laws LocalOrchestrator.orch LocalOrchestrator.laws
  PgAPIKeyRepo.repo.
#[local] Instance sha : SHA256.T := {| SHA256.Sum256 s := s |}.

(** An org with credits and an active order_confirm flow. *)
Definition flow_row : FlowRow :=
  mkFlowRow "flow_1" "org" "order_confirm" 1 "voice" "ivr" "bn"
    (json_text "{`entry`:`a`,`nodes`:{`a`:{`end`:true,`result`:`confirmed`}}}") true 0.

Definition db : DB := set_flows [flow_row] (set_org_credits {["org" := 5]} emptyDB).
Definition world : World := mkWorld 0 (mkState db [] []).

Definition order (id : string) : Ingest.Event :=
  Ingest.mkEvent "order_placed" id "01712345678" "Rahim" "" "{}".

(** One event delivered twice, another one, and two workers. *)
Definition pool : list (prog World unit) :=
  [spawn (Ingest.Accept "org" (order "e1")); spawn (Ingest.Accept "org" (order "e1"));
   spawn (Ingest.Accept "org" (order "e2"));
   spawn (LocalOrchestrator.worker Calls.PlaceCall 2);
   spawn (LocalOrchestrator.worker Calls.PlaceCall 2)].

Definition schedule : list nat :=
  (flat_map (fun _ => [0; 1; 2]) (seq 0 12) ++ flat_map (fun _ => [3; 4]) (seq 0 30))%nat.

Definition final : State := w_st (snd (run_sched env schedule pool world)).

(** Both events are called for, once each. *)
Example final_calls : (events_of final "org", dials final "org", queued final "org") = (2, 2, 0).
Proof. vm_compute. reflexivity. Qed.

Lemma calls_need_events_witness :
  (dials final "org" + queued final "org") - (0 + 0) <= events_of final "org" - 0.
Proof.
  apply (calls_need_events env schedule pool world "org").
  repeat (constructor; [constructor|]). constructor.
Defined.

(** What the flow table answers. *)
Definition active (name : string) : Flow * bool :=
  match run env (PgFlowRepo.GetActiveFlow "org" name) world with
  | (Ok r, _) => r
  | _ => (zeroFlow, false)
  end.

Lemma reads_table typ : answers env "org" active [flow_row] typ.
Proof.
  intros name w Hn%eventFlow_text_ok Hf. exists (tick w). split; [|done]. unfold active.
  rewrite !(run_GetActiveFlow env (fun _ => eq_refl)) by done.
  unfold active_flows. rewrite Hf. change (flows (w_db world)) with [flow_row].
  cbn [tselect List.filter]. by destruct (FlowQ.active_named "org" name flow_row).
Qed.

Lemma Accept_decides_witness :
  exists row w', run env (Ingest.Accept "org" (order "e1")) world
      = (Ok (event_id row, false), w') /\
    event_org_id row = "org" /\ event_external_event_id row = "e1" /\
    events (w_db w') = [row] /\
    s_jobs (w_st w') = [mkPlaceCallInput "org" "+8801712345678" "flow_1"].
Proof.
  apply (Accept_decides env (fun _ => eq_refl) (flows := PgFlowRepo.repo) "org" active (order "e1") world).
  - intros n r [].
  - intros n r [].
  - by vm_compute.
  - by eexists.
  - apply reads_table.
Defined.

(** The statement that writes the customer is lost. *)
Definition lossy : Env :=
  mkEnv (env_clock env) (fun n => if (n =? 3)%nat then FaultBefore "conn reset" else NoFault)
    (env_rand env) (env_uuid env) (env_jsonb env).

Lemma lost_call_is_never_retried_witness :
  s_jobs (w_st (snd (run lossy (Ingest.Accept "org" (order "e1")) world))) = [] /\
  forall w2, event_known (w_db w2) "org" "e1" = true ->
    let '(r, w3) := run env (Ingest.Accept "org" (order "e1")) w2 in
    w_st w3 = w_st w2 /\ r = Ok ("", true).
Proof.
  assert (exists e w1, run lossy (Ingest.Accept "org" (order "e1")) world = (Err e, w1) /\
    event_known (w_db w1) "org" "e1" = true) as (e & w1 & Hrun & Hk)
    by (eexists _, _; split; vm_compute; reflexivity).
  destruct (lost_call_is_never_retried lossy "org" (order "e1") world e w1 Hrun Hk) as [Hj H].
  split; [by rewrite Hrun|]. intros w2 Hk2.
  specialize (H env (order "e1") w2 eq_refl Hk2).
  destruct (run env (Ingest.Accept "org" (order "e1")) w2) as [r w3].
  destruct H as (Hs & _ & Hr). split; [done|]. apply Hr; [done| |done|by eexists].
  eexists. vm_compute. reflexivity.
Defined.

Lemma Mint_then_Authenticate_witness :
  exists full w1, run env (mint true "org" "widget") world = (Ok full, w1) /\
    String.prefix "yvr_pk_" full = true /\
    forall w2, api_keys (w_db w2) = api_keys (w_db w1) ->
      (exists w3, run env (APIKeys.Authenticate full) w2 = (Ok ("org", "publishable", true), w3)) /\
      forall other, Strings.take 15 other = Strings.take 15 full ->
        SHA256.Sum256 other <> SHA256.Sum256 full ->
        exists w3, run env (APIKeys.Authenticate other) w2 = (Ok ("", "", false), w3).
Proof.
  apply (Mint_then_Authenticate env (fun _ => eq_refl) true "org" "widget" world).
  - intros n r [].
  - reflexivity.
Defined.

(** A world with a minted key. *)
Definition minted : string := new_key env false world.
Definition keyed : World := snd (run env (mint false "org" "dashboard") world).

Lemma Authenticate_sound_witness :
  exists r, In r (api_keys (w_db keyed)) /\
    key_prefix r = Strings.take 15 minted /\ key_secret_hash r = SHA256.Sum256 minted /\
    key_org_id r = "org" /\ key_kind r = "secret".
Proof.
  eapply (Authenticate_sound env minted keyed "org" "secret"). vm_compute. reflexivity.
Defined.
End IngestDemo.
