(* ===== verification/Analytics.v ===== *)
(** * Dashboard metrics and questions about them

    internal/domain/analytics.go, internal/service/analytics,
    internal/adapter/postgres/analytics.go with gen/analytics.sql.go,
    internal/service/reports and internal/adapter/reporter/builtin.  A percentage
    is computed in float64, so it is here (SpecFloat's binary64). *)

From S2P Require Import Prelude.
From S2P Require Import Domain.
From S2P Require Import Effects.
From S2P Require Import GoLib.
From S2P Require Import Store.
From S2P Require Import Ports.
From S2P Require Import PgCalls.
From S2P Require Import PgChat.
From S2P Require Import Assistant.
From stdpp Require Import gmap strings list.
From Stdlib Require Import ZArith Lia SpecFloat.

Open Scope Z_scope.
Open Scope go_scope.

(** ** domain/analytics.go *)

Record ConversationStats := mkConversationStats {
  cvs_Total : Z; cvs_Today : Z; cvs_Resolved : Z; cvs_Pending : Z; cvs_Sale : Z;
  cvs_NeedsHuman : Z
}.

Record CreditSummary := mkCreditSummary {
  crs_Balance : Z; crs_SpentToday : Z; crs_Spent30d : Z
}.

Record AnalyticsOverview := mkAnalyticsOverview {
  ao_Calls : CallSummary; ao_Conversations : ConversationStats; ao_Credits : CreditSummary
}.

Module AnalyticsRepo.
Class T := {
  ConversationStats : OrgID -> prog World ConversationStats;
  CreditSpend : OrgID -> prog World (Z * Z)
}.
End AnalyticsRepo.

(** ** float64 *)

Module Float64.
Definition of_int (z : Z) : spec_float := binary_normalize 53 1024 z 0 false.
Definition div (x y : spec_float) : spec_float := SFdiv 53 1024 x y.
Definition mul (x y : spec_float) : spec_float := SFmul 53 1024 x y.

(** int(f): the fraction is dropped. *)
Definition to_int (f : spec_float) : Z :=
  match f with
  | S754_finite s m e =>
      let a := if 0 <=? e then Z.shiftl (Zpos m) e else Z.shiftr (Zpos m) (- e) in
      if s then - a else a
  | _ => 0
  end.
End Float64.

(** int(float64(part) / float64(total) * 100) *)
Definition percent (part total : Z) : Z :=
  Float64.to_int
    (Float64.mul (Float64.div (Float64.of_int part) (Float64.of_int total))
       (Float64.of_int 100)).

(** ** gen/analytics.sql.go *)

Module AnalyticsQ.
Definition conversation_of (orgID : string) (c : ConversationRow) : bool :=
  (conv_org_id c =? orgID)%string.

Definition outcome_is (d : DB) (outcome : string) (c : ConversationRow) : bool :=
  match conversation_insights d !! conv_id c with
  | Some i => (insr_outcome i =? outcome)%string
  | None => false
  end.

Definition ConversationStats (orgID : string) : stmt ConversationStats :=
  with_text [orgID] (fun ctx d =>
    let t := tselect (conversation_of orgID) (conversations d) in
    inl (mkConversationStats (CallQ.count (fun _ => true) t)
           (CallQ.count (fun c => sql_now ctx - 24 * Hour <=? conv_created_at c) t)
           (CallQ.count (outcome_is d "resolved") t) (CallQ.count (outcome_is d "pending") t)
           (CallQ.count (outcome_is d "sale") t) (CallQ.count (outcome_is d "needs_human") t), d)).

(** What was taken since an instant, as a positive number. *)
Definition spent_since (since : Time) (t : list LedgerRow) : Z :=
  - zsum (map led_delta
      (tselect (fun r => (led_delta r <? 0) && (since <=? led_created_at r)) t)).

Definition CreditSpend (orgID : string) : stmt (Z * Z) :=
  with_text [orgID] (fun ctx d =>
    let t := tselect (fun r => (led_org_id r =? orgID)%string) (credit_ledger d) in
    inl ((spent_since (sql_now ctx - 24 * Hour) t,
          spent_since (sql_now ctx - 30 * 24 * Hour) t), d)).
End AnalyticsQ.

Module PgAnalyticsRepo.
Definition ConversationStats (orgID : OrgID) : prog World ConversationStats :=
  exec (AnalyticsQ.ConversationStats orgID).

Definition CreditSpend (orgID : OrgID) : prog World (Z * Z) :=
  exec (AnalyticsQ.CreditSpend orgID).

#[export] Instance repo : AnalyticsRepo.T :=
  { AnalyticsRepo.ConversationStats := ConversationStats;
    AnalyticsRepo.CreditSpend := CreditSpend }.
End PgAnalyticsRepo.

(** ** The services *)

Module Analytics.
Section Service.
Context {calls : CallRepo.T} {credits : CreditRepo.T} {repo : AnalyticsRepo.T}.

Definition Overview (orgID : OrgID) : prog World AnalyticsOverview :=
  let! callSum := CallRepo.Summary orgID in
  let! convStats := AnalyticsRepo.ConversationStats orgID in
  let! bal := CreditRepo.Balance orgID in
  let! '(spentToday, spent30d) := AnalyticsRepo.CreditSpend orgID in
  ret (mkAnalyticsOverview callSum convStats (mkCreditSummary bal spentToday spent30d)).
End Service.
End Analytics.

(** domain/reports.go: the port. *)
Module Reporter.
Class T := { Answer : string -> AnalyticsOverview -> prog World string }.
Class Laws (R : T) : Prop := { Answer_quiet : forall q d, guar quiet (Answer q d) }.
End Reporter.

(** internal/adapter/reporter/builtin *)
Module BuiltinReporter.
Inductive topic : Type :=
| topicOverview | topicCalls | topicChat | topicSales | topicSpend.

Definition classify (q : string) : topic :=
  if containsAny q ["sale"; "sold"; "upsell"; "purchase"; "revenue"] then topicSales
  else if containsAny q ["spend"; "spent"; "cost"; "credit"; "balance"; "budget"; "money"]
  then topicSpend
  else if containsAny q ["call"; "confirm"; "recover"; "cancel"; "ivr"; "voice"]
  then topicCalls
  else if containsAny q ["chat"; "conversation"; "message"; "resolve"; "resolved"; "customer";
                         "whatsapp"; "messenger"] then topicChat
  else topicOverview.

Definition n (i : Z) : string := Strconv.Itoa i.

Definition pct (part total : Z) : string :=
  if total <=? 0 then "0" else Strconv.Itoa (percent part total).

Definition needsHumanTail (d : AnalyticsOverview) : string :=
  let waiting := cvs_NeedsHuman (ao_Conversations d) in
  if 0 <? waiting then n waiting +:+ " conversation(s) are waiting on a team member." else "".

Definition focusTail : string := " Follow up with the high-intent ones first.".

Definition callsAnswer (d : AnalyticsOverview) : string :=
  let c := ao_Calls d in
  n (sum_Total c) +:+ " calls placed (" +:+ n (sum_Today c) +:+ " today), " +:+
  n (sum_Confirmed c) +:+ " confirmed and " +:+ n (sum_Cancelled c) +:+ " cancelled — a " +:+
  pct (sum_Confirmed c) (sum_Total c) +:+ "% confirmation rate.".

Definition chatAnswer (d : AnalyticsOverview) : string :=
  let c := ao_Conversations d in
  n (cvs_Total c) +:+ " conversations (" +:+ n (cvs_Today c) +:+ " today): " +:+
  n (cvs_Resolved c) +:+ " resolved, " +:+ n (cvs_Pending c) +:+ " pending, " +:+
  n (cvs_NeedsHuman c) +:+ " need a human — a " +:+ pct (cvs_Resolved c) (cvs_Total c) +:+
  "% resolution rate. " +:+ needsHumanTail d.

Definition overviewAnswer (d : AnalyticsOverview) : string :=
  callsAnswer d +:+ " " +:+ chatAnswer d +:+ " Credit balance: " +:+
  n (crs_Balance (ao_Credits d)) +:+ ".".

Definition answer (question : string) (d : AnalyticsOverview) : string :=
  let q := Strings.ToLower (Strings.TrimSpace question) in
  match classify q with
  | topicCalls => callsAnswer d
  | topicChat => chatAnswer d
  | topicSales =>
      "AI chat flagged " +:+ n (cvs_Sale (ao_Conversations d)) +:+
      " conversations with buying intent" +:+ " out of " +:+
      n (cvs_Total (ao_Conversations d)) +:+ " total. " +:+ needsHumanTail d +:+ focusTail
  | topicSpend =>
      "Your credit balance is " +:+ n (crs_Balance (ao_Credits d)) +:+ ". You've spent " +:+
      n (crs_SpentToday (ao_Credits d)) +:+ " credits today and " +:+
      n (crs_Spent30d (ao_Credits d)) +:+ " in the last 30 days."
  | topicOverview => overviewAnswer d
  end.

#[export] Instance reporter : Reporter.T :=
  { Reporter.Answer question d := ret (answer question d) }.
End BuiltinReporter.

Module Reports.
Section Service.
Context {calls : CallRepo.T} {credits : CreditRepo.T} {repo : AnalyticsRepo.T}
  {reporter : Reporter.T}.

Definition Ask (orgID : OrgID) (question : string) : prog World (string * AnalyticsOverview) :=
  let! data := Analytics.Overview orgID in
  let! answer := Reporter.Answer question data in
  ret (answer, data).
End Service.
End Reports.
