(* ===== verification/HttpOut.v ===== *)
(** * Outbound HTTP: the adapters of hosted services

    internal/adapter/payment/sslcommerz, messaging/meta, sms/twilio,
    email/resend and stt/whisper, the noop STT and the transcription service.
    http.Client is the parameter [HttpOut]; a response whose body breaks off is
    an error of [Do].  time-outs are errors of [Do] too. *)

From S2P Require Import Prelude.
From S2P Require Import Domain.
From S2P Require Import Effects.
From S2P Require Import GoLib.
From S2P Require Import Json.
From S2P Require Import Store.
From S2P Require Import Ports.
From S2P Require Import Webhooks.
From S2P Require Import PgAuth.
From S2P Require Import PgChat.
From stdpp Require Import gmap strings list.
From Stdlib Require Import ZArith Lia Ascii.

Open Scope Z_scope.
Open Scope go_scope.

(** ** net/http *)

Record OutRequest := mkOutRequest {
  oq_Method : string; oq_URL : string; oq_Headers : list (string * string); oq_Body : string
}.

Record OutResponse := mkOutResponse { or_Code : Z; or_Status : string; or_Body : string }.

(** [NewRequest_ok url]: http.NewRequest accepts the URL. *)
Module HttpOut.
Class T := {
  NewRequest_ok : string -> bool;
  Do : OutRequest -> prog World OutResponse
}.
Class Laws (H : T) : Prop := { Do_quiet : forall q, guar quiet (Do q) }.

Section Request.
Context {http : T}.

Definition bad_request : goerr := ErrOther "net/http: invalid request".

(** http.NewRequestWithContext, then client.Do. *)
Definition request (method url : string) (headers : list (string * string)) (body : string)
  : prog World OutResponse :=
  if negb (NewRequest_ok url) then fail bad_request
  else Do (mkOutRequest method url headers body).

Lemma request_quiet {laws : Laws http} method url headers body :
  guar quiet (request method url headers body).
Proof. unfold request. destruct (NewRequest_ok url); [apply Do_quiet | done]. Qed.
End Request.
End HttpOut.

(** The client of the webhook dispatcher. *)
#[export] Instance webhook_client {http : HttpOut.T} : HttpClient.T :=
  {| HttpClient.NewRequest_ok := HttpOut.NewRequest_ok;
     HttpClient.Do p :=
       let! resp := HttpOut.Do (mkOutRequest "POST" (post_url p) (post_headers p) (post_body p)) in
       ret (or_Code resp) |}.

(** url.Values.Encode: the pairs in the order of their keys. *)
Definition encode_values (pairs : list (string * string)) : string :=
  String.concat "&"
    (map (fun kv => Url.QueryEscape (fst kv) +:+ "=" +:+ Url.QueryEscape (snd kv))
       (tsort_by fst pairs)).

(** ** internal/adapter/payment/sslcommerz *)

Module SslCommerz.
Definition sandboxBase : string := "https://sandbox.sslcommerz.com".
Definition liveBase : string := "https://securepay.sslcommerz.com".

Record Gateway := mkGateway {
  g_storeID : string; g_storePass : string; g_base : string; g_appURL : string
}.

Definition New (storeID storePass appURL : string) (sandbox : bool) : Gateway :=
  mkGateway storeID storePass (if sandbox then sandboxBase else liveBase) appURL.

(** The fields of the answers the code reads. *)
Record SessionAnswer := mkSessionAnswer {
  sa_Status : string; sa_FailedReason : string; sa_GatewayPageURL : string
}.

Definition dSessionAnswer : Json.decoder SessionAnswer := Json.dstruct
  [("status", Json.field sa_Status
      (fun x a => mkSessionAnswer x (sa_FailedReason a) (sa_GatewayPageURL a)) Json.dstring);
   ("failedreason", Json.field sa_FailedReason
      (fun x a => mkSessionAnswer (sa_Status a) x (sa_GatewayPageURL a)) Json.dstring);
   ("GatewayPageURL", Json.field sa_GatewayPageURL
      (fun x a => mkSessionAnswer (sa_Status a) (sa_FailedReason a) x) Json.dstring)].

(** Status and tran_id of the validation API. *)
Definition dValidation : Json.decoder (string * string) := Json.dstruct
  [("status", Json.field fst (fun x a => (x, snd a)) Json.dstring);
   ("tran_id", Json.field snd (fun x a => (fst a, x)) Json.dstring)].

Definition decode_error : goerr := ErrOther "json: cannot decode the answer".

Section Gateway.
Context {http : HttpOut.T} (g : Gateway).

Definition session_form (req : PaymentRequest) : list (string * string) :=
  [("store_id", g_storeID g);
   ("store_passwd", g_storePass g);
   ("total_amount", Strconv.Itoa (preq_AmountBDT req));
   ("currency", "BDT");
   ("tran_id", preq_PaymentID req);
   ("success_url", g_appURL g +:+ "/billing/return");
   ("fail_url", g_appURL g +:+ "/billing/return");
   ("cancel_url", g_appURL g +:+ "/billing/return");
   ("ipn_url", g_appURL g +:+ "/webhooks/payment");
   ("shipping_method", "NO");
   ("num_of_item", "1");
   ("product_name", Strconv.Itoa (preq_Credits req) +:+ " Yaver credits");
   ("product_category", "credits");
   ("product_profile", "non-physical-goods");
   ("cus_name", "Yaver merchant");
   ("cus_email", "billing@yaver.app");
   ("cus_add1", "N/A");
   ("cus_city", "Dhaka");
   ("cus_country", "Bangladesh");
   ("cus_phone", "0000000000")].

Definition Checkout (req : PaymentRequest) : prog World PaymentCheckout :=
  let! resp := HttpOut.request "POST" (g_base g +:+ "/gwprocess/v4/api.php")
                 [("Content-Type", "application/x-www-form-urlencoded")]
                 (encode_values (session_form req)) in
  let '(out, ok) := Json.Decode dSessionAnswer (mkSessionAnswer "" "" "") (or_Body resp) in
  if negb ok then fail decode_error
  else if negb (sa_Status out =? "SUCCESS")%string || (sa_GatewayPageURL out =? "")%string
  then fail (ErrOther ("sslcommerz session failed: " +:+ sa_FailedReason out))
  else ret (mkPaymentCheckout (preq_PaymentID req) (sa_GatewayPageURL out)).

Definition validation_url (valID : string) : string :=
  g_base g +:+ "/validator/api/validationserverAPI.php?" +:+
  encode_values [("val_id", valID); ("store_id", g_storeID g);
                 ("store_passwd", g_storePass g); ("format", "json")].

Definition form_get (form : gmap string string) (k : string) : string := default "" (form !! k).

Definition VerifyIPN (form : gmap string string) : prog World (PaymentResult * bool) :=
  let valID := form_get form "val_id" in
  let tranID := form_get form "tran_id" in
  if (valID =? "")%string || (tranID =? "")%string then ret (mkPaymentResult "" "", false)
  else
    let! resp := HttpOut.request "GET" (validation_url valID) [] "" in
    let '((status, tran), ok) := Json.Decode dValidation ("", "") (or_Body resp) in
    if negb ok then fail decode_error
    else if negb (tran =? tranID)%string then ret (mkPaymentResult "" "", false)
    else if (status =? "VALID")%string || (status =? "VALIDATED")%string
    then ret (mkPaymentResult tranID PaymentPaid, true)
    else ret (mkPaymentResult tranID PaymentFailed, true).

#[export] Instance gateway : PaymentGateway.T :=
  { PaymentGateway.Name := "sslcommerz"; PaymentGateway.Checkout := Checkout;
    PaymentGateway.VerifyIPN := VerifyIPN }.

#[export] Instance gateway_laws {laws : HttpOut.Laws http} : PaymentGateway.Laws gateway.
Proof.
  split; intros x.
  - apply guar_bind; [apply HttpOut.request_quiet|]. intros resp.
    destruct (Json.Decode _ _ _) as [out ok]. by repeat split_match.
  - cbn [PaymentGateway.VerifyIPN gateway]. unfold VerifyIPN. split_match; [done|].
    apply guar_bind; [apply HttpOut.request_quiet|]. intros resp.
    destruct (Json.Decode _ _ _) as [[status tran] ok]. by repeat split_match.
Qed.
End Gateway.
End SslCommerz.

(** ** Encodings *)

Definition crlf : string := String (byte_chr 13) (String (byte_chr 10) EmptyString).

(** A status outside 2xx fails with what [describe] makes of the answer. *)
Definition expect_2xx (describe : OutResponse -> string) (resp : OutResponse)
  : prog World unit :=
  if 300 <=? or_Code resp then fail (ErrOther (describe resp)) else ret tt.

(** ** internal/adapter/messaging/meta *)

Module MetaSender.
Definition graphBase : string := "https://graph.facebook.com/v21.0".

Definition url_of (m : OutboundMessage) : string :=
  graphBase +:+ "/" +:+ om_FromExternalID m +:+ "/messages?access_token=" +:+ om_AccessToken m.

Definition body_of (m : OutboundMessage) : option json :=
  if (om_Type m =? "whatsapp")%string then
    Some (JObj [("messaging_product", JStr "whatsapp");
                ("text", JObj [("body", JStr (om_Text m))]);
                ("to", JStr (om_To m)); ("type", JStr "text")])
  else if (om_Type m =? "messenger")%string then
    Some (JObj [("message", JObj [("text", JStr (om_Text m))]);
                ("recipient", JObj [("id", JStr (om_To m))])])
  else None.

Definition Send {http : HttpOut.T} (m : OutboundMessage) : prog World unit :=
  match body_of m with
  | None => fail (ErrOther ("meta: unsupported channel " +:+ Json.quote (om_Type m)))
  | Some body =>
      let! resp := HttpOut.request "POST" (url_of m) [("Content-Type", "application/json")]
                     (Json.marshal body) in
      expect_2xx (fun resp => "meta send: " +:+ or_Status resp +:+ ": " +:+
                              Strings.take 2048 (or_Body resp)) resp
  end.

#[export] Instance sender {http : HttpOut.T} : MessagingSender.T :=
  { MessagingSender.Send := Send }.
End MetaSender.

(** ** internal/adapter/email/resend *)

Module Resend.
Definition endpoint : string := "https://api.resend.com/emails".

Definition payload (from to subject body : string) : string :=
  Json.marshal (JObj [("from", JStr from); ("subject", JStr subject); ("text", JStr body);
                      ("to", JArr [JStr to])]).

Definition Send {http : HttpOut.T} (apiKey from : string) (to subject body : string)
  : prog World unit :=
  let! resp := HttpOut.request "POST" endpoint
                 [("Authorization", "Bearer " +:+ apiKey); ("Content-Type", "application/json")]
                 (payload from to subject body) in
  expect_2xx (fun resp => "resend: status " +:+ Strconv.Itoa (or_Code resp) +:+ ": " +:+
                          Strings.TrimSpace (Strings.take 2048 (or_Body resp))) resp.

#[export] Instance sender {http : HttpOut.T} (apiKey from : string) : EmailSender.T :=
  { EmailSender.Send := Send apiKey from }.
End Resend.

(** internal/adapter/email/logsender: nothing is sent. *)
Module EmailLog.
#[export] Instance sender : EmailSender.T := { EmailSender.Send to subject body := ret tt }.
End EmailLog.

(** ** internal/adapter/sms/twilio *)

Module Twilio.
Record Sender := mkSender { tw_sid : string; tw_token : string; tw_from : string }.

Definition base : string := "https://api.twilio.com".

Definition basic_auth (user password : string) : string :=
  "Basic " +:+ Base64.encode (user +:+ ":" +:+ password).

Definition Send {http : HttpOut.T} (s : Sender) (to text : string) : prog World unit :=
  let! resp := HttpOut.request "POST"
                 (base +:+ "/2010-04-01/Accounts/" +:+ tw_sid s +:+ "/Messages.json")
                 [("Content-Type", "application/x-www-form-urlencoded");
                  ("Authorization", basic_auth (tw_sid s) (tw_token s))]
                 (encode_values [("To", to); ("From", tw_from s); ("Body", text)]) in
  expect_2xx (fun resp => "twilio " +:+ Strconv.Itoa (or_Code resp) +:+ ": " +:+
                          Strings.take 512 (or_Body resp)) resp.

#[export] Instance sender {http : HttpOut.T} (s : Sender) : SMSSender.T :=
  { SMSSender.Send := Send s }.
End Twilio.

(** internal/adapter/sms/logsender: nothing is sent. *)
Module SmsLog.
#[export] Instance sender : SMSSender.T := { SMSSender.Send to text := ret tt }.
End SmsLog.

(** ** domain/voiceai.go: the STT port, and its adapters *)

Module STT.
Class T := { Transcribe : string -> string -> prog World string }.
Class Laws (S : T) : Prop := { Transcribe_quiet : forall audio loc, guar quiet (Transcribe audio loc) }.
End STT.

(** internal/adapter/stt/noop *)
Module NoopSTT.
#[export] Instance stt : STT.T := { STT.Transcribe audio locale := ret "" }.
End NoopSTT.

(** internal/adapter/stt/whisper *)
Module Whisper.
Record Client := mkClient { wh_url : string; wh_key : string; wh_model : string }.

Definition New (baseURL apiKey model : string) : Client :=
  mkClient baseURL apiKey (if (model =? "")%string then "whisper-1" else model).

(** A part of a multipart body: its headers, then its bytes. *)
Definition part (headers : list string) (data : string) : string :=
  String.concat "" (map (fun h => h +:+ crlf) headers) +:+ crlf +:+ data.

Definition quoted (s : string) : string := String (byte_chr 34) (s +:+ String (byte_chr 34) "").

Definition disposition (name : string) : string :=
  "Content-Disposition: form-data; name=" +:+ quoted name.

Definition field_part (name value : string) : string := part [disposition name] value.

Definition multipart (boundary : string) (parts : list string) : string :=
  "--" +:+ boundary +:+ crlf +:+
  String.concat (crlf +:+ "--" +:+ boundary +:+ crlf) parts +:+
  crlf +:+ "--" +:+ boundary +:+ "--" +:+ crlf.

Definition Transcribe {http : HttpOut.T} (s : Client) (audio locale : string)
  : prog World string :=
  let! b := rand_Read 30 in
  let boundary := Encoding.hex b in
  let file := part [disposition "file" +:+ "; filename=" +:+ quoted "call.wav";
                    "Content-Type: application/octet-stream"] audio in
  let body := multipart boundary
    ([file; field_part "model" (wh_model s)] ++
     (if negb (locale =? "")%string then [field_part "language" locale] else [])) in
  let! resp := HttpOut.request "POST" (wh_url s +:+ "/audio/transcriptions")
    (("Content-Type", "multipart/form-data; boundary=" +:+ boundary) ::
     (if negb (wh_key s =? "")%string then [("Authorization", "Bearer " +:+ wh_key s)] else []))
    body in
  if 300 <=? or_Code resp then
    fail (ErrOther ("whisper " +:+ Strconv.Itoa (or_Code resp) +:+ ": " +:+
                    Strings.take 512 (or_Body resp)))
  else
    let '(text, ok) :=
      Json.Decode (Json.dstruct [("text", Json.dstring)]) "" (or_Body resp) in
    if negb ok then fail (ErrOther "json: cannot decode the transcript") else ret text.

#[export] Instance stt {http : HttpOut.T} (s : Client) : STT.T :=
  { STT.Transcribe := Transcribe s }.
End Whisper.

(** ** internal/service/transcription *)

Module Transcription.
Section Service.
Context {http : HttpOut.T} {stt : STT.T} {calls : CallRepo.T}.

Definition download (url : string) : prog World string :=
  let! resp := HttpOut.request "GET" url [] "" in
  if 300 <=? or_Code resp
  then fail (ErrOther ("fetch recording: " +:+ Strconv.Itoa (or_Code resp)))
  else ret (or_Body resp).

Definition Transcribe (callID : CallID) (recordingURL locale : string) : prog World unit :=
  let! audio := download recordingURL in
  let! text := STT.Transcribe audio locale in
  CallRepo.AttachMedia callID recordingURL text.
End Service.
End Transcription.
