(* ===== verification/HttpLib.v ===== *)
(** * net/http, the server side the transport uses

    Requests, responses, cookies, forms and the patterns of ServeMux.  A request
    arrives parsed: its path as the unescaped segments ServeMux matches (a
    trailing slash is a last empty segment; an unclean path is redirected before
    any handler runs), its media type as mime.ParseMediaType gives it (empty when
    there is none), and whether that is with an error. *)

From S2P Require Import Prelude.
From S2P Require Import Domain.
From S2P Require Import GoLib.
From S2P Require Import Json.
From S2P Require Import GoTime.
From stdpp Require Import strings list.
From Stdlib Require Import ZArith Lia Ascii.

Open Scope Z_scope.

Record Request := mkRequest {
  rq_Method : string;
  rq_Path : list string;
  rq_RawQuery : string;
  rq_Header : list (string * string);     (* canonical names *)
  rq_MediaType : string;
  rq_MediaErr : bool;
  rq_RemoteAddr : string;
  rq_Body : string
}.

Record Response := mkResponse {
  rs_Code : Z; rs_Header : list (string * string); rs_Body : string
}.

(** ** Headers, cookies *)

Definition header_values (h : list (string * string)) (name : string) : list string :=
  map snd (List.filter (fun kv => (fst kv =? name)%string) h).

(** Header.Get: the first value, or the empty string. *)
Definition header_get (h : list (string * string)) (name : string) : string :=
  default "" (head (header_values h name)).

(** strings.Cut at the first occurrence of a byte. *)
Fixpoint cut (sep : ascii) (s : string) : string * string * bool :=
  match s with
  | EmptyString => ("", "", false)
  | String c s' =>
      if Ascii.eqb c sep then ("", s', true)
      else let '(a, b, found) := cut sep s' in (String c a, b, found)
  end.

(** The parts of a string between separators. *)
Fixpoint split_on (sep : ascii) (s : string) : list string :=
  match s with
  | EmptyString => [""]
  | String c s' =>
      let parts := split_on sep s' in
      if Ascii.eqb c sep then "" :: parts
      else match parts with p :: ps => String c p :: ps | [] => [String c ""] end
  end.

Module Cookie.
Definition blank (c : ascii) : bool :=
  let b := byte_of c in (b =? 32) || (b =? 9) || (b =? 10) || (b =? 13).

Fixpoint trim_left (s : string) : string :=
  match s with
  | String c s' => if blank c then trim_left s' else s
  | EmptyString => EmptyString
  end.

(** textproto.TrimString *)
Definition TrimString (s : string) : string :=
  Strings.rev_onto (trim_left (Strings.rev_onto (trim_left s) "")) "".

(** validCookieValueByte *)
Definition valid_byte (c : ascii) : bool :=
  let b := byte_of c in
  (32 <=? b) && (b <? 127) && negb (b =? 34) && negb (b =? 59) && negb (b =? 92).

(** The value without a pair of quotes around it. *)
Definition unquote (v : string) : string :=
  let n := String.length v in
  match v with
  | String c v' =>
      if (1 <? n)%nat && (byte_of c =? 34) &&
         (match String.get (n - 1) v with Some d => byte_of d =? 34 | None => false end)
      then Strings.take (n - 2) v' else v
  | EmptyString => v
  end.

Definition parse_value (v : string) : option string :=
  let v := unquote v in if Strings.forallb valid_byte v then Some v else None.

(** The value a part of a Cookie header gives to [name]. *)
Definition part_value (name part : string) : option string :=
  let '(k, v, _) := cut "=" (TrimString part) in
  if (TrimString k =? name)%string then parse_value v else None.

Definition line_values (name line : string) : list string :=
  omap (part_value name) (split_on ";" (TrimString line)).

(** r.Cookie(name), for a name that is a token. *)
Definition get (r : Request) (name : string) : option string :=
  head (concat (map (line_values name) (header_values (rq_Header r) "Cookie"))).

(** http.Cookie.String, of a value made of bytes a cookie may carry. *)
Definition to_string (name value : string) (expires : Time) (delete httpOnly secure lax : bool)
  : string :=
  name +:+ "=" +:+ value +:+ "; Path=/; Expires=" +:+ Format.HttpTime expires +:+
  (if delete then "; Max-Age=0" else "") +:+ (if httpOnly then "; HttpOnly" else "") +:+
  (if secure then "; Secure" else "") +:+ (if lax then "; SameSite=Lax" else "").
End Cookie.

(** ** Query strings and forms *)

Module Query.
(** url.QueryUnescape *)
Fixpoint unescape (s : string) : option string :=
  match s with
  | EmptyString => Some EmptyString
  | String c s' =>
      if Ascii.eqb c "%" then
        match s' with
        | String a (String b s'') =>
            match Json.hexval a, Json.hexval b, unescape s'' with
            | Some x, Some y, Some t => Some (String (byte_chr (x * 16 + y)) t)
            | _, _, _ => None
            end
        | _ => None
        end
      else option_map (String (if Ascii.eqb c "+" then " "%char else c)) (unescape s')
  end.

(** One pair; [None] when it is malformed. *)
Definition pair_of (part : string) : option (string * string) :=
  if Strings.Contains part ";" then None
  else
    let '(k, v, _) := cut "=" part in
    match unescape k, unescape v with
    | Some k, Some v => Some (k, v)
    | _, _ => None
    end.

(** url.ParseQuery: the pairs that parse, in order, and whether all did. *)
Definition parse (q : string) : list (string * string) * bool :=
  let parts := List.filter (fun p => negb (p =? "")%string) (split_on "&" q) in
  (omap pair_of parts, forallb (fun p => match pair_of p with Some _ => true | None => false end) parts).

(** Values.Get *)
Definition get (pairs : list (string * string)) (k : string) : string :=
  default "" (head (map snd (List.filter (fun kv => (fst kv =? k)%string) pairs))).
End Query.

(** r.URL.Query().Get(k) *)
Definition query_get (r : Request) (k : string) : string :=
  Query.get (fst (Query.parse (rq_RawQuery r))) k.

(** r.ParseForm: the pairs of the body of a POST, PUT or PATCH of the form media
    type (at most 10 MB), those of body and query together, and success. *)
Definition maxFormSize : Z := 10 * 2 ^ 20.

Definition ParseForm (r : Request) : list (string * string) * list (string * string) * bool :=
  let m := rq_Method r in
  let has_body := (m =? "POST")%string || (m =? "PUT")%string || (m =? "PATCH")%string in
  let '(post, ok) :=
    if has_body && (rq_MediaType r =? "application/x-www-form-urlencoded")%string then
      if maxFormSize <? Z.of_nat (String.length (rq_Body r)) then ([], false)
      else Query.parse (rq_Body r)
    else ([], true) in
  let ok := ok && negb (has_body && rq_MediaErr r) in
  let '(query, ok') := Query.parse (rq_RawQuery r) in
  (post, post ++ query, ok && ok').

(** ** Bodies *)

(** io.ReadAll(io.LimitReader(body, n)); http.MaxBytesReader gives a decoder the
    same bytes, and an error in place of the end. *)
Definition limited (n : Z) (body : string) : string :=
  if Z.of_nat (String.length body) <=? n then body else Strings.take (Z.to_nat n) body.

Lemma limited_short n body : Z.of_nat (String.length body) <= n -> limited n body = body.
Proof. unfold limited. intros H. apply Z.leb_le in H. by rewrite H. Qed.

(** writeJSON (server.go): json.Encoder ends the value with a newline. *)
Definition newline : string := String (byte_chr 10) EmptyString.

Definition writeJSON (code : Z) (v : json) : Response :=
  mkResponse code [("Content-Type", "application/json")] (Json.marshal v +:+ newline).

(** The members of a Go map are written in the order of their keys. *)
Definition jmap (members : list (string * json)) : json := JObj (tsort_by fst members).

(** map[string]string{k: v} *)
Definition status_json (code : Z) (k v : string) : Response := writeJSON code (JObj [(k, JStr v)]).

Definition error_json (code : Z) (msg : string) : Response := status_json code "error" msg.

Definition internal : Response := error_json 500 "internal".

(** http.Redirect to an absolute URL. *)
Fixpoint html_escape (s : string) : string :=
  match s with
  | EmptyString => EmptyString
  | String c s' =>
      let b := byte_of c in
      (if b =? 38 then "&amp;" else if b =? 60 then "&lt;" else if b =? 62 then "&gt;"
       else if b =? 34 then "&#34;" else if b =? 39 then "&#39;" else String c "") +:+
      html_escape s'
  end.

Definition see_other (r : Request) (url : string) : Response :=
  let m := rq_Method r in
  let get := (m =? "GET")%string in
  mkResponse 303
    ((if get || (m =? "HEAD")%string
      then [("Content-Type", "text/html; charset=utf-8")] else []) ++ [("Location", url)])
    (if get
     then "<a href=" +:+ String (byte_chr 34) (html_escape url) +:+
          String (byte_chr 34) (">See Other</a>." +:+ newline +:+ newline)
     else "").

(** ** ServeMux *)

Module Mux.
Inductive segment : Type := Lit (s : string) | Wild (name : string).

(** A pattern: a method (any, when [None]) and the segments of a path. *)
Record pattern := mkPattern { pt_Method : option string; pt_Segments : list segment }.

(** The values of the wildcards, when the path matches; a wildcard takes one
    segment that is not empty. *)
Fixpoint match_path (segs : list segment) (path : list string) : option (list (string * string)) :=
  match segs, path with
  | [], [] => Some []
  | Lit s :: segs, p :: path => if (s =? p)%string then match_path segs path else None
  | Wild n :: segs, p :: path =>
      if (p =? "")%string then None
      else option_map (cons (n, p)) (match_path segs path)
  | _, _ => None
  end.

(** A GET pattern also takes HEAD. *)
Definition match_method (m : option string) (method : string) : bool :=
  match m with
  | None => true
  | Some m => (m =? method)%string || ((m =? "GET")%string && (method =? "HEAD")%string)
  end.

(** PathValue *)
Definition value (vs : list (string * string)) (name : string) : string :=
  default "" (head (map snd (List.filter (fun kv => (fst kv =? name)%string) vs))).

Section Routes.
Context {H : Type}.

(** The routes in an order in which a more specific pattern comes first. *)
Fixpoint lookup (routes : list (pattern * H)) (method : string) (path : list string)
  : option (H * list (string * string)) :=
  match routes with
  | [] => None
  | (pt, h) :: routes =>
      if match_method (pt_Method pt) method then
        match match_path (pt_Segments pt) path with
        | Some vs => Some (h, vs)
        | None => lookup routes method path
        end
      else lookup routes method path
  end.

(** The methods under which some pattern takes the path, in order. *)
Definition allowed (routes : list (pattern * H)) (path : list string) : list string :=
  let ms := omap (fun r => match match_path (pt_Segments (fst r)) path with
                           | Some _ => pt_Method (fst r) | None => None end) routes in
  let ms := if existsb (String.eqb "GET") ms then "HEAD" :: ms else ms in
  tsort_by id (List.nodup String.string_dec ms).
End Routes.

Definition not_found : Response :=
  mkResponse 404 [("Content-Type", "text/plain; charset=utf-8"); ("X-Content-Type-Options", "nosniff")]
    ("404 page not found" +:+ newline).

Definition method_not_allowed (allowed : list string) : Response :=
  mkResponse 405
    [("Allow", String.concat ", " allowed); ("Content-Type", "text/plain; charset=utf-8");
     ("X-Content-Type-Options", "nosniff")]
    ("Method Not Allowed" +:+ newline).
End Mux.
