(* ===== verification/Widget.v ===== *)
(** * The embed script

    internal/transport/http/widgetjs.go: the text a merchant's page loads, and what
    its handlers do with the page's events and the server's answers.  The look of
    the panel (its elements, styles and focus) is left out: the state is what the
    script keeps, and the messages it has shown. *)

From S2P Require Import Prelude.
From S2P Require Import Domain.
From S2P Require Import Effects.
From S2P Require Import GoLib.
From S2P Require Import Json.
From S2P Require Import Store.
From S2P Require Import HttpLib.
From stdpp Require Import strings list.
From Stdlib Require Import ZArith Lia Ascii.

Open Scope Z_scope.
Open Scope go_scope.

(** ** What the script uses of JavaScript

    A string of a page is modelled by its UTF-8 encoding. *)

Module Js.
(** String.prototype.trim: the blanks of Go's TrimSpace, without U+0085 and with
    the byte order mark. *)
Definition space2 (a b : ascii) : bool := (byte_of a =? 194) && (byte_of b =? 160).

Definition space3 (a b c : ascii) : bool :=
  Strings.space3 a b c || ((byte_of a =? 239) && (byte_of b =? 187) && (byte_of c =? 191)).

Definition trim (s : string) : string :=
  let front := Strings.trim_front space2 space3 s in
  Strings.rev_onto
    (Strings.trim_front (fun a b => space2 b a) (fun a b c => space3 c b a)
       (Strings.rev_onto front "")) "".

(** JSON.stringify of a string: quotes, backslashes and control characters are
    escaped, nothing else is. *)
Definition plain (c : ascii) : bool :=
  let b := byte_of c in (32 <=? b) && negb ((b =? 34) || (b =? 92)).

Fixpoint quote_from (s : string) : string :=
  match s with
  | EmptyString => EmptyString
  | String c s' => (if plain c then String c "" else Json.escape c) +:+ quote_from s'
  end.

Definition quote (s : string) : string :=
  String Json.quotes (quote_from s +:+ String Json.quotes "").

Definition stringify (v : option string) : string :=
  match v with Some s => quote s | None => "null" end.

(** A property of an object that holds a string: the last member wins. *)
Definition string_prop (v : json) (k : string) : option string :=
  match v with
  | JObj ms =>
      match last (List.filter (fun m => (fst m =? k)%string) ms) with
      | Some (_, JStr s) => Some s
      | _ => None
      end
  | _ => None
  end.

(** A string as a condition. *)
Definition truthy (s : option string) : bool :=
  match s with Some s => negb (s =? "")%string | None => false end.
End Js.

(** ** The script *)

Module Widget.
Definition widgetJS : string := json_text
"(function () {
  var script = document.currentScript;
  if (!script) return;
  var key = script.getAttribute('data-key');
  if (!key) { console.error('[Yaver] widget: missing data-key'); return; }
  var base = new URL(script.src).origin;
  var convId = null;
  var open = false;
  var cfg = { title: 'Chat with us', welcome: 'Hi! 👋 How can I help you today?', accent: '#111827' };

  var host = document.createElement('div');
  document.body.appendChild(host);
  var root = host.attachShadow({ mode: 'open' });

  var css =
    ':host{all:initial}' +
    '*{box-sizing:border-box;font-family:-apple-system,BlinkMacSystemFont,`Segoe UI`,Roboto,sans-serif}' +
    '.launcher{position:fixed;bottom:20px;right:20px;width:56px;height:56px;border-radius:9999px;background:var(--accent,#111827);color:#fff;border:none;cursor:pointer;display:flex;align-items:center;justify-content:center;box-shadow:0 6px 20px rgba(0,0,0,.18);z-index:2147483000}' +
    '.launcher svg{width:24px;height:24px}' +
    '.panel{position:fixed;bottom:88px;right:20px;width:370px;max-width:calc(100vw - 40px);height:540px;max-height:calc(100vh - 120px);background:#fff;border:1px solid #e5e7eb;border-radius:16px;display:none;flex-direction:column;overflow:hidden;z-index:2147483000;box-shadow:0 12px 40px rgba(0,0,0,.16)}' +
    '.panel.open{display:flex}' +
    '.hd{display:flex;align-items:center;gap:10px;padding:14px 16px;border-bottom:1px solid #f0f0f0}' +
    '.hd .av{width:30px;height:30px;border-radius:8px;background:var(--accent,#111827);color:#fff;font-weight:700;font-size:13px;display:flex;align-items:center;justify-content:center}' +
    '.hd .t{font-size:14px;font-weight:600;color:#111827}' +
    '.hd .s{font-size:12px;color:#9ca3af}' +
    '.msgs{flex:1;overflow-y:auto;padding:16px;display:flex;flex-direction:column;gap:12px;background:#fafafa}' +
    '.b{max-width:82%;padding:9px 12px;font-size:14px;line-height:1.45;border-radius:14px;white-space:pre-wrap}' +
    '.u{align-self:flex-end;background:var(--accent,#111827);color:#fff;border-bottom-right-radius:5px}' +
    '.a{align-self:flex-start;background:#fff;color:#111827;border:1px solid #e5e7eb;border-bottom-left-radius:5px}' +
    '.dots{align-self:flex-start;display:flex;gap:4px;padding:12px}' +
    '.dots i{width:6px;height:6px;border-radius:9999px;background:#9ca3af;animation:bl 1.3s infinite both}' +
    '.dots i:nth-child(2){animation-delay:.2s}.dots i:nth-child(3){animation-delay:.4s}' +
    '@keyframes bl{0%,80%,100%{opacity:.2}40%{opacity:1}}' +
    '.cp{display:flex;gap:8px;padding:10px;border-top:1px solid #f0f0f0}' +
    '.cp input{flex:1;border:1px solid #d1d5db;border-radius:10px;padding:9px 12px;font-size:14px;outline:none}' +
    '.cp input:focus{border-color:#9ca3af}' +
    '.cp button{width:38px;height:38px;border:none;border-radius:10px;background:var(--accent,#111827);color:#fff;cursor:pointer;display:flex;align-items:center;justify-content:center}' +
    '.cp button:disabled{opacity:.4}';

  var chatIcon = '<svg viewBox=`0 0 24 24` fill=`none`><path d=`M4 5h16v11H9l-4 3v-3H4z` stroke=`currentColor` stroke-width=`1.8` stroke-linejoin=`round`/></svg>';
  var sendIcon = '<svg width=`16` height=`16` viewBox=`0 0 16 16` fill=`none`><path d=`M8 13V3m0 0L4 7m4-4 4 4` stroke=`currentColor` stroke-width=`1.6` stroke-linecap=`round` stroke-linejoin=`round`/></svg>';

  root.innerHTML =
    '<style>' + css + '</style>' +
    '<div class=`panel` id=`p`>' +
      '<div class=`hd`><div class=`av`>Y</div><div><div class=`t`>Chat with us</div><div class=`s`>Typically replies instantly</div></div></div>' +
      '<div class=`msgs` id=`m`></div>' +
      '<form class=`cp` id=`f`><input id=`i` placeholder=`Type a message...` autocomplete=`off`/><button type=`submit` id=`b` disabled>' + sendIcon + '</button></form>' +
    '</div>' +
    '<button class=`launcher` id=`l`>' + chatIcon + '</button>';

  var panel = root.getElementById('p');
  var msgs = root.getElementById('m');
  var input = root.getElementById('i');
  var sendBtn = root.getElementById('b');
  var titleEl = root.querySelector('.hd .t');

  function applyCfg() {
    host.style.setProperty('--accent', cfg.accent);
    titleEl.textContent = cfg.title;
  }
  applyCfg();

  // Pull the merchant's branding (title, welcome, accent).
  fetch(base + '/public/chat/config', { headers: { 'X-Yaver-Key': key } })
    .then(function (r) { return r.json(); })
    .then(function (d) {
      if (d && d.title) { cfg = { title: d.title, welcome: d.welcome, accent: d.accent }; applyCfg(); }
    }).catch(function () {});

  function scroll() { msgs.scrollTop = msgs.scrollHeight; }
  function add(role, text) {
    var d = document.createElement('div');
    d.className = 'b ' + (role === 'user' ? 'u' : 'a');
    d.textContent = text;
    msgs.appendChild(d); scroll(); return d;
  }
  function typing() {
    var d = document.createElement('div');
    d.className = 'dots'; d.innerHTML = '<i></i><i></i><i></i>';
    msgs.appendChild(d); scroll(); return d;
  }

  root.getElementById('l').addEventListener('click', function () {
    open = !open;
    panel.classList.toggle('open', open);
    if (open && msgs.childElementCount === 0) {
      add('assistant', cfg.welcome);
      input.focus();
    }
  });
  input.addEventListener('input', function () { sendBtn.disabled = !input.value.trim(); });

  root.getElementById('f').addEventListener('submit', function (e) {
    e.preventDefault();
    var text = input.value.trim();
    if (!text) return;
    input.value = ''; sendBtn.disabled = true;
    add('user', text);
    var t = typing();
    fetch(base + '/public/chat/messages', {
      method: 'POST',
      headers: { 'Content-Type': 'application/json', 'X-Yaver-Key': key },
      body: JSON.stringify({ conversation_id: convId, text: text })
    }).then(function (r) { return r.json(); }).then(function (data) {
      t.remove();
      if (data && data.reply) { convId = data.conversation_id; add('assistant', data.reply); }
      else { add('assistant', 'Sorry, something went wrong.'); }
    }).catch(function () { t.remove(); add('assistant', 'Sorry, I could not reach the server.'); });
  });
})();
".

(** var cfg, and what the handlers of the script share. *)
Record config := mkConfig { title : string; welcome : string; accent : string }.

Record state := mkState {
  convId : option string;
  opened : bool;
  cfg : config;
  msgs : list (string * string)      (* role and text, as they are shown *)
}.

Definition loaded : state :=
  mkState None false
    (mkConfig "Chat with us" "Hi! 👋 How can I help you today?" "#111827") [].

Definition add (role text : string) (st : state) : state :=
  mkState (convId st) (opened st) (cfg st) (msgs st ++ [(role, text)]).

(** The answer of the config route, once it is JSON. *)
Definition on_config (d : json) (st : state) : state :=
  let get k := default "" (Js.string_prop d k) in
  if Js.truthy (Js.string_prop d "title")
  then mkState (convId st) (opened st)
         (mkConfig (get "title") (get "welcome") (get "accent")) (msgs st)
  else st.

(** The launcher: the first opening greets. *)
Definition on_launcher (st : state) : state :=
  let st := mkState (convId st) (negb (opened st)) (cfg st) (msgs st) in
  match msgs st with
  | [] => if opened st then add "assistant" (welcome (cfg st)) st else st
  | _ => st
  end.

Definition wrong : string := "Sorry, something went wrong.".
Definition unreachable : string := "Sorry, I could not reach the server.".

(** The answer to a message: [None] when the fetch fails or the answer is no
    JSON. *)
Definition on_answer (data : option json) (st : state) : state :=
  match data with
  | None => add "assistant" unreachable st
  | Some d =>
      if Js.truthy (Js.string_prop d "reply")
      then add "assistant" (default "" (Js.string_prop d "reply"))
             (mkState (Js.string_prop d "conversation_id") (opened st) (cfg st) (msgs st))
      else add "assistant" wrong st
  end.

Section Page.
(** The publishable key in the script's tag, and the visitor's address. *)
Context (key remote : string).

Definition config_request : Request :=
  mkRequest "GET" ["public"; "chat"; "config"] "" [("X-Yaver-Key", key)] "" false remote "".

(** JSON.stringify({ conversation_id: convId, text: text }) *)
Definition message_body (conv : option string) (text : string) : string :=
  "{" +:+ Js.quote "conversation_id" +:+ ":" +:+ Js.stringify conv +:+ "," +:+
  Js.quote "text" +:+ ":" +:+ Js.quote text +:+ "}".

Definition message_request (conv : option string) (text : string) : Request :=
  mkRequest "POST" ["public"; "chat"; "messages"] ""
    [("Content-Type", "application/json"); ("X-Yaver-Key", key)] "application/json" false
    remote (message_body conv text).

(** The form's submit handler: what is shown at once, and what is sent. *)
Definition on_submit (value : string) (st : state) : option (state * Request) :=
  let text := Js.trim value in
  if (text =? "")%string then None
  else Some (add "user" text st, message_request (convId st) text).

(** fetch, and the text of the body it resolves to; [None] when it rejects. *)
Context (fetch : Request -> prog World (option string)).

Definition json_of (body : option string) : option json :=
  match body with Some text => Json.parse text | None => None end.

(** One message, awaited. *)
Definition submit (value : string) (st : state) : prog World state :=
  match on_submit value st with
  | None => ret st
  | Some (st, r) =>
      let! body := fetch r in
      ret (on_answer (json_of body) st)
  end.

(** A visit: the messages of a visitor who waits for each answer. *)
Fixpoint visit (values : list string) (st : state) : prog World state :=
  match values with
  | [] => ret st
  | v :: values => let! st := submit v st in visit values st
  end.
End Page.

(** ** The paths the text requests: what follows fetch(base + ' up to a quote *)

Fixpoint until (c : ascii) (s : string) : string :=
  match s with
  | EmptyString => EmptyString
  | String x s' => if Ascii.eqb x c then EmptyString else String x (until c s')
  end.

Definition fetch_call : string := "fetch(base + '/".

Fixpoint fetched (s : string) : list string :=
  match s with
  | EmptyString => []
  | String _ s' =>
      (if String.prefix fetch_call s
       then [until "'" (Strings.drop (String.length fetch_call) s)] else []) ++ fetched s'
  end.
End Widget.
