(* ===== verification/HttpAuth.v ===== *)
(** * The transport: login, sessions, keys and the event endpoint

    internal/transport/http/auth.go, ingest.go and public.go.  A handler takes
    the request and gives the response; what it logs is left out.  A panic of a
    handler is net/http's to recover: the connection is closed. *)

From S2P Require Import Prelude.
From S2P Require Import Domain.
From S2P Require Import Effects.
From S2P Require Import GoLib.
From S2P Require Import Json.
From S2P Require Import Phone.
From S2P Require Import Store.
From S2P Require Import Crypto.
From S2P Require Import Ports.
From S2P Require Import PgAuth.
From S2P Require Import PgChat.
From S2P Require Import PgCampaigns.
From S2P Require Import PgIngest.
From S2P Require Import Auth.
From S2P Require Import Chat.
From S2P Require Import Orchestrator.
From S2P Require Import Ingest.
From S2P Require Import GoTime.
From S2P Require Import HttpLib.
From S2P Require Import Widget.
From stdpp Require Import gmap strings list.
From Stdlib Require Import ZArith Lia.

Open Scope Z_scope.
Open Scope go_scope.

(** time.Local: the offset, in seconds, of the process's time zone.  A
    timestamptz column is read in it. *)
Module LocalZone.
Class T := { offset : Time -> Z }.
End LocalZone.

(** t.Format(time.RFC3339) of a time read from the database. *)
Definition rfc3339 {local : LocalZone.T} (t : Time) : string :=
  Format.RFC3339 t (LocalZone.offset t).

(** What requireAuth puts in the context. *)
Record Session := mkSession { ss_User : SessionUser; ss_Org : Org }.

Definition orgFromCtx (s : Session) : OrgID := org_ID (ss_Org s).

Definition handler : Type := Request -> prog World Response.

Definition zero1 {A} (d : Json.decoder A) (k : string) : Json.decoder A := Json.dstruct [(k, d)].

(** *** auth.go *)

Module AuthHandler.
Definition cookieName : string := "yaver_session".

Record otpVerifyBody := mkOtpVerifyBody { ov_Phone : string; ov_Code : string }.

Definition dOtpVerifyBody : Json.decoder otpVerifyBody := Json.dstruct
  [("phone", Json.field ov_Phone (fun x b => mkOtpVerifyBody x (ov_Code b)) Json.dstring);
   ("code", Json.field ov_Code (fun x b => mkOtpVerifyBody (ov_Phone b) x) Json.dstring)].

Record credsBody := mkCredsBody { cr_Email : string; cr_Password : string; cr_Name : string }.

Definition dCredsBody : Json.decoder credsBody := Json.dstruct
  [("email", Json.field cr_Email (fun x b => mkCredsBody x (cr_Password b) (cr_Name b))
      Json.dstring);
   ("password", Json.field cr_Password (fun x b => mkCredsBody (cr_Email b) x (cr_Name b))
      Json.dstring);
   ("name", Json.field cr_Name (fun x b => mkCredsBody (cr_Email b) (cr_Password b) x)
      Json.dstring)].

Section Handler.
Context {repo : AuthRepo.T} {clock : Clock.T} {sms : SMSSender.T} {hmac : HMAC.T}
  {sha : SHA256.T} {bcrypt : Bcrypt.T} {orgs : OrgStore.T}.
Context (secret : string) (dev : bool).   (* devEcho, and cookies without Secure *)

Definition requestOTP : handler := fun r =>
  let '(phone, ok) := Json.Decode (zero1 Json.dstring "phone") "" (rq_Body r) in
  if negb ok then ret (error_json 400 "invalid body")
  else match Phone.NormalizeBD phone with
       | inr _ => ret (error_json 400 "invalid phone")
       | inl e164 =>
           let! devCode := ptry (Auth.RequestOTP secret dev e164) in
           match devCode with
           | inr _ => ret internal
           | inl devCode =>
               ret (writeJSON 200 (jmap
                 ([("status", JStr "sent")] ++
                  (if negb (devCode =? "")%string then [("dev_code", JStr devCode)] else []))))
           end
       end.

(** The response, with the session cookie. *)
Definition setSessionCookie (token : string) (exp : Time) (resp : Response) : Response :=
  mkResponse (rs_Code resp)
    (("Set-Cookie", Cookie.to_string cookieName token exp false true (negb dev) true)
       :: rs_Header resp) (rs_Body resp).

Definition verifyOTP : handler := fun r =>
  let '(body, ok) := Json.Decode dOtpVerifyBody (mkOtpVerifyBody "" "") (rq_Body r) in
  if negb ok then ret (error_json 400 "invalid body")
  else match Phone.NormalizeBD (ov_Phone body) with
       | inr _ => ret (error_json 400 "invalid phone")
       | inl e164 =>
           let! res := ptry (Auth.VerifyOTP secret e164 (ov_Code body)) in
           match res with
           | inr ErrInvalidOTP => ret (error_json 401 "invalid or expired code")
           | inr _ => ret internal
           | inl (token, su) =>
               ret (setSessionCookie token (su_ExpiresAt su)
                 (writeJSON 200 (jmap [("user_id", JStr (su_UserID su));
                                       ("phone", JStr (su_Phone su))])))
           end
       end.

Definition logged_in (token : string) (su : SessionUser) : Response :=
  setSessionCookie token (su_ExpiresAt su)
    (writeJSON 200 (jmap [("user_id", JStr (su_UserID su)); ("email", JStr (su_Email su))])).

Definition register : handler := fun r =>
  let '(body, ok) := Json.Decode dCredsBody (mkCredsBody "" "" "") (rq_Body r) in
  if negb ok then ret (error_json 400 "invalid body")
  else
    let! res := ptry (Auth.Register (cr_Email body) (cr_Password body) (cr_Name body)) in
    match res with
    | inr ErrEmailTaken => ret (error_json 409 "email already registered")
    | inr ErrInvalidCredentials =>
        ret (error_json 400 "email and an 8+ character password are required")
    | inr _ => ret internal
    | inl (token, su) => ret (logged_in token su)
    end.

Definition login : handler := fun r =>
  let '(body, ok) := Json.Decode dCredsBody (mkCredsBody "" "" "") (rq_Body r) in
  if negb ok then ret (error_json 400 "invalid body")
  else
    let! res := ptry (Auth.Login (cr_Email body) (cr_Password body)) in
    match res with
    | inr ErrInvalidCredentials => ret (error_json 401 "invalid email or password")
    | inr _ => ret internal
    | inl (token, su) => ret (logged_in token su)
    end.

(** The cookie that deletes the session cookie. *)
Definition clear_cookie : string := Cookie.to_string cookieName "" 0 true false false false.

Definition logout : handler := fun r =>
  do! (match Cookie.get r cookieName with
       | Some token => pignore (Auth.Logout token)
       | None => ret tt
       end) in
  let resp := status_json 200 "status" "logged out" in
  ret (mkResponse (rs_Code resp) (("Set-Cookie", clear_cookie) :: rs_Header resp) (rs_Body resp)).

Definition me (s : Session) : handler := fun r =>
  let su := ss_User s in
  ret (writeJSON 200 (jmap
    [("user_id", JStr (su_UserID su)); ("phone", JStr (su_Phone su));
     ("email", JStr (su_Email su)); ("name", JStr (su_Name su));
     ("org", jmap [("id", JStr (org_ID (ss_Org s))); ("name", JStr (org_Name (ss_Org s)))])])).

Definition renameOrg (s : Session) : handler := fun r =>
  let '(name, ok) := Json.Decode (zero1 Json.dstring "name") "" (rq_Body r) in
  if negb ok || (name =? "")%string then ret (error_json 400 "name required")
  else
    let! res := ptry (OrgStore.Rename (orgFromCtx s) name) in
    match res with
    | inr _ => ret internal
    | inl _ => ret (status_json 200 "name" name)
    end.

(** The session of the request's cookie, or the refusal. *)
Definition requireAuth (next : Session -> handler) : handler := fun r =>
  match Cookie.get r cookieName with
  | None => ret (error_json 401 "unauthorized")
  | Some token =>
      let! res := ptry (Auth.Resolve token) in
      match res with
      | inr _ => ret internal
      | inl (_, false) => ret (error_json 401 "unauthorized")
      | inl (su, true) =>
          let! org := ptry (OrgStore.EnsureForUser (su_UserID su) "My Store") in
          match org with
          | inr _ => ret internal
          | inl org => next (mkSession su org) r
          end
      end
  end.
End Handler.
End AuthHandler.

(** *** ingest.go *)

Module IngestHandler.
Record eventBody := mkEventBody {
  eb_EventType : string; eb_EventID : string; eb_Phone : string; eb_Name : string;
  eb_ExternalID : string
}.

Definition zeroEventBody : eventBody := mkEventBody "" "" "" "" "".

(** The nested customer object. *)
Definition dCustomer : Json.decoder eventBody := Json.dstruct
  [("phone", Json.field eb_Phone (fun x b =>
      mkEventBody (eb_EventType b) (eb_EventID b) x (eb_Name b) (eb_ExternalID b)) Json.dstring);
   ("name", Json.field eb_Name (fun x b =>
      mkEventBody (eb_EventType b) (eb_EventID b) (eb_Phone b) x (eb_ExternalID b)) Json.dstring);
   ("external_id", Json.field eb_ExternalID (fun x b =>
      mkEventBody (eb_EventType b) (eb_EventID b) (eb_Phone b) (eb_Name b) x) Json.dstring)].

Definition dEventBody : Json.decoder eventBody := Json.dstruct
  [("event_type", Json.field eb_EventType (fun x b =>
      mkEventBody x (eb_EventID b) (eb_Phone b) (eb_Name b) (eb_ExternalID b)) Json.dstring);
   ("event_id", Json.field eb_EventID (fun x b =>
      mkEventBody (eb_EventType b) x (eb_Phone b) (eb_Name b) (eb_ExternalID b)) Json.dstring);
   ("customer", dCustomer)].

Section Handler.
Context {sha : SHA256.T} {keys : APIKeyRepo.T} {events : EventRepo.T}
  {customers : CustomerRepo.T} {flows : FlowRepo.T} {orch : Orchestrator.T}
  {local : LocalZone.T}.

Definition requireAPIKey (next : OrgID -> handler) : handler := fun r =>
  let! res := ptry (APIKeys.Authenticate (header_get (rq_Header r) "X-Api-Key")) in
  match res with
  | inr _ => ret internal
  | inl ((org, kind), ok) =>
      if negb ok || negb (kind =? "secret")%string then ret (error_json 401 "invalid api key")
      else next org r
  end.

Definition postEvent (org : OrgID) : handler := fun r =>
  let raw := limited (2 ^ 20) (rq_Body r) in
  match Json.Unmarshal dEventBody zeroEventBody raw with
  | None => ret (error_json 400 "invalid body")
  | Some body =>
      if (eb_EventType body =? "")%string || (eb_EventID body =? "")%string
      then ret (error_json 400 "event_type and event_id are required")
      else
        let! res := ptry (Ingest.Accept org
          (Ingest.mkEvent (eb_EventType body) (eb_EventID body) (eb_Phone body) (eb_Name body)
             (eb_ExternalID body) raw)) in
        match res with
        | inr ErrInvalidPhone => ret (error_json 400 "invalid phone")
        | inr _ => ret internal
        | inl (_, true) => ret (status_json 200 "status" "duplicate")
        | inl (eventID, false) =>
            ret (writeJSON 202 (jmap [("status", JStr "accepted"); ("event_id", JStr eventID)]))
        end
  end.

Definition key_json (k : APIKeyInfo) : json :=
  JObj [("prefix", JStr (ak_Prefix k)); ("name", JStr (ak_Name k)); ("kind", JStr (ak_Kind k));
        ("created_at", JStr (rfc3339 (ak_CreatedAt k)));
        ("last_used_at", match ak_LastUsedAt k with
                         | Some t => JStr (rfc3339 t) | None => JNull end)].

Definition listKeys (s : Session) : handler := fun r =>
  let! res := ptry (APIKeys.List (orgFromCtx s)) in
  match res with
  | inr _ => ret internal
  | inl keys => ret (writeJSON 200 (JObj [("keys", JArr (map key_json keys))]))
  end.

Definition mintKey (s : Session) : handler := fun r =>
  let! res := ptry (APIKeys.Mint (orgFromCtx s) "dashboard") in
  match res with
  | inr _ => ret internal
  | inl full => ret (status_json 200 "api_key" full)
  end.

Definition mintPublishableKey (s : Session) : handler := fun r =>
  let! res := ptry (APIKeys.MintPublishable (orgFromCtx s) "widget") in
  match res with
  | inr _ => ret internal
  | inl full => ret (status_json 200 "api_key" full)
  end.
End Handler.
End IngestHandler.

(** *** public.go *)

Module PublicHandler.
Definition cors_headers : list (string * string) :=
  [("Access-Control-Allow-Origin", "*");
   ("Access-Control-Allow-Methods", "POST, GET, OPTIONS");
   ("Access-Control-Allow-Headers", "Content-Type, X-Yaver-Key");
   ("Access-Control-Max-Age", "86400")].

Definition cors (next : handler) : handler := fun r =>
  if (rq_Method r =? "OPTIONS")%string then ret (mkResponse 204 cors_headers "")
  else
    let! resp := next r in
    ret (mkResponse (rs_Code resp) (cors_headers ++ rs_Header resp) (rs_Body resp)).

Record messageBody := mkMessageBody { mb_ConversationID : string; mb_Text : string }.

Definition dMessageBody : Json.decoder messageBody := Json.dstruct
  [("conversation_id", Json.field mb_ConversationID (fun x b => mkMessageBody x (mb_Text b))
      Json.dstring);
   ("text", Json.field mb_Text (fun x b => mkMessageBody (mb_ConversationID b) x) Json.dstring)].

Section Handler.
Context {sha : SHA256.T} {keys : APIKeyRepo.T} {repo : ChatRepo.T}
  {settings : ChatSettingsRepo.T} {model : ChatModel.T}.
Context (activity : option ActivityPublisher.T).

(** The org of a publishable key, or the refusal. *)
Definition with_publishable_key (next : OrgID -> handler) : handler := fun r =>
  let! res := ptry (APIKeys.Authenticate (header_get (rq_Header r) "X-Yaver-Key")) in
  match res with
  | inr _ => ret internal
  | inl ((org, kind), ok) =>
      if negb ok || negb (kind =? "publishable")%string
      then ret (error_json 401 "invalid publishable key")
      else next org r
  end.

Definition sent (convID reply : string) : Response :=
  writeJSON 200 (jmap [("conversation_id", JStr convID); ("reply", JStr reply)]).

Definition chatSend : handler := with_publishable_key (fun org r =>
  let '(body, ok) := Json.Decode dMessageBody (mkMessageBody "" "")
                       (limited (2 ^ 16) (rq_Body r)) in
  if negb ok || (mb_Text body =? "")%string then ret (error_json 400 "text required")
  else
    let! res := ptry (Chat.Send activity org (mb_ConversationID body) (mb_Text body)) in
    match res with
    | inl (convID, reply) => ret (sent convID reply)
    | inr _ =>
        let! res := ptry (Chat.Send activity org "" (mb_Text body)) in
        match res with
        | inl (convID, reply) => ret (sent convID reply)
        | inr _ => ret internal
        end
    end).

Definition chatConfig : handler := with_publishable_key (fun org r =>
  let! res := ptry (Chat.Settings org) in
  match res with
  | inr _ => ret internal
  | inl cs =>
      ret (writeJSON 200 (jmap [("title", JStr (cs_WidgetTitle cs));
                                ("welcome", JStr (cs_Welcome cs));
                                ("accent", JStr (cs_Accent cs))]))
  end).

(** The embed script. *)
Definition widget : handler := fun r =>
  ret (mkResponse 200 [("Content-Type", "application/javascript; charset=utf-8");
                       ("Cache-Control", "public, max-age=300")] Widget.widgetJS).
End Handler.
End PublicHandler.
