(* ===== verification/LoginSpec.v ===== *)
(** * Signing in over HTTP

    The cookie the server sets is the cookie it reads back: from the login route
    through the browser to every route behind requireAuth, until it expires or the
    logout route is called. *)

From S2P Require Import Prelude.
From S2P Require Import Domain.
From S2P Require Import Effects.
From S2P Require Import GoLib.
From S2P Require Import Json.
From S2P Require Import GoTime.
From S2P Require Import Store.
From S2P Require Import Crypto.
From S2P Require Import Ports.
From S2P Require Import PgCredits.
From S2P Require Import PgFlows.
From S2P Require Import PgCalls.
From S2P Require Import Calls.
From S2P Require Import PgAuth.
From S2P Require Import Auth.
From S2P Require Import NoFault.
From S2P Require Import AuthSpec.
From S2P Require Import HttpLib.
From S2P Require Import HttpAuth.
From stdpp Require Import gmap strings list.
From Stdlib Require Import ZArith Lia Ascii.

Open Scope Z_scope.
Open Scope go_scope.

(** ** Cookies *)

(** The characters of a token: none is blank, a quote, or a separator. *)
Definition plain (c : ascii) : bool :=
  let b := byte_of c in
  (32 <? b) && (b <? 127) && negb (b =? 34) && negb (b =? 59) && negb (b =? 92).

Lemma b64_digit_plain d : 0 <= d < 64 -> plain (Encoding.b64_digit d) = true.
Proof.
  intros Hd. unfold Encoding.b64_digit, plain.
  repeat match goal with |- context [if ?b then _ else _] => destruct b eqn:? end;
    bool_prop; rewrite byte_of_chr, Z.mod_small by lia;
    repeat (apply andb_true_intro; split);
    rewrite ?negb_true_iff; first [apply Z.ltb_lt; lia | apply Z.eqb_neq; lia].
Qed.

Lemma plain_bytes c : plain c = true ->
  Cookie.blank c = false /\ Cookie.valid_byte c = true /\ byte_of c <> 34 /\ byte_of c <> 59.
Proof.
  unfold plain, Cookie.blank, Cookie.valid_byte. intros H. bool_prop.
  split_and!; try done.
  - rewrite !orb_false_iff, !Z.eqb_neq. lia.
  - rewrite !andb_true_iff, !negb_true_iff, Z.leb_le, Z.ltb_lt, !Z.eqb_neq. lia.
Qed.

Lemma forallb_rev p s acc :
  Strings.forallb p (Strings.rev_onto s acc) = Strings.forallb p s && Strings.forallb p acc.
Proof.
  revert acc. induction s as [|c s IH]; intros acc; simpl; [done|].
  rewrite IH. simpl. by destruct (p c), (Strings.forallb p s).
Qed.

Lemma trim_left_plain s : Strings.forallb plain s = true -> Cookie.trim_left s = s.
Proof. destruct s as [|c s]; [done|]. simpl. intros H. bool_prop. by destruct (plain_bytes c) as [-> _]. Qed.

Lemma TrimString_plain s : Strings.forallb plain s = true -> Cookie.TrimString s = s.
Proof.
  intros H. unfold Cookie.TrimString. rewrite (trim_left_plain _ H).
  rewrite trim_left_plain by (by rewrite forallb_rev, H). by rewrite Strings.rev_onto_twice, Strings.app_nil_r.
Qed.

Definition semicolon : ascii := ";".

Lemma split_plain s : Strings.forallb plain s = true -> split_on semicolon s = [s].
Proof.
  induction s as [|c s IH]; simpl; [done|]. intros H. bool_prop. rewrite IH by done.
  destruct (Ascii.eqb_spec c semicolon) as [->|]; [done|done].
Qed.

Lemma cut_plain s t : Strings.forallb plain s = true ->
  cut semicolon (s +:+ String semicolon t) = (s, t, true).
Proof.
  induction s as [|c s IH]; simpl; [done|]. intros H. bool_prop. rewrite IH by done.
  destruct (Ascii.eqb_spec c semicolon) as [->|]; [done|done].
Qed.

Lemma unquote_plain s : Strings.forallb plain s = true -> Cookie.unquote s = s.
Proof.
  destruct s as [|c s]; [done|]. simpl. intros H. bool_prop.
  destruct (plain_bytes c) as (_ & _ & Hq & _); [done|]. apply Z.eqb_neq in Hq.
  rewrite Hq. by rewrite andb_false_r.
Qed.

Lemma plain_valid s : Strings.forallb plain s = true -> Strings.forallb Cookie.valid_byte s = true.
Proof.
  induction s as [|c s IH]; simpl; [done|]. intros H. bool_prop. rewrite IH by done.
  by destruct (plain_bytes c) as (_ & -> & _).
Qed.

(** What a browser sends back for a response: the pair before the attributes. *)
Definition browser_cookie (resp : Response) : string :=
  fst (fst (cut semicolon (header_get (rs_Header resp) "Set-Cookie"))).

Definition pair_of_token (token : string) : string := AuthHandler.cookieName +:+ "=" +:+ token.

Lemma pair_plain token : Strings.forallb plain token = true ->
  Strings.forallb plain (pair_of_token token) = true.
Proof. intros H. unfold pair_of_token. rewrite !Strings.forallb_app. by rewrite H. Qed.

Lemma browser_keeps_pair dev token exp resp :
  Strings.forallb plain token = true ->
  browser_cookie (AuthHandler.setSessionCookie dev token exp resp) = pair_of_token token.
Proof.
  intros H. unfold browser_cookie, AuthHandler.setSessionCookie, header_get, header_values. simpl.
  unfold Cookie.to_string. simpl. by rewrite (cut_plain token _ H).
Qed.

Lemma get_reads_pair r token :
  Strings.forallb plain token = true ->
  header_values (rq_Header r) "Cookie" = [pair_of_token token] ->
  Cookie.get r AuthHandler.cookieName = Some token.
Proof.
  intros H Hh. unfold Cookie.get. rewrite Hh. cbn [map]. unfold Cookie.line_values.
  rewrite TrimString_plain by (by apply pair_plain).
  rewrite split_plain by (by apply pair_plain). cbn [omap].
  assert (Cookie.part_value AuthHandler.cookieName (pair_of_token token) = Some token) as Hp.
  { unfold Cookie.part_value. rewrite TrimString_plain by (by apply pair_plain).
    change (cut "=" (pair_of_token token)) with (AuthHandler.cookieName, token, true).
    cbv iota beta. rewrite TrimString_plain by reflexivity. rewrite String.eqb_refl.
    unfold Cookie.parse_value. by rewrite (unquote_plain _ H), (plain_valid _ H). }
  unfold list_omap. simpl. by rewrite Hp.
Qed.

(** ** The routes *)

Section Login.
Context (env : Env) (Hnf : forall n, env_fault env n = NoFault).
Context {uuid : Uuid.T} {sms : SMSSender.T} {hmac : HMAC.T} {sha : SHA256.T}
  {bcrypt : Bcrypt.T} {bcrypt_laws : Bcrypt.Laws bcrypt}.
Context (dev : bool) (Hmint : minting env).

#[local] Existing Instances PgAuthRepo.repo PgOrgRepo.repo RealClock.clock.

Lemma token_plain n : Strings.forallb plain (token_at env n) = true.
Proof. apply base64url_forall, b64_digit_plain. Qed.

(** An account that can log in. *)
Record account (email : string) (row : UserRow) (hash : string) (d : DB) : Prop := {
  acc_text : text_ok (Auth.fold_email email) = true;
  acc_email : tfind (AuthQ.has_email (Auth.fold_email email)) (users d) = Some row;
  acc_id : tfind (AuthQ.has_user_id (user_id row)) (users d) = Some row;
  acc_uuid : Uuid.Parse (user_id row) = Some (user_id row);
  acc_hash : user_password_hash row = Some hash;
  acc_nonempty : hash <> ""
}.

(** What requireAuth does once it knows the user. *)
Definition let_in (next : Session -> handler) (su : SessionUser) : handler := fun r =>
  let! org := ptry (OrgStore.EnsureForUser (su_UserID su) "My Store") in
  match org with
  | inr _ => ret internal
  | inl org => next (mkSession su org) r
  end.

Lemma run_requireAuth token next r w :
  token <> "" -> Cookie.get r AuthHandler.cookieName = Some token ->
  run env (AuthHandler.requireAuth next r) w =
  match lookup_session (w_db w) (Auth.hashToken token) (env_clock env (w_tick w)) with
  | Some (u, exp) => run env (let_in next (session_of (PgAuthRepo.row_user u) exp) r) (tick w)
  | None => (Ok (error_json 401 "unauthorized"), tick w)
  end.
Proof using Hnf.
  intros Ht Hc. unfold AuthHandler.requireAuth. rewrite Hc, run_bind, run_try.
  rewrite (run_Resolve env Hnf token w Ht). by destruct (lookup_session _ _ _) as [[u exp]|].
Qed.

(** The session of a token drawn at [n], the last of the table. *)
Lemma lookup_issued d0 d n sid row exp made now :
  fresh_from env n d0 ->
  sessions d = sessions d0 ++
    [mkSessionRow sid (Auth.hashToken (token_at env n)) (user_id row) exp made] ->
  tfind (AuthQ.has_user_id (user_id row)) (users d) = Some row ->
  lookup_session d (Auth.hashToken (token_at env n)) now =
  if now <? exp then Some (row, exp) else None.
Proof using Type.
  intros Hf Hs Hu. unfold lookup_session. rewrite Hs, tfind_app.
  rewrite (tfind_none_weaken (AuthQ.has_token (Auth.hashToken (token_at env n)))).
  - simpl. unfold AuthQ.has_token. simpl. rewrite String.eqb_refl. simpl.
    destruct (_ <? _); [|done]. simpl. by rewrite Hu.
  - intros x Hx. by bool_prop.
  - apply (tfind_fresh session_token_hash). intros x Hx.
    by apply (fresh_sessions _ _ _ Hf n x (le_n _) Hx).
Qed.

(** Without a row of the token, nobody. *)
Lemma lookup_logged_out d hash now ss :
  sessions d = tdelete (AuthQ.has_token hash) ss -> lookup_session d hash now = None.
Proof using Type.
  intros Hs. unfold lookup_session. rewrite Hs, tfind_tdelete_all; [done|].
  intros x Hx. by bool_prop.
Qed.

(** C21: Signing in: the login route answers 200 with a cookie; sent back by the
    browser on any later request it opens every route behind requireAuth, as the
    account that logged in, for thirty days and not beyond; and once the logout
    route has been called with it, it opens none. *)
Theorem login_cookie_opens_routes email password name row hash r w :
  Json.Decode AuthHandler.dCredsBody (AuthHandler.mkCredsBody "" "" "") (rq_Body r) =
    (AuthHandler.mkCredsBody email password name, true) ->
  account email row hash (w_db w) -> Bcrypt.Compare hash password = true ->
  fresh_from env (w_tick w) (w_db w) ->
  let exp := env_clock env (S (S (w_tick w))) + 30 * 24 * Hour in
  exists resp w1, run env (AuthHandler.login dev r) w = (Ok resp, w1) /\ rs_Code resp = 200 /\
    forall next r' w2,
      sessions (w_db w2) = sessions (w_db w1) -> users (w_db w2) = users (w_db w1) ->
      header_values (rq_Header r') "Cookie" = [browser_cookie resp] ->
      run env (AuthHandler.requireAuth next r') w2 =
        (if env_clock env (w_tick w2) <? exp
         then run env (let_in next (session_of (PgAuthRepo.row_user row) exp) r') (tick w2)
         else (Ok (error_json 401 "unauthorized"), tick w2)) /\
      exists resp' w3, run env (AuthHandler.logout r') w2 = (Ok resp', w3) /\
        forall next' w4, sessions (w_db w4) = sessions (w_db w3) ->
          run env (AuthHandler.requireAuth next' r') w4 =
          (Ok (error_json 401 "unauthorized"), tick w4).
Proof using Hnf Hmint bcrypt_laws.
  intros Hb [] Hc Hf exp.
  pose proof (fresh_later env w Hf) as Hf1.
  pose proof (run_issueSession env Hnf (PgAuthRepo.row_user row) row (tick w) Hf1 acc_uuid0 acc_id0)
    as Hrun. cbv zeta in Hrun.
  set (token := token_at env (w_tick (tick w))) in *.
  pose proof (token_plain (w_tick (tick w)) : Strings.forallb plain token = true) as Hp.
  pose proof (token_nonempty env (w_tick (tick w)) : token <> "") as Hne.
  eexists _, _. split.
  { unfold AuthHandler.login. rewrite Hb. cbn [negb]. rewrite run_bind, run_try. cbn [AuthHandler.cr_Email AuthHandler.cr_Password].
    rewrite (run_Login_issue env Hnf email password row hash w) by done. rewrite Hc, Hrun.
    reflexivity. }
  split; [reflexivity|]. intros next r' w2 Hs Hus Hck.
  unfold AuthHandler.logged_in in Hck. rewrite browser_keeps_pair in Hck by done.
  pose proof (get_reads_pair r' token Hp Hck) as Hget.
  split.
  - rewrite (run_requireAuth token next r' w2 Hne Hget).
    rewrite (lookup_issued (w_db (tick w)) (w_db w2) (w_tick (tick w)) _ row exp _ _ Hf1 Hs);
      [|by rewrite Hus].
    by destruct (_ <? _).
  - eexists _, _. split.
    { unfold AuthHandler.logout. rewrite Hget, run_bind, run_ignore.
      rewrite (run_Logout env Hnf token w2 Hne). reflexivity. }
    intros next' w4 Hs4. rewrite (run_requireAuth token next' r' w4 Hne Hget).
    by rewrite (lookup_logged_out _ _ _ _ Hs4).
Qed.
End Login.

(** ** At a concrete account *)

Module LoginDemo.
Import AuthDemo.

Definition bob : UserRow := mkUserRow "u1" None (Some "bob@shop.com") None 0 (Some "$password1").
Definition world : World := mkWorld 0 (mkState (set_users [bob] emptyDB) [] []).

Definition login_request : Request :=
  mkRequest "POST" ["v1"; "auth"; "login"] "" [] "application/json" false "10.0.0.1:9999"
    (json_text "{`email`:` Bob@Shop.com`,`password`:`password1`}").

Lemma bob_fresh : fresh_from env 0 (w_db world).
Proof. split; intros m r _ Hr; [|destruct Hr..]. destruct Hr as [<-|[]]. by apply strokes_not. Qed.

#[local] Existing Instances PgAuthRepo.repo PgOrgRepo.repo RealClock.clock.

Lemma login_cookie_opens_routes_witness :
  exists resp w1, run env (AuthHandler.login false login_request) world = (Ok resp, w1) /\
    rs_Code resp = 200 /\
    forall next r' w2,
      sessions (w_db w2) = sessions (w_db w1) -> users (w_db w2) = users (w_db w1) ->
      header_values (rq_Header r') "Cookie" = [browser_cookie resp] ->
      run env (AuthHandler.requireAuth next r') w2 =
        (if env_clock env (w_tick w2) <? env_clock env 2 + 30 * 24 * Hour
         then run env (let_in next (session_of (PgAuthRepo.row_user bob)
                                      (env_clock env 2 + 30 * 24 * Hour)) r') (tick w2)
         else (Ok (error_json 401 "unauthorized"), tick w2)) /\
      exists resp' w3, run env (AuthHandler.logout r') w2 = (Ok resp', w3) /\
        forall next' w4, sessions (w_db w4) = sessions (w_db w3) ->
          run env (AuthHandler.requireAuth next' r') w4 =
          (Ok (error_json 401 "unauthorized"), tick w4).
Proof.
  apply (login_cookie_opens_routes env (fun _ => eq_refl) false mint " Bob@Shop.com" "password1"
           "" bob "$password1" login_request world).
  - vm_compute. reflexivity.
  - split; try reflexivity. discriminate.
  - reflexivity.
  - apply bob_fresh.
Defined.
End LoginDemo.
