(* ===== verification/HttpCalls.v ===== *)
(** * The transport: calls, policies, flows, campaigns, customers

    internal/transport/http/server.go (callsHandler), callpolicy.go, flows.go,
    campaigns.go and customers.go. *)

From S2P Require Import Prelude.
From S2P Require Import Domain.
From S2P Require Import Effects.
From S2P Require Import GoLib.
From S2P Require Import Json.
From S2P Require Import Phone.
From S2P Require Import FlowEngine.
From S2P Require Import Store.
From S2P Require Import Ports.
From S2P Require Import CallPolicy.
From S2P Require Import Calls.
From S2P Require Import Flows.
From S2P Require Import PgCampaigns.
From S2P Require Import Orchestrator.
From S2P Require Import Campaigns.
From S2P Require Import Analytics.
From S2P Require Import HttpOut.
From S2P Require Import GoTime.
From S2P Require Import HttpLib.
From S2P Require Import HttpAuth.
From stdpp Require Import gmap strings list.
From Stdlib Require Import ZArith Lia.

Open Scope Z_scope.
Open Scope go_scope.

(** A field of a struct with omitempty. *)
Definition omitempty (k v : string) : list (string * json) :=
  if (v =? "")%string then [] else [(k, JStr v)].

(** *** server.go: callsHandler *)

Module CallsHandler.
Record testCallRequest := mkTestCallRequest { tc_Phone : string; tc_Digit : string }.

Definition dTestCallRequest : Json.decoder testCallRequest := Json.dstruct
  [("phone", Json.field tc_Phone (fun x b => mkTestCallRequest x (tc_Digit b)) Json.dstring);
   ("digit", Json.field tc_Digit (fun x b => mkTestCallRequest (tc_Phone b) x) Json.dstring)].

Record transcribeRequest := mkTranscribeRequest { tr_RecordingURL : string; tr_Locale : string }.

Definition dTranscribeRequest : Json.decoder transcribeRequest := Json.dstruct
  [("recording_url", Json.field tr_RecordingURL (fun x b => mkTranscribeRequest x (tr_Locale b))
      Json.dstring);
   ("locale", Json.field tr_Locale (fun x b => mkTranscribeRequest (tr_RecordingURL b) x)
      Json.dstring)].

(** callPolicyDTO has the fields of the policy. *)
Definition dCallPolicy : Json.decoder CallPolicy := Json.dstruct
  [("window_start", Json.field pol_WindowStart (fun x p =>
      mkCallPolicy x (pol_WindowEnd p) (pol_Timezone p) (pol_MaxRetries p)) Json.dint);
   ("window_end", Json.field pol_WindowEnd (fun x p =>
      mkCallPolicy (pol_WindowStart p) x (pol_Timezone p) (pol_MaxRetries p)) Json.dint);
   ("timezone", Json.field pol_Timezone (fun x p =>
      mkCallPolicy (pol_WindowStart p) (pol_WindowEnd p) x (pol_MaxRetries p)) Json.dstring);
   ("max_retries", Json.field pol_MaxRetries (fun x p =>
      mkCallPolicy (pol_WindowStart p) (pol_WindowEnd p) (pol_Timezone p) x) Json.dint)].

Section Handler.
Context {tz : TimeZones.T} {provider : VoiceProvider.T} {outcomes : OutcomeRepo.T}
  {callrepo : CallRepo.T} {flows : FlowRepo.T} {credits : CreditRepo.T}
  {policy : CallPolicyRepo.T} {notifier : CreditNotifier.T} {clock : Clock.T}
  {orch : Orchestrator.T} {http : HttpOut.T} {stt : STT.T} {local : LocalZone.T}.
Context (activity : option ActivityPublisher.T).

Definition testCall (s : Session) : handler := fun r =>
  let '(req, ok) := Json.Decode dTestCallRequest (mkTestCallRequest "" "") (rq_Body r) in
  if negb ok then ret (error_json 400 "invalid body")
  else match Phone.NormalizeBD (tc_Phone req) with
       | inr _ => ret (error_json 400 "invalid phone")
       | inl e164 =>
           let digit := if (tc_Digit req =? "")%string then "1" else tc_Digit req in
           let! res := ptry (Calls.RunTestCall activity (orgFromCtx s) e164 digit
                               "order_confirm") in
           match res with
           | inr ErrNotFound => ret (error_json 404 "no active order_confirm flow")
           | inr ErrInsufficientCredits =>
               ret (error_json 402 "out of credits — top up to place calls")
           | inr _ => ret internal
           | inl (out, call) =>
               ret (writeJSON 200 (jmap [("call_id", JStr (call_ID call));
                                         ("status", JStr (out_Status out));
                                         ("result", JStr (out_Result out))]))
           end
       end.

Definition call_json (c : Call) : json :=
  JObj [("id", JStr (call_ID c)); ("direction", JStr (call_Direction c));
        ("status", JStr (call_Status c)); ("result", JStr (call_Result c));
        ("created_at", JStr (rfc3339 (call_CreatedAt c)))].

Definition listCalls (s : Session) : handler := fun r =>
  let! res := ptry (Calls.List (orgFromCtx s) 50) in
  match res with
  | inr _ => ret internal
  | inl list => ret (writeJSON 200 (JObj [("calls", JArr (map call_json list))]))
  end.

Definition call_detail_json (c : Call) : json :=
  JObj ([("id", JStr (call_ID c)); ("direction", JStr (call_Direction c));
         ("status", JStr (call_Status c)); ("result", JStr (call_Result c));
         ("flow_id", JStr (call_FlowID c)); ("provider_call_id", JStr (call_ProviderCallID c))]
        ++ omitempty "recording_url" (call_RecordingURL c)
        ++ omitempty "transcript" (call_Transcript c)
        ++ [("created_at", JStr (rfc3339 (call_CreatedAt c)))]).

Definition getCall (s : Session) (id : string) : handler := fun r =>
  let! res := ptry (Calls.Get (orgFromCtx s) id) in
  match res with
  | inr ErrNotFound => ret (error_json 404 "not found")
  | inr _ => ret internal
  | inl c => ret (writeJSON 200 (call_detail_json c))
  end.

Definition transcribeCall (s : Session) (id : string) : handler := fun r =>
  let! res := ptry (Calls.Get (orgFromCtx s) id) in
  match res with
  | inr _ => ret (error_json 404 "not found")
  | inl _ =>
      let '(req, ok) := Json.Decode dTranscribeRequest (mkTranscribeRequest "" "") (rq_Body r) in
      if negb ok || (tr_RecordingURL req =? "")%string
      then ret (error_json 400 "recording_url required")
      else
        let! res := ptry (Transcription.Transcribe id (tr_RecordingURL req) (tr_Locale req)) in
        match res with
        | inr _ => ret (error_json 502 "transcription failed")
        | inl _ => ret (status_json 200 "status" "ok")
        end
  end.

Definition summary (s : Session) : handler := fun r =>
  let! res := ptry (Calls.Summary (orgFromCtx s)) in
  match res with
  | inr _ => ret internal
  | inl m =>
      let rate := if 0 <? sum_Total m then percent (sum_Confirmed m) (sum_Total m) else 0 in
      ret (writeJSON 200 (jmap
        [("total", Json.jint (sum_Total m)); ("confirmed", Json.jint (sum_Confirmed m));
         ("cancelled", Json.jint (sum_Cancelled m)); ("today", Json.jint (sum_Today m));
         ("confirmation_rate", Json.jint rate)]))
  end.

Definition placeCall (s : Session) : handler := fun r =>
  let '(phone, ok) := Json.Decode (zero1 Json.dstring "phone") "" (rq_Body r) in
  if negb ok then ret (error_json 400 "invalid body")
  else match Phone.NormalizeBD phone with
       | inr _ => ret (error_json 400 "invalid phone")
       | inl e164 =>
           let! res := ptry (Orchestrator.EnqueuePlaceCall
                               (mkPlaceCallInput (orgFromCtx s) e164 "")) in
           match res with
           | inr _ => ret internal
           | inl _ => ret (status_json 202 "status" "queued")
           end
       end.

(** callpolicy.go *)
Definition policy_json (p : CallPolicy) : json :=
  JObj [("window_start", Json.jint (pol_WindowStart p));
        ("window_end", Json.jint (pol_WindowEnd p));
        ("timezone", JStr (pol_Timezone p)); ("max_retries", Json.jint (pol_MaxRetries p))].

Definition getPolicy (s : Session) : handler := fun r =>
  let! res := ptry (Calls.Policy (orgFromCtx s)) in
  match res with
  | inr _ => ret internal
  | inl p => ret (writeJSON 200 (policy_json p))
  end.

Definition savePolicy (s : Session) : handler := fun r =>
  let '(p, ok) := Json.Decode dCallPolicy (mkCallPolicy 0 0 "" 0) (rq_Body r) in
  if negb ok then ret (error_json 400 "invalid body")
  else
    let! res := ptry (Calls.SavePolicy (orgFromCtx s) p) in
    match res with
    | inr ErrInvalidCallPolicy =>
        ret (error_json 400
          "invalid policy: window must be start<end within 0-24, valid IANA timezone, retries 0-10")
    | inr _ => ret internal
    | inl _ => ret (status_json 200 "status" "saved")
    end.
End Handler.
End CallsHandler.

(** *** flows.go *)

Module FlowsHandler.
Definition flow_summary_json (f : FlowSummary) : json :=
  JObj [("id", JStr (fs_ID f)); ("name", JStr (fs_Name f)); ("version", Json.jint (fs_Version f));
        ("channel", JStr (fs_Channel f)); ("type", JStr (fs_Type f));
        ("active", JBool (fs_Active f))].

(** A json.RawMessage inside a value: its compact text; a text that is no JSON
    fails the encoder, which then writes nothing. *)
Definition raw_json (raw : string) : option json := option_map JNum (Json.compact raw).

Definition write_encoded (code : Z) (v : option json) : Response :=
  match v with
  | Some v => writeJSON code v
  | None => mkResponse code [("Content-Type", "application/json")] ""
  end.

Definition dNewFlow : list (string * Json.rdecoder NewFlow) :=
  let str get set := Json.rfield get set (Json.cooked Json.dstring) in
  [("name", str nf_Name (fun x f =>
      mkNewFlow x (nf_Channel f) (nf_Type f) (nf_Locale f) (nf_Spec f)));
   ("channel", str nf_Channel (fun x f =>
      mkNewFlow (nf_Name f) x (nf_Type f) (nf_Locale f) (nf_Spec f)));
   ("type", str nf_Type (fun x f =>
      mkNewFlow (nf_Name f) (nf_Channel f) x (nf_Locale f) (nf_Spec f)));
   ("locale", str nf_Locale (fun x f =>
      mkNewFlow (nf_Name f) (nf_Channel f) (nf_Type f) x (nf_Spec f)));
   ("spec", Json.rfield nf_Spec (fun x f =>
      mkNewFlow (nf_Name f) (nf_Channel f) (nf_Type f) (nf_Locale f) x) Json.draw)].

(** The spec and the inputs of a simulation. *)
Definition dSimulation : list (string * Json.rdecoder (string * list string)) :=
  [("spec", Json.rfield fst (fun x b => (x, snd b)) Json.draw);
   ("inputs", Json.rfield snd (fun x b => (fst b, x))
      (Json.cooked (Json.dslice "" Json.dstring)))].

Definition dSpec : list (string * Json.rdecoder string) := [("spec", Json.draw)].

Definition body_limit : Z := 2 ^ 20.

Section Handler.
Context {repo : FlowRepo.T}.

Definition list (s : Session) : handler := fun r =>
  let! res := ptry (Flows.List (orgFromCtx s)) in
  match res with
  | inr _ => ret internal
  | inl l => ret (writeJSON 200 (JObj [("flows", JArr (map flow_summary_json l))]))
  end.

Definition create (s : Session) : handler := fun r =>
  let body := Json.UnmarshalRaw dNewFlow (mkNewFlow "" "" "" "" "")
                (limited body_limit (rq_Body r)) in
  match body with
  | None => ret (error_json 400 "name required")
  | Some nf =>
      if (nf_Name nf =? "")%string then ret (error_json 400 "name required")
      else
        let! res := ptry (Flows.Create (orgFromCtx s) nf) in
        match res with
        | inr ErrConflict => ret (error_json 409 "a flow with that name already exists")
        | inr ErrFlowInvalid => ret (error_json 400 "invalid flow (name, type, or spec)")
        | inr _ => ret internal
        | inl id => ret (status_json 201 "id" id)
        end
  end.

Definition detail_json (fd : FlowDetail) : option json :=
  option_map (fun spec => jmap
    [("id", JStr (fd_ID fd)); ("name", JStr (fd_Name fd)); ("version", Json.jint (fd_Version fd));
     ("channel", JStr (fd_Channel fd)); ("type", JStr (fd_Type fd));
     ("locale", JStr (fd_Locale fd)); ("spec", spec)]) (raw_json (fd_Spec fd)).

Definition get (s : Session) (id : string) : handler := fun r =>
  let! res := ptry (Flows.Get (orgFromCtx s) id) in
  match res with
  | inr ErrNotFound => ret (error_json 404 "not found")
  | inr _ => ret internal
  | inl fd => ret (write_encoded 200 (detail_json fd))
  end.

Definition template_json (t : Templates.Template) : option json :=
  option_map (fun spec => jmap
    [("name", JStr (Templates.tpl_Name t)); ("title", JStr (Templates.tpl_Title t));
     ("description", JStr (Templates.tpl_Description t));
     ("channel", JStr (Templates.tpl_Channel t)); ("type", JStr (Templates.tpl_Type t));
     ("locale", JStr (Templates.tpl_Locale t)); ("spec", spec)])
    (raw_json (Templates.tpl_Spec t)).

Definition templates (s : Session) : handler := fun r =>
  ret (write_encoded 200
    (option_map (fun ts => JObj [("templates", JArr ts)])
       (mapM template_json Templates.Templates))).

Definition prompt_json (p : Prompt) : json :=
  JObj (omitempty "audio" (prompt_Audio p) ++ omitempty "tts" (prompt_TTS p)).

Definition step_json (st : Sim.SimStep) : json :=
  jmap ([("node", JStr (Sim.ss_Node st)); ("kind", JStr (Sim.ss_Kind st));
         ("awaits_input", JBool (Sim.ss_Awaits st))] ++
        match Sim.ss_Say st with Some p => [("say", prompt_json p)] | None => [] end).

Definition simulate (s : Session) : handler := fun r =>
  match Json.UnmarshalRaw dSimulation ("", []) (limited body_limit (rq_Body r)) with
  | None => ret (error_json 400 "spec required")
  | Some (spec, inputs) =>
      if (spec =? "")%string then ret (error_json 400 "spec required")
      else match Flows.Simulate spec inputs with
           | inr ErrFlowInvalid => ret (error_json 400 "invalid flow spec")
           | inr _ => ret internal
           | inl sim =>
               ret (writeJSON 200 (jmap
                 [("steps", JArr (map step_json (Sim.sim_Steps sim)));
                  ("ended", JBool (Sim.sim_Ended sim)); ("result", JStr (Sim.sim_Result sim));
                  ("status", JStr (Sim.sim_Status sim))]))
           end
  end.

Definition update (s : Session) (id : string) : handler := fun r =>
  match Json.UnmarshalRaw dSpec "" (limited body_limit (rq_Body r)) with
  | None => ret (error_json 400 "spec required")
  | Some spec =>
      if (spec =? "")%string then ret (error_json 400 "spec required")
      else
        let! res := ptry (Flows.UpdateSpec (orgFromCtx s) id spec) in
        match res with
        | inr ErrNotFound => ret (error_json 404 "not found")
        | inr ErrFlowInvalid => ret (error_json 400 "invalid flow spec")
        | inr _ => ret internal
        | inl _ => ret (status_json 200 "status" "saved")
        end
  end.
End Handler.
End FlowsHandler.

(** *** campaigns.go *)

Module CampaignsHandler.
Section Handler.
Context {repo : CampaignRepo.T} {customers : CustomerRepo.T} {flows : FlowRepo.T}
  {orch : Orchestrator.T} {clock : Clock.T} {local : LocalZone.T}.

Definition rfc3339Ptr (t : option Time) : json :=
  match t with Some t => JStr (rfc3339 t) | None => JNull end.

Definition toCampaignDTO (c : Campaign) : json :=
  JObj [("id", JStr (ca_ID c)); ("name", JStr (ca_Name c)); ("status", JStr (ca_Status c));
        ("target_count", Json.jint (ca_TargetCount c));
        ("created_at", JStr (rfc3339 (ca_CreatedAt c)));
        ("started_at", rfc3339Ptr (ca_StartedAt c));
        ("scheduled_at", rfc3339Ptr (ca_ScheduledAt c))].

Definition create (s : Session) : handler := fun r =>
  let '(name, ok) := Json.Decode (zero1 Json.dstring "name") "" (rq_Body r) in
  if negb ok || (name =? "")%string then ret (error_json 400 "name required")
  else
    let! res := ptry (Campaigns.Create (orgFromCtx s) name) in
    match res with
    | inr _ => ret internal
    | inl id => ret (status_json 201 "id" id)
    end.

Definition list (s : Session) : handler := fun r =>
  let! res := ptry (Campaigns.List (orgFromCtx s)) in
  match res with
  | inr _ => ret internal
  | inl l => ret (writeJSON 200 (JObj [("campaigns", JArr (map toCampaignDTO l))]))
  end.

Definition importRecipients (s : Session) (id : string) : handler := fun r =>
  let raw := limited (5 * 2 ^ 20) (rq_Body r) in
  let! res := ptry (Campaigns.ImportRecipients (orgFromCtx s) id raw) in
  match res with
  | inr ErrNotFound => ret (error_json 404 "not found")
  | inr ErrFlowInvalid => ret (error_json 400 "malformed CSV")
  | inr _ => ret internal
  | inl added => ret (writeJSON 200 (JObj [("added", Json.jint added)]))
  end.

Definition schedule (s : Session) (id : string) : handler := fun r =>
  let '(at_, ok) := Json.Decode (zero1 Json.dstring "at") "" (rq_Body r) in
  if negb ok then ret (error_json 400 "invalid body")
  else match Parse.RFC3339 at_ with
       | None => ret (error_json 400 "at must be RFC3339")
       | Some (t, off) =>
           let! res := ptry (Campaigns.Schedule (orgFromCtx s) id t) in
           match res with
           | inr ErrNotFound => ret (error_json 404 "not found")
           | inr ErrFlowInvalid => ret (error_json 400 "schedule time must be in the future")
           | inr _ => ret internal
           | inl _ =>
               ret (writeJSON 200 (jmap [("status", JStr "scheduled");
                                         ("at", JStr (Format.RFC3339 t off))]))
           end
       end.

Definition start (s : Session) (id : string) : handler := fun r =>
  let! res := ptry (Campaigns.Start (orgFromCtx s) id) in
  match res with
  | inr ErrNotFound => ret (error_json 404 "not found")
  | inr _ => ret internal
  | inl queued => ret (writeJSON 200 (JObj [("queued", Json.jint queued)]))
  end.
End Handler.
End CampaignsHandler.

(** *** customers.go *)

Module CustomersHandler.
Section Handler.
Context {repo : CustomerRepo.T} {local : LocalZone.T}.

Definition customer_json (c : Customer) : json :=
  JObj [("id", JStr (cu_ID c)); ("phone", JStr (cu_Phone c)); ("name", JStr (cu_Name c));
        ("dnd", JBool (cu_DND c)); ("created_at", JStr (rfc3339 (cu_CreatedAt c)))].

Definition list (s : Session) : handler := fun r =>
  let! res := ptry (Customers.List (orgFromCtx s) 100) in
  match res with
  | inr _ => ret internal
  | inl l => ret (writeJSON 200 (JObj [("customers", JArr (map customer_json l))]))
  end.

Definition setDND (dnd : bool) (s : Session) (id : string) : handler := fun r =>
  let! res := ptry (Customers.SetDND (orgFromCtx s) id dnd) in
  match res with
  | inr _ => ret internal
  | inl _ => ret (writeJSON 200 (JObj [("dnd", JBool dnd)]))
  end.
End Handler.
End CustomersHandler.
