(* ===== verification/Bus.v ===== *)
(** * The live feed: the in-process bus and its event stream

    internal/platform/bus/bus.go as it runs, publishers, subscribers and cancel
    funcs interleaved at each lock and each channel operation; and the text of the
    stream of internal/transport/http/activity.go.  A critical section under the
    write lock is one turn, since nothing in it waits. *)

From S2P Require Import Prelude.
From S2P Require Import Domain.
From S2P Require Import GoLib.
From S2P Require Import Json.
From S2P Require Import GoTime.
From S2P Require Import Machine.
From stdpp Require Import gmap strings list.
From Stdlib Require Import ZArith Lia.

Open Scope Z_scope.

Module Bus.
Definition capacity : nat := 16.

(** A channel made by SubscribeActivity, with what its cancel func holds: the org
    it was registered for, and the sync.Once. *)
Record channel := mkChannel {
  ch_org : OrgID; ch_buffer : list ActivityEvent; ch_closed : bool; ch_once : bool
}.

(** A goroutine inside the bus: a publisher that holds the read lock, with the
    channels it still has to offer its event to; a cancel func that has removed its
    subscription and is about to close the channel. *)
Inductive thread : Type :=
| Publishing (e : ActivityEvent) (rest : list nat)
| Cancelling (c : nat)
| Finished.

(** The subscriptions of each org, as the numbers of their channels. *)
Record Bus := mkBus {
  subs : gmap OrgID (gset nat); chans : list channel; threads : list thread
}.

Definition New : Bus := mkBus ∅ [] [].

Definition subs_of (b : Bus) (org : OrgID) : gset nat := default ∅ (subs b !! org).

(** The write lock can be had. *)
Definition no_reader (b : Bus) : bool :=
  forallb (fun t => match t with Publishing _ _ => false | _ => true end) (threads b).

Definition set_chan (c : nat) (ch : channel) (b : Bus) : Bus :=
  mkBus (subs b) (<[c := ch]> (chans b)) (threads b).
Definition set_thread (t : nat) (th : thread) (b : Bus) : Bus :=
  mkBus (subs b) (chans b) (<[t := th]> (threads b)).
Definition spawn (th : thread) (b : Bus) : Bus :=
  mkBus (subs b) (chans b) (threads b ++ [th]).

Inductive event : Type := Sent (c : nat) (e : ActivityEvent) | Got (c : nat) (e : ActivityEvent).

Definition SubscribeActivity (org : OrgID) (b : Bus) : turn event Bus :=
  if no_reader b then
    Moves [] (mkBus (<[org := {[length (chans b)]} ∪ subs_of b org]> (subs b))
                (chans b ++ [mkChannel org [] false false]) (threads b))
  else Waits.

(** RLock, and the order in which the loop will visit the subscribers. *)
Definition PublishActivity (e : ActivityEvent) (order : list nat) (b : Bus) : turn event Bus :=
  if bool_decide (NoDup order /\ list_to_set order = subs_of b (ev_OrgID e))
  then Moves [] (spawn (Publishing e order) b) else Waits.

(** The select of the loop: a full buffer drops the event. *)
Definition offer (t : nat) (b : Bus) : turn event Bus :=
  match threads b !! t with
  | Some (Publishing e (c :: rest)) =>
      match chans b !! c with
      | None => Waits
      | Some ch =>
          if ch_closed ch then Panics
          else
            let b := set_thread t (Publishing e rest) b in
            if (length (ch_buffer ch) <? capacity)%nat
            then Moves [Sent c e]
                   (set_chan c (mkChannel (ch_org ch) (ch_buffer ch ++ [e]) false (ch_once ch)) b)
            else Moves [] b
      end
  | _ => Waits
  end.

(** RUnlock. *)
Definition unlock (t : nat) (b : Bus) : turn event Bus :=
  match threads b !! t with
  | Some (Publishing _ []) => Moves [] (set_thread t Finished b)
  | _ => Waits
  end.

(** The subscription without [c]; the entry goes with its last one. *)
Definition remove (org : OrgID) (c : nat) (m : gmap OrgID (gset nat)) : gmap OrgID (gset nat) :=
  match m !! org with
  | None => m
  | Some s =>
      let s := s ∖ {[c]} in
      if bool_decide (s = ∅) then delete org m else <[org := s]> m
  end.

(** The cancel func up to the end of its critical section. *)
Definition cancel (c : nat) (b : Bus) : turn event Bus :=
  match chans b !! c with
  | None => Waits
  | Some ch =>
      if ch_once ch then Moves [] b
      else if no_reader b then
        Moves [] (spawn (Cancelling c)
          (set_chan c (mkChannel (ch_org ch) (ch_buffer ch) (ch_closed ch) true)
             (mkBus (remove (ch_org ch) c (subs b)) (chans b) (threads b))))
      else Waits
  end.

(** close(s.ch) *)
Definition close (t : nat) (b : Bus) : turn event Bus :=
  match threads b !! t with
  | Some (Cancelling c) =>
      match chans b !! c with
      | None => Waits
      | Some ch =>
          if ch_closed ch then Panics
          else Moves [] (set_chan c (mkChannel (ch_org ch) (ch_buffer ch) true (ch_once ch))
                           (set_thread t Finished b))
      end
  | _ => Waits
  end.

(** A receiver: the oldest event; from a closed channel, the end after the last. *)
Definition receive (c : nat) (b : Bus) : turn event Bus :=
  match chans b !! c with
  | None => Waits
  | Some ch =>
      match ch_buffer ch with
      | e :: rest =>
          Moves [Got c e] (set_chan c (mkChannel (ch_org ch) rest (ch_closed ch) (ch_once ch)) b)
      | [] => if ch_closed ch then Moves [] b else Waits
      end
  end.

Inductive action : Type :=
| Subscribe (org : OrgID) | Publish (e : ActivityEvent) (order : list nat)
| Offer (t : nat) | Unlock (t : nat) | Cancel (c : nat) | Close (t : nat) | Receive (c : nat).

Definition act (a : action) : Bus -> turn event Bus :=
  match a with
  | Subscribe org => SubscribeActivity org
  | Publish e order => PublishActivity e order
  | Offer t => offer t
  | Unlock t => unlock t
  | Cancel c => cancel c
  | Close t => close t
  | Receive c => receive c
  end.

(** What was put into a channel, and what was taken out. *)
Definition sent (c : nat) (tr : list event) : list ActivityEvent :=
  omap (fun x => match x with Sent c' e => if (c' =? c)%nat then Some e else None | _ => None end) tr.
Definition got (c : nat) (tr : list event) : list ActivityEvent :=
  omap (fun x => match x with Got c' e => if (c' =? c)%nat then Some e else None | _ => None end) tr.
End Bus.

(** ** The event stream of activity.go *)

Module Stream.
Definition nl : string := String (byte_chr 10) EmptyString.

Definition opening : string := ": connected" +:+ nl +:+ nl.
Definition ping : string := ": ping" +:+ nl +:+ nl.

(** A time.Time inside a value: RFC 3339 with the fraction it has. *)
Definition micros_text (t : Time) : string :=
  let m := t mod Second in
  if m =? 0 then ""
  else
    let digits := Strconv.Sprintf06d m in
    (* trailing zeros of the fraction are not written *)
    "." +:+ Strings.rev_onto
      ((fix strip (s : string) : string :=
          match s with
          | String c s' => if (byte_of c =? 48) then strip s' else s
          | EmptyString => EmptyString
          end) (Strings.rev_onto digits "")) "".

Definition time_text (t : Time) (off : Z) : string :=
  let s := Format.RFC3339 t off in
  let date := Strings.take 19 s in
  date +:+ micros_text t +:+ Strings.drop 19 s.

(** json.Marshal of an event: the org is never written. *)
Definition event_json (off : Time -> Z) (e : ActivityEvent) : json :=
  JObj ([("type", JStr (ev_Type e)); ("title", JStr (ev_Title e))] ++
        (if (ev_Detail e =? "")%string then [] else [("detail", JStr (ev_Detail e))]) ++
        [("at", JStr (time_text (ev_At e) (off (ev_At e))))]).

Definition frame (off : Time -> Z) (e : ActivityEvent) : string :=
  "data: " +:+ Json.marshal (event_json off e) +:+ nl +:+ nl.

(** What one turn of the select receives. *)
Inductive input : Type := Heartbeat | Event (e : ActivityEvent) | ChannelClosed | Gone.

(** The bytes written until the client is gone or the channel is closed; writes
    succeed. *)
Fixpoint body (off : Time -> Z) (inputs : list input) : string :=
  match inputs with
  | Heartbeat :: inputs => ping +:+ body off inputs
  | Event e :: inputs => frame off e +:+ body off inputs
  | ChannelClosed :: _ | Gone :: _ | [] => ""
  end.
End Stream.
