(* ===== verification/BusSpec.v ===== *)
(** * What the live feed guarantees

    Over every interleaving of publishers, subscribers, cancel funcs and receivers
    of Bus: no send on a closed channel and no second close, publishers that never
    wait, and streams that carry the events of their organisation only. *)

From S2P Require Import Prelude.
From S2P Require Import Domain.
From S2P Require Import Machine.
From S2P Require Import Bus.
From stdpp Require Import gmap strings list.
From Stdlib Require Import Lia.

Import Bus.

(** ** Updates *)

Lemma sent_app c tr tr' : sent c (tr ++ tr') = sent c tr ++ sent c tr'.
Proof. apply omap_app. Qed.
Lemma got_app c tr tr' : got c (tr ++ tr') = got c tr ++ got c tr'.
Proof. apply omap_app. Qed.

Lemma subs_of_remove org c m s th org' :
  c ∉ default ∅ (m !! org') \/ org' = org ->
  subs_of (mkBus (remove org c m) s th) org' = default ∅ (m !! org') ∖ {[c]}.
Proof.
  unfold subs_of, remove. simpl. intros H.
  destruct (decide (org' = org)) as [->|Hne].
  - destruct (m !! org) as [x|] eqn:E; simpl.
    + case_bool_decide as Hx; [rewrite lookup_delete_eq|rewrite lookup_insert_eq]; simpl;
        [by rewrite Hx|done].
    + rewrite E. set_solver.
  - destruct H as [H|?]; [|done].
    destruct (m !! org) as [x|] eqn:E; [|set_solver].
    case_bool_decide; [rewrite lookup_delete_ne by done|rewrite lookup_insert_ne by done]; set_solver.
Qed.

Lemma no_reader_publishing b t e rest :
  no_reader b = true -> threads b !! t = Some (Publishing e rest) -> False.
Proof.
  unfold no_reader. rewrite forallb_forall. intros H Ht.
  apply list_elem_of_lookup_2, list_elem_of_In in Ht. by apply H in Ht.
Qed.

(** ** The invariant *)

Record sound (tr : list event) (b : Bus) : Prop := {
  so_subs : forall org c, c ∈ subs_of b org ->
    exists ch, chans b !! c = Some ch /\ ch_org ch = org /\ ch_once ch = false;
  so_once : forall c ch, chans b !! c = Some ch -> ch_closed ch = true -> ch_once ch = true;
  so_publishing : forall t e rest, threads b !! t = Some (Publishing e rest) ->
    Forall (fun c => c ∈ subs_of b (ev_OrgID e)) rest;
  so_cancelling : forall t c, threads b !! t = Some (Cancelling c) ->
    exists ch, chans b !! c = Some ch /\ ch_once ch = true /\ ch_closed ch = false;
  so_unique : forall t t' c, threads b !! t = Some (Cancelling c) ->
    threads b !! t' = Some (Cancelling c) -> t = t';
  so_stream : forall c ch, chans b !! c = Some ch ->
    length (ch_buffer ch) <= capacity /\ sent c tr = got c tr ++ ch_buffer ch /\
    Forall (fun e => ev_OrgID e = ch_org ch) (sent c tr);
  so_fresh : forall c, chans b !! c = None -> sent c tr = [] /\ got c tr = []
}.

Lemma New_sound : sound [] New.
Proof. by split. Qed.

(** An open subscription of a publisher at work. *)
Lemma visited_open tr b t e c rest ch :
  sound tr b -> threads b !! t = Some (Publishing e (c :: rest)) -> chans b !! c = Some ch ->
  ch_org ch = ev_OrgID e /\ ch_closed ch = false.
Proof.
  intros S Ht Hc. pose proof (so_publishing _ _ S _ _ _ Ht) as H.
  apply Forall_cons in H as [Hin _]. destruct (so_subs _ _ S _ _ Hin) as (ch' & Hc' & Ho & Hn).
  simplify_eq. split; [done|]. destruct (ch_closed ch) eqn:E; [|done].
  by rewrite (so_once _ _ S _ _ Hc E) in Hn.
Qed.

Lemma visited_there tr b t e c rest :
  sound tr b -> threads b !! t = Some (Publishing e (c :: rest)) -> is_Some (chans b !! c).
Proof.
  intros S Ht. pose proof (so_publishing _ _ S _ _ _ Ht) as H.
  apply Forall_cons in H as [Hin _]. destruct (so_subs _ _ S _ _ Hin) as (ch & Hc & _). eauto.
Qed.

(** A thread moves on, the channels as they were. *)
Lemma set_thread_sound tr b t th :
  sound tr b -> (forall c, th <> Cancelling c) ->
  (forall e rest, th = Publishing e rest ->
     Forall (fun c => c ∈ subs_of b (ev_OrgID e)) rest) ->
  sound tr (set_thread t th b).
Proof.
  intros [] Hc Hp. split; simpl; try done.
  - intros t' e rest H. apply list_lookup_insert_Some in H as [(-> & -> & _)|[_ H]]; eauto.
  - intros t' c H. apply list_lookup_insert_Some in H as [(_ & E & _)|[_ H]]; [|eauto].
    by destruct (Hc c).
  - intros t1 t2 c H1 H2.
    apply list_lookup_insert_Some in H1 as [(_ & E & _)|[_ H1]]; [by destruct (Hc c)|].
    apply list_lookup_insert_Some in H2 as [(_ & E & _)|[_ H2]]; [by destruct (Hc c)|]. eauto.
Qed.

Lemma spawn_sound tr b th :
  sound tr b ->
  (forall e rest, th = Publishing e rest ->
     Forall (fun c => c ∈ subs_of b (ev_OrgID e)) rest) ->
  (forall c, th = Cancelling c ->
     (exists ch, chans b !! c = Some ch /\ ch_once ch = true /\ ch_closed ch = false) /\
     forall t, threads b !! t <> Some (Cancelling c)) ->
  sound tr (spawn th b).
Proof.
  intros [] Hp Hc. split; simpl; try done.
  - intros t e rest H. apply lookup_app_Some in H as [H|[_ H]]; [eauto|].
    apply list_lookup_singleton_Some in H as [_ E]. eauto.
  - intros t c H. apply lookup_app_Some in H as [H|[_ H]]; [eauto|].
    apply list_lookup_singleton_Some in H as [_ E]. by apply Hc.
  - intros t t' c H H'. apply lookup_app_Some in H as [H|[Hl H]], H' as [H'|[Hl' H']];
      [eauto| | |].
    + apply list_lookup_singleton_Some in H' as [_ E]. by destruct (Hc c E) as [_ Hno], (Hno t).
    + apply list_lookup_singleton_Some in H as [_ E]. by destruct (Hc c E) as [_ Hno], (Hno t').
    + apply list_lookup_singleton_Some in H as [E _], H' as [E' _]. lia.
Qed.

(** A channel whose buffer alone changes, with the event of that change. *)
Lemma set_buffer_sound tr b c ch buffer events :
  sound tr b -> chans b !! c = Some ch ->
  (forall c', c' <> c -> sent c' events = [] /\ got c' events = []) ->
  length buffer <= capacity ->
  sent c (tr ++ events) = got c (tr ++ events) ++ buffer ->
  Forall (fun e => ev_OrgID e = ch_org ch) (sent c events) ->
  sound (tr ++ events) (set_chan c (mkChannel (ch_org ch) buffer (ch_closed ch) (ch_once ch)) b).
Proof.
  intros [] Hc Hev Hlen Hbuf Horg. split; simpl; try done.
  - intros org c' H. destruct (so_subs0 org c' H) as (ch' & Hc' & Ho & Hn).
    destruct (decide (c' = c)) as [->|Hne]; [|by exists ch'; rewrite list_lookup_insert_ne].
    simplify_eq. eexists. split; [by apply list_lookup_insert_eq; eapply lookup_lt_Some|done].
  - intros c' ch' H. apply list_lookup_insert_Some in H as [(-> & <- & _)|[_ H]]; simpl; eauto.
  - intros t c' H. destruct (so_cancelling0 t c' H) as (ch' & Hc' & Ho & Hn).
    destruct (decide (c' = c)) as [->|Hne]; [|by exists ch'; rewrite list_lookup_insert_ne].
    simplify_eq. eexists. split; [by apply list_lookup_insert_eq; eapply lookup_lt_Some|done].
  - intros c' ch' H. apply list_lookup_insert_Some in H as [(-> & <- & _)|[Hne H]]; simpl.
    + split_and!; [done..|]. rewrite sent_app. apply Forall_app. split; [|done].
      by destruct (so_stream0 _ _ Hc) as (_ & _ & ?).
    + destruct (Hev c') as [Hs Hg]; [done|]. rewrite sent_app, got_app, Hs, Hg, !app_nil_r. eauto.
  - intros c' H. rewrite sent_app, got_app.
    destruct (decide (c' = c)) as [->|Hne].
    { by rewrite list_lookup_insert_eq in H by (by eapply lookup_lt_Some). }
    rewrite list_lookup_insert_ne in H by done. destruct (Hev c') as [-> ->]; [done|].
    rewrite !app_nil_r. eauto.
Qed.

(** ** Turns *)

Lemma subscribe_sound tr b org events b' :
  sound tr b -> SubscribeActivity org b = Moves events b' -> sound (tr ++ events) b'.
Proof.
  intros S. unfold SubscribeActivity. destruct (no_reader b) eqn:Er; [|done]. intros [= <- <-].
  rewrite app_nil_r. destruct S.
  assert (Hold : forall c ch, chans b !! c = Some ch ->
            (chans b ++ [mkChannel org [] false false]) !! c = Some ch).
  { intros c ch H. by apply lookup_app_l_Some. }
  split; simpl; try done.
  - intros org' c H. unfold subs_of in H. simpl in H.
    destruct (decide (org' = org)) as [->|Hne].
    + rewrite lookup_insert_eq in H. simpl in H. apply elem_of_union in H as [H|H].
      * apply elem_of_singleton in H as ->. eexists. by rewrite list_lookup_middle.
      * destruct (so_subs0 org c H) as (ch & ? & ? & ?). eauto.
    + rewrite lookup_insert_ne in H by done.
      destruct (so_subs0 org' c H) as (ch & ? & ? & ?). eauto.
  - intros c ch H. apply lookup_app_Some in H as [H|[_ H]]; [eauto|].
    apply list_lookup_singleton_Some in H as [_ <-]. done.
  - intros t e rest H. by destruct (no_reader_publishing b t e rest Er).
  - intros t c H. destruct (so_cancelling0 t c H) as (ch & ? & ? & ?). eauto.
  - intros c ch H. apply lookup_app_Some in H as [H|[Hl H]]; [eauto|].
    apply list_lookup_singleton_Some in H as [_ <-]. simpl.
    destruct (so_fresh0 c) as [-> ->]; [by apply lookup_ge_None|].
    split_and!; [lia|done|apply Forall_nil_2].
  - intros c H. apply so_fresh0, lookup_ge_None. apply lookup_ge_None in H.
    rewrite length_app in H. lia.
Qed.

Lemma publish_sound tr b e order events b' :
  sound tr b -> PublishActivity e order b = Moves events b' -> sound (tr ++ events) b'.
Proof.
  intros S. unfold PublishActivity. case_bool_decide as Ho; [|done]. intros [= <- <-].
  rewrite app_nil_r. apply spawn_sound; [done| |done].
  intros e' rest [= <- <-]. destruct Ho as [_ <-]. apply Forall_forall. intros c Hc. set_solver.
Qed.

Lemma offer_sound tr b t events b' :
  sound tr b -> offer t b = Moves events b' -> sound (tr ++ events) b'.
Proof.
  intros S. unfold offer.
  destruct (threads b !! t) as [[e [|c rest]| |]|] eqn:Et; try done.
  destruct (chans b !! c) as [ch|] eqn:Ec; [|done].
  destruct (visited_open _ _ _ _ _ _ _ S Et Ec) as [Ho Hcl]. rewrite Hcl. cbv zeta.
  assert (S' : sound tr (set_thread t (Publishing e rest) b)).
  { apply set_thread_sound; [done..|]. intros e' rest' [= <- <-].
    by apply (so_publishing _ _ S) in Et as [_ ?]%Forall_cons. }
  destruct (Nat.ltb_spec (length (ch_buffer ch)) capacity) as [Hl|]; intros [= <- <-];
    [|by rewrite app_nil_r].
  destruct (so_stream _ _ S _ _ Ec) as (_ & Hs & _). rewrite <- Hcl.
  apply set_buffer_sound; [done..| | | |].
  - intros c' Hne. simpl. by destruct (Nat.eqb_spec c c').
  - rewrite length_app. simpl. lia.
  - rewrite sent_app, got_app, Hs. simpl. rewrite Nat.eqb_refl. simpl.
    by rewrite app_nil_r, app_assoc.
  - simpl. rewrite Nat.eqb_refl. by apply Forall_singleton.
Qed.

Lemma unlock_sound tr b t events b' :
  sound tr b -> unlock t b = Moves events b' -> sound (tr ++ events) b'.
Proof.
  intros S. unfold unlock. destruct (threads b !! t) as [[e [|c rest]| |]|]; try done.
  intros [= <- <-]. rewrite app_nil_r. by apply set_thread_sound.
Qed.

Lemma receive_sound tr b c events b' :
  sound tr b -> receive c b = Moves events b' -> sound (tr ++ events) b'.
Proof.
  intros S. unfold receive. destruct (chans b !! c) as [ch|] eqn:Ec; [|done].
  destruct (so_stream _ _ S _ _ Ec) as (Hl & Hs & _).
  destruct (ch_buffer ch) as [|e rest] eqn:Eb.
  { destruct (ch_closed ch); [|done]. intros [= <- <-]. by rewrite app_nil_r. }
  intros [= <- <-]. apply set_buffer_sound; [done..| | | |].
  - intros c' Hne. simpl. by destruct (Nat.eqb_spec c c').
  - simpl in Hl. lia.
  - rewrite sent_app, got_app, Hs. simpl. rewrite Nat.eqb_refl. simpl.
    by rewrite app_nil_r, <- app_assoc.
  - apply Forall_nil_2.
Qed.

Lemma cancel_sound tr b c events b' :
  sound tr b -> cancel c b = Moves events b' -> sound (tr ++ events) b'.
Proof.
  intros S. unfold cancel. destruct (chans b !! c) as [ch|] eqn:Ec; [|done].
  destruct (ch_once ch) eqn:Eo; [by intros [= <- <-]; rewrite app_nil_r|].
  destruct (no_reader b) eqn:Er; [|done]. intros [= <- <-]. rewrite app_nil_r.
  assert (Hopen : ch_closed ch = false).
  { destruct (ch_closed ch) eqn:E; [|done]. by rewrite (so_once _ _ S _ _ Ec E) in Eo. }
  assert (Hnot : forall t, threads b !! t <> Some (Cancelling c)).
  { intros t H. destruct (so_cancelling _ _ S _ _ H) as (ch' & ? & ? & ?). simplify_eq. congruence. }
  assert (Hlt : c < length (chans b)) by (by eapply lookup_lt_Some).
  apply spawn_sound; [|done|].
  2:{ intros c' [= <-]. simpl. rewrite list_lookup_insert_eq by done. eauto. }
  pose proof S as []. split; simpl.
  - intros org c' H. unfold set_chan, subs_of in H. simpl in H. change (default ∅ _) with
      (subs_of (mkBus (remove (ch_org ch) c (subs b)) (chans b) (threads b)) org) in H.
    rewrite subs_of_remove in H.
    + apply elem_of_difference in H as [H Hne%not_elem_of_singleton].
      destruct (so_subs0 org c' H) as (ch' & ? & ? & ?). exists ch'.
      by rewrite list_lookup_insert_ne.
    + destruct (decide (org = ch_org ch)) as [|Hne]; [by right|left]. intros Hin.
      destruct (so_subs0 org c Hin) as (ch' & ? & ? & ?). simplify_eq.
  - intros c' ch' H. apply list_lookup_insert_Some in H as [(-> & <- & _)|[_ H]]; [done|eauto].
  - intros t e rest H. by destruct (no_reader_publishing b t e rest Er).
  - intros t c' H. destruct (so_cancelling0 t c' H) as (ch' & ? & ? & ?). exists ch'.
    rewrite list_lookup_insert_ne; [done|]. intros <-. by destruct (Hnot t).
  - eauto.
  - intros c' ch' H. apply list_lookup_insert_Some in H as [(-> & <- & _)|[_ H]]; [|eauto].
    exact (so_stream0 _ _ Ec).
  - intros c' H. apply so_fresh0, lookup_ge_None. apply lookup_ge_None in H.
    by rewrite length_insert in H.
Qed.

Lemma close_sound tr b t events b' :
  sound tr b -> close t b = Moves events b' -> sound (tr ++ events) b'.
Proof.
  intros S. unfold close. destruct (threads b !! t) as [[|c|]|] eqn:Et; try done.
  destruct (so_cancelling _ _ S _ _ Et) as (ch & Ec & Ho & Hcl). rewrite Ec, Hcl.
  intros [= <- <-]. rewrite app_nil_r. pose proof S as []. split; simpl.
  - intros org c' H. destruct (so_subs0 org c' H) as (ch' & ? & ? & ?). exists ch'.
    rewrite list_lookup_insert_ne; [done|]. intros <-. simplify_eq. congruence.
  - intros c' ch' H. apply list_lookup_insert_Some in H as [(-> & <- & _)|[_ H]]; [done|eauto].
  - intros t' e rest H. apply list_lookup_insert_Some in H as [(_ & E & _)|[_ H]]; [done|].
    by apply so_publishing0 in H.
  - intros t' c' H. apply list_lookup_insert_Some in H as [(_ & E & _)|[Hne H]]; [done|].
    destruct (so_cancelling0 t' c' H) as (ch' & ? & ? & ?). exists ch'.
    rewrite list_lookup_insert_ne; [done|]. intros <-. by destruct Hne; eauto.
  - intros t1 t2 c' H1 H2. apply list_lookup_insert_Some in H1 as [(_ & E & _)|[_ H1]]; [done|].
    apply list_lookup_insert_Some in H2 as [(_ & E & _)|[_ H2]]; [done|]. eauto.
  - intros c' ch' H. apply list_lookup_insert_Some in H as [(-> & <- & _)|[_ H]]; [|eauto].
    exact (so_stream0 _ _ Ec).
  - intros c' H. apply so_fresh0, lookup_ge_None. apply lookup_ge_None in H.
    by rewrite length_insert in H.
Qed.

Lemma reached_sound tr b : reached act New tr b -> sound tr b.
Proof.
  apply (reached_inv act sound); [apply New_sound|]. intros tr1 b1 a events b2 S.
  destruct a; simpl; eauto using subscribe_sound, publish_sound, offer_sound, unlock_sound,
    cancel_sound, close_sound, receive_sound.
Qed.

(** ** Properties *)

(** C19: However publishers, subscribers and cancel funcs interleave, nothing is sent on
    a closed channel and no channel is closed twice, either of which would panic;
    and a publisher in its loop never waits, however slow the subscribers are. *)
Theorem feed_never_panics_nor_stalls tr b :
  reached act New tr b ->
  (forall a, act a b <> Panics) /\
  (forall t e c rest, threads b !! t = Some (Publishing e (c :: rest)) ->
     exists events b', act (Offer t) b = Moves events b' /\
       threads b' !! t = Some (Publishing e rest)).
Proof.
  intros S%reached_sound. split.
  - intros a. destruct a as [org|e order|t|t|c|t|c]; simpl.
    + unfold SubscribeActivity. by destruct (no_reader b).
    + unfold PublishActivity. by case_bool_decide.
    + unfold offer. destruct (threads b !! t) as [[e [|c rest]| |]|] eqn:Et; try done.
      destruct (chans b !! c) as [ch|] eqn:Ec; [|done].
      destruct (visited_open _ _ _ _ _ _ _ S Et Ec) as [_ ->]. cbv zeta. by case_match.
    + unfold unlock. by destruct (threads b !! t) as [[e [|]| |]|].
    + unfold cancel. destruct (chans b !! c) as [ch|]; [|done].
      destruct (ch_once ch); [done|]. by destruct (no_reader b).
    + unfold close. destruct (threads b !! t) as [[|c|]|] eqn:Et; try done.
      by destruct (so_cancelling _ _ S _ _ Et) as (ch & -> & _ & ->).
    + unfold receive. destruct (chans b !! c) as [ch|]; [|done].
      destruct (ch_buffer ch); [|done]. by destruct (ch_closed ch).
  - intros t e c rest Et. destruct (visited_there _ _ _ _ _ _ S Et) as [ch Ec].
    pose proof (lookup_lt_Some _ _ _ Et) as Hlt.
    simpl. unfold offer. rewrite Et, Ec.
    destruct (visited_open _ _ _ _ _ _ _ S Et Ec) as [_ ->]. cbv zeta.
    case_match; eexists _, _; (split; [reflexivity|]); simpl; by rewrite list_lookup_insert_eq.
Qed.

(** C20: What a subscriber of an organisation has received, followed by what waits in its
    buffer, never more than sixteen events, is what was sent to it, in order,
    nothing lost in between and nothing twice; and all of it was published for
    that organisation. *)
Theorem subscribers_hear_their_org tr b c ch :
  reached act New tr b -> chans b !! c = Some ch ->
  length (ch_buffer ch) <= capacity /\ sent c tr = got c tr ++ ch_buffer ch /\
  Forall (fun e => ev_OrgID e = ch_org ch) (sent c tr).
Proof. intros S%reached_sound. apply (so_stream _ _ S). Qed.

(** ** At concrete inputs: two organisations, a publisher and a cancel func at once *)

Definition news (org : OrgID) (title : string) : ActivityEvent := mkActivityEvent "call" org title "" 0%Z.

Definition scenario : list action :=
  [Subscribe "org"; Subscribe "rival"; Subscribe "org"; Publish (news "org" "A") [2; 0]; Offer 0;
   Offer 0; Unlock 0; Cancel 0; Publish (news "rival" "B") [1]; Close 1; Offer 2; Receive 0;
   Receive 2].

Definition after : Bus :=
  mkBus {["org" := {[2]}; "rival" := {[1]}]}
    [mkChannel "org" [] true true; mkChannel "rival" [news "rival" "B"] false false;
     mkChannel "org" [] false false]
    [Finished; Finished; Publishing (news "rival" "B") []].

Definition heard : list event :=
  [Sent 2 (news "org" "A"); Sent 0 (news "org" "A"); Sent 1 (news "rival" "B");
   Got 0 (news "org" "A"); Got 2 (news "org" "A")].

Lemma after_reached : reached act New heard after.
Proof. apply (play_reached act scenario). vm_compute. reflexivity. Qed.

Lemma subscribers_hear_their_org_witness :
  length [news "rival" "B"] <= capacity /\
  sent 1 heard = got 1 heard ++ [news "rival" "B"] /\
  Forall (fun e => ev_OrgID e = "rival"%string) (sent 1 heard).
Proof.
  apply (subscribers_hear_their_org heard after 1 (mkChannel "rival" [news "rival" "B"] false false));
    [apply after_reached|reflexivity].
Defined.

(** The publisher holds the lock and the first subscriber has its event. *)
Definition midway : Bus :=
  mkBus {["org" := {[0; 2]}; "rival" := {[1]}]}
    [mkChannel "org" [] false false; mkChannel "rival" [] false false;
     mkChannel "org" [news "org" "A"] false false]
    [Publishing (news "org" "A") [0]].

Lemma midway_reached : reached act New [Sent 2 (news "org" "A")] midway.
Proof. apply (play_reached act (take 5 scenario)). vm_compute. reflexivity. Qed.

Lemma feed_never_panics_nor_stalls_witness :
  (forall a, act a midway <> Panics) /\
  (forall t e c rest, threads midway !! t = Some (Publishing e (c :: rest)) ->
     exists events b', act (Offer t) midway = Moves events b' /\
       threads b' !! t = Some (Publishing e rest)).
Proof. exact (feed_never_panics_nor_stalls _ midway midway_reached). Defined.

(** Until the publisher is done the lock is not to be had. *)
Example cancel_waits : act (Cancel 0) midway = Waits.
Proof. reflexivity. Qed.
