(* ===== verification/HttpDash.v ===== *)
(** * The transport: chat, channels, billing, webhooks, metrics, the live feed

    internal/transport/http/chat.go, channels.go, billing.go, webhooks.go,
    analytics.go, reports.go, onboarding.go and activity.go. *)

From S2P Require Import Prelude.
From S2P Require Import Domain.
From S2P Require Import Effects.
From S2P Require Import GoLib.
From S2P Require Import Json.
From S2P Require Import Store.
From S2P Require Import Crypto.
From S2P Require Import Ports.
From S2P Require Import Billing.
From S2P Require Import PgWebhooks.
From S2P Require Import Webhooks.
From S2P Require Import PgChat.
From S2P Require Import Chat.
From S2P Require Import Messaging.
From S2P Require Import Analytics.
From S2P Require Import Assistant.
From S2P Require Import Bus.
From S2P Require Import GoTime.
From S2P Require Import HttpLib.
From S2P Require Import HttpAuth.
From stdpp Require Import gmap strings list.
From Stdlib Require Import ZArith Lia.

Open Scope Z_scope.
Open Scope go_scope.

(** *** chat.go *)

Module ChatHandler.
Definition zeroSettings : ChatSettings := mkChatSettings "" "" "" "".

Definition dChatSettings : Json.decoder ChatSettings := Json.dstruct
  [("instructions", Json.field cs_Instructions (fun x c =>
      mkChatSettings x (cs_WidgetTitle c) (cs_Welcome c) (cs_Accent c)) Json.dstring);
   ("widget_title", Json.field cs_WidgetTitle (fun x c =>
      mkChatSettings (cs_Instructions c) x (cs_Welcome c) (cs_Accent c)) Json.dstring);
   ("welcome", Json.field cs_Welcome (fun x c =>
      mkChatSettings (cs_Instructions c) (cs_WidgetTitle c) x (cs_Accent c)) Json.dstring);
   ("accent", Json.field cs_Accent (fun x c =>
      mkChatSettings (cs_Instructions c) (cs_WidgetTitle c) (cs_Welcome c) x) Json.dstring)].

Definition or_default (x def : string) : string := if (x =? "")%string then def else x.

Section Handler.
Context {repo : ChatRepo.T} {settings : ChatSettingsRepo.T} {model : ChatModel.T}
  {summarizer : Summarizer.T} {insights : InsightRepo.T} {conns : ChannelRepo.T}
  {sender : MessagingSender.T} {aead : AEAD.T} {local : LocalZone.T}.
Context (activity : option ActivityPublisher.T).

Definition insight_json (i : ConversationInsight) : json :=
  JObj [("summary", JStr (in_Summary i)); ("outcome", JStr (in_Outcome i));
        ("sentiment", JStr (in_Sentiment i)); ("next_action", JStr (in_NextAction i));
        ("created_at", JStr (rfc3339 (in_CreatedAt i)))].

Definition send (s : Session) : handler := fun r =>
  let '(body, ok) := Json.Decode PublicHandler.dMessageBody
                       (PublicHandler.mkMessageBody "" "") (rq_Body r) in
  if negb ok || (PublicHandler.mb_Text body =? "")%string
  then ret (error_json 400 "text required")
  else
    let! res := ptry (Chat.Send activity (orgFromCtx s)
                        (PublicHandler.mb_ConversationID body) (PublicHandler.mb_Text body)) in
    match res with
    | inr ErrNotFound => ret (error_json 404 "not found")
    | inr _ => ret internal
    | inl (convID, reply) => ret (PublicHandler.sent convID reply)
    end.

Definition conversation_json (c : Conversation) : json :=
  JObj [("id", JStr (cv_ID c)); ("channel", JStr (cv_Channel c));
        ("customer", JStr (or_default (cv_ExternalUser c) "Website visitor"));
        ("status", JStr (cv_Status c)); ("last_message", JStr (cv_LastMessage c));
        ("message_count", Json.jint (cv_MessageCount c));
        ("updated_at", JStr (rfc3339 (cv_UpdatedAt c)))].

Definition list (s : Session) : handler := fun r =>
  let! res := ptry (Chat.List (orgFromCtx s)) in
  match res with
  | inr _ => ret internal
  | inl l => ret (writeJSON 200 (JObj [("conversations", JArr (map conversation_json l))]))
  end.

Definition getSettings (s : Session) : handler := fun r =>
  let! res := ptry (Chat.Settings (orgFromCtx s)) in
  match res with
  | inr _ => ret internal
  | inl cs =>
      ret (writeJSON 200 (JObj
        [("instructions", JStr (cs_Instructions cs)); ("widget_title", JStr (cs_WidgetTitle cs));
         ("welcome", JStr (cs_Welcome cs)); ("accent", JStr (cs_Accent cs))]))
  end.

Definition saveSettings (s : Session) : handler := fun r =>
  let '(body, ok) := Json.Decode dChatSettings zeroSettings (rq_Body r) in
  if negb ok then ret (error_json 400 "invalid body")
  else
    let def := DefaultChatSettings in
    let cs := mkChatSettings (cs_Instructions body)
                (or_default (cs_WidgetTitle body) (cs_WidgetTitle def))
                (or_default (cs_Welcome body) (cs_Welcome def))
                (or_default (cs_Accent body) (cs_Accent def)) in
    let! res := ptry (Chat.SaveSettings (orgFromCtx s) cs) in
    match res with
    | inr _ => ret internal
    | inl _ => ret (status_json 200 "status" "saved")
    end.

Definition message_json (m : Message) : json :=
  JObj [("role", JStr (m_Role m)); ("content", JStr (m_Content m));
        ("created_at", JStr (rfc3339 (m_CreatedAt m)))].

Definition messages (s : Session) (id : string) : handler := fun r =>
  let! res := ptry (Chat.Messages (orgFromCtx s) id) in
  match res with
  | inr ErrNotFound => ret (error_json 404 "not found")
  | inr _ => ret internal
  | inl msgs =>
      let! insight := ptry (Chat.Insight (orgFromCtx s) id) in
      ret (writeJSON 200 (jmap
        ([("messages", JArr (map message_json msgs))] ++
         match insight with
         | inl (i, true) => [("insight", insight_json i)]
         | inl (_, false) | inr _ => []
         end)))
  end.

Definition setStatus (s : Session) (id : string) : handler := fun r =>
  let '(status, ok) := Json.Decode (zero1 Json.dstring "status") "" (rq_Body r) in
  if negb ok then ret (error_json 400 "invalid body")
  else
    let! res := ptry (Chat.SetStatus (orgFromCtx s) id status) in
    match res with
    | inr ErrNotFound => ret (error_json 404 "not found")
    | inr ErrFlowInvalid => ret (error_json 400 "status must be open, handling, or closed")
    | inr _ => ret internal
    | inl _ => ret (status_json 200 "status" status)
    end.

Definition delivery (status : string) (delivered : bool) : Response :=
  writeJSON 200 (jmap [("status", JStr status); ("delivered", JBool delivered)]).

Definition agentReply (s : Session) (id : string) : handler := fun r =>
  let '(text, ok) := Json.Decode (zero1 Json.dstring "text") "" (rq_Body r) in
  if negb ok || (text =? "")%string then ret (error_json 400 "text required")
  else
    let! res := ptry (Chat.AgentReply (orgFromCtx s) id text) in
    match res with
    | inr ErrNotFound => ret (error_json 404 "not found")
    | inr _ => ret internal
    | inl (channel, externalUser) =>
        if (channel =? "whatsapp")%string || (channel =? "messenger")%string then
          let! out := ptry (Messaging.SendOutbound (orgFromCtx s) channel externalUser text) in
          match out with
          | inr _ => ret (delivery "stored" false)
          | inl _ => ret (delivery "sent" true)
          end
        else ret (delivery "sent" true)
    end.

Definition summarize (s : Session) (id : string) : handler := fun r =>
  let! res := ptry (Chat.Summarize (orgFromCtx s) id) in
  match res with
  | inr ErrNotFound => ret (error_json 404 "not found")
  | inr _ => ret internal
  | inl i => ret (writeJSON 200 (insight_json i))
  end.
End Handler.
End ChatHandler.

(** *** channels.go *)

Module ChannelsHandler.
Record connectBody := mkConnectBody {
  cb_Type : string; cb_ExternalID : string; cb_AccessToken : string; cb_VerifyToken : string
}.

Definition dConnectBody : Json.decoder connectBody := Json.dstruct
  [("type", Json.field cb_Type (fun x b =>
      mkConnectBody x (cb_ExternalID b) (cb_AccessToken b) (cb_VerifyToken b)) Json.dstring);
   ("external_id", Json.field cb_ExternalID (fun x b =>
      mkConnectBody (cb_Type b) x (cb_AccessToken b) (cb_VerifyToken b)) Json.dstring);
   ("access_token", Json.field cb_AccessToken (fun x b =>
      mkConnectBody (cb_Type b) (cb_ExternalID b) x (cb_VerifyToken b)) Json.dstring);
   ("verify_token", Json.field cb_VerifyToken (fun x b =>
      mkConnectBody (cb_Type b) (cb_ExternalID b) (cb_AccessToken b) x) Json.dstring)].

(** metaPayload *)
Record waMessage := mkWaMessage { wm_From : string; wm_Body : string }.
Record change := mkChange { ch_PhoneNumberID : string; ch_Messages : list waMessage }.
Record fbMessage := mkFbMessage { fm_Sender : string; fm_Text : string }.
Record entry := mkEntry {
  en_ID : string; en_Changes : list change; en_Messaging : list fbMessage
}.

Definition dWaMessage : Json.decoder waMessage := Json.dstruct
  [("from", Json.field wm_From (fun x m => mkWaMessage x (wm_Body m)) Json.dstring);
   ("text", Json.dstruct
      [("body", Json.field wm_Body (fun x m => mkWaMessage (wm_From m) x) Json.dstring)])].

Definition dChange : Json.decoder change := Json.dstruct
  [("value", Json.dstruct
      [("metadata", Json.dstruct
          [("phone_number_id", Json.field ch_PhoneNumberID
              (fun x c => mkChange x (ch_Messages c)) Json.dstring)]);
       ("messages", Json.field ch_Messages (fun x c => mkChange (ch_PhoneNumberID c) x)
          (Json.dslice (mkWaMessage "" "") dWaMessage))])].

(** The sender's field is named ID, without a tag. *)
Definition dFbMessage : Json.decoder fbMessage := Json.dstruct
  [("sender", Json.dstruct
      [("ID", Json.field fm_Sender (fun x m => mkFbMessage x (fm_Text m)) Json.dstring)]);
   ("message", Json.dstruct
      [("text", Json.field fm_Text (fun x m => mkFbMessage (fm_Sender m) x) Json.dstring)])].

Definition dEntry : Json.decoder entry := Json.dstruct
  [("id", Json.field en_ID (fun x e => mkEntry x (en_Changes e) (en_Messaging e)) Json.dstring);
   ("changes", Json.field en_Changes (fun x e => mkEntry (en_ID e) x (en_Messaging e))
      (Json.dslice (mkChange "" []) dChange));
   ("messaging", Json.field en_Messaging (fun x e => mkEntry (en_ID e) (en_Changes e) x)
      (Json.dslice (mkFbMessage "" "") dFbMessage))].

Definition dMetaPayload : Json.decoder (list entry) := Json.dstruct
  [("entry", Json.dslice (mkEntry "" [] []) dEntry)].

(** The messages of a payload, in the order they are routed: to, from, text. *)
Definition entry_messages (e : entry) : list (string * string * string) :=
  concat (map (fun c =>
    omap (fun m => if (wm_Body m =? "")%string then None
                   else Some (ch_PhoneNumberID c, wm_From m, wm_Body m)) (ch_Messages c))
    (en_Changes e)) ++
  omap (fun m => if (fm_Text m =? "")%string then None
                 else Some (en_ID e, fm_Sender m, fm_Text m)) (en_Messaging e).

Section Handler.
Context {conns : ChannelRepo.T} {assistant : Assistant.T} {sender : MessagingSender.T}
  {aead : AEAD.T} {local : LocalZone.T}.

Definition channel_json (c : ChannelConnection) : json :=
  JObj [("type", JStr (cc_Type c)); ("external_id", JStr (cc_ExternalID c));
        ("created_at", JStr (rfc3339 (cc_CreatedAt c)))].

Definition list (s : Session) : handler := fun r =>
  let! res := ptry (Messaging.List (orgFromCtx s)) in
  match res with
  | inr _ => ret internal
  | inl l => ret (writeJSON 200 (JObj [("channels", JArr (map channel_json l))]))
  end.

Definition connect (s : Session) : handler := fun r =>
  let '(body, ok) := Json.Decode dConnectBody (mkConnectBody "" "" "" "") (rq_Body r) in
  if negb ok || (negb (cb_Type body =? "whatsapp")%string && negb (cb_Type body =? "messenger")%string)
     || (cb_ExternalID body =? "")%string || (cb_AccessToken body =? "")%string
     || (cb_VerifyToken body =? "")%string
  then ret (error_json 400 "type, external_id, access_token, verify_token required")
  else
    let! res := ptry (Messaging.Connect (orgFromCtx s) (cb_Type body) (cb_ExternalID body)
                        (cb_AccessToken body) (cb_VerifyToken body)) in
    match res with
    | inr _ => ret internal
    | inl _ => ret (status_json 200 "status" "connected")
    end.

Definition disconnect (s : Session) (typ : string) : handler := fun r =>
  let! res := ptry (Messaging.Disconnect (orgFromCtx s) typ) in
  match res with
  | inr _ => ret internal
  | inl _ => ret (status_json 200 "status" "disconnected")
  end.

Definition forbidden : Response := mkResponse 403 [] "".

Definition verify : handler := fun r =>
  if (query_get r "hub.mode" =? "subscribe")%string then
    let! ok := Messaging.VerifyChallenge (query_get r "hub.verify_token") in
    if ok : bool
    then ret (mkResponse 200 [("Content-Type", "text/plain")] (query_get r "hub.challenge"))
    else ret forbidden
  else ret forbidden.

Definition ack : Response := mkResponse 200 [] "".

(** Each message by itself: an error is only logged. *)
Fixpoint route_all (ms : Datatypes.list (string * string * string)) : prog World unit :=
  match ms with
  | [] => ret tt
  | (to, from, text) :: ms =>
      do! pignore (Messaging.HandleInbound to from text) in
      route_all ms
  end.

Definition receive : handler := fun r =>
  match Json.Unmarshal dMetaPayload [] (limited (2 ^ 20) (rq_Body r)) with
  | None => ret ack
  | Some entries =>
      do! route_all (concat (map entry_messages entries)) in
      ret ack
  end.
End Handler.
End ChannelsHandler.

(** *** billing.go *)

Module BillingHandler.
Section Handler.
Context {credits : CreditRepo.T} {payments : PaymentRepo.T} {gateway : PaymentGateway.T}
  {local : LocalZone.T}.
Context (dev : bool) (webURL : string).

Definition entry_json (e : CreditEntry) : json :=
  JObj [("delta", Json.jint (ce_Delta e)); ("reason", JStr (ce_Reason e));
        ("created_at", JStr (rfc3339 (ce_CreatedAt e)))].

Definition get (s : Session) : handler := fun r =>
  let! bal := ptry (Billing.Balance (orgFromCtx s)) in
  match bal with
  | inr _ => ret internal
  | inl bal =>
      let! entries := ptry (Billing.Ledger (orgFromCtx s) 20) in
      match entries with
      | inr _ => ret internal
      | inl entries =>
          ret (writeJSON 200 (jmap [("balance", Json.jint bal);
                                    ("ledger", JArr (map entry_json entries))]))
      end
  end.

(** The error of Decode is dropped: what was decoded counts. *)
Definition topUp (s : Session) : handler := fun r =>
  if negb dev then ret (error_json 403 "use /v1/billing/checkout to pay")
  else
    let amount := fst (Json.Decode (zero1 Json.dint "amount") 0 (rq_Body r)) in
    let amount := if amount <=? 0 then 100 else amount in
    let! bal := ptry (Billing.TopUp (orgFromCtx s) amount) in
    match bal with
    | inr _ => ret internal
    | inl bal => ret (writeJSON 200 (JObj [("balance", Json.jint bal)]))
    end.

Definition checkout (s : Session) : handler := fun r =>
  let credits := fst (Json.Decode (zero1 Json.dint "credits") 0 (rq_Body r)) in
  let! url := ptry (Billing.Checkout (orgFromCtx s) credits) in
  match url with
  | inr _ => ret (error_json 502 "could not start payment")
  | inl url => ret (status_json 200 "redirect_url" url)
  end.

(** form[k] = r.PostForm.Get(k): the first value of each key. *)
Definition form_map (pairs : Datatypes.list (string * string)) : gmap string string :=
  fold_right (fun kv m => <[fst kv := snd kv]> m) ∅ pairs.

Definition ipn : handler := fun r =>
  let '(post, _, ok) := ParseForm r in
  if negb ok then ret (status_json 200 "status" "ignored")
  else
    do! pignore (Billing.SettlePayment (form_map post)) in
    ret (status_json 200 "status" "ok").

Definition devPay (s : Session) : handler := fun r =>
  if negb dev then ret (error_json 403 "dev only")
  else
    let ref := query_get r "ref" in
    if (ref =? "")%string then ret (error_json 400 "missing ref")
    else
      let! res := ptry (Billing.SettlePayment
                          (<["tran_id" := ref]> (<["status" := "paid"]> ∅))) in
      match res with
      | inr _ => ret internal
      | inl _ => ret (see_other r (webURL +:+ "/settings?payment=paid"))
      end.

Definition paymentReturn : handler := fun r =>
  let '(_, form, _) := ParseForm r in
  let status := Query.get form "status" in
  let status :=
    if (status =? "VALID")%string || (status =? "VALIDATED")%string || (status =? "paid")%string
       || (status =? "")%string then "paid" else "failed" in
  ret (see_other r (webURL +:+ "/settings?payment=" +:+ status)).
End Handler.
End BillingHandler.

(** *** webhooks.go *)

Module WebhookHandler.
(** url and events of the body. *)
Definition dEndpoint : Json.decoder (string * list string) := Json.dstruct
  [("url", Json.field fst (fun x b => (x, snd b)) Json.dstring);
   ("events", Json.field snd (fun x b => (fst b, x)) (Json.dslice "" Json.dstring))].

Section Handler.
Context {repo : WebhookRepo.T} {aead : AEAD.T}.

Definition getEndpoint (s : Session) : handler := fun r =>
  let! res := ptry (Webhooks.Get (orgFromCtx s)) in
  match res with
  | inr _ => ret internal
  | inl ((_, _), false) =>
      ret (writeJSON 200 (jmap [("configured", JBool false); ("events", JArr [])]))
  | inl ((url, events), true) =>
      ret (writeJSON 200 (jmap [("configured", JBool true); ("url", JStr url);
                                ("events", JArr (map JStr events))]))
  end.

Definition setEndpoint (s : Session) : handler := fun r =>
  let '((url, events), ok) := Json.Decode dEndpoint ("", []) (rq_Body r) in
  if negb ok || (url =? "")%string then ret (error_json 400 "url required")
  else
    let! res := ptry (Webhooks.SetEndpoint (orgFromCtx s) url events) in
    match res with
    | inr _ => ret internal
    | inl secret => ret (status_json 200 "secret" secret)
    end.
End Handler.
End WebhookHandler.

(** *** analytics.go, reports.go *)

Module AnalyticsHandler.
Definition pct (part total : Z) : Z := if total <=? 0 then 0 else percent part total.

Definition overviewDTO (o : AnalyticsOverview) : json :=
  let c := ao_Calls o in
  let v := ao_Conversations o in
  let m := ao_Credits o in
  jmap
    [("calls", jmap
        [("total", Json.jint (sum_Total c)); ("confirmed", Json.jint (sum_Confirmed c));
         ("cancelled", Json.jint (sum_Cancelled c)); ("today", Json.jint (sum_Today c));
         ("confirmation_rate", Json.jint (pct (sum_Confirmed c) (sum_Total c)))]);
     ("conversations", jmap
        [("total", Json.jint (cvs_Total v)); ("today", Json.jint (cvs_Today v));
         ("resolved", Json.jint (cvs_Resolved v)); ("pending", Json.jint (cvs_Pending v));
         ("sale", Json.jint (cvs_Sale v)); ("needs_human", Json.jint (cvs_NeedsHuman v));
         ("resolution_rate", Json.jint (pct (cvs_Resolved v) (cvs_Total v)))]);
     ("credits", jmap
        [("balance", Json.jint (crs_Balance m)); ("spent_today", Json.jint (crs_SpentToday m));
         ("spent_30d", Json.jint (crs_Spent30d m))])].

Section Handler.
Context {calls : CallRepo.T} {credits : CreditRepo.T} {repo : AnalyticsRepo.T}
  {reporter : Reporter.T}.

Definition overview (s : Session) : handler := fun r =>
  let! res := ptry (Analytics.Overview (orgFromCtx s)) in
  match res with
  | inr _ => ret internal
  | inl o => ret (writeJSON 200 (overviewDTO o))
  end.

(** reports.go: ask *)
Definition ask (s : Session) : handler := fun r =>
  let '(question, ok) := Json.Decode (zero1 Json.dstring "question") "" (rq_Body r) in
  if negb ok || (Strings.TrimSpace question =? "")%string
  then ret (error_json 400 "question required")
  else
    let! res := ptry (Reports.Ask (orgFromCtx s) question) in
    match res with
    | inr _ => ret internal
    | inl (answer, data) =>
        ret (writeJSON 200 (jmap [("answer", JStr answer); ("data", overviewDTO data)]))
    end.
End Handler.
End AnalyticsHandler.

(** *** onboarding.go *)

Module OnboardingHandler.
Definition dProgress : Json.decoder Onboarding.Progress := Json.dstruct
  [("store_named", Json.field Onboarding.pg_StoreNamed (fun x p =>
      Onboarding.mkProgress x (Onboarding.pg_HasAPIKey p) (Onboarding.pg_WebhookSet p)
        (Onboarding.pg_HasFlow p)) Json.dbool);
   ("has_api_key", Json.field Onboarding.pg_HasAPIKey (fun x p =>
      Onboarding.mkProgress (Onboarding.pg_StoreNamed p) x (Onboarding.pg_WebhookSet p)
        (Onboarding.pg_HasFlow p)) Json.dbool);
   ("webhook_set", Json.field Onboarding.pg_WebhookSet (fun x p =>
      Onboarding.mkProgress (Onboarding.pg_StoreNamed p) (Onboarding.pg_HasAPIKey p) x
        (Onboarding.pg_HasFlow p)) Json.dbool);
   ("has_flow", Json.field Onboarding.pg_HasFlow (fun x p =>
      Onboarding.mkProgress (Onboarding.pg_StoreNamed p) (Onboarding.pg_HasAPIKey p)
        (Onboarding.pg_WebhookSet p) x) Json.dbool)].

Definition dQuestion : Json.decoder (string * Onboarding.Progress) := Json.dstruct
  [("question", Json.field fst (fun x b => (x, snd b)) Json.dstring);
   ("progress", Json.field snd (fun x b => (fst b, x)) dProgress)].

Section Handler.
Context {model : ChatModel.T}.

Definition ask (s : Session) : handler := fun r =>
  let '((question, progress), ok) :=
    Json.Decode dQuestion ("", Onboarding.mkProgress false false false false)
      (limited (2 ^ 16) (rq_Body r)) in
  if negb ok || (question =? "")%string then ret (error_json 400 "question required")
  else
    let! res := ptry (Onboarding.Ask progress question) in
    match res with
    | inr _ => ret (error_json 502 "assistant unavailable")
    | inl answer => ret (status_json 200 "answer" answer)
    end.
End Handler.
End OnboardingHandler.

(** *** activity.go: the response, given what the select of the handler receives *)

Module ActivityHandler.
Section Handler.
Context {local : LocalZone.T}.
Context (feed : OrgID -> list Stream.input).

Definition stream_headers : list (string * string) :=
  [("Content-Type", "text/event-stream"); ("Cache-Control", "no-cache");
   ("Connection", "keep-alive"); ("X-Accel-Buffering", "no")].

Definition stream (s : Session) : handler := fun r =>
  ret (mkResponse 200 stream_headers
         (Stream.opening +:+ Stream.body LocalZone.offset (feed (orgFromCtx s)))).
End Handler.
End ActivityHandler.
