(* ===== verification/Ratelimit.v ===== *)
(** * The per-client throttle

    internal/platform/ratelimit/ratelimit.go: a token bucket per key, in float64
    (SpecFloat's binary64).  The mutex makes each operation one step; now is the
    reading of the clock, which never goes back. *)

From S2P Require Import Prelude.
From S2P Require Import Domain.
From S2P Require Import Effects.
From S2P Require Import GoLib.
From S2P Require Import Store.
From S2P Require Import Analytics.
From S2P Require Import HttpLib.
From stdpp Require Import gmap strings list.
From Stdlib Require Import ZArith Lia Ascii SpecFloat.

Open Scope Z_scope.
Open Scope go_scope.

Module Ratelimit.
Record bucket := mkBucket { tokens : spec_float; last : Time }.

Record Limiter := mkLimiter {
  buckets : gmap string bucket; rate : spec_float; burst : spec_float
}.

Definition New (perMinute burst : Z) : Limiter :=
  mkLimiter ∅ (Float64.div (Float64.of_int perMinute) (Float64.of_int 60)) (Float64.of_int burst).

(** Duration.Seconds of a number of microseconds. *)
Definition seconds (d : Z) : spec_float :=
  SFadd 53 1024 (Float64.of_int (Z.quot d Second))
    (Float64.div (Float64.of_int (Z.rem d Second * 1000)) (Float64.of_int 1000000000)).

(** The tokens of a known key at [now]. *)
Definition refill (l : Limiter) (b : bucket) (now : Time) : spec_float :=
  let t := SFadd 53 1024 (tokens b) (Float64.mul (seconds (now - last b)) (rate l)) in
  if SFltb (burst l) t then burst l else t.

Definition set_bucket (key : string) (b : bucket) (l : Limiter) : Limiter :=
  mkLimiter (<[key := b]> (buckets l)) (rate l) (burst l).

Definition allow (key : string) (now : Time) (l : Limiter) : bool * Limiter :=
  let t := match buckets l !! key with
           | None => burst l
           | Some b => refill l b now
           end in
  if SFltb t (Float64.of_int 1) then (false, set_bucket key (mkBucket t now) l)
  else (true, set_bucket key (mkBucket (SFsub 53 1024 t (Float64.of_int 1)) now) l).

(** One round of the sweeper: keys idle for more than ten minutes go. *)
Definition sweep (now : Time) (l : Limiter) : Limiter :=
  mkLimiter (base.filter (fun kb => now - 10 * Minute <= last (snd kb)) (buckets l))
    (rate l) (burst l).

(** A sequence of requests: the answers, and the limiter after them. *)
Fixpoint allow_all (reqs : list (string * Time)) (l : Limiter) : list bool * Limiter :=
  match reqs with
  | [] => ([], l)
  | (key, now) :: reqs =>
      let '(ok, l) := allow key now l in
      let '(oks, l) := allow_all reqs l in
      (ok :: oks, l)
  end.
End Ratelimit.

(** ** The caller's address *)

Module ClientIP.
Fixpoint last_index (c : ascii) (s : string) (i : nat) (acc : option nat) : option nat :=
  match s with
  | EmptyString => acc
  | String x s' => last_index c s' (S i) (if Ascii.eqb x c then Some i else acc)
  end.

Definition has (c : ascii) (s : string) : bool :=
  Strings.Contains s (String c EmptyString).

(** net.SplitHostPort: the host, unless the address is malformed. *)
Definition SplitHostPort (s : string) : option string :=
  match last_index ":" s 0 None with
  | None => None
  | Some i =>
      match s with
      | String "[" s' =>
          let '(host, rest, found) := cut "]" s' in
          if negb found then None
          else if negb (String.length host + 2 =? i)%nat then None
          else if has "[" s' || has "]" rest then None
          else Some host
      | _ =>
          let host := Strings.take i s in
          if has ":" host || has "[" s || has "]" s then None else Some host
      end
  end.

Definition of_request (r : Request) : string :=
  let xff := header_get (rq_Header r) "X-Forwarded-For" in
  if negb (xff =? "")%string then
    let '(first, _, _) := cut "," xff in Strings.TrimSpace first
  else match SplitHostPort (rq_RemoteAddr r) with
       | Some host => host
       | None => rq_RemoteAddr r
       end.
End ClientIP.

(** ** The middleware *)

Module RateLimiter.
Class T := { Allow : string -> prog World bool }.
Class Laws (L : T) : Prop := { Allow_silent : forall key, guar silent (Allow key) }.
End RateLimiter.

Definition too_many : Response :=
  mkResponse 429 [("Retry-After", "60")] (json_text "{`error`:`rate limited`}").

Definition throttle (limiter : RateLimiter.T) (next : Request -> prog World Response)
  : Request -> prog World Response := fun r =>
  let! ok := RateLimiter.Allow (ClientIP.of_request r) in
  if negb ok then ret too_many else next r.

(** ** Properties *)

Import Ratelimit.

(** No key's bucket is touched by another key. *)
Lemma allow_other key key' now l :
  key <> key' -> buckets (snd (allow key now l)) !! key' = buckets l !! key'.
Proof.
  intros Hne. unfold allow. by destruct (SFltb _ _); simpl; rewrite lookup_insert_ne.
Qed.

Lemma allow_params key now l :
  rate (snd (allow key now l)) = rate l /\ burst (snd (allow key now l)) = burst l.
Proof. unfold allow. by destruct (SFltb _ _). Qed.

(** A key seen for the first time is served when the burst is at least one. *)
Lemma allow_new key now l :
  buckets l !! key = None -> SFltb (burst l) (Float64.of_int 1) = false ->
  fst (allow key now l) = true.
Proof. intros Hn Hb. unfold allow. by rewrite Hn, Hb. Qed.

(** The throttle trusts the first X-Forwarded-For hop, which a client behind a
    proxy that appends to the header chooses: requests that each name another
    first hop are all served, however many there are and however fast. *)
Theorem fresh_hops_are_never_throttled reqs l :
  NoDup (map fst reqs) -> Forall (fun r => buckets l !! fst r = None) reqs ->
  SFltb (burst l) (Float64.of_int 1) = false ->
  fst (allow_all reqs l) = map (fun _ => true) reqs.
Proof.
  revert l. induction reqs as [|[key now] reqs IH]; intros l Hnd Hnew Hb; [done|].
  simpl in Hnd. apply NoDup_cons in Hnd as [Hk Hnd].
  apply Forall_cons in Hnew as [Hn Hnew]. cbn [allow_all map].
  pose proof (allow_new key now l Hn Hb) as Hok.
  pose proof (allow_params key now l) as [_ Hburst].
  pose proof (fun key' Hne => allow_other key key' now l Hne) as Hother.
  destruct (allow key now l) as [ok l1]. simpl in Hok, Hburst, Hother. subst ok.
  specialize (IH l1 Hnd). destruct (allow_all reqs l1) as [oks l2]. simpl in *.
  f_equal. apply IH; [|by rewrite Hburst].
  apply Forall_forall. intros [k t] Hin. rewrite Forall_forall in Hnew. simpl.
  rewrite Hother; [by apply (Hnew (k, t))|].
  intros ->. apply Hk. by apply (list_elem_of_fmap_2 fst reqs (k, t)).
Qed.

Lemma fresh_hops_are_never_throttled_witness :
  fst (allow_all [("10.0.0.1", 0); ("10.0.0.2", 0); ("10.0.0.3", 1)] (New 10 5)) =
  [true; true; true].
Proof.
  apply (fresh_hops_are_never_throttled [("10.0.0.1", 0); ("10.0.0.2", 0); ("10.0.0.3", 1)]
           (New 10 5)).
  - apply (bool_decide_unpack _). vm_compute. exact I.
  - repeat constructor.
  - reflexivity.
Defined.

(** The limiter of the login routes, with [k] tokens left for a key at [t]. *)
Definition login_limiter : Limiter := New 10 5.

Definition left_at (key : string) (t : Time) (k : Z) : Limiter :=
  set_bucket key (mkBucket (Float64.of_int k) t) login_limiter.

(** No time passes, so nothing is refilled. *)
Lemma refill_now key t k :
  0 <= k <= 5 -> refill (left_at key t k) (mkBucket (Float64.of_int k) t) t = Float64.of_int k.
Proof.
  intros Hk. unfold refill. cbn [tokens last rate burst left_at set_bucket]. rewrite Z.sub_diag.
  assert (k = 0 \/ k = 1 \/ k = 2 \/ k = 3 \/ k = 4 \/ k = 5) as Hc by lia. clear Hk.
  destruct Hc as [->|[->|[->|[->|[->| ->]]]]]; vm_compute; reflexivity.
Qed.

Lemma take_token k :
  0 <= k <= 5 ->
  SFltb (Float64.of_int k) (Float64.of_int 1) = (k <=? 0) /\
  (1 <= k -> SFsub 53 1024 (Float64.of_int k) (Float64.of_int 1) = Float64.of_int (k - 1)).
Proof.
  intros Hk.
  assert (k = 0 \/ k = 1 \/ k = 2 \/ k = 3 \/ k = 4 \/ k = 5) as Hc by lia. clear Hk.
  destruct Hc as [->|[->|[->|[->|[->| ->]]]]]; (split; [|intros ?; try lia]);
    vm_compute; reflexivity.
Qed.

Lemma set_bucket_twice key b b' l : set_bucket key b' (set_bucket key b l) = set_bucket key b' l.
Proof. unfold set_bucket. simpl. by rewrite insert_insert_eq. Qed.

Lemma allow_left key t k :
  0 <= k <= 5 -> allow key t (left_at key t k) = (0 <? k, left_at key t (Z.max 0 (k - 1))).
Proof.
  intros Hk. unfold allow.
  assert (buckets (left_at key t k) !! key = Some (mkBucket (Float64.of_int k) t)) as ->
    by apply lookup_insert_eq.
  rewrite refill_now by done. destruct (take_token k Hk) as [-> Hsub].
  unfold left_at. rewrite !set_bucket_twice.
  destruct (Z.leb_spec k 0) as [H|H], (Z.ltb_spec 0 k) as [H'|H']; try lia.
  - assert (k = 0) as -> by lia. done.
  - rewrite Hsub by lia. by replace (Z.max 0 (k - 1)) with (k - 1) by lia.
Qed.

Lemma allow_first key t :
  allow key t login_limiter = (true, left_at key t 4).
Proof.
  unfold allow. assert (buckets login_limiter !! key = None) as -> by apply lookup_empty.
  change (burst login_limiter) with (Float64.of_int 5).
  destruct (take_token 5 ltac:(lia)) as [-> Hsub]. by rewrite Hsub by lia.
Qed.

(** The number of requests served out of the next [n], with [k] tokens left. *)
Lemma at_once_left key t n k :
  0 <= k <= 5 ->
  fst (allow_all (repeat (key, t) n) (left_at key t k)) =
  map (fun i => Z.of_nat i <? k) (seq 0 n).
Proof.
  revert k. induction n as [|n IH]; intros k Hk; [done|].
  cbn [repeat allow_all]. rewrite allow_left by done.
  specialize (IH (Z.max 0 (k - 1)) ltac:(lia)).
  destruct (allow_all _ _) as [oks l]. simpl in *. f_equal. rewrite IH.
  rewrite <- seq_shift, map_map. apply map_ext. intros i.
  destruct (Z.ltb_spec (Z.of_nat i) (Z.max 0 (k - 1))), (Z.ltb_spec (Z.of_nat (S i)) k);
    (done || lia).
Qed.

(** Of any number of login requests of one client at one instant, exactly the
    first five are served. *)
Theorem login_burst_is_five key t n :
  fst (allow_all (repeat (key, t) n) login_limiter) =
  map (fun i => (i <? 5)%nat) (seq 0 n).
Proof.
  destruct n as [|n]; [done|]. cbn [repeat allow_all]. rewrite allow_first.
  pose proof (at_once_left key t n 4 ltac:(lia)) as H.
  destruct (allow_all _ _) as [oks l]. simpl in *. f_equal. rewrite H.
  rewrite <- seq_shift, map_map. apply map_ext. intros i.
  destruct (Nat.ltb_spec (S i) 5), (Z.ltb_spec (Z.of_nat i) 4); (done || lia).
Qed.
