(* ===== verification/Server.v ===== *)
(** * The router

    internal/transport/http/server.go, func New: every route with its middleware,
    as one program from a request to a response.  logRequests only logs. *)

From S2P Require Import Prelude.
From S2P Require Import Domain.
From S2P Require Import Effects.
From S2P Require Import GoLib.
From S2P Require Import Json.
From S2P Require Import Store.
From S2P Require Import Crypto.
From S2P Require Import Ports.
From S2P Require Import PgAuth.
From S2P Require Import PgChat.
From S2P Require Import PgCampaigns.
From S2P Require Import PgIngest.
From S2P Require Import PgWebhooks.
From S2P Require Import Orchestrator.
From S2P Require Import Messaging.
From S2P Require Import Analytics.
From S2P Require Import HttpOut.
From S2P Require Import Bus.
From S2P Require Import HttpLib.
From S2P Require Import HttpAuth.
From S2P Require Import HttpCalls.
From S2P Require Import HttpDash.
From S2P Require Import Ratelimit.
From stdpp Require Import gmap strings list.
From Stdlib Require Import ZArith Lia.

Open Scope Z_scope.
Open Scope go_scope.

(** What the router is built with besides its ports. *)
Record Config := mkConfig {
  cfg_secret : string;
  cfg_dev : bool;
  cfg_webURL : string;
  cfg_openapi : string
}.

Module Server.
Import Mux.

Section Server.
Context {auth : AuthRepo.T} {orgs : OrgStore.T} {credits : CreditRepo.T}
  {payments : PaymentRepo.T} {gateway : PaymentGateway.T} {callrepo : CallRepo.T}
  {outcomes : OutcomeRepo.T} {policy : CallPolicyRepo.T} {flows : FlowRepo.T}
  {customers : CustomerRepo.T} {campaigns : CampaignRepo.T} {events : EventRepo.T}
  {keys : APIKeyRepo.T} {chats : ChatRepo.T} {settings : ChatSettingsRepo.T}
  {insights : InsightRepo.T} {conns : ChannelRepo.T} {hooks : WebhookRepo.T}
  {metrics : AnalyticsRepo.T}.
Context {clock : Clock.T} {tz : TimeZones.T} {local : LocalZone.T} {hmac : HMAC.T}
  {sha : SHA256.T} {bcrypt : Bcrypt.T} {aead : AEAD.T}.
Context {sms : SMSSender.T} {provider : VoiceProvider.T}
  {orch : Orchestrator.T} {model : ChatModel.T} {summarizer : Summarizer.T}
  {sender : MessagingSender.T} {reporter : Reporter.T} {stt : STT.T} {http : HttpOut.T}.
Context (authLimit publicLimit : RateLimiter.T) (activity : option ActivityPublisher.T)
  (feed : OrgID -> list Stream.input) (cfg : Config).

(** A handler that also gets the values of the wildcards. *)
Definition endpoint : Type := list (string * string) -> handler.

Definition public (h : handler) : endpoint := fun _ => h.

Definition authed (h : Session -> handler) : endpoint :=
  fun _ => AuthHandler.requireAuth h.

(** With the value of the one wildcard [k]. *)
Definition authed1 (k : string) (h : Session -> string -> handler) : endpoint :=
  fun vs => AuthHandler.requireAuth (fun s => h s (value vs k)).

Definition healthz : handler := fun _ => ret (status_json 200 "status" "ok").

Definition openapi : handler := fun _ =>
  ret (mkResponse 200 [("Content-Type", "application/yaml")] (cfg_openapi cfg)).

Definition on (method : string) (segs : list segment) : pattern := mkPattern (Some method) segs.
Definition any (segs : list segment) : pattern := mkPattern None segs.

Definition dev : bool := cfg_dev cfg.
Definition chat_assistant : Assistant.T := Assistant.of_chat activity.

(** The routes without a session. *)
Definition public_routes : list (pattern * endpoint) :=
  [(on "GET" [Lit "healthz"], public healthz);
   (on "GET" [Lit "openapi.yaml"], public openapi);
   (on "POST" [Lit "v1"; Lit "auth"; Lit "otp"; Lit "request"],
     public (throttle authLimit (AuthHandler.requestOTP (cfg_secret cfg) dev)));
   (on "POST" [Lit "v1"; Lit "auth"; Lit "otp"; Lit "verify"],
     public (throttle authLimit (AuthHandler.verifyOTP (cfg_secret cfg) dev)));
   (on "POST" [Lit "v1"; Lit "auth"; Lit "register"],
     public (throttle authLimit (AuthHandler.register dev)));
   (on "POST" [Lit "v1"; Lit "auth"; Lit "login"],
     public (throttle authLimit (AuthHandler.login dev)));
   (on "POST" [Lit "v1"; Lit "auth"; Lit "logout"], public AuthHandler.logout);
   (on "POST" [Lit "webhooks"; Lit "payment"], public BillingHandler.ipn);
   (on "GET" [Lit "billing"; Lit "return"],
     public (BillingHandler.paymentReturn (cfg_webURL cfg)));
   (on "POST" [Lit "billing"; Lit "return"],
     public (BillingHandler.paymentReturn (cfg_webURL cfg)));
   (on "POST" [Lit "v1"; Lit "events"],
     public (throttle publicLimit (IngestHandler.requireAPIKey IngestHandler.postEvent)));
   (on "GET" [Lit "webhooks"; Lit "meta"], public ChannelsHandler.verify);
   (on "POST" [Lit "webhooks"; Lit "meta"],
     public (ChannelsHandler.receive (assistant := chat_assistant)));
   (any [Lit "public"; Lit "chat"; Lit "messages"],
     public (throttle publicLimit (PublicHandler.cors (PublicHandler.chatSend activity))));
   (any [Lit "public"; Lit "chat"; Lit "config"],
     public (PublicHandler.cors PublicHandler.chatConfig));
   (on "GET" [Lit "widget.js"],
     public (PublicHandler.cors PublicHandler.widget))].

(** The routes behind requireAuth. *)
Definition authed_routes : list (pattern * endpoint) :=
  [(on "GET" [Lit "v1"; Lit "me"], authed AuthHandler.me);
   (on "GET" [Lit "v1"; Lit "calls"], authed CallsHandler.listCalls);
   (on "GET" [Lit "v1"; Lit "calls"; Wild "id"], authed1 "id" CallsHandler.getCall);
   (on "POST" [Lit "v1"; Lit "calls"; Wild "id"; Lit "transcribe"],
     authed1 "id" CallsHandler.transcribeCall);
   (on "GET" [Lit "v1"; Lit "settings"; Lit "call-policy"], authed CallsHandler.getPolicy);
   (on "PUT" [Lit "v1"; Lit "settings"; Lit "call-policy"], authed CallsHandler.savePolicy);
   (on "GET" [Lit "v1"; Lit "analytics"; Lit "summary"], authed CallsHandler.summary);
   (on "GET" [Lit "v1"; Lit "analytics"; Lit "overview"], authed AnalyticsHandler.overview);
   (on "GET" [Lit "v1"; Lit "activity"; Lit "stream"], authed (ActivityHandler.stream feed));
   (on "POST" [Lit "v1"; Lit "reports"; Lit "ask"], authed AnalyticsHandler.ask);
   (on "POST" [Lit "v1"; Lit "onboarding"; Lit "ask"], authed OnboardingHandler.ask);
   (on "GET" [Lit "v1"; Lit "billing"], authed BillingHandler.get);
   (on "POST" [Lit "v1"; Lit "billing"; Lit "topup"], authed (BillingHandler.topUp dev));
   (on "POST" [Lit "v1"; Lit "billing"; Lit "checkout"], authed BillingHandler.checkout);
   (on "GET" [Lit "v1"; Lit "dev"; Lit "pay"],
     authed (BillingHandler.devPay dev (cfg_webURL cfg)));
   (on "GET" [Lit "v1"; Lit "customers"], authed CustomersHandler.list);
   (on "POST" [Lit "v1"; Lit "customers"; Wild "id"; Lit "dnd"],
     authed1 "id" (CustomersHandler.setDND true));
   (on "DELETE" [Lit "v1"; Lit "customers"; Wild "id"; Lit "dnd"],
     authed1 "id" (CustomersHandler.setDND false));
   (on "POST" [Lit "v1"; Lit "chat"; Lit "messages"], authed (ChatHandler.send activity));
   (on "GET" [Lit "v1"; Lit "chat"; Lit "conversations"], authed ChatHandler.list);
   (on "GET" [Lit "v1"; Lit "chat"; Lit "conversations"; Wild "id"],
     authed1 "id" ChatHandler.messages);
   (on "POST" [Lit "v1"; Lit "chat"; Lit "conversations"; Wild "id"; Lit "summarize"],
     authed1 "id" ChatHandler.summarize);
   (on "PUT" [Lit "v1"; Lit "chat"; Lit "conversations"; Wild "id"; Lit "status"],
     authed1 "id" ChatHandler.setStatus);
   (on "POST" [Lit "v1"; Lit "chat"; Lit "conversations"; Wild "id"; Lit "reply"],
     authed1 "id" ChatHandler.agentReply);
   (on "GET" [Lit "v1"; Lit "chat"; Lit "settings"], authed ChatHandler.getSettings);
   (on "PUT" [Lit "v1"; Lit "chat"; Lit "settings"], authed ChatHandler.saveSettings);
   (on "GET" [Lit "v1"; Lit "campaigns"], authed CampaignsHandler.list);
   (on "POST" [Lit "v1"; Lit "campaigns"], authed CampaignsHandler.create);
   (on "POST" [Lit "v1"; Lit "campaigns"; Wild "id"; Lit "recipients"],
     authed1 "id" CampaignsHandler.importRecipients);
   (on "POST" [Lit "v1"; Lit "campaigns"; Wild "id"; Lit "schedule"],
     authed1 "id" CampaignsHandler.schedule);
   (on "POST" [Lit "v1"; Lit "campaigns"; Wild "id"; Lit "start"],
     authed1 "id" CampaignsHandler.start);
   (on "GET" [Lit "v1"; Lit "flows"], authed FlowsHandler.list);
   (on "POST" [Lit "v1"; Lit "flows"], authed FlowsHandler.create);
   (on "GET" [Lit "v1"; Lit "flows"; Lit "templates"], authed FlowsHandler.templates);
   (on "POST" [Lit "v1"; Lit "flows"; Lit "simulate"], authed FlowsHandler.simulate);
   (on "GET" [Lit "v1"; Lit "flows"; Wild "id"], authed1 "id" FlowsHandler.get);
   (on "PUT" [Lit "v1"; Lit "flows"; Wild "id"], authed1 "id" FlowsHandler.update);
   (on "PUT" [Lit "v1"; Lit "settings"; Lit "org"], authed AuthHandler.renameOrg);
   (on "GET" [Lit "v1"; Lit "settings"; Lit "api-keys"], authed IngestHandler.listKeys);
   (on "POST" [Lit "v1"; Lit "settings"; Lit "api-keys"], authed IngestHandler.mintKey);
   (on "POST" [Lit "v1"; Lit "settings"; Lit "publishable-key"],
     authed IngestHandler.mintPublishableKey);
   (on "GET" [Lit "v1"; Lit "channels"], authed ChannelsHandler.list);
   (on "POST" [Lit "v1"; Lit "channels"], authed ChannelsHandler.connect);
   (on "DELETE" [Lit "v1"; Lit "channels"; Wild "type"],
     authed1 "type" ChannelsHandler.disconnect);
   (on "GET" [Lit "v1"; Lit "settings"; Lit "webhook"], authed WebhookHandler.getEndpoint);
   (on "POST" [Lit "v1"; Lit "settings"; Lit "webhook"], authed WebhookHandler.setEndpoint);
   (on "POST" [Lit "v1"; Lit "dev"; Lit "test-call"], authed (CallsHandler.testCall activity));
   (on "POST" [Lit "v1"; Lit "dev"; Lit "place-call"], authed CallsHandler.placeCall)].

Definition routes : list (pattern * endpoint) := public_routes ++ authed_routes.

Definition serve : handler := fun r =>
  match lookup routes (rq_Method r) (rq_Path r) with
  | Some (h, vs) => h vs r
  | None =>
      match allowed routes (rq_Path r) with
      | [] => ret not_found
      | methods => ret (method_not_allowed methods)
      end
  end.
End Server.
End Server.
