(* ===== verification/Tenant.v ===== *)
(** * Tenants: the rows of an organisation, and what leaves them alone

    The tables are shared by all organisations.  [untouched o d d'] says that no
    row of organisation [o] differs between two databases, [frame o] lifts it to
    worlds (with the jobs queued and the calls dialled for [o]), and the lemmas
    below are its rules: for lists of rows, for statements, for programs. *)

From S2P Require Import Prelude.
From S2P Require Import Domain.
From S2P Require Import Effects.
From S2P Require Import Store.
From S2P Require Import Ports.
From S2P Require Import Orchestrator.
From stdpp Require Import gmap strings list.
From Stdlib Require Import ZArith Lia.

Open Scope Z_scope.
Open Scope go_scope.

(** ** Selections *)

(** The rows of one owner. *)
Definition rows_of {R} (org : R -> string) (o : OrgID) (t : list R) : list R :=
  tselect (fun r => (org r =? o)%string) t.

Section Select.
Context {R : Type}.
Implicit Types (p q : R -> bool) (t : list R).

Lemma select_snoc p t r : p r = false -> tselect p (t ++ [r]) = tselect p t.
Proof. intros H. unfold tselect. rewrite List.filter_app. simpl. rewrite H. apply app_nil_r. Qed.

(** Rows that are rewritten are neither selected before nor after. *)
Lemma select_update p q f t :
  (forall r, In r t -> q r = true -> p r = false /\ p (f r) = false) ->
  tselect p (tupdate q f t) = tselect p t.
Proof.
  unfold tselect, tupdate. induction t as [|r t IH]; simpl; [done|]. intros H.
  rewrite IH by (intros; apply H; auto). destruct (q r) eqn:E; [|done].
  destruct (H r (or_introl eq_refl) E) as [-> ->]. done.
Qed.

Lemma select_delete p q t :
  (forall r, In r t -> q r = true -> p r = false) -> tselect p (tdelete q t) = tselect p t.
Proof.
  unfold tselect, tdelete. induction t as [|r t IH]; simpl; [done|]. intros H.
  rewrite <- IH by (intros; apply H; auto). destruct (q r) eqn:E; simpl; [|done].
  by rewrite (H r (or_introl eq_refl) E).
Qed.

Lemma in_rows_of (org : R -> string) o t r : In r (rows_of org o t) <-> In r t /\ org r = o.
Proof. unfold rows_of, tselect. rewrite List.filter_In, String.eqb_eq. done. Qed.

(** Appending another owner's row. *)
Lemma rows_snoc (org : R -> string) o t r :
  org r <> o -> rows_of org o (t ++ [r]) = rows_of org o t.
Proof. intros H. by apply select_snoc, String.eqb_neq. Qed.

(** Rewriting other owners' rows, who stay their owners. *)
Lemma rows_update (org : R -> string) o q f t :
  (forall r, In r t -> q r = true -> org r <> o) -> (forall r, org (f r) = org r) ->
  rows_of org o (tupdate q f t) = rows_of org o t.
Proof.
  intros H Hf. apply select_update. intros r Hin Hq. rewrite Hf.
  by split; apply String.eqb_neq, H.
Qed.

Lemma rows_delete (org : R -> string) o q t :
  (forall r, In r t -> q r = true -> org r <> o) ->
  rows_of org o (tdelete q t) = rows_of org o t.
Proof. intros H. apply select_delete. intros r Hin Hq. by apply String.eqb_neq, H. Qed.
End Select.

(** ** The rows of an organisation *)

Definition conversation_ids (o : OrgID) (d : DB) : list string :=
  map conv_id (rows_of conv_org_id o (conversations d)).

Definition campaign_ids (o : OrgID) (d : DB) : list string :=
  map camp_id (rows_of camp_org_id o (campaigns d)).

Record untouched (o : OrgID) (d d' : DB) : Prop := {
  un_orgs : rows_of orgr_id o (orgs d') = rows_of orgr_id o (orgs d);
  un_flows : rows_of flowr_org_id o (flows d') = rows_of flowr_org_id o (flows d);
  un_calls : rows_of callr_org_id o (calls d') = rows_of callr_org_id o (calls d);
  un_keys : rows_of key_org_id o (api_keys d') = rows_of key_org_id o (api_keys d);
  un_events : rows_of event_org_id o (events d') = rows_of event_org_id o (events d);
  un_endpoints :
    rows_of whe_org_id o (webhook_endpoints d') = rows_of whe_org_id o (webhook_endpoints d);
  un_outbox : rows_of ob_org_id o (webhook_outbox d') = rows_of ob_org_id o (webhook_outbox d);
  un_deliveries :
    rows_of dlv_org_id o (webhook_deliveries d') = rows_of dlv_org_id o (webhook_deliveries d);
  un_customers : rows_of cust_org_id o (customers d') = rows_of cust_org_id o (customers d);
  un_campaigns : rows_of camp_org_id o (campaigns d') = rows_of camp_org_id o (campaigns d);
  un_recipients : forall c, In c (campaign_ids o d) ->
    rows_of rcp_campaign_id c (campaign_recipients d') =
    rows_of rcp_campaign_id c (campaign_recipients d);
  un_conversations :
    rows_of conv_org_id o (conversations d') = rows_of conv_org_id o (conversations d);
  un_messages : forall c, In c (conversation_ids o d) ->
    rows_of msg_conversation_id c (messages d') = rows_of msg_conversation_id c (messages d);
  un_insights : forall c, In c (conversation_ids o d) ->
    conversation_insights d' !! c = conversation_insights d !! c;
  un_settings : chat_settings d' !! o = chat_settings d !! o;
  un_channels :
    rows_of chan_org_id o (channel_connections d') = rows_of chan_org_id o (channel_connections d);
  un_payments : rows_of pmt_org_id o (payments d') = rows_of pmt_org_id o (payments d);
  un_credits : org_credits d' !! o = org_credits d !! o;
  un_ledger : rows_of led_org_id o (credit_ledger d') = rows_of led_org_id o (credit_ledger d);
  un_policy : org_call_policy d' !! o = org_call_policy d !! o
}.

Lemma untouched_refl o d : untouched o d d.
Proof. by split. Qed.

Lemma untouched_trans o d1 d2 d3 : untouched o d1 d2 -> untouched o d2 d3 -> untouched o d1 d3.
Proof.
  intros H1 H2.
  assert (Hc : campaign_ids o d2 = campaign_ids o d1).
  { unfold campaign_ids. by rewrite (un_campaigns _ _ _ H1). }
  assert (Hv : conversation_ids o d2 = conversation_ids o d1).
  { unfold conversation_ids. by rewrite (un_conversations _ _ _ H1). }
  pose proof (un_recipients _ _ _ H2) as R2. pose proof (un_messages _ _ _ H2) as M2.
  pose proof (un_insights _ _ _ H2) as I2. rewrite Hc in R2. rewrite Hv in M2, I2.
  destruct H1, H2. split; try congruence; intros c Hin.
  - rewrite R2 by done. auto.
  - rewrite M2 by done. auto.
  - rewrite I2 by done. auto.
Qed.

(** ** Ids name one owner

    The primary keys of the tables whose rows the code reaches by id alone: an id
    of a row of [o] is the id of no other owner's row. *)

Definition named_once (o : OrgID) (ids : list (string * OrgID)) : Prop :=
  forall x a, In (x, o) ids -> In (x, a) ids -> a = o.

Definition conversation_names (d : DB) : list (string * OrgID) :=
  map (fun r => (conv_id r, conv_org_id r)) (conversations d).
Definition campaign_names (d : DB) : list (string * OrgID) :=
  map (fun r => (camp_id r, camp_org_id r)) (campaigns d).
Definition call_names (d : DB) : list (string * OrgID) :=
  map (fun r => (callr_id r, callr_org_id r)) (calls d).
Definition key_names (d : DB) : list (string * OrgID) :=
  map (fun r => (key_id r, key_org_id r)) (api_keys d).

(** What isolation rests on: ids name one owner, and the organisation exists. *)
Record well_named (o : OrgID) (d : DB) : Prop := {
  wn_conversations : named_once o (conversation_names d);
  wn_campaigns : named_once o (campaign_names d);
  wn_calls : named_once o (call_names d);
  wn_keys : named_once o (key_names d);
  wn_exists : rows_of orgr_id o (orgs d) <> []
}.

Lemma named_once_snoc o ids x a :
  a <> o -> (forall b, ~ In (x, b) ids) -> named_once o ids -> named_once o (ids ++ [(x, a)]).
Proof.
  intros Ha Hx H y b Hy Hb. apply in_app_or in Hy as [Hy|[[= -> E]|[]]]; [|done].
  apply in_app_or in Hb as [Hb|[[= -> ->]|[]]]; [by eapply H|]. by apply Hx in Hy.
Qed.

(** Rewriting rows that keep their ids and owners keeps the names. *)
Lemma names_update {R} (id org : R -> string) q f (t : list R) :
  (forall r, id (f r) = id r /\ org (f r) = org r) ->
  map (fun r => (id r, org r)) (tupdate q f t) = map (fun r => (id r, org r)) t.
Proof.
  intros Hf. unfold tupdate. rewrite map_map. apply map_ext. intros r. destruct (q r); [|done].
  by destruct (Hf r) as [-> ->].
Qed.

Lemma names_none {R} (id org : R -> string) x (t : list R) b :
  tfind (fun r => (id r =? x)%string) t = None -> ~ In (x, b) (map (fun r => (id r, org r)) t).
Proof.
  intros Hn Hin. apply List.in_map_iff in Hin as (r & [= Hx _] & Hr).
  by apply (tfind_none _ _ _ Hn), String.eqb_neq in Hr.
Qed.

(** The id of another owner's row is not an id of [o]. *)
Lemma names_in {R} (id org : R -> string) (t : list R) r o :
  named_once o (map (fun r => (id r, org r)) t) -> In r t -> org r <> o ->
  ~ In (id r) (map id (rows_of org o t)).
Proof.
  intros Hn Hr Hne Hin. apply List.in_map_iff in Hin as (r' & Hid & Hr').
  apply in_rows_of in Hr' as [Hr' Ho]. apply Hne, (Hn (id r)).
  - apply List.in_map_iff. exists r'. by rewrite Hid, Ho.
  - apply List.in_map_iff. by exists r.
Qed.

(** Rows reached by such an id have other owners. *)
Lemma other_owner {R} (id org : R -> string) x (t : list R) o r :
  ~ In x (map id (rows_of org o t)) -> In r t -> (id r =? x)%string = true -> org r <> o.
Proof.
  intros Hn Hr Hx Ho. apply Hn, List.in_map_iff. exists r. split; [by apply String.eqb_eq|].
  by apply in_rows_of.
Qed.

(** ** Worlds *)

(** Between two worlds nothing of [o] changed, and names stay good. *)
Definition kept (o : OrgID) (w w' : World) : Prop :=
  well_named o (w_db w') /\ untouched o (w_db w) (w_db w') /\
  List.filter (fun j => (pci_OrgID j =? o)%string) (s_jobs (w_st w')) =
  List.filter (fun j => (pci_OrgID j =? o)%string) (s_jobs (w_st w)) /\
  dials (w_st w') o = dials (w_st w) o.

(** [K] is what is known of the database: that some id is not one of [o]'s. *)
Definition frame (K : DB -> Prop) (o : OrgID) (w w' : World) : Prop :=
  well_named o (w_db w) -> K (w_db w) -> kept o w w' /\ K (w_db w').

(** Nothing known, a conversation or a call that is not one of [o]'s. *)
Definition anything : DB -> Prop := fun _ => True.
Definition foreign_conversation (o : OrgID) (c : string) : DB -> Prop :=
  fun d => ~ In c (conversation_ids o d).
Definition foreign_campaign (o : OrgID) (c : string) : DB -> Prop :=
  fun d => ~ In c (campaign_ids o d).
Definition foreign_call (o : OrgID) (c : string) : DB -> Prop :=
  fun d => ~ In c (map callr_id (rows_of callr_org_id o (calls d))).
Definition foreign_key (o : OrgID) (k : string) : DB -> Prop :=
  fun d => ~ In k (map key_id (rows_of key_org_id o (api_keys d))).

(** Knowledge that no change of other owners' rows takes away. *)
Class Stable (o : OrgID) (K : DB -> Prop) : Prop :=
  stable : forall d d', untouched o d d' -> K d -> K d'.

#[export] Instance anything_stable o : Stable o anything.
Proof. done. Qed.
#[export] Instance foreign_conversation_stable o c : Stable o (foreign_conversation o c).
Proof.
  intros d d' H. unfold foreign_conversation, conversation_ids.
  by rewrite (un_conversations _ _ _ H).
Qed.
#[export] Instance foreign_campaign_stable o c : Stable o (foreign_campaign o c).
Proof. intros d d' H. unfold foreign_campaign, campaign_ids. by rewrite (un_campaigns _ _ _ H). Qed.
#[export] Instance foreign_call_stable o c : Stable o (foreign_call o c).
Proof. intros d d' H. unfold foreign_call. by rewrite (un_calls _ _ _ H). Qed.
#[export] Instance foreign_key_stable o k : Stable o (foreign_key o k).
Proof. intros d d' H. unfold foreign_key. by rewrite (un_keys _ _ _ H). Qed.

Lemma kept_refl o w : well_named o (w_db w) -> kept o w w.
Proof. intros H. split; [done|]. split; [apply untouched_refl|done]. Qed.

Lemma kept_trans o w1 w2 w3 : kept o w1 w2 -> kept o w2 w3 -> kept o w1 w3.
Proof.
  intros (_ & U1 & J1 & D1) (W & U2 & J2 & D2). split; [done|].
  split; [by eapply untouched_trans|]. split; congruence.
Qed.

Section Frame.
Context (o : OrgID) (K : DB -> Prop) {K_stable : Stable o K}.

Lemma frame_refl w : frame K o w w.
Proof using. intros H HK. split; [by apply kept_refl|done]. Qed.

Lemma frame_trans w1 w2 w3 : frame K o w1 w2 -> frame K o w2 w3 -> frame K o w1 w3.
Proof using.
  intros H1 H2 Hw HK. destruct (H1 Hw HK) as [Hk1 HK1]. destruct (H2 (proj1 Hk1) HK1) as [Hk2 HK2].
  split; [by eapply kept_trans|done].
Qed.

Lemma frame_silent w w' : w_st w' = w_st w -> frame K o w w'.
Proof using.
  intros E Hw HK. unfold kept, w_db in *. rewrite E. split; [|done]. split; [done|].
  split; [apply untouched_refl|done].
Qed.

Lemma frame_quiet w w' : quiet w w' -> frame K o w w'.
Proof using.
  intros (Ed & Ej & Edial) Hw HK. unfold kept, w_db in *. rewrite Ed, Ej. split; [|done].
  split; [done|]. split; [apply untouched_refl|]. by split.
Qed.

(** A step on the database alone. *)
Lemma frame_set_db n d w :
  (well_named o (w_db w) -> K (w_db w) -> untouched o (w_db w) d /\ well_named o d) ->
  frame K o w (mkWorld n (set_db d (w_st w))).
Proof.
  intros H Hw HK. destruct (H Hw HK) as [Hu Hn]. split; [|by eapply K_stable].
  split; [done|]. by split.
Qed.

(** [s] leaves the rows of [o] alone. *)
Definition framed_stmt {A} (s : stmt A) : Prop :=
  forall ctx d a d', s ctx d = inl (a, d') -> well_named o d -> K d ->
  untouched o d d' /\ well_named o d'.

Lemma read_framed {A} (s : stmt A) : read_only s -> framed_stmt s.
Proof using. intros Hs ctx d a d' H Hw _. apply Hs in H as ->. by split; [apply untouched_refl|]. Qed.

Lemma guar_exec {A} (s : stmt A) : framed_stmt s -> guar (frame K o) (exec s).
Proof using K_stable.
  intros Hs env w. simpl. split; [|done].
  unfold exec_step, w_db. set (ctx := sql_ctx _ _ _).
  destruct (s ctx (s_db (w_st w))) as [[a d]|e] eqn:E;
    destruct (env_fault env (w_tick w)); simpl;
    first [by apply frame_silent | apply frame_set_db; intros; by eapply Hs].
Qed.

Lemma guar_framed_quiet {A} (p : prog World A) : guar quiet p -> guar (frame K o) p.
Proof using. apply guar_mono, frame_quiet. Qed.

Lemma guar_framed_silent {A} (p : prog World A) : guar silent p -> guar (frame K o) p.
Proof using. apply guar_mono, frame_silent. Qed.

(** A whole run keeps what its steps keep. *)
Lemma frame_run {A} env (p : prog World A) w :
  guar (frame K o) p -> well_named o (w_db w) -> K (w_db w) -> kept o w (snd (run env p w)).
Proof using.
  intros Hp Hw HK. apply (guar_run (frame K o)); [apply frame_refl|apply frame_trans|done..].
Qed.
End Frame.

(** Forgetting what is known. *)
Lemma guar_forget {A} o K {K_stable : Stable o K} (p : prog World A) :
  guar (frame anything o) p -> guar (frame K o) p.
Proof.
  apply guar_mono. intros w w' H Hw HK. destruct (H Hw I) as [Hk _]. split; [done|].
  eapply K_stable; [apply Hk|done].
Qed.

(** ** Writing one table *)

Section Tables.
Context (o : OrgID) (d : DB) (W : well_named o d).

(** The other tables are as they were. *)
Ltac one_table := intros; split; [by split|destruct W; by split].

Definition safe (d' : DB) : Prop := untouched o d d' /\ well_named o d'.

Lemma safe_same : safe d.
Proof using W. by split; [apply untouched_refl|]. Qed.
Lemma safe_flows t : rows_of flowr_org_id o t = rows_of flowr_org_id o (flows d) ->
  safe (set_flows t d).
Proof using W. one_table. Qed.
Lemma safe_events t : rows_of event_org_id o t = rows_of event_org_id o (events d) ->
  safe (set_events t d).
Proof using W. one_table. Qed.
Lemma safe_endpoints t :
  rows_of whe_org_id o t = rows_of whe_org_id o (webhook_endpoints d) ->
  safe (set_webhook_endpoints t d).
Proof using W. one_table. Qed.
Lemma safe_customers t : rows_of cust_org_id o t = rows_of cust_org_id o (customers d) ->
  safe (set_customers t d).
Proof using W. one_table. Qed.
Lemma safe_recipients t :
  (forall c, In c (campaign_ids o d) ->
     rows_of rcp_campaign_id c t = rows_of rcp_campaign_id c (campaign_recipients d)) ->
  safe (set_campaign_recipients t d).
Proof using W. one_table. Qed.
Lemma safe_messages t :
  (forall c, In c (conversation_ids o d) ->
     rows_of msg_conversation_id c t = rows_of msg_conversation_id c (messages d)) ->
  safe (set_messages t d).
Proof using W. one_table. Qed.
Lemma safe_insights t :
  (forall c, In c (conversation_ids o d) -> t !! c = conversation_insights d !! c) ->
  safe (set_conversation_insights t d).
Proof using W. one_table. Qed.
Lemma safe_settings t : t !! o = chat_settings d !! o -> safe (set_chat_settings t d).
Proof using W. one_table. Qed.
Lemma safe_channels t :
  rows_of chan_org_id o t = rows_of chan_org_id o (channel_connections d) ->
  safe (set_channel_connections t d).
Proof using W. one_table. Qed.
Lemma safe_payments t : rows_of pmt_org_id o t = rows_of pmt_org_id o (payments d) ->
  safe (set_payments t d).
Proof using W. one_table. Qed.
Lemma safe_credits t : t !! o = org_credits d !! o -> safe (set_org_credits t d).
Proof using W. one_table. Qed.
Lemma safe_ledger t : rows_of led_org_id o t = rows_of led_org_id o (credit_ledger d) ->
  safe (set_credit_ledger t d).
Proof using W. one_table. Qed.
Lemma safe_policy t : t !! o = org_call_policy d !! o -> safe (set_org_call_policy t d).
Proof using W. one_table. Qed.
Lemma safe_outbox t : rows_of ob_org_id o t = rows_of ob_org_id o (webhook_outbox d) ->
  safe (set_webhook_outbox t d).
Proof using W. one_table. Qed.

(** No rows of organisations. *)
Lemma safe_users t : safe (set_users t d).
Proof using W. one_table. Qed.
Lemma safe_otp_codes t : safe (set_otp_codes t d).
Proof using W. one_table. Qed.
Lemma safe_sessions t : safe (set_sessions t d).
Proof using W. one_table. Qed.

(** The tables reached by id keep their names too. *)
Lemma safe_conversations t :
  rows_of conv_org_id o t = rows_of conv_org_id o (conversations d) ->
  named_once o (map (fun r => (conv_id r, conv_org_id r)) t) ->
  safe (set_conversations t d).
Proof using W. one_table. Qed.
Lemma safe_campaigns t :
  rows_of camp_org_id o t = rows_of camp_org_id o (campaigns d) ->
  named_once o (map (fun r => (camp_id r, camp_org_id r)) t) ->
  safe (set_campaigns t d).
Proof using W. one_table. Qed.
Lemma safe_calls t :
  rows_of callr_org_id o t = rows_of callr_org_id o (calls d) ->
  named_once o (map (fun r => (callr_id r, callr_org_id r)) t) ->
  safe (set_calls t d).
Proof using W. one_table. Qed.
Lemma safe_keys t :
  rows_of key_org_id o t = rows_of key_org_id o (api_keys d) ->
  named_once o (map (fun r => (key_id r, key_org_id r)) t) ->
  safe (set_api_keys t d).
Proof using W. one_table. Qed.
Lemma safe_orgs t :
  rows_of orgr_id o t = rows_of orgr_id o (orgs d) -> safe (set_orgs t d).
Proof using W. intros H. split; [by split|]. destruct W. split; try done. simpl. by rewrite H. Qed.
End Tables.

(** ** Whole runs, and what they find out

    [leaves K o p]: knowing [K], a run of [p] leaves [o] alone, whatever fails.
    [finds K o p K']: what a run that returns [a] has found out, [K' a]. *)

Definition leaves {A} (K : DB -> Prop) (o : OrgID) (p : prog World A) : Prop :=
  forall env w, well_named o (w_db w) -> K (w_db w) -> kept o w (snd (run env p w)).

Definition finds {A} (K : DB -> Prop) (o : OrgID) (p : prog World A) (K' : A -> DB -> Prop)
  : Prop :=
  forall env w a w', well_named o (w_db w) -> K (w_db w) ->
    run env p w = (Ok a, w') -> K' a (w_db w').

Section Leaves.
Context (o : OrgID).

Lemma leaves_guar {A} K (p : prog World A) : guar (frame K o) p -> leaves K o p.
Proof. intros Hp env w. by apply frame_run. Qed.

Lemma leaves_ret {A} K (a : A) : leaves K o (ret a).
Proof. apply leaves_guar, guar_ret. Qed.

Lemma leaves_fail {A} K e : leaves K o (@fail World A e).
Proof. apply leaves_guar, guar_fail. Qed.

Lemma leaves_learn {A B} K K' (p : prog World A) (k : A -> prog World B) :
  leaves K o p -> finds K o p K' -> (forall a, leaves (K' a) o (k a)) ->
  leaves K o (pbind p k).
Proof.
  intros Hp Hf Hk env w Hw HK. rewrite run_bind. specialize (Hp env w Hw HK).
  destruct (run env p w) as [[a|e|] w1] eqn:E; simpl in *; [|done..].
  eapply kept_trans; [exact Hp|]. apply Hk; [apply Hp|]. by eapply Hf.
Qed.

Lemma leaves_bind {A B} K {S : Stable o K} (p : prog World A) (k : A -> prog World B) :
  leaves K o p -> (forall a, leaves K o (k a)) -> leaves K o (pbind p k).
Proof.
  intros Hp Hk. apply (leaves_learn K (fun _ => K)); [done| |done].
  intros env w a w' Hw HK E. specialize (Hp env w Hw HK). rewrite E in Hp. simpl in Hp.
  eapply S; [apply Hp|done].
Qed.

Lemma leaves_try {A} K (p : prog World A) : leaves K o p -> leaves K o (ptry p).
Proof.
  intros Hp env w Hw HK. rewrite run_try. specialize (Hp env w Hw HK).
  by destruct (run env p w) as [[a|e|] w1].
Qed.

Lemma leaves_ignore {A} K (p : prog World A) : leaves K o p -> leaves K o (pignore p).
Proof.
  intros Hp env w Hw HK. rewrite run_ignore. specialize (Hp env w Hw HK).
  by destruct (run env p w) as [[a|e|] w1].
Qed.

Lemma leaves_forget {A} K (p : prog World A) : leaves anything o p -> leaves K o p.
Proof. intros Hp env w Hw _. by apply Hp. Qed.

Lemma leaves_weaken {A} (K K' : DB -> Prop) (p : prog World A) :
  (forall d, K d -> K' d) -> leaves K' o p -> leaves K o p.
Proof. intros H Hp env w Hw HK. by apply Hp; [|apply H]. Qed.

(** What is known may include facts that are not about the database. *)
Lemma leaves_pure {A} K (P : Prop) (p : prog World A) :
  (P -> leaves K o p) -> leaves (fun d => K d /\ P) o p.
Proof. intros H env w Hw [HK HP]. by apply H. Qed.

Lemma finds_weaken {A} (K K' : DB -> Prop) (p : prog World A) F :
  (forall d, K d -> K' d) -> finds K' o p F -> finds K o p F.
Proof. intros H Hp env w a w' Hw HK. by apply Hp; [|apply H]. Qed.

Lemma finds_bind {A B} K K' F (p : prog World A) (k : A -> prog World B) :
  leaves K o p -> finds K o p K' -> (forall a, finds (K' a) o (k a) F) ->
  finds K o (pbind p k) F.
Proof.
  intros Hp Hf Hk env w b w' Hw HK. rewrite run_bind. specialize (Hp env w Hw HK).
  destruct (run env p w) as [[a|e|] w1] eqn:E; [|done..]. simpl in Hp.
  apply Hk; [apply Hp|by eapply Hf].
Qed.

(** A program that leaves [o] alone finds out again what it knew. *)
Lemma finds_kept {A} K {S : Stable o K} (p : prog World A) :
  leaves K o p -> finds K o p (fun _ => K).
Proof.
  intros Hp env w a w' Hw HK E. specialize (Hp env w Hw HK). rewrite E in Hp.
  eapply S; [apply Hp|done].
Qed.

Lemma finds_pure {A} K (P : Prop) (p : prog World A) F :
  (P -> finds K o p F) -> finds (fun d => K d /\ P) o p F.
Proof. intros H env w a w' Hw [HK HP]. by apply H. Qed.

Lemma finds_try {A} K (p : prog World A) K' :
  finds K o p K' ->
  finds K o (ptry p) (fun r => match r with inl a => K' a | inr _ => anything end).
Proof.
  intros Hp env w r w' Hw HK. rewrite run_try.
  destruct (run env p w) as [[a|e|] w1] eqn:E; [|by intros [= <- <-]|done].
  intros [= <- <-]. by eapply Hp.
Qed.
End Leaves.

Create HintDb tenant.
#[export] Hint Resolve leaves_ret leaves_fail : tenant.
#[export] Hint Extern 0 (Stable _ _) => typeclasses eauto : tenant.
