(* ===== verification/TenantRepos.v ===== *)
(** * The repositories and tenants

    Every repository operation that is given an organisation leaves the rows of
    every other organisation alone, whatever fails; one that is given the id of
    a conversation, a campaign, a call or a key does so when the id is not one of
    that organisation's. *)

From S2P Require Import Prelude.
From S2P Require Import Domain.
From S2P Require Import Effects.
From S2P Require Import GoLib.
From S2P Require Import Store.
From S2P Require Import Ports.
From S2P Require Import PgCredits.
From S2P Require Import PgFlows.
From S2P Require Import PgCalls.
From S2P Require Import PgWebhooks.
From S2P Require Import PgAuth.
From S2P Require Import PgChat.
From S2P Require Import Orchestrator.
From S2P Require Import PgCampaigns.
From S2P Require Import PgIngest.
From S2P Require Import Analytics.
From S2P Require Import Tenant.
From stdpp Require Import gmap strings list.
From Stdlib Require Import ZArith Lia.

Open Scope Z_scope.
Open Scope go_scope.

(** ** Programs *)

Section Base.
Context (o : OrgID) (K : DB -> Prop) {S : Stable o K}.

Lemma leaves_exec {A} (s : stmt A) : framed_stmt o K s -> leaves K o (exec s).
Proof using S. intros H. by apply leaves_guar, guar_exec. Qed.

Lemma leaves_read {A} (s : stmt A) : read_only s -> leaves K o (exec s).
Proof using S. intros H. by apply leaves_exec, read_framed. Qed.

Lemma leaves_New prefix : leaves K o (Id.New prefix).
Proof using. apply leaves_guar, guar_New, frame_silent. Qed.

Lemma leaves_Now : leaves K o Now.
Proof using. apply leaves_guar, guar_Now, frame_silent. Qed.

Lemma leaves_rand n : leaves K o (rand_Read n).
Proof using. apply leaves_guar, guar_rand, frame_silent. Qed.

Lemma leaves_quiet {A} (p : prog World A) : guar quiet p -> leaves K o p.
Proof using. intros H. by apply leaves_guar, guar_framed_quiet. Qed.

Lemma leaves_silent {A} (p : prog World A) : guar silent p -> leaves K o p.
Proof using. intros H. by apply leaves_guar, guar_framed_silent. Qed.

(** An operation that is one atomic change of other owners' rows. *)
Definition framed_spec {A} : step_spec A := fun st _ st' =>
  well_named o (s_db st) -> K (s_db st) ->
  exists d, st' = set_db d st /\ untouched o (s_db st) d /\ well_named o d.

Lemma framed_same {A} st (r : outcome A) : framed_spec st r st.
Proof using.
  intros W _. exists (s_db st). split; [by rewrite set_db_id|]. by split; [apply untouched_refl|].
Qed.

Lemma leaves_lin {A} (p : prog World A) : lin framed_spec p -> leaves K o p.
Proof using S.
  intros H. apply leaves_guar. eapply guar_lin; [| |exact H].
  - apply frame_silent.
  - intros w w' r HS Hw HK. destruct (HS Hw HK) as (d & E & Hu & Hn). unfold kept, w_db in *.
    rewrite E. split; [by split|]. by eapply S.
Qed.
End Base.

#[export] Hint Resolve leaves_New leaves_Now leaves_rand : tenant.

(** Through the structure of a program. *)
Ltac leaving_step :=
  lazymatch goal with
  | |- forall _, _ => intros ?
  | |- leaves _ _ (ret _) => apply leaves_ret
  | |- leaves _ _ (fail _) => apply leaves_fail
  | |- leaves _ _ (Done (Ok _)) => apply leaves_ret
  | |- leaves _ _ (Done (Err _)) => apply leaves_fail
  | |- leaves _ _ panic => apply leaves_guar; exact I
  | |- leaves _ _ (pbind _ _) => apply leaves_bind; [exact _| |intros ?]
  | |- leaves _ _ (ptry _) => apply leaves_try
  | |- leaves _ _ (pignore _) => apply leaves_ignore
  | |- leaves _ _ (match ?x with _ => _ end) => destruct x
  | |- leaves _ _ (if ?x then _ else _) => destruct x
  | |- leaves _ _ (let _ := _ in _) => cbv zeta
  end.
Ltac leaving := repeat first [solve [eauto with tenant] | leaving_step].

(** A statement that succeeded, taken apart. *)
Ltac succeeded H :=
  try apply with_text_ok in H; cbv beta zeta in H;
  repeat match type of H with
         | context [match ?x with _ => _ end] => destruct x eqn:?; try discriminate H
         end;
  let R := fresh "Hres" in let D := fresh "Hdb" in
  injection H as R D; clear R;
  match type of D with _ = ?d' => subst d' end.

Ltac stmt_cases :=
  let ctx := fresh "ctx" in let d := fresh "d" in let a := fresh "x" in
  let d' := fresh "d'" in let H := fresh "H" in
  intros ctx d a d' H W HK; succeeded H; first [by apply safe_same | idtac].

Ltac reads :=
  apply leaves_read; [exact _|];
  let H := fresh "H" in intros ? ? ? ? H; unfold sql_limit in H; succeeded H; reflexivity.

Section Repos.
Context (o a : OrgID) (Hne : a <> o) (K : DB -> Prop) {S : Stable o K}.

(** ** Flows *)

Lemma leaves_flow_Create nf : leaves K o (PgFlowRepo.Create a nf).
Proof using Hne S.
  unfold PgFlowRepo.Create. leaving. apply leaves_exec; [exact _|]. unfold FlowQ.CreateFlow.
  stmt_cases. apply safe_flows; [done|]. by apply rows_snoc.
Qed.

Lemma leaves_flow_GetActive org name : leaves K o (PgFlowRepo.GetActiveFlow org name).
Proof using S. unfold PgFlowRepo.GetActiveFlow. leaving. unfold FlowQ.GetActiveFlowByName. reads. Qed.

Lemma leaves_flow_List org : leaves K o (PgFlowRepo.ListByOrg org).
Proof using S. unfold PgFlowRepo.ListByOrg. leaving. unfold FlowQ.ListFlowsByOrg. reads. Qed.

Lemma leaves_flow_Get id : leaves K o (PgFlowRepo.GetByID id).
Proof using S. unfold PgFlowRepo.GetByID. leaving. unfold FlowQ.GetFlowByID. reads. Qed.

Lemma leaves_flow_Update id spec : leaves K o (PgFlowRepo.UpdateSpec id a spec).
Proof using Hne S.
  apply leaves_exec; [exact _|]. unfold FlowQ.UpdateFlowSpec. stmt_cases.
  apply safe_flows; [done|]. apply rows_update; [|done].
  intros r _ Hq Ho. apply andb_prop in Hq as [_ Hq]. apply String.eqb_eq in Hq. congruence.
Qed.

(** ** Calls *)

Lemma call_fresh id (t : list CallRow) b :
  tfind (CallQ.has_id id) t = None ->
  ~ In (id, b) (map (fun r => (callr_id r, callr_org_id r)) t).
Proof using. apply names_none. Qed.

Lemma CreateCall_framed id fid pid dir status result :
  framed_stmt o K (CallQ.CreateCall id a fid pid dir status result).
Proof using Hne.
  unfold CallQ.CreateCall. stmt_cases.
  apply safe_calls; [done| |].
  - by apply rows_snoc.
  - rewrite map_app. apply named_once_snoc; [done| |apply W]. intros b. by apply call_fresh.
Qed.

Lemma leaves_call_Create c : call_OrgID c = a -> leaves K o (PgCallRepo.Create c).
Proof using Hne S.
  intros E. apply leaves_exec; [exact _|]. rewrite E. apply CreateCall_framed.
Qed.

Lemma leaves_call_Get id : leaves K o (PgCallRepo.Get id).
Proof using S. unfold PgCallRepo.Get. leaving. unfold CallQ.GetCall. reads. Qed.

Lemma leaves_call_List org limit : leaves K o (PgCallRepo.ListByOrg org limit).
Proof using S. unfold PgCallRepo.ListByOrg. leaving. unfold CallQ.ListCallsByOrg. reads. Qed.

Lemma leaves_call_Summary org : leaves K o (PgCallRepo.Summary org).
Proof using S. unfold PgCallRepo.Summary, CallQ.CallSummary. reads. Qed.

(** ** Policies *)

Lemma leaves_policy_Get org : leaves K o (PgCallPolicyRepo.Get org).
Proof using S. unfold PgCallPolicyRepo.Get. leaving. unfold CallPolicyQ.GetCallPolicy. reads. Qed.

Lemma leaves_policy_Upsert p : leaves K o (PgCallPolicyRepo.Upsert a p).
Proof using Hne S.
  apply leaves_exec; [exact _|]. unfold CallPolicyQ.UpsertCallPolicy. stmt_cases.
  apply safe_policy; [done|]. by rewrite lookup_insert_ne.
Qed.

(** ** Credits and payments *)

Lemma post_framed {A} org amount reason (r : outcome A) st st' :
  org <> o -> CreditRepo.post org amount reason st st' -> framed_spec o K st r st'.
Proof using.
  intros Ho (row & Hr & _ & _ & ->) W _. eexists. split; [reflexivity|].
  destruct (safe_credits o (s_db st) W
              (<[org := balance_of st org + amount]> (org_credits (s_db st)))) as [U1 W1].
  { by rewrite lookup_insert_ne. }
  destruct (safe_ledger o _ W1 (credit_ledger (s_db st) ++ [row])) as [U2 W2].
  { apply rows_snoc. congruence. }
  split; [by eapply untouched_trans|done].
Qed.

Lemma leaves_TryDeduct amount reason :
  CreditRepo.small amount -> leaves K o (PgCreditRepo.TryDeduct a amount reason).
Proof using Hne S.
  intros Hs. apply leaves_lin; [done|]. eapply lin_mono; 
    [|exact (@CreditRepo.TryDeduct_lin _ PgCreditRepo_laws a amount reason Hs)].
  intros st r st' H. inversion H; subst; try apply framed_same; by eapply post_framed.
Qed.

Lemma leaves_Grant amount reason :
  CreditRepo.small amount -> leaves K o (PgCreditRepo.Grant a amount reason).
Proof using Hne S.
  intros Hs. apply leaves_lin; [done|]. eapply lin_mono; 
    [|exact (@CreditRepo.Grant_lin _ PgCreditRepo_laws a amount reason Hs)].
  intros st r st' H. inversion H; subst; try apply framed_same; by eapply post_framed.
Qed.

Lemma leaves_Balance org : leaves K o (PgCreditRepo.Balance org).
Proof using S. unfold PgCreditRepo.Balance. leaving. unfold CreditQ.GetBalance. reads. Qed.

Lemma leaves_Ledger org limit : leaves K o (PgCreditRepo.Ledger org limit).
Proof using S. unfold PgCreditRepo.Ledger, CreditQ.ListLedger. reads. Qed.

Lemma leaves_payment_Create p : pay_OrgID p = a -> leaves K o (PgPaymentRepo.Create p).
Proof using Hne S.
  intros E. apply leaves_exec; [exact _|]. unfold PgPaymentRepo.insert. stmt_cases.
  apply safe_payments; [done|]. apply rows_snoc. simpl. by rewrite E.
Qed.

(** ** Call outcomes: the call and its outbox row *)

Lemma InsertOutbox_framed event payload : framed_stmt o K (PgOutcomeRepo.InsertOutbox a event payload).
Proof using Hne.
  unfold PgOutcomeRepo.InsertOutbox. stmt_cases. apply safe_outbox; [done|]. by apply rows_snoc.
Qed.

(** A framed statement of a transaction, with what the ones before it kept. *)
Lemma framed_then {A} (s : stmt A) ctx d d1 x d2 :
  framed_stmt o K s -> s ctx d1 = inl (x, d2) -> K d ->
  untouched o d d1 /\ well_named o d1 -> untouched o d d2 /\ well_named o d2.
Proof using S.
  intros Hs E HK [U W]. destruct (Hs _ _ _ _ E W) as [U' W']; [by eapply S|].
  split; [by eapply untouched_trans|done].
Qed.

Lemma leaves_Record c ev : call_OrgID c = a -> leaves K o (PgOutcomeRepo.RecordCallOutcome c ev).
Proof using Hne S.
  intros E. apply leaves_lin; [done|]. apply transact_lin; [intros; apply framed_same|]. rewrite E.
  intros st. apply txwp_stmt; [|intros; apply framed_same]. intros ctx [] d1 H1.
  assert (Hd1 : well_named o (s_db st) -> K (s_db st) ->
                untouched o (s_db st) d1 /\ well_named o d1).
  { intros W HK. eapply CreateCall_framed; [apply H1|done..]. }
  clear H1. destruct ev as [ev|].
  - apply txwp_stmt; [|intros; apply framed_same]. intros ctx' [] d2 H2.
    apply txwp_commit with (b := tt); [done|..]; simpl; intros; try apply framed_same;
      intros W HK; exists d2; (split; [done|]);
      (eapply framed_then; [apply InsertOutbox_framed|apply H2|done|by apply Hd1]).
  - apply (txwp_commit (fun _ => ret tt) tt); [done|..]; simpl; intros;
      try apply framed_same; intros W HK; exists d1; (split; [done|]); by apply Hd1.
Qed.
End Repos.
