(* ===== verification/TenantStores.v ===== *)
(** * The other repositories and tenants

    Chat, channels, customers, campaigns, keys, events, webhooks, metrics and
    accounts, as TenantRepos does for flows, calls, credits and payments. *)

From S2P Require Import Prelude.
From S2P Require Import Domain.
From S2P Require Import Effects.
From S2P Require Import GoLib.
From S2P Require Import Store.
From S2P Require Import Ports.
From S2P Require Import PgCredits.
From S2P Require Import PgFlows.
From S2P Require Import PgCalls.
From S2P Require Import PgWebhooks.
From S2P Require Import PgAuth.
From S2P Require Import PgChat.
From S2P Require Import Orchestrator.
From S2P Require Import PgCampaigns.
From S2P Require Import PgIngest.
From S2P Require Import Analytics.
From S2P Require Import Tenant.
From S2P Require Import TenantRepos.
From stdpp Require Import gmap strings list.
From Stdlib Require Import ZArith Lia.

Open Scope Z_scope.
Open Scope go_scope.

(** ** Rows reached by id *)

Section ById.
Context {R : Type} (id org : R -> string) (o : OrgID).

(** Rewriting the rows of a foreign id. *)
Lemma rows_update_id x f t :
  ~ In x (map id (rows_of org o t)) -> (forall r, org (f r) = org r) ->
  rows_of org o (tupdate (fun r => (id r =? x)%string) f t) = rows_of org o t.
Proof.
  intros Hx Hf. apply rows_update; [|done]. intros r Hr Hq. by eapply other_owner.
Qed.

(** Rows that hang on another id. *)
Lemma rows_snoc_other (key : R -> string) x (t : list R) r xs :
  In x xs -> ~ In (key r) xs -> rows_of key x (t ++ [r]) = rows_of key x t.
Proof. intros Hx Hr. apply rows_snoc. by intros <-. Qed.
End ById.

Section Stores.
Context (o a : OrgID) (Hne : a <> o).

Section Own.
Context (K : DB -> Prop) {S : Stable o K}.

(** ** Chat: conversations of [a] *)

Lemma insert_conversation_framed id ch user :
  framed_stmt o K (ChatQ.insert_conversation id a ch user).
Proof using Hne.
  unfold ChatQ.insert_conversation. stmt_cases. apply safe_conversations; [done| |].
  - by apply rows_snoc.
  - rewrite map_app. apply named_once_snoc; [done| |apply W].
    intros b. by apply names_none.
Qed.

Lemma text_framed {A} texts (s : stmt A) : framed_stmt o K s -> framed_stmt o K (with_text texts s).
Proof using. intros Hs ctx d x d' H. apply with_text_ok in H. by eapply Hs. Qed.

Lemma leaves_CreateConversation c : leaves K o (PgChatRepo.CreateConversation a c).
Proof using Hne S. apply leaves_exec; [done|]. by apply text_framed, insert_conversation_framed. Qed.

Lemma leaves_GetConversation c : leaves K o (PgChatRepo.GetConversation c).
Proof using S. unfold PgChatRepo.GetConversation. leaving. unfold ChatQ.GetConversation. reads. Qed.

Lemma leaves_ChannelTarget c : leaves K o (PgChatRepo.ChannelTarget c).
Proof using S. unfold PgChatRepo.ChannelTarget, ChatQ.GetConversationTarget. reads. Qed.

Lemma leaves_ListConversations org limit : leaves K o (PgChatRepo.ListConversations org limit).
Proof using S. unfold PgChatRepo.ListConversations. leaving. unfold ChatQ.ListConversationsByOrg. reads. Qed.

Lemma leaves_Messages c : leaves K o (PgChatRepo.Messages c).
Proof using S. unfold PgChatRepo.Messages. leaving. unfold ChatQ.ListMessages. reads. Qed.

Lemma leaves_settings_Get org : leaves K o (PgChatSettingsRepo.Get org).
Proof using S. unfold PgChatSettingsRepo.Get. leaving. unfold ChatQ.GetChatSettings. reads. Qed.

Lemma leaves_settings_Upsert cs : leaves K o (PgChatSettingsRepo.Upsert a cs).
Proof using Hne S.
  apply leaves_exec; [done|]. unfold ChatQ.UpsertChatSettings. stmt_cases.
  apply safe_settings; [done|]. by rewrite lookup_insert_ne.
Qed.

Lemma leaves_insight_Get c : leaves K o (PgInsightRepo.Get c).
Proof using S. unfold PgInsightRepo.Get. leaving. unfold ChatQ.GetInsight. reads. Qed.

(** ** Channels *)

Lemma leaves_channel_Upsert typ ext tok ver : leaves K o (PgChannelRepo.Upsert a typ ext tok ver).
Proof using Hne S.
  unfold PgChannelRepo.Upsert. leaving. apply leaves_exec; [done|]. unfold ChannelQ.UpsertChannel.
  stmt_cases; apply safe_channels; try done.
  - apply rows_update; [|done]. intros r _ Hq Ho. unfold ChannelQ.mine in Hq. bool_prop. congruence.
  - by apply rows_snoc.
Qed.

Lemma leaves_channel_Delete typ : leaves K o (PgChannelRepo.Delete a typ).
Proof using Hne S.
  apply leaves_exec; [done|]. unfold ChannelQ.DeleteChannel. stmt_cases.
  apply safe_channels; [done|]. apply rows_delete. intros r _ Hq Ho. unfold ChannelQ.mine in Hq.
  bool_prop. congruence.
Qed.

Lemma leaves_channel_List org : leaves K o (PgChannelRepo.List org).
Proof using S. unfold PgChannelRepo.List. leaving. unfold ChannelQ.ListChannelsByOrg. reads. Qed.

Lemma leaves_channel_ByOrgAndType org typ : leaves K o (PgChannelRepo.ByOrgAndType org typ).
Proof using S.
  unfold PgChannelRepo.ByOrgAndType. leaving.
  unfold ChannelQ.GetChannelByOrgAndType, ChannelQ.get_channel. reads.
Qed.

Lemma leaves_channel_OrgForVerifyToken tok : leaves K o (PgChannelRepo.OrgForVerifyToken tok).
Proof using S.
  unfold PgChannelRepo.OrgForVerifyToken. leaving.
  unfold ChannelQ.GetChannelByVerifyToken, ChannelQ.get_channel. reads.
Qed.

(** ** Customers and campaigns *)

Lemma leaves_customer_Upsert phone name ext : leaves K o (PgCustomerRepo.Upsert a phone name ext).
Proof using Hne S.
  unfold PgCustomerRepo.Upsert. leaving. apply leaves_exec; [done|]. unfold CustomerQ.UpsertCustomer.
  stmt_cases; apply safe_customers; try done.
  - apply rows_update; [|done]. intros r _ Hq Ho. unfold CustomerQ.same in Hq. bool_prop. congruence.
  - by apply rows_snoc.
Qed.

Lemma leaves_customer_List org limit : leaves K o (PgCustomerRepo.ListByOrg org limit).
Proof using S. unfold PgCustomerRepo.ListByOrg. leaving. unfold CustomerQ.ListCustomersByOrg. reads. Qed.

Lemma leaves_customer_SetDND id dnd : leaves K o (PgCustomerRepo.SetDND a id dnd).
Proof using Hne S.
  apply leaves_exec; [done|]. unfold CustomerQ.SetCustomerDND. stmt_cases.
  apply safe_customers; [done|]. apply rows_update; [|done].
  intros r _ Hq Ho. unfold CustomerQ.of_org in Hq. bool_prop. congruence.
Qed.

Lemma leaves_campaign_Create id name : leaves K o (PgCampaignRepo.Create a id name).
Proof using Hne S.
  apply leaves_exec; [done|]. unfold CampaignQ.CreateCampaign. stmt_cases.
  apply safe_campaigns; [done| |].
  - by apply rows_snoc.
  - rewrite map_app. apply named_once_snoc; [done| |apply W]. intros b. by apply names_none.
Qed.

Lemma leaves_campaign_List org : leaves K o (PgCampaignRepo.ListByOrg org).
Proof using S. unfold PgCampaignRepo.ListByOrg. leaving. unfold CampaignQ.ListCampaignsByOrg. reads. Qed.

Lemma leaves_campaign_Get id : leaves K o (PgCampaignRepo.Get id).
Proof using S. unfold PgCampaignRepo.Get. leaving. unfold CampaignQ.GetCampaign. reads. Qed.

Lemma leaves_campaign_Recipients id : leaves K o (PgCampaignRepo.Recipients id).
Proof using S. unfold PgCampaignRepo.Recipients. leaving. unfold CampaignQ.ListRecipients. reads. Qed.

(** Rewriting campaigns of [a]. *)
Lemma update_campaigns_safe d q f :
  well_named o d ->
  (forall r, q r = true -> camp_org_id r = a) ->
  (forall r, camp_id (f r) = camp_id r /\ camp_org_id (f r) = camp_org_id r) ->
  safe o d (set_campaigns (tupdate q f (campaigns d)) d).
Proof using Hne.
  intros W Hq Hf. apply safe_campaigns; [done| |].
  - apply rows_update; [|intros r; apply Hf]. intros r _ Hr. by rewrite (Hq r Hr).
  - rewrite (names_update camp_id camp_org_id) by done. apply W.
Qed.

Lemma leaves_campaign_MarkStarted id n : leaves K o (PgCampaignRepo.MarkStarted a id n).
Proof using Hne S.
  apply leaves_exec; [done|]. unfold CampaignQ.StartCampaign. stmt_cases.
  apply update_campaigns_safe; [done| |done].
  intros r Hq. unfold CampaignQ.startable, CampaignQ.mine in Hq.
  apply andb_prop in Hq as [Hq _]. by apply andb_prop in Hq as [_ Hq%String.eqb_eq].
Qed.

Lemma leaves_campaign_Schedule id at_ : leaves K o (PgCampaignRepo.Schedule a id at_).
Proof using Hne S.
  apply leaves_exec; [done|]. unfold CampaignQ.ScheduleCampaign. stmt_cases.
  apply update_campaigns_safe; [done| |done].
  intros r Hq. unfold CampaignQ.mine in Hq.
  apply andb_prop in Hq as [Hq _]. by apply andb_prop in Hq as [_ Hq%String.eqb_eq].
Qed.

(** ** Keys and events *)

Lemma leaves_key_Create id prefix hash name kind :
  leaves K o (PgAPIKeyRepo.Create id a prefix hash name kind).
Proof using Hne S.
  apply leaves_exec; [done|]. unfold IngestQ.CreateAPIKey. stmt_cases.
  apply safe_keys; [done| |].
  - by apply rows_snoc.
  - rewrite map_app. apply named_once_snoc; [done| |apply W]. intros b. apply names_none.
    match goal with H : tfind _ _ = None |- _ =>
      eapply tfind_none_weaken; [|exact H]; intros r Hr; simpl in Hr;
      unfold IngestQ.has_key_id; by rewrite Hr, orb_true_r end.
Qed.

Lemma leaves_key_ByPrefix prefix : leaves K o (PgAPIKeyRepo.ByPrefix prefix).
Proof using S. unfold PgAPIKeyRepo.ByPrefix. leaving. unfold IngestQ.GetAPIKeyByPrefix. reads. Qed.

Lemma leaves_key_List org : leaves K o (PgAPIKeyRepo.ListByOrg org).
Proof using S. unfold PgAPIKeyRepo.ListByOrg. leaving. unfold IngestQ.ListAPIKeysByOrg. reads. Qed.

Lemma leaves_event_Insert e : ie_OrgID e = a -> leaves K o (PgEventRepo.Insert e).
Proof using Hne S.
  intros E. unfold PgEventRepo.Insert. leaving. apply leaves_exec; [done|].
  unfold IngestQ.InsertEvent. rewrite E. stmt_cases. apply safe_events; [done|]. by apply rows_snoc.
Qed.

(** ** Webhook endpoints, metrics *)

Lemma leaves_endpoint_Upsert id url enc events :
  leaves K o (PgWebhookRepo.UpsertEndpoint id a url enc events).
Proof using Hne S.
  apply leaves_exec; [done|]. unfold WebhookQ.UpsertWebhookEndpoint.
  stmt_cases; apply safe_endpoints; try done.
  - apply rows_update; [|done]. intros r _ Hq Ho. bool_prop. congruence.
  - by apply rows_snoc.
Qed.

Lemma leaves_endpoint_Get org : leaves K o (PgWebhookRepo.GetEndpoint org).
Proof using S. unfold PgWebhookRepo.GetEndpoint. leaving. unfold WebhookQ.GetWebhookEndpoint. reads. Qed.

Lemma leaves_ConversationStats org : leaves K o (PgAnalyticsRepo.ConversationStats org).
Proof using S. unfold PgAnalyticsRepo.ConversationStats, AnalyticsQ.ConversationStats. reads. Qed.

Lemma leaves_CreditSpend org : leaves K o (PgAnalyticsRepo.CreditSpend org).
Proof using S. unfold PgAnalyticsRepo.CreditSpend, AnalyticsQ.CreditSpend. reads. Qed.
End Own.

(** ** Reached by an id of somebody else *)

Section Messages.
Context (c : string).

Lemma leaves_AddMessage role content :
  leaves (foreign_conversation o c) o (PgChatRepo.AddMessage c role content).
Proof using.
  unfold PgChatRepo.AddMessage. leaving; apply leaves_exec; try exact _.
  - unfold ChatQ.InsertMessage. stmt_cases. apply safe_messages; [done|]. intros c' Hc'.
    by eapply rows_snoc_other.
  - unfold ChatQ.TouchConversation. stmt_cases. apply safe_conversations; [done| |].
    + by apply (rows_update_id conv_id conv_org_id).
    + rewrite (names_update conv_id conv_org_id) by done. apply W.
Qed.

Lemma leaves_SetStatus status :
  leaves (foreign_conversation o c) o (PgChatRepo.SetStatus c status).
Proof using.
  apply leaves_exec; [exact _|]. unfold ChatQ.SetConversationStatus. stmt_cases.
  apply safe_conversations; [done| |].
  - by apply (rows_update_id conv_id conv_org_id).
  - rewrite (names_update conv_id conv_org_id) by done. apply W.
Qed.

Lemma leaves_insight_Save org i :
  leaves (foreign_conversation o c) o (PgInsightRepo.Save org c i).
Proof using.
  apply leaves_exec; [exact _|]. unfold ChatQ.UpsertInsight.
  stmt_cases; apply safe_insights; try done; intros c' Hc'; rewrite lookup_insert_ne; try done;
    by intros <-.
Qed.
End Messages.

Lemma leaves_AddRecipient org c rec :
  leaves (foreign_campaign o c) o (PgCampaignRepo.AddRecipient org c rec).
Proof using.
  unfold PgCampaignRepo.AddRecipient. leaving. apply leaves_exec; [exact _|].
  unfold CampaignQ.AddRecipient. stmt_cases. apply safe_recipients; [done|]. intros c' Hc'.
  by eapply rows_snoc_other.
Qed.

Lemma leaves_AttachMedia id url text :
  leaves (foreign_call o id) o (PgCallRepo.AttachMedia id url text).
Proof using.
  apply leaves_exec; [exact _|]. unfold CallQ.AttachCallMedia. stmt_cases.
  apply safe_calls; [done| |].
  - by apply (rows_update_id callr_id callr_org_id).
  - rewrite (names_update callr_id callr_org_id) by done. apply W.
Qed.

Lemma leaves_key_Touch id : leaves (foreign_key o id) o (PgAPIKeyRepo.Touch id).
Proof using.
  apply leaves_exec; [exact _|]. unfold IngestQ.TouchAPIKey. stmt_cases.
  apply safe_keys; [done| |].
  - by apply (rows_update_id key_id key_org_id).
  - rewrite (names_update key_id key_org_id) by done. apply W.
Qed.
End Stores.
