(* ===== verification/TenantServices.v ===== *)
(** * The services and tenants

    Accounts and organisations, then every operation of every service on behalf
    of an organisation [a]: the rows of another organisation [o] are left alone,
    whatever fails, and an id that passed the ownership check is not one of
    [o]'s. *)

From S2P Require Import Prelude.
From S2P Require Import Domain.
From S2P Require Import Effects.
From S2P Require Import GoLib.
From S2P Require Import Store.
From S2P Require Import Crypto.
From S2P Require Import Ports.
From S2P Require Import PgCredits.
From S2P Require Import PgFlows.
From S2P Require Import PgCalls.
From S2P Require Import CallPolicy.
From S2P Require Import Billing.
From S2P Require Import Calls.
From S2P Require Import Flows.
From S2P Require Import PgWebhooks.
From S2P Require Import Webhooks.
From S2P Require Import PgAuth.
From S2P Require Import Auth.
From S2P Require Import PgChat.
From S2P Require Import Chat.
From S2P Require Import Messaging.
From S2P Require Import PgCampaigns.
From S2P Require Import Orchestrator.
From S2P Require Import Csv.
From S2P Require Import Phone.
From S2P Require Import Campaigns.
From S2P Require Import PgIngest.
From S2P Require Import Ingest.
From S2P Require Import Analytics.
From S2P Require Import HttpOut.
From S2P Require Import Assistant.
From S2P Require Import Tenant.
From S2P Require Import TenantRepos.
From S2P Require Import TenantStores.
From stdpp Require Import gmap strings list.
From Stdlib Require Import ZArith Lia.

Open Scope Z_scope.
Open Scope go_scope.

(** A query that returned something read it from the database. *)
Lemma try_read_ok {A} env (s : stmt A) w r w1 :
  read_only s -> run env (ptry (exec s)) w = (Ok r, w1) ->
  w_db w1 = w_db w /\
  match r with inl x => exists ctx, s ctx (w_db w) = inl (x, w_db w) | inr _ => True end.
Proof.
  intros Hs. rewrite run_try. destruct (run env (exec s) w) as [[x|e|] w2] eqn:E; intros [= <- <-].
  - apply run_exec_inv in E as (ctx & d & E & Hd). pose proof (Hs _ _ _ _ E) as ->.
    split; [done|]. by exists ctx.
  - split; [|done]. pose proof (run_lin _ _ env w (exec_read_lin s Hs)) as H. rewrite E in H.
    simpl in H. unfold w_db. by rewrite H.
Qed.

(** ** Accounts: no rows of organisations *)

Section Accounts.
Context (o : OrgID) (K : DB -> Prop) {S : Stable o K}.
Context {uuid : Uuid.T}.

Ltac account := intros ? ? ? ? H W HK; succeeded H; 
  first [by apply safe_same | by apply safe_users | by apply safe_otp_codes | by apply safe_sessions].

Lemma leaves_with_uuid {A} id (k : string -> prog World A) :
  (forall x, leaves K o (k x)) -> leaves K o (PgAuthRepo.with_uuid id k).
Proof using. intros H. unfold PgAuthRepo.with_uuid. destruct (Uuid.Parse id); [done|apply leaves_fail]. Qed.

Lemma leaves_UpsertUserByPhone phone : leaves K o (PgAuthRepo.UpsertUserByPhone phone).
Proof using S.
  unfold PgAuthRepo.UpsertUserByPhone. leaving. apply leaves_exec; [done|].
  unfold AuthQ.UpsertUserByPhone. account.
Qed.
Lemma leaves_InsertOTP phone hash exp : leaves K o (PgAuthRepo.InsertOTP phone hash exp).
Proof using S. apply leaves_exec; [done|]. unfold AuthQ.InsertOTP. account. Qed.
Lemma leaves_LatestLiveOTP phone : leaves K o (PgAuthRepo.LatestLiveOTP phone).
Proof using S.
  unfold PgAuthRepo.LatestLiveOTP. leaving. unfold AuthQ.LatestLiveOTP. reads.
Qed.
Lemma leaves_IncrementOTPAttempts id : leaves K o (PgAuthRepo.IncrementOTPAttempts id).
Proof using S.
  apply leaves_with_uuid. intros x. apply leaves_exec; [done|].
  unfold AuthQ.IncrementOTPAttempts. account.
Qed.
Lemma leaves_ConsumeOTP id : leaves K o (PgAuthRepo.ConsumeOTP id).
Proof using S.
  apply leaves_with_uuid. intros x. apply leaves_exec; [done|]. unfold AuthQ.ConsumeOTP. account.
Qed.
Lemma leaves_CreateUserWithPassword email name hash :
  leaves K o (PgAuthRepo.CreateUserWithPassword email name hash).
Proof using S.
  unfold PgAuthRepo.CreateUserWithPassword. leaving. apply leaves_exec; [done|].
  unfold AuthQ.InsertUser. account.
Qed.
Lemma leaves_UserByEmail email : leaves K o (PgAuthRepo.UserByEmail email).
Proof using S. unfold PgAuthRepo.UserByEmail. leaving. unfold AuthQ.SelectUserByEmail. reads. Qed.
Lemma leaves_CreateSession hash user exp : leaves K o (PgAuthRepo.CreateSession hash user exp).
Proof using S.
  apply leaves_with_uuid. intros x. apply leaves_exec; [done|]. unfold AuthQ.CreateSession. account.
Qed.
Lemma leaves_SessionUser hash : leaves K o (PgAuthRepo.SessionUser hash).
Proof using S. unfold PgAuthRepo.SessionUser. leaving. unfold AuthQ.SessionWithUser. reads. Qed.
Lemma leaves_DeleteSession hash : leaves K o (PgAuthRepo.DeleteSession hash).
Proof using S. apply leaves_exec; [done|]. unfold AuthQ.DeleteSession. account. Qed.
End Accounts.

(** ** Organisations *)

(** The user [uid] does not own [o]. *)
Definition not_owner (o : OrgID) (uid : string) : DB -> Prop := fun d =>
  forall r, In r (rows_of orgr_id o (orgs d)) -> orgr_owner_user_id r <> uid.

#[export] Instance not_owner_stable o uid : Stable o (not_owner o uid).
Proof. intros d d' H. unfold not_owner. by rewrite (un_orgs _ _ _ H). Qed.

Section Orgs.
Context (o : OrgID) {uuid : Uuid.T}.

Section Seed.
Context (a : OrgID) (Hne : a <> o) (K : DB -> Prop) {S : Stable o K}.

Lemma leaves_Rename name :
  (forall x, Uuid.Parse a = Some x -> x = a) -> leaves K o (PgOrgRepo.Rename a name).
Proof using Hne S.
  intros Hcan. unfold PgOrgRepo.Rename, PgAuthRepo.with_uuid.
  destruct (Uuid.Parse a) as [x|] eqn:E; [|apply leaves_fail]. rewrite (Hcan x eq_refl).
  apply leaves_exec; [done|]. unfold OrgQ.RenameOrg. stmt_cases. apply safe_orgs; [done|].
  apply rows_update; [|done]. intros r _ Hq%String.eqb_eq. congruence.
Qed.

Lemma leaves_seed : leaves K o (PgOrgRepo.seed a).
Proof using Hne S.
  unfold PgOrgRepo.seed. leaving; apply leaves_exec; try done.
  - unfold FlowQ.CreateFlow. stmt_cases. apply safe_flows; [done|]. by apply rows_snoc.
  - unfold CreditQ.EnsureCreditAccount. stmt_cases. apply safe_credits; [done|].
    by rewrite lookup_insert_ne.
  - unfold CreditQ.AdjustBalance. stmt_cases. apply safe_credits; [done|].
    by rewrite lookup_insert_ne.
  - unfold CreditQ.AddLedger. stmt_cases. apply safe_ledger; [done|]. by apply rows_snoc.
Qed.
End Seed.

Lemma leaves_GetOrgByOwner uid : leaves (not_owner o uid) o (exec (OrgQ.GetOrgByOwner uid)).
Proof. unfold OrgQ.GetOrgByOwner. reads. Qed.

(** Stored ids are in the form uuid.Parse gives. *)
Definition canonical (id : OrgID) : Prop := forall x, Uuid.Parse id = Some x -> x = id.
Definition canonical_orgs : DB -> Prop := fun d =>
  forall r, In r (orgs d) -> canonical (orgr_id r).

(** The row found for a user who does not own [o] is not [o]'s. *)
Definition org_facts (uid : string) : DB -> Prop := fun d =>
  not_owner o uid d /\ canonical_orgs d.

Lemma finds_owner uid :
  finds (not_owner o uid) o (exec (OrgQ.GetOrgByOwner uid))
    (fun r d => not_owner o uid d /\ orgr_id r <> o).
Proof.
  intros env w r w' _ HK E. apply run_exec_inv in E as (ctx & d & E & <-).
  unfold OrgQ.GetOrgByOwner in E. destruct (tfind _ _) as [r'|] eqn:Ef; [|done].
  injection E as <- <-. split; [done|]. apply tfind_some in Ef as [Hin Ho].
  apply String.eqb_eq in Ho. intros Hid. by apply (HK r'); [apply in_rows_of|].
Qed.

Lemma finds_owner_try uid :
  finds (org_facts uid) o (ptry (exec (OrgQ.GetOrgByOwner uid)))
    (fun r d => org_facts uid d /\
       match r with inl row => orgr_id row <> o /\ canonical (orgr_id row) | inr _ => True end).
Proof.
  intros env w r w' Hw [HK HC] E.
  assert (Hread : read_only (OrgQ.GetOrgByOwner uid)).
  { intros ctx d x d' H. unfold OrgQ.GetOrgByOwner in H. succeeded H. reflexivity. }
  apply try_read_ok in E as [Hd Hr]; [|done]. unfold org_facts. rewrite Hd.
  split; [done|]. destruct r as [row|]; [|done]. destruct Hr as (ctx & Hr).
  unfold OrgQ.GetOrgByOwner in Hr. destruct (tfind _ _) as [r'|] eqn:Ef; [|done].
  injection Hr as ->. apply tfind_some in Ef as [Hin Ho]. apply String.eqb_eq in Ho.
  split; [|by apply HC]. intros Hid. by apply (HK row); [apply in_rows_of|].
Qed.

(** A new organisation takes an id nobody has; [o] exists. *)
Lemma leaves_CreateOrg uid id name :
  leaves (not_owner o uid) o (exec (OrgQ.CreateOrg id name uid)).
Proof.
  apply leaves_exec; [exact _|]. intros ctx d x d' H W HK. unfold OrgQ.CreateOrg in H.
  destruct (tfind (OrgQ.owned_by uid) (orgs d)); [injection H as <- <-; by apply safe_same|].
  destruct (tfind (OrgQ.has_id id) (orgs d)) eqn:Ef; [done|].
  destruct (tfind _ (users d)); [|done]. injection H as <- <-.
  apply safe_orgs; [done|]. apply rows_snoc. simpl. intros ->.
  destruct (rows_of orgr_id o (orgs d)) as [|r l] eqn:Er; [by apply wn_exists in W|].
  assert (Hr : In r (rows_of orgr_id o (orgs d))) by (rewrite Er; by left).
  apply in_rows_of in Hr as [Hr Hid]. apply (tfind_none _ _ _ Ef) in Hr.
  by apply String.eqb_neq in Hr.
Qed.

(** The organisation of a user who does not own [o]: another one, and opening it
    leaves [o] alone. *)
Lemma leaves_EnsureForUser userID name :
  leaves (fun d => forall uid, Uuid.Parse userID = Some uid -> not_owner o uid d) o
    (PgOrgRepo.EnsureForUser userID name).
Proof.
  unfold PgOrgRepo.EnsureForUser, PgAuthRepo.with_uuid.
  destruct (Uuid.Parse userID) as [uid|] eqn:Ep; [|apply leaves_fail].
  eapply leaves_weaken; [intros d HK; exact (HK uid eq_refl)|].
  apply leaves_bind; [exact _|apply leaves_try; apply leaves_GetOrgByOwner|].
  intros [row|e]; [apply leaves_ret|]. destruct e; try apply leaves_fail.
  apply leaves_bind; [exact _|apply leaves_rand|intros b]. cbv zeta.
  apply leaves_bind; [exact _|apply leaves_CreateOrg|intros _].
  eapply leaves_learn; [apply leaves_GetOrgByOwner|apply finds_owner|intros row].
  apply leaves_pure. intros Hrow.
  destruct (String.eqb_spec (orgr_id row) (Uuid.of_bytes b)) as [E|_]; [|leaving].
  apply leaves_bind; [exact _| |intros _; apply leaves_ret].
  apply leaves_seed; [by rewrite <- E|exact _].
Qed.

Lemma finds_rand n : finds anything o (rand_Read n) (fun b _ => String.length b = n).
Proof. intros env w b w' _ _ [= <- _]. apply bytes_from_length. Qed.

Lemma finds_CreateOrg {laws : Uuid.Laws uuid} uid b name :
  String.length b = 16%nat ->
  finds (org_facts uid) o (exec (OrgQ.CreateOrg (Uuid.of_bytes b) name uid))
    (fun _ => org_facts uid).
Proof.
  intros Hb env w [] w' Hw [HK HC] E. split.
  { eapply (finds_kept o _ _ (leaves_CreateOrg uid (Uuid.of_bytes b) name)); [exact Hw|exact HK|].
    exact E. }
  apply run_exec_inv in E as (ctx & d & E & <-). unfold OrgQ.CreateOrg in E.
  destruct (tfind (OrgQ.owned_by uid) _); [by injection E as <-|].
  destruct (tfind (OrgQ.has_id _) _); [done|]. destruct (tfind _ _); [|done]. injection E as <-.
  intros r Hr. simpl in Hr. apply in_app_or in Hr as [Hr|[<-|[]]]; [by apply HC|].
  intros x Hx. simpl in *. rewrite Uuid.Parse_of_bytes in Hx by done. by injection Hx as <-.
Qed.

Lemma finds_EnsureForUser {laws : Uuid.Laws uuid} userID name :
  finds (fun d => (forall uid, Uuid.Parse userID = Some uid -> not_owner o uid d) /\
                  canonical_orgs d) o
    (PgOrgRepo.EnsureForUser userID name) (fun a _ => org_ID a <> o /\ canonical (org_ID a)).
Proof.
  unfold PgOrgRepo.EnsureForUser, PgAuthRepo.with_uuid.
  destruct (Uuid.Parse userID) as [uid|] eqn:Ep; [|by intros env w a w' _ _ [=]].
  apply (finds_weaken o _ (org_facts uid)); [by intros d [HK HC]; split; [apply HK|]|].
  eapply finds_bind; [|apply finds_owner_try|].
  { eapply leaves_weaken; [by intros d [HK _]; exact HK|]. apply leaves_try, leaves_GetOrgByOwner. }
  intros [row|e]; apply finds_pure; intros Hrow; [intros env w a w' _ _ E; cbv beta; by injection E as <- E2|].
  destruct e; try by intros env w a w' _ _ [=].
  apply (finds_bind o _ (fun b d => org_facts uid d /\ String.length b = 16%nat)).
  { apply leaves_forget, leaves_rand. }
  { intros env w b w' Hw HK E. split; [|by eapply finds_rand].
    by injection E as _ <-. }
  intros b. apply finds_pure. intros Hb. cbv zeta.
  eapply finds_bind; [|by apply finds_CreateOrg|].
  { eapply leaves_weaken; [by intros d [HK _]; exact HK|]. apply leaves_CreateOrg. }
  intros ?.
  apply (finds_bind o _ (fun row _ => orgr_id row <> o /\ canonical (orgr_id row))).
  { eapply leaves_weaken; [by intros d [HK _]; exact HK|]. apply leaves_GetOrgByOwner. }
  { intros env w row w' Hw HK E.
    apply (finds_owner_try uid env w (inl row) w' Hw HK). by rewrite run_try, E. }
  intros row env w org w' _ Hid E. apply run_bind_ok in E as (u & w1 & _ & E).
  cbv beta. by injection E as <- E2.
Qed.
End Orgs.

(** ** Services *)

(** The operations of the ports, as those of the Postgres repositories. *)
Declare Reduction port_ops :=
  cbn [AuthRepo.UpsertUserByPhone AuthRepo.InsertOTP AuthRepo.LatestLiveOTP
       AuthRepo.IncrementOTPAttempts AuthRepo.ConsumeOTP AuthRepo.CreateUserWithPassword
       AuthRepo.UserByEmail AuthRepo.CreateSession AuthRepo.SessionUser AuthRepo.DeleteSession
       PgAuthRepo.repo OrgStore.Rename OrgStore.EnsureForUser PgOrgRepo.repo
       CreditRepo.Balance CreditRepo.TryDeduct CreditRepo.Grant CreditRepo.Ledger PgCreditRepo.repo
       PaymentRepo.Create PgPaymentRepo.repo FlowRepo.GetActiveFlow FlowRepo.Create
       FlowRepo.ListByOrg FlowRepo.GetByID FlowRepo.UpdateSpec PgFlowRepo.repo
       CallRepo.Create CallRepo.Get CallRepo.ListByOrg CallRepo.Summary CallRepo.AttachMedia
       PgCallRepo.repo OutcomeRepo.RecordCallOutcome PgOutcomeRepo.repo CallPolicyRepo.Get
       CallPolicyRepo.Upsert PgCallPolicyRepo.repo ChatRepo.CreateConversation
       ChatRepo.GetConversation ChatRepo.ChannelTarget ChatRepo.SetStatus
       ChatRepo.ListConversations ChatRepo.AddMessage ChatRepo.Messages PgChatRepo.repo
       ChatSettingsRepo.Get ChatSettingsRepo.Upsert PgChatSettingsRepo.repo InsightRepo.Save
       InsightRepo.Get PgInsightRepo.repo ChannelRepo.Upsert ChannelRepo.List ChannelRepo.Delete
       ChannelRepo.ByOrgAndType ChannelRepo.OrgForVerifyToken PgChannelRepo.repo
       CustomerRepo.Upsert CustomerRepo.ListByOrg CustomerRepo.SetDND PgCustomerRepo.repo
       CampaignRepo.Create CampaignRepo.ListByOrg CampaignRepo.Get CampaignRepo.MarkStarted
       CampaignRepo.AddRecipient CampaignRepo.Recipients CampaignRepo.Schedule PgCampaignRepo.repo
       APIKeyRepo.Create APIKeyRepo.ByPrefix APIKeyRepo.Touch APIKeyRepo.ListByOrg
       PgAPIKeyRepo.repo EventRepo.Insert PgEventRepo.repo WebhookRepo.UpsertEndpoint
       WebhookRepo.GetEndpoint PgWebhookRepo.repo AnalyticsRepo.ConversationStats
       AnalyticsRepo.CreditSpend PgAnalyticsRepo.repo Clock.Now RealClock.clock].
Ltac ports := match goal with |- ?G => let G' := eval port_ops in G in change G' end.
Ltac ports_in H := let T := type of H in let T' := eval port_ops in T in change T' in H.

#[export] Hint Resolve leaves_flow_Create leaves_flow_GetActive leaves_flow_List leaves_flow_Get
  leaves_flow_Update leaves_call_Create leaves_call_Get leaves_call_List leaves_call_Summary
  leaves_policy_Get leaves_policy_Upsert leaves_Balance leaves_Ledger leaves_payment_Create
  leaves_Record leaves_CreateConversation leaves_GetConversation leaves_ChannelTarget
  leaves_ListConversations leaves_Messages leaves_settings_Get leaves_settings_Upsert
  leaves_insight_Get leaves_channel_Upsert leaves_channel_Delete leaves_channel_List
  leaves_channel_ByOrgAndType leaves_channel_OrgForVerifyToken leaves_customer_Upsert
  leaves_customer_List leaves_customer_SetDND leaves_campaign_Create leaves_campaign_List
  leaves_campaign_Get leaves_campaign_Recipients leaves_campaign_MarkStarted
  leaves_campaign_Schedule leaves_key_Create leaves_key_ByPrefix leaves_key_List
  leaves_event_Insert leaves_endpoint_Get leaves_endpoint_Upsert leaves_AddMessage
  leaves_SetStatus leaves_insight_Save leaves_AddRecipient leaves_AttachMedia leaves_key_Touch
  leaves_UpsertUserByPhone leaves_InsertOTP leaves_LatestLiveOTP leaves_IncrementOTPAttempts
  leaves_ConsumeOTP leaves_CreateUserWithPassword leaves_UserByEmail leaves_CreateSession
  leaves_SessionUser leaves_DeleteSession leaves_ConversationStats leaves_CreditSpend : tenant.

(** *** What isolation asks of the providers of calls

    Nothing happens on behalf of an organisation other than the request's. *)

Definition on_behalf_of (a : OrgID) (w w' : World) : Prop :=
  s_db (w_st w') = s_db (w_st w) /\ forall o, a <> o ->
    List.filter (fun j => (pci_OrgID j =? o)%string) (s_jobs (w_st w')) =
    List.filter (fun j => (pci_OrgID j =? o)%string) (s_jobs (w_st w)) /\
    dials (w_st w') o = dials (w_st w) o.

Class CallsOwn (V : VoiceProvider.T) : Prop :=
  calls_own : forall req, guar (on_behalf_of (req_OrgID req)) (VoiceProvider.PlaceCall req).
Class QueuesOwn (O : Orchestrator.T) : Prop :=
  queues_own : forall inp, guar (on_behalf_of (pci_OrgID inp)) (Orchestrator.EnqueuePlaceCall inp).

Lemma on_behalf_silent a w w' : w_st w' = w_st w -> on_behalf_of a w w'.
Proof. intros E. unfold on_behalf_of. by rewrite E. Qed.

Lemma on_behalf_quiet a w w' : quiet w w' -> on_behalf_of a w w'.
Proof. intros (Hd & Hj & Hdial). split; [done|]. intros o _. by rewrite Hj. Qed.

(** A dial counts for the organisation of its request. *)
#[export] Instance calls_own_of_laws {V : VoiceProvider.T} {laws : VoiceProvider.Laws V} :
  CallsOwn V.
Proof.
  intros req. eapply guar_lin; [apply on_behalf_silent| |apply VoiceProvider.PlaceCall_lin].
  intros w w' r H. unfold on_behalf_of.
  inversion H as [st pid E1 E2 E3|st pid e E1 E2 E3|st e E1 E2 E3]; subst;
    rewrite <- ?E3; (split; [done|]); intros o Hne; (split; [done|]); try done;
    unfold dials, dials_to; simpl; apply String.eqb_neq in Hne; by rewrite Hne.
Qed.

#[export] Instance queues_own_of_laws {O : Orchestrator.T} {laws : Orchestrator.Laws O} :
  QueuesOwn O.
Proof.
  intros inp. eapply guar_lin; [apply on_behalf_silent| |apply Orchestrator.Enqueue_lin].
  intros w w' r H. unfold on_behalf_of.
  inversion H as [st E1 E2 E3|st e E1 E2 E3|st e E1 E2 E3]; subst; rewrite <- ?E3;
    (split; [done|]); intros o Hne; (split; [|done]); try done;
    simpl; rewrite List.filter_app; simpl; apply String.eqb_neq in Hne; rewrite Hne;
    by rewrite app_nil_r.
Qed.

(** The other ports outside the repository touch no table and no job, and dial
    nobody. *)
Section Services.
Context {uuid : Uuid.T} {sha : SHA256.T} {hmac : HMAC.T} {bcrypt : Bcrypt.T} {aead : AEAD.T}
  {tz : TimeZones.T} {summarizer : Summarizer.T}.
Context {sms : SMSSender.T} {sms_laws : SMSSender.Laws sms}.
Context {provider : VoiceProvider.T} {provider_laws : CallsOwn provider}.
Context {orch : Orchestrator.T} {orch_laws : QueuesOwn orch}.
Context {model : ChatModel.T} {model_laws : ChatModel.Laws model}.
Context {sender : MessagingSender.T} {sender_laws : MessagingSender.Laws sender}.
Context {gateway : PaymentGateway.T} {gateway_laws : PaymentGateway.Laws gateway}.
Context {reporter : Reporter.T} {reporter_laws : Reporter.Laws reporter}.
Context {stt : STT.T} {stt_laws : STT.Laws stt}.
Context {http : HttpOut.T} {http_laws : HttpOut.Laws http}.
Context (activity : option ActivityPublisher.T)
  (activity_laws : forall p, activity = Some p -> ActivityPublisher.Laws p).

#[local] Existing Instances PgCreditRepo.repo PgPaymentRepo.repo PgFlowRepo.repo
  PgCallRepo.repo PgOutcomeRepo.repo PgCallPolicyRepo.repo PgWebhookRepo.repo PgAuthRepo.repo
  PgOrgRepo.repo PgChatRepo.repo PgChatSettingsRepo.repo PgInsightRepo.repo PgChannelRepo.repo
  PgCustomerRepo.repo PgCampaignRepo.repo PgAPIKeyRepo.repo PgEventRepo.repo
  PgAnalyticsRepo.repo RealClock.clock.

Section Own.
Context (o a : OrgID) (Hne : a <> o) (K : DB -> Prop) {S : Stable o K}.

(** *** The ports *)

Lemma leaves_on_behalf {A} b (p : prog World A) : b = a -> guar (on_behalf_of b) p -> leaves K o p.
Proof using Hne S.
  intros -> Hp. apply leaves_guar. eapply guar_mono; [|exact Hp].
  intros w w' (Hd & H) Hw HK. destruct (H o Hne) as [Hj Hdial]. unfold kept, w_db in *.
  rewrite Hd. split; [|done]. split; [done|]. split; [apply untouched_refl|by split].
Qed.

Lemma leaves_dial req : req_OrgID req = a -> leaves K o (VoiceProvider.PlaceCall req).
Proof using Hne S provider_laws. intros E. by apply (leaves_on_behalf (req_OrgID req)), calls_own. Qed.

Lemma leaves_Enqueue inp : pci_OrgID inp = a -> leaves K o (Orchestrator.EnqueuePlaceCall inp).
Proof using Hne S orch_laws. intros E. by apply (leaves_on_behalf (pci_OrgID inp)), queues_own. Qed.

Lemma leaves_model p h : leaves K o (ChatModel.Reply p h).
Proof using S model_laws. by apply leaves_quiet, ChatModel.Reply_quiet. Qed.
Lemma leaves_sms to text : leaves K o (SMSSender.Send to text).
Proof using S sms_laws. by apply leaves_quiet, SMSSender.Send_quiet. Qed.
Lemma leaves_sender m : leaves K o (MessagingSender.Send m).
Proof using S sender_laws. by apply leaves_quiet, MessagingSender.Send_quiet. Qed.
Lemma leaves_checkout req : leaves K o (PaymentGateway.Checkout req).
Proof using S gateway_laws. by apply leaves_quiet, PaymentGateway.Checkout_quiet. Qed.
Lemma leaves_answer q d : leaves K o (Reporter.Answer q d).
Proof using S reporter_laws. by apply leaves_quiet, Reporter.Answer_quiet. Qed.
Lemma leaves_stt x l : leaves K o (STT.Transcribe x l).
Proof using S stt_laws. by apply leaves_quiet, STT.Transcribe_quiet. Qed.
Lemma leaves_request m url h b : leaves K o (HttpOut.request m url h b).
Proof using S http_laws. apply leaves_quiet. apply HttpOut.request_quiet. Qed.

Lemma leaves_publish_calls e : leaves K o (Calls.publish activity e).
Proof using S activity_laws.
  unfold Calls.publish. destruct activity as [p|]; [|apply leaves_ret].
  by apply leaves_quiet, (@ActivityPublisher.Publish_quiet p (activity_laws p eq_refl)).
Qed.
Lemma leaves_publish_chat e : leaves K o (Chat.publish activity e).
Proof using S activity_laws. exact (leaves_publish_calls e). Qed.

#[local] Hint Resolve leaves_dial leaves_Enqueue leaves_model leaves_sms leaves_sender
  leaves_checkout leaves_answer leaves_stt leaves_request leaves_publish_calls
  leaves_publish_chat : tenant.

(** Through a program, its repositories unfolded. *)
Ltac service := ports; leaving; ports; eauto with tenant.

(** *** Calls, flows, billing *)

Lemma leaves_RunTestCall phone digit flow : leaves K o (Calls.RunTestCall activity a phone digit flow).
Proof using Hne S activity_laws provider_laws.
  unfold Calls.RunTestCall. service. all: apply leaves_TryDeduct; [done..|].
  unfold CreditRepo.small, Calls.creditsPerCall, int32_max. lia.
Qed.

Lemma leaves_calls :
  (forall limit, leaves K o (Calls.List a limit)) /\ leaves K o (Calls.Summary a) /\
  (forall id, leaves K o (Calls.Get a id)) /\ leaves K o (Calls.Policy a) /\
  (forall p, leaves K o (Calls.SavePolicy a p)).
Proof using Hne S.
  split_and!; intros; unfold Calls.List, Calls.Summary, Calls.Get, Calls.Policy, Calls.SavePolicy;
    service.
Qed.

Lemma leaves_flows :
  leaves K o (Flows.List a) /\ (forall id, leaves K o (Flows.Get a id)) /\
  (forall nf, leaves K o (Flows.Create a nf)) /\
  (forall id spec, leaves K o (Flows.UpdateSpec a id spec)).
Proof using Hne S.
  split_and!; intros; unfold Flows.UpdateSpec, Flows.List, Flows.Get, Flows.Create; service.
Qed.

Lemma leaves_billing :
  leaves K o (Billing.Balance a) /\ (forall limit, leaves K o (Billing.Ledger a limit)) /\
  (forall amount, leaves K o (Billing.TopUp a amount)) /\
  (forall n, leaves K o (Billing.Checkout a n)).
Proof using Hne S gateway_laws.
  split_and!; intros; unfold Billing.Balance, Billing.Ledger, Billing.TopUp, Billing.Checkout;
    service.
  apply leaves_Grant; [done..|]. unfold CreditRepo.small, int32_max.
  destruct (Z.leb_spec amount 0), (Z.ltb_spec 100000 amount); simpl; lia.
Qed.

(** *** Customers, campaigns, keys, events, webhooks *)

Lemma leaves_customers :
  (forall limit, leaves K o (Customers.List a limit)) /\
  (forall id dnd, leaves K o (Customers.SetDND a id dnd)).
Proof using Hne S.
  split; intros; unfold Customers.List, Customers.SetDND; service.
Qed.

Lemma leaves_recipient_targets recips : leaves K o (Campaigns.recipient_targets a recips).
Proof using Hne S.
  induction recips as [|r recips IH]; cbn [Campaigns.recipient_targets]; [apply leaves_ret|]. service.
Qed.

Lemma leaves_enqueue_all flowID targets queued :
  leaves K o (Campaigns.enqueue_all a flowID targets queued).
Proof using Hne S orch_laws.
  revert queued. induction targets as [|[phone dnd] targets IH]; intros queued;
    cbn [Campaigns.enqueue_all]; [apply leaves_ret|]. service.
Qed.

#[local] Hint Resolve leaves_recipient_targets leaves_enqueue_all : tenant.

Lemma leaves_campaigns :
  (forall name, leaves K o (Campaigns.Create a name)) /\ leaves K o (Campaigns.List a) /\
  (forall id, leaves K o (Campaigns.Get a id)) /\
  (forall id at_, leaves K o (Campaigns.Schedule a id at_)) /\
  (forall id, leaves K o (Campaigns.Start a id)).
Proof using Hne S orch_laws.
  split_and!; intros; unfold Campaigns.Start, Campaigns.Schedule, Campaigns.dispatch,
    Campaigns.Get, Campaigns.List, Campaigns.Create; service.
Qed.

Lemma leaves_apikeys :
  (forall name, leaves K o (APIKeys.Mint a name)) /\
  (forall name, leaves K o (APIKeys.MintPublishable a name)) /\ leaves K o (APIKeys.List a).
Proof using Hne S.
  split_and!; intros; unfold APIKeys.Mint, APIKeys.MintPublishable, APIKeys.List,
    Apikey.Generate, Apikey.GeneratePublishable, Apikey.gen; service.
Qed.

Lemma leaves_Accept ev : leaves K o (Ingest.Accept a ev).
Proof using Hne S orch_laws. unfold Ingest.Accept. service. Qed.

Lemma leaves_webhooks :
  (forall url events, leaves K o (Webhooks.SetEndpoint a url events)) /\
  leaves K o (Webhooks.Get a).
Proof using Hne S.
  split_and!; intros; unfold Webhooks.SetEndpoint, Webhooks.Get, Webhooks.randToken,
    Cipher.Encrypt; service.
Qed.

(** *** Chat, channels *)

Lemma leaves_chat_own :
  leaves K o (Chat.Settings a) /\ (forall cs, leaves K o (Chat.SaveSettings a cs)) /\
  leaves K o (Chat.List a) /\ (forall c, leaves K o (Chat.Messages a c)) /\
  (forall c, leaves K o (Chat.Insight a c)) /\ (forall c, leaves K o (Chat.owns a c)).
Proof using Hne S.
  split_and!; intros; unfold Chat.Settings, Chat.SaveSettings, Chat.List, Chat.Messages,
    Chat.Insight, Chat.owns; service.
Qed.

Lemma leaves_channels :
  (forall typ ext tok ver, leaves K o (Messaging.Connect a typ ext tok ver)) /\
  leaves K o (Messaging.List a) /\ (forall typ, leaves K o (Messaging.Disconnect a typ)) /\
  (forall ch user text, leaves K o (Messaging.SendOutbound a ch user text)) /\
  (forall tok, leaves K o (Messaging.VerifyChallenge tok)).
Proof using Hne S sender_laws.
  split_and!; intros; unfold Messaging.Connect, Messaging.List, Messaging.Disconnect,
    Messaging.SendOutbound, Messaging.VerifyChallenge, Cipher.Encrypt; service.
Qed.

(** *** Metrics, questions, onboarding *)

Lemma leaves_Overview : leaves K o (Analytics.Overview a).
Proof using S. unfold Analytics.Overview. service. Qed.

Lemma leaves_Ask q : leaves K o (Reports.Ask a q).
Proof using S reporter_laws. unfold Reports.Ask, Analytics.Overview. service. Qed.

Lemma leaves_onboarding p q : leaves K o (Onboarding.Ask p q).
Proof using S model_laws. unfold Onboarding.Ask. service. Qed.
End Own.

(** *** Ownership checks *)

Section Checked.
Context (o a : OrgID) (Hne : a <> o) (K : DB -> Prop) {S : Stable o K}.

(** A row that was found by its id, and is [a]'s: the id is not one of [o]'s. *)
Lemma checked_id {R} (s : stmt R) (id org : R -> string) (t : DB -> list R) x env w row w1 :
  (forall ctx d r d', s ctx d = inl (r, d') ->
     d' = d /\ tfind (fun r => (id r =? x)%string) (t d) = Some r) ->
  named_once o (map (fun r => (id r, org r)) (t (w_db w))) ->
  run env (ptry (exec s)) w = (Ok (inl row), w1) -> org row = a ->
  ~ In x (map id (rows_of org o (t (w_db w1)))).
Proof using Hne.
  intros Hs Hn E Ho. rewrite run_try in E.
  destruct (run env (exec s) w) as [[r|e|] w2] eqn:E1; [|done..]. injection E as -> ->.
  apply run_exec_inv in E1 as (ctx & d & E & Hd). apply Hs in E as [-> E]. rewrite Hd.
  apply tfind_some in E as [Hin Hid]. apply String.eqb_eq in Hid as <-.
  apply names_in; [done..|]. congruence.
Qed.

Ltac by_id_tac :=
  intros ctx d r d' H; apply with_text_ok in H; cbv beta in H;
  match type of H with context [match ?f with _ => _ end] => destruct f eqn:?; [|discriminate H] end;
  injection H as -> ->; by split.

Lemma finds_owns c : finds K o (Chat.owns a c) (fun _ => foreign_conversation o c).
Proof using Hne.
  intros env w x w' Hw _ E. unfold Chat.owns in E.
  apply run_bind_ok in E as ([[owner st] found] & w1 & E1 & E2). ports_in E1.
  unfold PgChatRepo.GetConversation in E1. apply run_bind_ok in E1 as (r & w2 & E1 & E3).
  destruct r as [row|e]; [|destruct e; try done; by injection E3 as <- <- <- _].
  injection E3 as <- <- <- <-. cbn [negb orb] in E2.
  destruct (String.eqb_spec (conv_org_id row) a) as [Ho|]; [|done]. injection E2 as _ <-.
  eapply (checked_id _ conv_id conv_org_id conversations); [|apply Hw|exact E1|done].
  unfold ChatQ.GetConversation. by_id_tac.
Qed.

Lemma finds_call id : finds K o (Calls.Get a id) (fun _ => foreign_call o id).
Proof using Hne.
  intros env w x w' Hw _ E. unfold Calls.Get in E.
  apply run_bind_ok in E as (c & w1 & E1 & E2). ports_in E1.
  unfold PgCallRepo.Get in E1. apply run_bind_ok in E1 as (r & w2 & E1 & E3).
  destruct r as [row|e]; [|by destruct e]. injection E3 as <- <-. simpl in E2.
  destruct (String.eqb_spec (callr_org_id row) a) as [Ho|]; [|done]. injection E2 as _ <-.
  eapply (checked_id _ callr_id callr_org_id calls); [|apply Hw|exact E1|done].
  unfold CallQ.GetCall. by_id_tac.
Qed.

Lemma finds_campaign id : finds K o (Campaigns.Get a id) (fun _ => foreign_campaign o id).
Proof using Hne.
  intros env w x w' Hw _ E. unfold Campaigns.Get in E.
  apply run_bind_ok in E as ([[c owner] found] & w1 & E1 & E2). ports_in E1.
  unfold PgCampaignRepo.Get in E1. apply run_bind_ok in E1 as (r & w2 & E1 & E3).
  destruct r as [row|e]; [|destruct e; try done; by injection E3 as <- <- <- _].
  injection E3 as <- <- <- <-. cbn [negb orb] in E2.
  destruct (String.eqb_spec (camp_org_id row) a) as [Ho|]; [|done]. injection E2 as _ <-.
  eapply (checked_id _ camp_id camp_org_id campaigns); [|apply Hw|exact E1|done].
  unfold CampaignQ.GetCampaign. by_id_tac.
Qed.

(** A conversation [a] has just opened is not one of [o]'s. *)
Lemma finds_new_conversation c :
  finds K o (PgChatRepo.CreateConversation a c) (fun _ => foreign_conversation o c).
Proof using Hne.
  intros env w [] w' Hw _ E. apply run_exec_inv in E as (ctx & d & E & <-).
  apply with_text_ok in E. unfold ChatQ.insert_conversation in E.
  destruct (tfind _ _) eqn:Ef; [done|]. injection E as <-.
  unfold foreign_conversation, conversation_ids. simpl. rewrite rows_snoc by done.
  intros Hin. apply List.in_map_iff in Hin as (r & Hid & Hr). apply in_rows_of in Hr as [Hr _].
  apply (tfind_none _ _ _ Ef) in Hr. by apply String.eqb_neq in Hr.
Qed.

(** *** The operations behind a check *)

Lemma leaves_reply c text :
  leaves (foreign_conversation o c) o (Chat.reply activity a c text).
Proof using activity_laws model_laws.
  unfold Chat.reply. ports. leaving; ports; eauto using leaves_publish_chat, leaves_model with tenant.
Qed.

Lemma leaves_Send c text : leaves K o (Chat.Send activity a c text).
Proof using Hne S activity_laws model_laws.
  unfold Chat.Send.
  apply (leaves_learn o _ (fun c => foreign_conversation o c)).
  - destruct (c =? "")%string; ports; leaving; [|ports; eauto with tenant..].
    by apply leaves_chat_own.
  - destruct (c =? "")%string.
    + eapply finds_bind; [apply leaves_New|apply finds_kept, leaves_New; exact _|intros c'].
      eapply finds_bind; [ports; by apply leaves_CreateConversation|ports; apply finds_new_conversation|].
      intros ? env w x w' _ HF [= <- <-]. exact HF.
    + eapply finds_bind; [by apply leaves_chat_own|apply finds_owns|].
      intros ? env w x w' _ HF [= <- <-]. exact HF.
  - intros c'. leaving. apply leaves_reply.
Qed.

Lemma leaves_Summarize c : leaves K o (Chat.Summarize a c).
Proof using Hne S.
  unfold Chat.Summarize. eapply leaves_learn; [by apply leaves_chat_own|apply finds_owns|].
  intros ?. ports. leaving; ports; eauto with tenant.
Qed.

Lemma leaves_SetStatus_checked c status : leaves K o (Chat.SetStatus a c status).
Proof using Hne S.
  unfold Chat.SetStatus. destruct (negb _); [apply leaves_fail|].
  eapply leaves_learn; [by apply leaves_chat_own|apply finds_owns|].
  intros ?. ports. eauto with tenant.
Qed.

Lemma leaves_AgentReply c text : leaves K o (Chat.AgentReply a c text).
Proof using Hne S.
  unfold Chat.AgentReply. eapply leaves_learn; [by apply leaves_chat_own|apply finds_owns|].
  intros ?. ports. leaving; ports; eauto with tenant.
Qed.

Lemma leaves_import_loop fuel c data seen added :
  leaves (foreign_campaign o c) o (Campaigns.import_loop fuel a c data seen added).
Proof using.
  revert data seen added. induction fuel as [|fuel IH]; intros data seen added;
    cbn [Campaigns.import_loop]; [apply leaves_ret|]. ports. leaving; ports; eauto with tenant.
Qed.

Lemma leaves_Import c csv : leaves K o (Campaigns.ImportRecipients a c csv).
Proof using Hne S orch_laws.
  unfold Campaigns.ImportRecipients. eapply leaves_learn;
    [by apply leaves_campaigns|apply finds_campaign|].
  intros ?. apply leaves_import_loop.
Qed.

Lemma leaves_Transcribe id url loc :
  leaves (foreign_call o id) o (Transcription.Transcribe id url loc).
Proof using http_laws stt_laws.
  unfold Transcription.Transcribe, Transcription.download. ports.
  leaving; ports; eauto using leaves_request, leaves_stt with tenant.
Qed.
End Checked.
End Services.
