(* ===== verification/ServerSpec.v ===== *)
(** * What the router guarantees

    Who gets past the session check, over every route at once, and how often
    credentials can be tried. *)

From S2P Require Import Prelude.
From S2P Require Import Domain.
From S2P Require Import Effects.
From S2P Require Import GoLib.
From S2P Require Import Json.
From S2P Require Import Store.
From S2P Require Import Crypto.
From S2P Require Import Ports.
From S2P Require Import PgAuth.
From S2P Require Import Auth.
From S2P Require Import PgChat.
From S2P Require Import PgCampaigns.
From S2P Require Import PgIngest.
From S2P Require Import PgWebhooks.
From S2P Require Import Orchestrator.
From S2P Require Import Messaging.
From S2P Require Import Analytics.
From S2P Require Import HttpOut.
From S2P Require Import Bus.
From S2P Require Import HttpLib.
From S2P Require Import HttpAuth.
From S2P Require Import Ratelimit.
From S2P Require Import Server.
From stdpp Require Import gmap strings list.
From Stdlib Require Import ZArith Lia.

Open Scope Z_scope.
Open Scope go_scope.

(** ** Lookup *)

Section Lookup.
Context {H : Type}.
Implicit Types routes : list (Mux.pattern * H).

Lemma lookup_app routes1 routes2 method path :
  Mux.lookup (routes1 ++ routes2) method path =
  match Mux.lookup routes1 method path with
  | Some x => Some x
  | None => Mux.lookup routes2 method path
  end.
Proof.
  induction routes1 as [|[pt h] routes IH]; simpl; [done|].
  destruct (Mux.match_method _ _); [|done]. by destruct (Mux.match_path _ _).
Qed.

Lemma lookup_forall (P : H -> Prop) routes method path h vs :
  Forall (fun r => P (snd r)) routes -> Mux.lookup routes method path = Some (h, vs) -> P h.
Proof.
  induction 1 as [|[pt h'] routes Hh _ IH]; simpl; [done|].
  destruct (Mux.match_method _ _); [|done].
  destruct (Mux.match_path _ _); [|done]. by intros [= -> ->].
Qed.
End Lookup.

Section Server.
Context {orgs : OrgStore.T} {credits : CreditRepo.T}
  {payments : PaymentRepo.T} {gateway : PaymentGateway.T} {callrepo : CallRepo.T}
  {outcomes : OutcomeRepo.T} {policy : CallPolicyRepo.T} {flows : FlowRepo.T}
  {customers : CustomerRepo.T} {campaigns : CampaignRepo.T} {events : EventRepo.T}
  {keys : APIKeyRepo.T} {chats : ChatRepo.T} {settings : ChatSettingsRepo.T}
  {insights : InsightRepo.T} {conns : ChannelRepo.T} {hooks : WebhookRepo.T}
  {metrics : AnalyticsRepo.T}.
Context {clock : Clock.T} {tz : TimeZones.T} {local : LocalZone.T} {hmac : HMAC.T}
  {sha : SHA256.T} {bcrypt : Bcrypt.T} {uuid : Uuid.T} {aead : AEAD.T}.
Context {sms : SMSSender.T} {provider : VoiceProvider.T}
  {orch : Orchestrator.T} {model : ChatModel.T} {summarizer : Summarizer.T}
  {sender : MessagingSender.T} {reporter : Reporter.T} {stt : STT.T} {http : HttpOut.T}.
Context (authLimit publicLimit : RateLimiter.T) (activity : option ActivityPublisher.T)
  (feed : OrgID -> list Stream.input) (cfg : Config).

#[local] Existing Instance PgAuthRepo.repo.

Definition public_route (r : Request) : Prop :=
  Mux.lookup (Server.public_routes authLimit publicLimit activity cfg)
    (rq_Method r) (rq_Path r) <> None.

(** Every route that is not public checks the session before its handler. *)
Definition checks_session (e : Server.endpoint) : Prop :=
  exists h : list (string * string) -> Session -> handler,
    e = fun vs => AuthHandler.requireAuth (h vs).

Lemma authed_routes_check :
  Forall (fun rt => checks_session (snd rt)) (Server.authed_routes activity feed cfg).
Proof.
  unfold Server.authed_routes.
  repeat (apply Forall_cons; split; [eexists (fun vs => _); reflexivity|]). constructor.
Qed.

(** A request that is not public is answered by requireAuth or by the router. *)
Lemma serve_cases r :
  ~ public_route r ->
  (exists h, Server.serve authLimit publicLimit activity feed cfg r = AuthHandler.requireAuth h r) \/
  (exists resp, Server.serve authLimit publicLimit activity feed cfg r = ret resp /\
     (rs_Code resp = 404 \/ rs_Code resp = 405)).
Proof.
  intros Hp. unfold Server.serve, Server.routes. rewrite lookup_app.
  destruct (Mux.lookup (Server.public_routes _ _ _ _) _ _) eqn:E; [contradict Hp; unfold public_route; by rewrite E|].
  destruct (Mux.lookup (Server.authed_routes _ _ _) _ _) as [[h vs]|] eqn:E'.
  - left. destruct (lookup_forall checks_session _ _ _ _ _ authed_routes_check E') as [h' ->].
    by exists (h' vs).
  - right. destruct (Mux.allowed _ _); eexists; (split; [reflexivity|]); auto.
Qed.

(** The request carries the token of a session that is stored and has not
    expired. *)
Definition signed_in (env : Env) (r : Request) (w : World) : bool :=
  match Cookie.get r AuthHandler.cookieName with
  | None => false
  | Some token =>
      existsb (fun s => AuthQ.has_token (Auth.hashToken token) s
                        && (env_clock env (w_tick w) <? session_expires_at s))
        (sessions (w_db w))
  end.

Lemma existsb_tfind {R} (p : R -> bool) t : existsb p t = false -> tfind p t = None.
Proof.
  induction t as [|x t IH]; simpl; [done|]. intros H. apply orb_false_elim in H as [-> H].
  by apply IH.
Qed.

(** A dead token is refused, or the statement that looks for it fails; nothing
    is written. *)
Lemma run_dead_token env token w :
  existsb (fun s => AuthQ.has_token (Auth.hashToken token) s
                    && (env_clock env (w_tick w) <? session_expires_at s))
    (sessions (w_db w)) = false ->
  exists o w', run env (Auth.Resolve token) w = (o, w') /\ w_st w' = w_st w /\
    (o = Ok (zeroSessionUser, false) \/
     (exists e, o = Err e) /\ env_fault env (w_tick w) <> NoFault).
Proof.
  intros Hdead. apply existsb_tfind in Hdead. unfold Auth.Resolve.
  destruct (token =? "")%string; [by eexists _, _; split_and!; [done..|left]|].
  change (@AuthRepo.SessionUser _) with PgAuthRepo.SessionUser.
  unfold PgAuthRepo.SessionUser. rewrite run_bind, run_try. unfold exec. rewrite run_act.
  assert (Hq : AuthQ.SessionWithUser (Auth.hashToken token)
                 (sql_ctx env (w_tick w) (env_clock env (w_tick w))) (w_db w) = inr ErrNoRows).
  { unfold AuthQ.SessionWithUser. simpl sql_now. by rewrite Hdead. }
  unfold exec_step. rewrite Hq.
  destruct (env_fault env (w_tick w)) as [|m|m] eqn:Hf; simpl;
    eexists _, _; (split; [reflexivity|]); (split; [reflexivity|]).
  - by left.
  - right. split; [by eexists|done].
  - right. split; [by eexists|done].
Qed.

(** C7: Outside the public routes a request without a live session changes nothing:
    no table, no effect on the outside, no queued job.  It is answered 401, or 404
    or 405 when there is no such route, or 500 when the statement that looks the
    session up fails. *)
Theorem no_session_no_effect (env : Env) (r : Request) (w : World) :
  ~ public_route r -> signed_in env r w = false ->
  exists resp w',
    run env (Server.serve authLimit publicLimit activity feed cfg r) w = (Ok resp, w') /\
    w_st w' = w_st w /\
    (In (rs_Code resp) [401; 404; 405] \/
     rs_Code resp = 500 /\ env_fault env (w_tick w) <> NoFault).
Proof.
  intros Hp Hs. destruct (serve_cases r Hp) as [[h ->]|(resp & -> & Hc)].
  2:{ exists resp, w. split; [done|]. split; [done|]. left. simpl. destruct Hc as [->| ->]; auto. }
  unfold signed_in in Hs. unfold AuthHandler.requireAuth.
  destruct (Cookie.get r AuthHandler.cookieName) as [token|].
  2:{ eexists _, w. split; [done|]. split; [done|]. left. simpl. auto. }
  destruct (run_dead_token env token w Hs) as (o & w' & Hrun & Hst & Ho).
  rewrite run_bind, run_try, Hrun.
  destruct Ho as [-> |[[e ->] Hf]]; eexists _, w'; (split; [done|]); (split; [done|]).
  - left. simpl. auto.
  - by right.
Qed.

(** ** Guessing credentials

    The router with the state of the limiter its credential routes share, over the
    requests of one instant. *)

Definition credential_paths : list (list string) :=
  [["v1"; "auth"; "otp"; "request"]; ["v1"; "auth"; "otp"; "verify"];
   ["v1"; "auth"; "register"]; ["v1"; "auth"; "login"]].

Definition decided (ok : bool) : RateLimiter.T := {| RateLimiter.Allow _ := ret ok |}.

Fixpoint serve_burst (env : Env) (now : Time) (rs : list Request) (l : Ratelimit.Limiter)
  (w : World) : list (outcome Response) * World :=
  match rs with
  | [] => ([], w)
  | r :: rs =>
      let '(ok, l) := Ratelimit.allow (ClientIP.of_request r) now l in
      let '(res, w) := run env (Server.serve (decided ok) publicLimit activity feed cfg r) w in
      let '(ress, w) := serve_burst env now rs l w in
      (res :: ress, w)
  end.

(** A request for credentials of the client at that address. *)
Definition tries (client : string) (r : Request) : Prop :=
  rq_Method r = "POST" /\ In (rq_Path r) credential_paths /\ ClientIP.of_request r = client.

Lemma run_refused env client r w :
  tries client r ->
  run env (Server.serve (decided false) publicLimit activity feed cfg r) w = (Ok too_many, w).
Proof.
  intros (Hm & Hp & _). unfold Server.serve. rewrite Hm.
  by destruct Hp as [<-|[<-|[<-|[<-|[]]]]].
Qed.

Lemma burst_left env client now rs w k :
  Forall (tries client) rs -> (k <= 5)%nat ->
  serve_burst env now rs (left_at client now (Z.of_nat k)) w =
  (let '(ress, w') := serve_burst env now (firstn k rs) (left_at client now (Z.of_nat k)) w in
   (ress ++ repeat (Ok too_many) (length rs - k), w')).
Proof.
  intros Hrs. revert k w. induction Hrs as [|r rs Hr Hrs IH]; intros k w Hk; [by destruct k|].
  pose proof Hr as (_ & _ & Hc). destruct k as [|k].
  - cbn [firstn serve_burst length repeat Nat.sub app]. rewrite Hc, allow_left by lia.
    change (0 <? Z.of_nat 0) with false. cbv iota beta. rewrite (run_refused env client) by done.
    change (Z.max 0 (Z.of_nat 0 - 1)) with (Z.of_nat 0). rewrite (IH 0%nat) by lia. cbn [firstn serve_burst].
    by rewrite Nat.sub_0_r.
  - cbn [firstn serve_burst length repeat Nat.sub]. rewrite Hc, allow_left by lia.
    replace (Z.max 0 (Z.of_nat (S k) - 1)) with (Z.of_nat k) by lia.
    destruct (run env _ w) as [res w1]. rewrite (IH k w1) by lia. by destruct (serve_burst _ _ _ _ _).
Qed.

(** C35: However many credentials a client tries at one instant, over all the routes that
    take any, the router handles the first five requests and answers 429 to each
    later one, which changes nothing. *)
Theorem credentials_are_throttled env client now rs w :
  Forall (tries client) rs ->
  serve_burst env now rs login_limiter w =
  (let '(ress, w') := serve_burst env now (firstn 5 rs) login_limiter w in
   (ress ++ repeat (Ok too_many) (length rs - 5), w')).
Proof.
  intros Hrs. destruct Hrs as [|r rs Hr Hrs]; [done|]. pose proof Hr as (_ & _ & Hc).
  change (firstn 5 (r :: rs)) with (r :: firstn 4 rs). cbn [serve_burst length Nat.sub].
  rewrite Hc, allow_first. change (left_at client now 4) with (left_at client now (Z.of_nat 4)).
  destruct (run env _ w) as [res w1].
  rewrite (burst_left env client now rs w1 4 Hrs) by lia. by destruct (serve_burst _ _ _ _ _).
Qed.
End Server.
