(* ===== verification/WidgetSpec.v ===== *)
(** * The embed script against the server

    What a visitor of a merchant's site sees in the widget is what the merchant's
    dashboard keeps, except while an agent handles the conversation. *)

From S2P Require Import Prelude.
From S2P Require Import Domain.
From S2P Require Import Effects.
From S2P Require Import GoLib.
From S2P Require Import Json.
From S2P Require Import GoTime.
From S2P Require Import Store.
From S2P Require Import Crypto.
From S2P Require Import Ports.
From S2P Require Import PgCredits.
From S2P Require Import PgFlows.
From S2P Require Import PgCalls.
From S2P Require Import NoFault.
From S2P Require Import PgWebhooks.
From S2P Require Import PgAuth.
From S2P Require Import PgChat.
From S2P Require Import Assistant.
From S2P Require Import Chat.
From S2P Require Import Messaging.
From S2P Require Import ChatSpec.
From S2P Require Import PgCampaigns.
From S2P Require Import Orchestrator.
From S2P Require Import PgIngest.
From S2P Require Import Ingest.
From S2P Require Import IngestSpec.
From S2P Require Import Analytics.
From S2P Require Import HttpOut.
From S2P Require Import HttpLib.
From S2P Require Import Widget.
From S2P Require Import HttpAuth.
From S2P Require Import Bus.
From S2P Require Import Ratelimit.
From S2P Require Import Server.
From S2P Require Import ServerSpec.
From stdpp Require Import gmap strings list.
From Stdlib Require Import ZArith Lia Ascii.

Open Scope Z_scope.
Open Scope go_scope.

(** ** What JSON.stringify writes, encoding/json reads *)

Lemma js_quote_app s t : Js.quote_from (s +:+ t) = Js.quote_from s +:+ Js.quote_from t.
Proof.
  induction s as [|c s IH]; [done|]. cbn [Js.quote_from String.append].
  by rewrite IH, JsonFacts.app_assoc_s.
Qed.

Definition high (c : ascii) : bool := 128 <=? byte_of c.

Lemma js_quote_high s : Strings.forallb high s = true -> Js.quote_from s = s.
Proof.
  induction s as [|c s IH]; [done|]. cbn [Strings.forallb Js.quote_from]. intros H. bool_prop.
  unfold high in *. bool_prop.
  assert (Js.plain c = true) as ->.
  { unfold Js.plain. rewrite !andb_true_iff, negb_true_iff, orb_false_iff, Z.leb_le, !Z.eqb_neq. lia. }
  by rewrite IH.
Qed.

(** Every byte of a sequence of several bytes is a high one. *)
Lemma size_high s n : Utf8.size s = Some n -> Strings.forallb high (Strings.take n s) = true.
Proof.
  unfold Utf8.size, Utf8.size4, Utf8.within, high. intros H.
  destruct s as [|c0 [|c1 [|c2 [|c3 s]]]]; cbn in H;
  repeat match goal with
  | H : (if ?b then _ else _) = Some _ |- _ => destruct b eqn:?
  end; try done; injection H as <-; bool_prop; cbn; try lia;
  repeat (apply andb_true_intro; split); rewrite ?Z.leb_le;
  repeat match goal with H : context [if ?b then _ else _] |- _ => destruct b end; done || lia.
Qed.

Lemma js_escape c : Js.plain c = false -> (byte_of c <? 128) = true /\ Json.plain c = false.
Proof.
  unfold Js.plain, Json.plain. intros H. split.
  - apply Z.ltb_lt. bool_prop. destruct H as [H|H]; bool_prop; [lia|].
    destruct H as [H|H]; bool_prop; lia.
  - destruct (32 <=? byte_of c); [|done]. cbn [andb] in *. rewrite H. by rewrite andb_false_r.
Qed.

Lemma str_body_js n s f rest :
  Utf8.valid_from n s = true ->
  (String.length (Js.quote_from s) < f)%nat ->
  Json.str_body f (Js.quote_from s +:+ String Json.quotes rest) = Some (s, rest).
Proof.
  revert s f. induction n as [|n IH]; intros s f Hv Hf.
  { destruct s; [|done]. destruct f; [simpl in Hf; lia|]. reflexivity. }
  destruct s as [|c s]; [destruct f; [simpl in Hf; lia|reflexivity]|]. cbn [Utf8.valid_from] in Hv.
  destruct (byte_of c <? 128) eqn:Ec.
  - cbn [Js.quote_from] in *. rewrite Strings.length_app in Hf. rewrite JsonFacts.app_assoc_s.
    destruct (Js.plain c) eqn:Ep.
    + destruct f as [|f]; [simpl in Hf; lia|]. cbn in Hf. unfold Js.plain in Ep. bool_prop.
      cbn [String.append Json.str_body].
      assert ((byte_of c <? 32) = false) as -> by (apply Z.ltb_ge; lia).
      assert ((byte_of c =? 34) = false) as -> by (apply Z.eqb_neq; lia).
      assert ((byte_of c =? 92) = false) as -> by (apply Z.eqb_neq; lia).
      assert ((byte_of c <? 128) = true) as -> by (apply Z.ltb_lt; lia).
      by rewrite IH by (done || lia).
    + destruct (js_escape c Ep) as [_ Ep'].
      destruct (JsonFacts.unescape_escape c (Js.quote_from s +:+ String Json.quotes rest) Ec Ep')
        as (u & Eu & Hu).
      rewrite Eu in *. destruct f as [|f]; [simpl in Hf; lia|]. cbn in Hf.
      change (String c s) with (String c "" +:+ s).
      apply JsonFacts.str_body_escape; [done|]. apply IH; [done|lia].
  - destruct (Utf8.size (String c s)) as [m|] eqn:Em; [|done].
    destruct (JsonFacts.size_take _ m "" Em) as (_ & _ & _ & Hlen & Hs & _).
    rewrite <- Hs in Hf |- *. rewrite js_quote_app, (js_quote_high _ (size_high _ _ Em)) in *.
    rewrite Strings.length_app in Hf. rewrite JsonFacts.app_assoc_s.
    destruct f as [|f]; [lia|]. apply JsonFacts.str_body_rune; [done|]. apply IH; [done|lia].
Qed.

Lemma str_lit_js s rest :
  Utf8.Valid s = true -> Json.str_lit (Js.quote_from s +:+ String Json.quotes rest) = Some (s, rest).
Proof.
  intros Hv. apply (str_body_js (String.length s)); [done|]. rewrite Strings.length_app. lia.
Qed.

Lemma value_js f depth s rest :
  Utf8.Valid s = true -> Json.value (S f) depth (Js.quote s +:+ rest) = Some (JStr s, rest).
Proof.
  intros Hv. unfold Js.quote. cbn [String.append]. rewrite JsonFacts.app_assoc_s.
  cbn [String.append]. by rewrite JsonFacts.value_str, str_lit_js.
Qed.

(** ** The body of a message *)

Definition valid_opt (s : option string) : Prop :=
  match s with Some s => Utf8.Valid s = true | None => True end.

Lemma value_stringify f depth conv rest :
  valid_opt conv ->
  Json.value (S f) depth (Js.stringify conv +:+ rest) =
  Some (match conv with Some c => JStr c | None => JNull end, rest).
Proof. destruct conv as [c|]; [apply value_js|by destruct rest]. Qed.

(** The member of a key the script writes, and what follows it. *)
Lemma members_js f depth k v text rest :
  Utf8.Valid k = true ->
  (forall rest, Json.value (S f) depth (text +:+ rest) = Some (v, rest)) ->
  Json.members (S (S f)) depth ((Js.quote k +:+ ":" +:+ text) +:+ rest) =
  JsonFacts.after_member (S f) depth (k, v) rest.
Proof.
  intros Hk Hv. rewrite JsonFacts.app_assoc_s. unfold Js.quote. cbn [String.append].
  rewrite JsonFacts.app_assoc_s. cbn [String.append].
  eapply JsonFacts.members_str; [by rewrite str_lit_js|].
  exact (Hv rest).
Qed.

Lemma parse_body conv text :
  valid_opt conv -> Utf8.Valid text = true ->
  Json.parse_prefix (Widget.message_body conv text) =
  Some (JObj [("conversation_id", match conv with Some c => JStr c | None => JNull end);
              ("text", JStr text)], "").
Proof.
  intros Hc Ht. unfold Json.parse_prefix.
  assert (exists n, S (2 * String.length (Widget.message_body conv text)) =
    S (S (S (S n)))) as [n ->].
  { exists (2 * String.length (Widget.message_body conv text) - 3)%nat.
    assert (2 <= String.length (Widget.message_body conv text))%nat; [|lia].
    unfold Widget.message_body. rewrite !Strings.length_app.
    change (String.length (Js.quote "text")) with 6%nat. lia. }
  set (second := (Js.quote "text" +:+ ":" +:+ Js.quote text) +:+ "}").
  assert (Widget.message_body conv text = String (byte_chr 123)
    ((Js.quote "conversation_id" +:+ ":" +:+ Js.stringify conv) +:+ String (byte_chr 44) second)) as ->.
  { unfold Widget.message_body, second. by rewrite !JsonFacts.app_assoc_s. }
  assert (Json.members (S (S (S n))) (10000 - 1) ((Js.quote "conversation_id" +:+ ":" +:+
    Js.stringify conv) +:+ String (byte_chr 44) second) =
    Some ([("conversation_id", match conv with Some c => JStr c | None => JNull end);
           ("text", JStr text)], "")) as Hm.
  { rewrite (members_js (S n) _ _ (match conv with Some c => JStr c | None => JNull end))
      by (try done; intros; by apply value_stringify).
    unfold JsonFacts.after_member. cbn [Json.skip_ws].
    change (Json.is_ws (byte_chr 44)) with false. cbv iota.
    change (byte_of (byte_chr 44) =? 44) with true. cbv iota. unfold second.
    by rewrite (members_js n _ _ (JStr text)) by (try done; intros; by apply value_js). }
  transitivity (match Json.members (S (S (S n))) (10000 - 1) ((Js.quote "conversation_id" +:+ ":" +:+
    Js.stringify conv) +:+ String (byte_chr 44) second)
    with Some (ms, r) => Some (JObj ms, r) | None => None end); [reflexivity|].
  by rewrite Hm.
Qed.

(** What the server makes of a message of the script. *)
Lemma decode_body conv text :
  valid_opt conv -> Utf8.Valid text = true ->
  Json.Decode PublicHandler.dMessageBody (PublicHandler.mkMessageBody "" "")
    (Widget.message_body conv text) = (PublicHandler.mkMessageBody (default "" conv) text, true).
Proof.
  intros Hc Ht. unfold Json.Decode. rewrite parse_body by done. by destruct conv.
Qed.

Lemma js_quote_length s : (String.length (Js.quote s) <= 2 + 6 * String.length s)%nat.
Proof.
  assert (String.length (Js.quote_from s) <= 6 * String.length s)%nat as H.
  { induction s as [|c s IH]; [done|]. cbn [Js.quote_from String.length].
    rewrite Strings.length_app.
    assert (String.length (if Js.plain c then String c "" else Json.escape c) <= 6)%nat; [|lia].
    destruct (Js.plain c); [simpl; lia|]. unfold Json.escape.
    repeat match goal with |- context [if ?b then _ else _] => destruct b end; simpl; lia. }
  unfold Js.quote. cbn [String.length]. rewrite Strings.length_app. simpl. lia.
Qed.

Lemma body_length conv text :
  (String.length (Widget.message_body conv text) <=
   40 + 6 * (String.length (default "" conv) + String.length text))%nat.
Proof.
  unfold Widget.message_body. rewrite !Strings.length_app.
  pose proof (js_quote_length text).
  assert (String.length (Js.stringify conv) <= 4 + 6 * String.length (default "" conv))%nat.
  { destruct conv as [c|]; [|simpl; lia]. pose proof (js_quote_length c).
    change (String.length (Js.quote c) <= 4 + 6 * String.length c)%nat. lia. }
  change (String.length (Js.quote "conversation_id")) with 17%nat.
  change (String.length (Js.quote "text")) with 6%nat. cbn [String.length]. lia.
Qed.

(** What the script makes of the server's answer. *)
Lemma answer_json conv reply :
  Utf8.Valid conv = true -> Utf8.Valid reply = true ->
  Json.parse (rs_Body (PublicHandler.sent conv reply)) =
  Some (JObj [("conversation_id", JStr conv); ("reply", JStr reply)]).
Proof.
  intros Hc Hr.
  apply (JsonFacts.parse_marshal_strings_ws ("conversation_id", conv) [("reply", reply)] newline);
    [|reflexivity].
  by repeat constructor.
Qed.

Lemma on_answer_reply conv reply st :
  reply <> "" ->
  Widget.on_answer (Some (JObj [("conversation_id", JStr conv); ("reply", JStr reply)])) st =
  Widget.add "assistant" reply
    (Widget.mkState (Some conv) (Widget.opened st) (Widget.cfg st) (Widget.msgs st)).
Proof. intros H. apply String.eqb_neq in H. cbn. by rewrite H. Qed.

(** ** A visit *)

Lemma id_length env n : String.length (id_at env "conv" n) = 29%nat.
Proof. reflexivity. Qed.

Lemma answer_nonempty text : answer text <> "".
Proof. rewrite <- (reply_text_user [] text 0). apply reply_text_nonempty. Qed.

Lemma text_ok_valid s : text_ok s = true -> Utf8.Valid s = true.
Proof. intros H. by apply andb_prop in H as [? _]. Qed.

(** A pattern for every method is found under every method. *)
Lemma lookup_any {H} (routes : list (Mux.pattern * H)) m path :
  existsb (fun r => match Mux.pt_Method (fst r), Mux.match_path (Mux.pt_Segments (fst r)) path with
                    | None, Some _ => true | _, _ => false end) routes = true ->
  Mux.lookup routes m path <> None.
Proof.
  induction routes as [|[pt h] routes IH]; [done|]. cbn [existsb Mux.lookup fst].
  destruct (Mux.pt_Method pt) as [m'|]; cbn [Mux.match_method].
  - intros E. specialize (IH E). destruct (Mux.match_path (Mux.pt_Segments pt) path);
      by match goal with |- context [if ?b then _ else _] => destruct b end.
  - destruct (Mux.match_path _ _); [done|apply IH].
Qed.

Section Visit.
Context {orgs : OrgStore.T} {credits : CreditRepo.T}
  {payments : PaymentRepo.T} {gateway : PaymentGateway.T} {callrepo : CallRepo.T}
  {outcomes : OutcomeRepo.T} {policy : CallPolicyRepo.T} {flows : FlowRepo.T}
  {customers : CustomerRepo.T} {campaigns : CampaignRepo.T} {events : EventRepo.T}
  {auth : AuthRepo.T} {insights : InsightRepo.T} {conns : ChannelRepo.T}
  {hooks : WebhookRepo.T} {metrics : AnalyticsRepo.T}.
Context {clock : Clock.T} {tz : TimeZones.T} {local : LocalZone.T} {hmac : HMAC.T}
  {sha : SHA256.T} {bcrypt : Bcrypt.T} {aead : AEAD.T}.
Context {sms : SMSSender.T} {provider : VoiceProvider.T}
  {orch : Orchestrator.T} {summarizer : Summarizer.T}
  {sender : MessagingSender.T} {reporter : Reporter.T} {stt : STT.T} {http : HttpOut.T}.
Context (authLimit publicLimit : RateLimiter.T) (activity : option ActivityPublisher.T)
  (feed : OrgID -> list Stream.input) (cfg : Config).

#[local] Existing Instances PgChatRepo.repo PgChatSettingsRepo.repo PgAPIKeyRepo.repo.

Definition serve : handler :=
  Server.serve (model := Builtin.model) authLimit publicLimit activity feed cfg.

(** What lets a page of another origin read an answer. *)
Definition readable (resp : Response) : bool :=
  (header_get (rs_Header resp) "Access-Control-Allow-Origin" =? "*")%string.

(** ** What the script requests *)

Definition path_of (s : string) : list string := split_on "/" s.

(** The browser asks first, with OPTIONS, whether it may send the method and the
    headers. *)
Definition preflight (path : string) : Request :=
  mkRequest "OPTIONS" (path_of path) "" [] "" false "" "".

Definition permitted (resp : Response) : Prop :=
  rs_Code resp = 204 /\ readable resp = true /\
  Forall (fun m => In m (split_on "," (header_get (rs_Header resp) "Access-Control-Allow-Methods")))
    ["POST"; " GET"] /\
  Forall (fun h => In h (split_on "," (header_get (rs_Header resp) "Access-Control-Allow-Headers")))
    ["Content-Type"; " X-Yaver-Key"].

(** Every path in the text of the script is a public route, for every method, and
    its preflight permits what the script sends, unless the throttle answers it. *)
Theorem widget_requests_are_served path :
  In path (Widget.fetched Widget.widgetJS) ->
  (forall m, Mux.lookup (Server.public_routes (model := Builtin.model) authLimit publicLimit
               activity cfg) m (path_of path) <> None) /\
  exists resp, permitted resp /\
    (serve (preflight path) = ret resp \/
     serve (preflight path) = throttle publicLimit (fun _ => ret resp) (preflight path)).
Proof.
  intros Hin.
  assert (path = "public/chat/config" \/ path = "public/chat/messages") as Hp.
  { vm_compute in Hin. destruct Hin as [<-|[<-|[]]]; auto. }
  split.
  - intros m. apply lookup_any. by destruct Hp as [-> | ->].
  - exists (mkResponse 204 PublicHandler.cors_headers ""). split.
    { split; [done|]. split; [done|]. split; repeat constructor; vm_compute; tauto. }
    destruct Hp as [-> | ->]; [left|right]; reflexivity.
Qed.

(** ** The transcript *)

Context (env : Env) (Hnf : forall n, env_fault env n = NoFault).
Context (Hmono : forall n m, (n <= m)%nat -> env_clock env n <= env_clock env m).
Context (pub_ticks : nat).
Context (Hpub : forall e w, exists w', run env (Chat.publish activity e) w = (Ok tt, w') /\
  w_db w' = w_db w /\ (w_tick w <= w_tick w' <= pub_ticks + w_tick w)%nat).
Context (horizon : nat).
Context (Hids : forall p n m, (n < horizon)%nat -> (m < horizon)%nat ->
  id_at env p n = id_at env p m -> n = m).

(** The throttle lets the visitor through. *)
Context (Hopen : forall k w,
  run env (@RateLimiter.Allow publicLimit k) w = (Ok true, w)).

(** A browser: the fetch of a request resolves to the server's answer when the page
    may read it. *)
Context (fetch : Request -> prog World (option string)).
Context (Hfetch : forall r w resp w', run env (serve r) w = (Ok resp, w') ->
  readable resp = true -> run env (fetch r) w = (Ok (Some (rs_Body resp)), w')).

(** The script's key is a publishable key of the org. *)
Context (key remote : string) (org : OrgID).
Context (Hprefix : Apikey.Prefix key = Some (Strings.take 15 key))
  (Hkey : text_ok (Strings.take 15 key) = true) (Horg : text_ok org = true).

Definition keyed (d : DB) : Prop :=
  option_map (fun r => (key_org_id r, key_kind r, key_secret_hash r))
    (key_of d (Strings.take 15 key)) = Some (org, "publishable", SHA256.Sum256 key).

(** The world a message is handled in: the key's row has been touched. *)
Record admitted (w w1 : World) : Prop := {
  ad_tick : w_tick w1 = (2 + w_tick w)%nat;
  ad_keys : same_keys (w_db w) (w_db w1);
  ad_db : w_db w1 = set_api_keys (api_keys (w_db w1)) (w_db w)
}.

Lemma run_message conv text w :
  keyed (w_db w) -> valid_opt conv -> Utf8.Valid text = true -> text <> "" ->
  Z.of_nat (String.length (default "" conv) + String.length text) <= 10000 ->
  exists w1, admitted w w1 /\ forall res w',
    run env (Chat.Send (model := Builtin.model) activity org (default "" conv) text) w1 =
      (Ok res, w') ->
    run env (serve (Widget.message_request key remote conv text)) w =
    (Ok (mkResponse 200 (PublicHandler.cors_headers ++ [("Content-Type", "application/json")])
           (rs_Body (PublicHandler.sent (fst res) (snd res)))), w').
Proof.
  intros Hk Hc Ht Hne Hlen. unfold keyed in Hk.
  destruct (key_of (w_db w) (Strings.take 15 key)) as [r|] eqn:Er; [|done].
  injection Hk as Ho Hkind Hh. eexists. split.
  2:{ intros res w' Hsend.
    transitivity (run env (throttle publicLimit (PublicHandler.cors
      (PublicHandler.chatSend (model := Builtin.model) activity))
      (Widget.message_request key remote conv text)) w); [reflexivity|].
    unfold throttle. rewrite run_bind, Hopen. cbn [negb]. unfold PublicHandler.cors.
    change (rq_Method (Widget.message_request key remote conv text) =? "OPTIONS")%string with false.
    cbv iota. rewrite run_bind. unfold PublicHandler.chatSend, PublicHandler.with_publishable_key.
    rewrite run_bind, run_try.
    change (header_get (rq_Header (Widget.message_request key remote conv text)) "X-Yaver-Key")
      with key.
    rewrite (run_Authenticate env Hnf key r) by done. rewrite Ho, Hkind. cbn [negb orb].
    rewrite String.eqb_refl. cbn [negb].
    change (rq_Body (Widget.message_request key remote conv text))
      with (Widget.message_body conv text).
    rewrite limited_short.
    2:{ pose proof (body_length conv text) as Hb. clear - Hb Hlen. lia. }
    rewrite decode_body by done. cbn [negb orb PublicHandler.mb_Text PublicHandler.mb_ConversationID].
    apply String.eqb_neq in Hne. rewrite Hne, run_bind, run_try, Hsend. by destruct res. }
  split; [done|apply touched_same_keys|done].
Qed.

(** What a visitor may type: not blank, text a database takes, and not too long. *)
Definition usable (value : string) : Prop :=
  Js.trim value <> "" /\ text_ok (Js.trim value) = true /\
  Z.of_nat (String.length (Js.trim value)) <= 9000.

Definition exchange (value : string) : list (string * string) :=
  [("user", Js.trim value); ("assistant", answer (Js.trim value))].

Definition turn (m : Message) : string * string := (m_Role m, m_Content m).

(** The script and the database in step: the conversation the script knows has the
    turns [h], and belongs to the assistant. *)
Record in_step (st : Widget.state) (h : list Message) (w : World) : Prop := {
  is_fresh : chat_fresh env horizon w;
  is_keyed : keyed (w_db w);
  is_thread : thread w org (default "" (Widget.convId st)) h;
  is_short : Z.of_nat (String.length (default "" (Widget.convId st))) <= 1000
}.

Lemma thread_valid w conv h : thread w org (default "" conv) h -> valid_opt conv.
Proof.
  destruct conv as [c|]; [|done]. change (default "" (Some c)) with c. intros H. cbn.
  destruct H as [|id row _ Hid _ _ _]; [done|by apply text_ok_valid].
Qed.

Lemma keyed_same d d' : keyed d -> same_keys d d' -> keyed d'.
Proof. unfold keyed. intros H Hs. by rewrite Hs. Qed.

Lemma keyed_eq d d' : keyed d -> api_keys d' = api_keys d -> keyed d'.
Proof. unfold keyed, key_of. intros H E. by rewrite E. Qed.

(** The request of one message, and what the browser makes of its answer. *)
Lemma run_submit_answered st value w :
  usable value -> keyed (w_db w) -> valid_opt (Widget.convId st) ->
  Z.of_nat (String.length (default "" (Widget.convId st))) <= 1000 ->
  exists w1, admitted w w1 /\ forall conv reply w',
    text_ok conv = true -> Utf8.Valid reply = true ->
    run env (Chat.Send (model := Builtin.model) activity org
               (default "" (Widget.convId st)) (Js.trim value)) w1 = (Ok (conv, reply), w') ->
    run env (Widget.submit key remote fetch value st) w =
    (Ok (Widget.on_answer (Some (JObj [("conversation_id", JStr conv); ("reply", JStr reply)]))
           (Widget.add "user" (Js.trim value) st)), w').
Proof.
  intros (Hne & Ht & Hlen) Hk Hv Hshort.
  destruct (run_message (Widget.convId st) (Js.trim value) w Hk Hv (text_ok_valid _ Ht) Hne
    ltac:(lia)) as (w1 & Had & Hrun).
  exists w1. split; [done|]. intros conv reply w' Hc Hr Hsend.
  unfold Widget.submit, Widget.on_submit. apply String.eqb_neq in Hne. rewrite Hne, run_bind.
  rewrite (Hfetch _ _ _ _ (Hrun _ _ Hsend)) by done.
  cbn [fst snd rs_Body Widget.json_of]. by rewrite answer_json by (done || by apply text_ok_valid).
Qed.

(** What Send needs does not depend on when the key was last used. *)
Lemma chat_fresh_admitted w w1 :
  chat_fresh env horizon w -> admitted w w1 -> chat_fresh env horizon w1.
Proof.
  intros [Hm Hc] [Ht _ E]. split; intros n r Hn Hr; rewrite E in Hr; [apply Hm|apply Hc]; (done || lia).
Qed.

Lemma thread_admitted w w1 id h : thread w org id h -> admitted w w1 -> thread w1 org id h.
Proof.
  intros Hth [_ _ E]. destruct Hth as [|i row Hi Ht Hrow Ho Hs]; [constructor|].
  assert (history_of (w_db w) i = history_of (w_db w1) i) as -> by (by rewrite E).
  apply (thread_old _ _ i row); [done|done|by rewrite E|done|done].
Qed.

(** One message, answered. *)
Lemma run_submit st h value w :
  usable value -> (20 + pub_ticks + w_tick w < horizon)%nat -> in_step st h w ->
  exists st' w' t1 t2,
    run env (Widget.submit key remote fetch value st) w = (Ok st', w') /\
    (w_tick w' <= 20 + pub_ticks + w_tick w)%nat /\
    Widget.msgs st' = Widget.msgs st ++ exchange value /\ Widget.cfg st' = Widget.cfg st /\
    Widget.convId st' <> None /\
    in_step st' (h ++ [mkMessage "user" (Js.trim value) t1;
                       mkMessage "assistant" (answer (Js.trim value)) t2]) w'.
Proof.
  intros Hu Hlt [Hf Hk Hth Hshort]. pose proof Hu as (_ & Ht & _).
  destruct (run_submit_answered st value w Hu Hk (thread_valid _ _ _ Hth) Hshort)
    as (w1 & Had & Hrun). pose proof Had as [Htk Hs _].
  destruct (run_Send env Hnf Hmono activity pub_ticks Hpub horizon Hids org _ (Js.trim value) h w1
    (chat_fresh_admitted _ _ Hf Had) ltac:(lia) Horg Ht (thread_admitted _ _ _ _ Hth Had))
    as (conv & w' & Hsend & Hconv & Hc & [Hf' Htk' (row & Hrow & Ho & Hst) (t1 & t2 & Hh) Hk']).
  pose proof (answer_text_ok (Js.trim value)) as Ha.
  specialize (Hrun conv _ w' Hc (text_ok_valid _ Ha) Hsend).
  rewrite on_answer_reply in Hrun by apply answer_nonempty.
  eexists _, w', t1, t2. split; [exact Hrun|]. split; [lia|].
  split; [cbn; by rewrite <- app_assoc|]. split; [done|]. split; [done|].
  assert (conv <> "" /\ Z.of_nat (String.length conv) <= 1000) as [Hne Hlen].
  { subst conv. destruct (String.eqb_spec (default "" (Widget.convId st)) ""); [|done].
    rewrite id_length. by split. }
  split; [exact Hf'|..].
  - eapply keyed_eq; [by eapply keyed_same|done].
  - rewrite <- Hh. by apply (thread_old _ _ conv row).
  - exact Hlen.
Qed.

(** A visit of a visitor who waits for each answer: from the greeting on, the widget
    shows exactly the turns the dashboard reads in the conversation it made, each
    message followed by the assistant's answer to it, whatever is typed. *)
Lemma run_visit values st h w :
  Forall usable values -> ((20 + pub_ticks) * length values + w_tick w < horizon)%nat ->
  in_step st h w ->
  exists st' w' h',
    run env (Widget.visit key remote fetch values st) w = (Ok st', w') /\
    Widget.msgs st' = Widget.msgs st ++ concat (map exchange values) /\
    Widget.cfg st' = Widget.cfg st /\
    map turn h' = map turn h ++ concat (map exchange values) /\
    (values <> [] -> Widget.convId st' <> None) /\ in_step st' h' w' /\
    (w_tick w' <= (20 + pub_ticks) * length values + w_tick w)%nat.
Proof.
  intros Hall. revert st h w. induction Hall as [|v values Hv Hall IH]; intros st h w Hlt Hin.
  { exists st, w, h. cbn [map concat length]. rewrite !app_nil_r. split_and!; try done. lia. }
  cbn [length] in Hlt.
  destruct (run_submit st h v w Hv ltac:(lia) Hin)
    as (st1 & w1 & t1 & t2 & Hrun & Htk & Hm & Hcf & Hc & Hin1).
  destruct (IH st1 _ w1 ltac:(lia) Hin1) as (st' & w' & h' & Hrun' & Hm' & Hcf' & Ht' & Hc' & Hin' & Htk').
  exists st', w', h'. cbn [Widget.visit map concat length]. rewrite run_bind, Hrun.
  split; [done|]. split; [by rewrite Hm', Hm, <- app_assoc|]. split; [by rewrite Hcf'|].
  split; [by rewrite Ht', map_app, <- app_assoc|]. split; [|by split; [|lia]].
  intros _. destruct values as [|v' values]; [|by apply Hc'].
  injection Hrun' as -> _. exact Hc.
Qed.

(** C31: The turns of a conversation, as the dashboard reads them. *)
Theorem widget_shows_the_transcript values w :
  Forall usable values -> values <> [] ->
  (2 + (20 + pub_ticks) * length values + w_tick w < horizon)%nat ->
  chat_fresh env horizon w -> keyed (w_db w) ->
  exists st w' conv ms w'',
    run env (Widget.visit key remote fetch values (Widget.on_launcher Widget.loaded)) w
      = (Ok st, w') /\
    Widget.convId st = Some conv /\
    run env (Chat.Messages org conv) w' = (Ok ms, w'') /\
    map turn ms = concat (map exchange values) /\
    Widget.msgs st = ("assistant", Widget.welcome (Widget.cfg st)) :: map turn ms.
Proof.
  intros Hall Hne Hlt Hf Hk.
  assert (in_step (Widget.on_launcher Widget.loaded) [] w) as Hin
    by (split; [done|done|constructor|done]).
  destruct (run_visit values _ [] w Hall ltac:(lia) Hin)
    as (st & w' & h & Hrun & Hm & Hcf & Ht & Hc & [Hf' _ Hth _] & Htk).
  assert (map turn h <> []) as Hturns.
  { rewrite Ht. by destruct values. }
  destruct (Widget.convId st) as [conv|] eqn:Ec; [|by destruct Hc].
  change (default "" (Some conv)) with conv in Hth.
  destruct Hth as [|conv row Hi Hit Hrow Ho _]; [done|].
  exists st, w', conv, (history_of (w_db w') conv), (tick (tick w')).
  split; [done|]. split; [done|]. split.
  { unfold Chat.Messages. by rewrite run_bind, (run_owns env Hnf _ _ row), (run_Messages env Hnf). }
  split; [done|]. by rewrite Hm, Hcf, Ht.
Qed.

(** C33: The comment of the agent's handler says that a visitor reads the agent's answer
    when the widget next fetches: it never fetches messages, and while an agent
    handles the conversation it apologises for an error after each message, which is
    stored all the same. *)
Theorem widget_apologises_while_handled st value conv row w :
  usable value -> (6 + w_tick w < horizon)%nat ->
  chat_fresh env horizon w -> keyed (w_db w) ->
  Widget.convId st = Some conv -> conv <> "" -> text_ok conv = true ->
  Z.of_nat (String.length conv) <= 1000 ->
  conversation_of (w_db w) conv = Some row -> conv_org_id row = org ->
  conv_status row = ConvHandling ->
  exists w' t,
    run env (Widget.submit key remote fetch value st) w =
      (Ok (Widget.add "assistant" "Sorry, something went wrong."
             (Widget.add "user" (Js.trim value) st)), w') /\
    history_of (w_db w') conv =
      history_of (w_db w) conv ++ [mkMessage "user" (Js.trim value) t].
Proof.
  intros Hu Hlt Hf Hk Hc Hne Hct Hshort Hrow Ho Hst. pose proof Hu as (_ & Ht & _).
  destruct (run_submit_answered st value w Hu Hk) as (w1 & Had & Hrun);
    [by rewrite Hc; apply text_ok_valid|by rewrite Hc|].
  pose proof Had as [Htk _ E]. rewrite Hc in Hrun.
  destruct (run_Send_handled env Hnf activity pub_ticks Hpub horizon org conv (Js.trim value) row w1)
    as (w' & t & Hsend & Hh); try done.
  { by eapply chat_fresh_admitted. }
  { lia. }
  { by rewrite E. }
  exists w', t. split; [exact (Hrun conv "" w' Hct eq_refl Hsend)|]. rewrite Hh. by rewrite E.
Qed.
End Visit.
