(* ===== verification/TenantSpec.v ===== *)
(** * Tenant isolation

    Over every route of the server at once: a request acts on the rows of an
    organisation only for the organisation's owner, signed in, or for the holder
    of one of its keys.  The two callbacks of third parties, which name the
    organisation in their payload, and the development-only routes are outside
    the statement. *)

From S2P Require Import Prelude.
From S2P Require Import Domain.
From S2P Require Import Effects.
From S2P Require Import GoLib.
From S2P Require Import Json.
From S2P Require Import Store.
From S2P Require Import Crypto.
From S2P Require Import Ports.
From S2P Require Import PgCredits.
From S2P Require Import PgFlows.
From S2P Require Import PgCalls.
From S2P Require Import Calls.
From S2P Require Import Flows.
From S2P Require Import Billing.
From S2P Require Import PgWebhooks.
From S2P Require Import Webhooks.
From S2P Require Import PgAuth.
From S2P Require Import Auth.
From S2P Require Import PgChat.
From S2P Require Import Chat.
From S2P Require Import Messaging.
From S2P Require Import PgCampaigns.
From S2P Require Import Orchestrator.
From S2P Require Import Campaigns.
From S2P Require Import PgIngest.
From S2P Require Import Ingest.
From S2P Require Import Analytics.
From S2P Require Import HttpOut.
From S2P Require Import Bus.
From S2P Require Import Assistant.
From S2P Require Import HttpLib.
From S2P Require Import HttpAuth.
From S2P Require Import HttpCalls.
From S2P Require Import HttpDash.
From S2P Require Import Ratelimit.
From S2P Require Import Server.
From S2P Require Import ServerSpec.
From S2P Require Import Tenant.
From S2P Require Import TenantRepos.
From S2P Require Import TenantStores.
From S2P Require Import TenantServices.
From stdpp Require Import gmap strings list.
From Stdlib Require Import ZArith Lia.

Open Scope Z_scope.
Open Scope go_scope.

(** The operations of the services on behalf of another organisation. *)
Ltac svc := unfold orgFromCtx in *; first
  [ by apply leaves_calls | by apply leaves_flows | by apply leaves_billing
  | by apply leaves_customers | by apply leaves_campaigns | by apply leaves_apikeys
  | by apply leaves_webhooks | by apply leaves_chat_own | by apply leaves_channels
  | by apply leaves_RunTestCall | by eapply leaves_Enqueue | by apply leaves_Send
  | by apply leaves_Summarize | by apply leaves_SetStatus_checked | by apply leaves_AgentReply
  | by apply leaves_Import | by apply leaves_Overview | by apply leaves_Ask
  | by apply leaves_onboarding | ports; by apply leaves_Rename ].

Ltac handler := repeat first [leaving_step | svc].

(** Unfolding the handler at hand, through its services. *)
Ltac head t := match t with ?f _ => head f | _ => t end.
Ltac open_handler := lazymatch goal with |- leaves _ _ ?p => let h := head p in unfold h end.

(** One goal for each route of a list. *)
Ltac each_route := lazymatch goal with
  | |- Forall _ (_ :: _) => apply Forall_cons; split; [|each_route]
  | |- Forall _ [] => apply Forall_nil_2
  end.

Ltac read_only_tac := let H := fresh "H" in intros ? ? ? ? H; succeeded H; reflexivity.

Section Tenants.
Context {uuid : Uuid.T} {uuid_laws : Uuid.Laws uuid} {sha : SHA256.T} {hmac : HMAC.T}
  {bcrypt : Bcrypt.T} {aead : AEAD.T} {tz : TimeZones.T} {local : LocalZone.T}
  {summarizer : Summarizer.T}.
Context {sms : SMSSender.T} {sms_laws : SMSSender.Laws sms}.
Context {provider : VoiceProvider.T} {provider_laws : CallsOwn provider}.
Context {orch : Orchestrator.T} {orch_laws : QueuesOwn orch}.
Context {model : ChatModel.T} {model_laws : ChatModel.Laws model}.
Context {sender : MessagingSender.T} {sender_laws : MessagingSender.Laws sender}.
Context {gateway : PaymentGateway.T} {gateway_laws : PaymentGateway.Laws gateway}.
Context {reporter : Reporter.T} {reporter_laws : Reporter.Laws reporter}.
Context {stt : STT.T} {stt_laws : STT.Laws stt}.
Context {http : HttpOut.T} {http_laws : HttpOut.Laws http}.
Context (authLimit publicLimit : RateLimiter.T) {auth_limit_laws : RateLimiter.Laws authLimit}
  {public_limit_laws : RateLimiter.Laws publicLimit}.
Context (activity : option ActivityPublisher.T)
  (activity_laws : forall p, activity = Some p -> ActivityPublisher.Laws p).
Context (feed : OrgID -> list Stream.input) (cfg : Config).

#[local] Existing Instances PgCreditRepo.repo PgPaymentRepo.repo PgFlowRepo.repo
  PgCallRepo.repo PgOutcomeRepo.repo PgCallPolicyRepo.repo PgWebhookRepo.repo PgAuthRepo.repo
  PgOrgRepo.repo PgChatRepo.repo PgChatSettingsRepo.repo PgInsightRepo.repo PgChannelRepo.repo
  PgCustomerRepo.repo PgCampaignRepo.repo PgAPIKeyRepo.repo PgEventRepo.repo
  PgAnalyticsRepo.repo RealClock.clock.

(** ** Accounts *)

Section Anyone.
Context (o : OrgID) (K : DB -> Prop) {S : Stable o K}.

Lemma leaves_rand_Int draws max : leaves K o (Auth.rand_Int draws max).
Proof using S.
  induction draws as [|draws IH]; cbn [Auth.rand_Int]; [apply leaves_guar; exact I|].
  cbv zeta. leaving.
Qed.

#[local] Hint Resolve leaves_rand_Int : tenant.

Ltac account := ports; leaving; ports; eauto using leaves_sms with tenant.

Lemma leaves_issueSession user : leaves K o (Auth.issueSession user).
Proof using S. unfold Auth.issueSession, Auth.randomToken. account. Qed.

#[local] Hint Resolve leaves_issueSession : tenant.

Lemma leaves_auth secret echo :
  (forall phone, leaves K o (Auth.RequestOTP secret echo phone)) /\
  (forall phone code, leaves K o (Auth.VerifyOTP secret phone code)) /\
  (forall email pw name, leaves K o (Auth.Register email pw name)) /\
  (forall email pw, leaves K o (Auth.Login email pw)) /\
  (forall token, leaves K o (Auth.Logout token)) /\
  (forall token, leaves K o (Auth.Resolve token)).
Proof using All.
  split_and!; intros; unfold Auth.RequestOTP, Auth.VerifyOTP, Auth.Register, Auth.Login,
    Auth.Logout, Auth.Resolve, Auth.randomCode, Bcrypt.GenerateFromPassword; account.
Qed.

Lemma leaves_allow (limiter : RateLimiter.T) {laws : RateLimiter.Laws limiter} key :
  leaves K o (RateLimiter.Allow key).
Proof using S. by apply leaves_silent, RateLimiter.Allow_silent. Qed.
End Anyone.

(** ** Handlers on behalf of another organisation *)

Section Other.
Context (o : OrgID) (s : Session) (Hne : org_ID (ss_Org s) <> o)
  (Hcan : canonical (org_ID (ss_Org s))).

Lemma leaves_transcribe id r : leaves anything o (CallsHandler.transcribeCall s id r).
Proof using All.
  unfold CallsHandler.transcribeCall.
  eapply leaves_learn; [apply leaves_try; svc|by apply finds_try, finds_call|].
  intros [c|e]; [|apply leaves_ret]. handler. by apply leaves_Transcribe.
Qed.

Lemma leaves_topUp r : cfg_dev cfg = false ->
  leaves anything o (BillingHandler.topUp (Server.dev cfg) s r).
Proof. intros Hd. unfold BillingHandler.topUp, Server.dev. rewrite Hd. apply leaves_ret. Qed.

Lemma leaves_devPay r : cfg_dev cfg = false ->
  leaves anything o (BillingHandler.devPay (Server.dev cfg) (cfg_webURL cfg) s r).
Proof. intros Hd. unfold BillingHandler.devPay, Server.dev. rewrite Hd. apply leaves_ret. Qed.

End Other.

Section Routes.
Context (o : OrgID).

(** The handler of a route leaves [o] alone on behalf of another organisation. *)
Definition leaves_other (h : list (string * string) -> Session -> handler) : Prop :=
  forall s vs r, org_ID (ss_Org s) <> o -> canonical (org_ID (ss_Org s)) ->
    leaves anything o (h vs s r).

Lemma authed_routes_leave_other :
  cfg_dev cfg = false ->
  Forall (fun rt : Mux.pattern * Server.endpoint =>
            exists h, snd rt = (fun vs => AuthHandler.requireAuth (h vs)) /\ leaves_other h)
    (Server.authed_routes activity feed cfg).
Proof using All.
  intros Hdev. unfold Server.authed_routes.
  each_route; eexists (fun vs => _); (split; [reflexivity|]); intros s vs r Hne Hcan; cbv beta;
    first [ by apply leaves_transcribe | by apply leaves_topUp | by apply leaves_devPay
          | open_handler; handler ].
Qed.

(** ** Signed in *)

(** The sessions stored for a token are of users who do not own [o]. *)
Definition not_owner_session (token : string) : DB -> Prop := fun d =>
  forall s, In s (sessions d) -> session_token_hash s = Auth.hashToken token ->
  forall uid, Uuid.Parse (session_user_id s) = Some uid -> not_owner o uid d.

Lemma finds_Resolve token :
  finds (fun d => not_owner_session token d /\ canonical_orgs d) o (Auth.Resolve token)
    (fun x d => snd x = true ->
       (forall uid, Uuid.Parse (su_UserID (fst x)) = Some uid -> not_owner o uid d) /\
       canonical_orgs d).
Proof using Type.
  intros env w [su ok] w' Hw [HK HC] E. unfold Auth.Resolve in E.
  destruct (token =? "")%string; [by injection E as <- <- <-|]. ports_in E.
  unfold PgAuthRepo.SessionUser in E. apply run_bind_ok in E as (r & w1 & E1 & E2).
  apply try_read_ok in E1 as [Hd Hr]; [|unfold AuthQ.SessionWithUser; read_only_tac].
  destruct r as [[u exp]|e]; [|destruct e; try done; by injection E2 as <- <- <-].
  injection E2 as <- <- <-. intros _. rewrite Hd. split; [|done]. simpl.
  destruct Hr as (ctx & Hr). unfold AuthQ.SessionWithUser in Hr.
  destruct (tfind _ (sessions (w_db w))) as [s|] eqn:Es; [|done].
  destruct (tfind _ (users (w_db w))) as [u'|] eqn:Eu; [|done]. injection Hr as -> _.
  apply tfind_some in Es as [Hs Hq]. apply andb_prop in Hq as [Hq _].
  apply tfind_some in Eu as [_ Hid]. apply String.eqb_eq in Hid as ->. apply String.eqb_eq in Hq.
  by apply HK.
Qed.

Lemma leaves_requireAuth (h : Session -> handler) r :
  (forall s, org_ID (ss_Org s) <> o -> canonical (org_ID (ss_Org s)) ->
     leaves anything o (h s r)) ->
  leaves (fun d => canonical_orgs d /\
            forall token, Cookie.get r AuthHandler.cookieName = Some token ->
              not_owner_session token d) o
    (AuthHandler.requireAuth h r).
Proof using All.
  intros Hh. unfold AuthHandler.requireAuth.
  destruct (Cookie.get r AuthHandler.cookieName) as [token|]; [|apply leaves_ret].
  apply (leaves_weaken o _ (fun d => not_owner_session token d /\ canonical_orgs d)).
  { intros d [HC HK]. split; [by apply HK|done]. }
  eapply leaves_learn; [apply leaves_try, leaves_forget; by apply (leaves_auth o anything "" false)|
                        apply finds_try, finds_Resolve|].
  intros [[su [|]]|e]; [|apply leaves_ret..].
  apply (leaves_weaken o _ (fun d =>
    (forall uid, Uuid.Parse (su_UserID su) = Some uid -> not_owner o uid d) /\ canonical_orgs d)).
  { intros d H. by apply H. }
  eapply leaves_learn.
  { apply leaves_try. eapply leaves_weaken; [by intros d [HK _]; exact HK|].
    apply leaves_EnsureForUser. }
  { apply finds_try, finds_EnsureForUser; exact _. }
  intros [org|e]; [|apply leaves_ret].
  intros env w Hw [Hne Hc]. by apply Hh.
Qed.

(** ** With a key *)

(** The presented key is not one of [o]'s. *)
Definition key_not_of (presented : string) : DB -> Prop := fun d =>
  forall k, In k (rows_of key_org_id o (api_keys d)) ->
  key_secret_hash k <> SHA256.Sum256 presented.

#[local] Instance key_not_of_stable presented : Stable o (key_not_of presented).
Proof using Type. intros d d' H. unfold key_not_of. by rewrite (un_keys _ _ _ H). Qed.

(** The row a key is checked against, when the check passes. *)
Lemma finds_ByPrefix presented prefix :
  finds (key_not_of presented) o (PgAPIKeyRepo.ByPrefix prefix)
    (fun '((((id, org), k), hash), found) d =>
       found = true -> hash = SHA256.Sum256 presented -> org <> o /\ foreign_key o id d).
Proof using Type.
  intros env w [[[[id org] k] hash] found] w' Hw HK E.
  unfold PgAPIKeyRepo.ByPrefix in E. apply run_bind_ok in E as (r & w1 & E1 & E2).
  apply try_read_ok in E1 as [Hd Hr]; [|unfold IngestQ.GetAPIKeyByPrefix; read_only_tac].
  destruct r as [row|e]; [|destruct e; try done; by injection E2 as <- <- <- <- <- _].
  injection E2 as <- <- <- <- <- <-. intros _ Hh. rewrite Hd.
  destruct Hr as (ctx & Hr). apply with_text_ok in Hr.
  destruct (tfind _ _) as [row'|] eqn:Ef; [|done]. injection Hr as ->.
  apply tfind_some in Ef as [Hin _].
  assert (Hne : key_org_id row <> o).
  { intros Ho. by apply (HK row); [apply in_rows_of|]. }
  split; [done|]. by apply (names_in key_id key_org_id); [apply Hw|..].
Qed.

Lemma leaves_Authenticate presented :
  leaves (key_not_of presented) o (APIKeys.Authenticate presented).
Proof using Type.
  unfold APIKeys.Authenticate. destruct (Apikey.Prefix presented) as [prefix|]; [|apply leaves_ret].
  ports. eapply leaves_learn; [apply leaves_key_ByPrefix; exact _|apply finds_ByPrefix|].
  intros [[[[id org] k] hash] found]. destruct found; [|apply leaves_ret]. cbn [negb orb].
  unfold Apikey.Verify. destruct (String.eqb_spec (SHA256.Sum256 presented) hash) as [Eh|];
    cbn [negb]; [|apply leaves_ret].
  eapply leaves_weaken; [intros d H; exact (proj2 (H eq_refl (eq_sym Eh)))|].
  apply leaves_bind; [exact _|apply leaves_ignore, leaves_key_Touch|intros _; apply leaves_ret].
Qed.

Lemma finds_Authenticate presented :
  finds (key_not_of presented) o (APIKeys.Authenticate presented)
    (fun '((org, _), ok) _ => ok = true -> org <> o).
Proof using Type.
  unfold APIKeys.Authenticate.
  destruct (Apikey.Prefix presented) as [prefix|];
    [|by intros env w [[? ?] ?] w' _ _ [= <- <- <- _]].
  ports. eapply finds_bind; [apply leaves_key_ByPrefix; exact _|apply finds_ByPrefix|].
  intros [[[[id org] k] hash] found].
  destruct (negb found || negb (Apikey.Verify presented hash)) eqn:Eb;
    [by intros env w [[? ?] ?] w' _ _ [= <- <- <- _]|].
  apply orb_false_elim in Eb as [Ef Ev]. apply negb_false_iff in Ef as ->.
  apply negb_false_iff in Ev. apply String.eqb_eq in Ev.
  intros env w [[org' k'] ok] w' Hw HF E. apply run_bind_ok in E as (u & w1 & _ & E).
  injection E as <- <- <- _. intros _. by destruct (HF eq_refl (eq_sym Ev)).
Qed.

(** A handler behind either kind of key. *)
Lemma leaves_with_key (K : DB -> Prop) header kind (next : OrgID -> handler) (r : Request)
    (refusal : Response) :
  (forall d, K d -> key_not_of (header_get (rq_Header r) header) d) ->
  (forall org, org <> o -> leaves anything o (next org r)) ->
  leaves K o
    (pbind (ptry (APIKeys.Authenticate (header_get (rq_Header r) header))) (fun res =>
       match res with
       | inr _ => ret internal
       | inl ((org, k), ok) =>
           if negb ok || negb (k =? kind)%string then ret refusal else next org r
       end)).
Proof using Type.
  intros HK Hn. eapply leaves_weaken; [exact HK|].
  eapply leaves_learn;
    [apply leaves_try, leaves_Authenticate|apply finds_try, finds_Authenticate|].
  intros [[[org k] ok]|e]; [|apply leaves_ret]. destruct ok; [|apply leaves_ret].
  destruct (k =? kind)%string; [|apply leaves_ret]. cbn [negb orb].
  intros env w Hw H. by apply Hn; [apply H|..].
Qed.

(** ** Without a session *)

(** The routes third parties call back on, which name an organisation in the body. *)
Definition callbacks : list (Mux.pattern * unit) :=
  [(Server.on "POST" [Mux.Lit "webhooks"; Mux.Lit "payment"], tt);
   (Server.on "POST" [Mux.Lit "webhooks"; Mux.Lit "meta"], tt)].

Definition callback (r : Request) : bool :=
  bool_decide (is_Some (Mux.lookup callbacks (rq_Method r) (rq_Path r))).

(** The caller is not signed in as an owner of [o] and holds no key of [o]. *)
Record stranger (r : Request) (d : DB) : Prop := {
  st_session : forall token, Cookie.get r AuthHandler.cookieName = Some token ->
    not_owner_session token d;
  st_secret : key_not_of (header_get (rq_Header r) "X-Api-Key") d;
  st_publishable : key_not_of (header_get (rq_Header r) "X-Yaver-Key") d
}.

Lemma leaves_throttle (K : DB -> Prop) {S : Stable o K} (limiter : RateLimiter.T)
    {laws : RateLimiter.Laws limiter} (h : handler) r :
  leaves K o (h r) -> leaves K o (throttle limiter h r).
Proof using Type.
  intros Hh. unfold throttle. apply leaves_bind; [done|by apply leaves_allow|].
  intros []; [done|apply leaves_ret].
Qed.

Lemma leaves_cors (K : DB -> Prop) {S : Stable o K} (h : handler) r :
  leaves K o (h r) -> leaves K o (PublicHandler.cors h r).
Proof using Type.
  intros Hh. unfold PublicHandler.cors. destruct (_ =? _)%string; [apply leaves_ret|].
  apply leaves_bind; [done|done|]. intros. apply leaves_ret.
Qed.

Lemma leaves_requireAPIKey (K : DB -> Prop) (next : OrgID -> handler) r :
  (forall d, K d -> key_not_of (header_get (rq_Header r) "X-Api-Key") d) ->
  (forall org, org <> o -> leaves anything o (next org r)) ->
  leaves K o (IngestHandler.requireAPIKey next r).
Proof using Type. intros. unfold IngestHandler.requireAPIKey. by eapply leaves_with_key. Qed.

Lemma leaves_publishable (K : DB -> Prop) (next : OrgID -> handler) r :
  (forall d, K d -> key_not_of (header_get (rq_Header r) "X-Yaver-Key") d) ->
  (forall org, org <> o -> leaves anything o (next org r)) ->
  leaves K o (PublicHandler.with_publishable_key next r).
Proof using Type. intros. unfold PublicHandler.with_publishable_key. by eapply leaves_with_key. Qed.

Lemma leaves_postEvent org r : org <> o -> leaves anything o (IngestHandler.postEvent org r).
Proof using All. intros Hne. unfold IngestHandler.postEvent. handler. by apply leaves_Accept. Qed.

Lemma leaves_challenge tok : leaves anything o (Messaging.VerifyChallenge tok).
Proof using All.
  assert (Hne : "x" +:+ o <> o) by (intros E; apply (f_equal String.length) in E; simpl in E; lia).
  by apply (leaves_channels o _ Hne anything).
Qed.

Lemma leaves_accounts secret dev r :
  leaves anything o (AuthHandler.requestOTP secret dev r) /\
  leaves anything o (AuthHandler.verifyOTP secret dev r) /\
  leaves anything o (AuthHandler.register dev r) /\
  leaves anything o (AuthHandler.login dev r) /\
  leaves anything o (AuthHandler.logout r).
Proof using All.
  split_and!; unfold AuthHandler.requestOTP, AuthHandler.verifyOTP, AuthHandler.register,
    AuthHandler.login, AuthHandler.logout;
    repeat first [leaving_step | by apply leaves_auth].
Qed.

Lemma leaves_open_handlers r :
  leaves anything o (ChannelsHandler.verify r) /\
  leaves anything o (BillingHandler.paymentReturn (cfg_webURL cfg) r).
Proof using All.
  split; unfold ChannelsHandler.verify, BillingHandler.paymentReturn;
    repeat first [leaving_step | apply leaves_challenge].
Qed.

Lemma leaves_chat_handlers (K : DB -> Prop) r :
  (forall d, K d -> key_not_of (header_get (rq_Header r) "X-Yaver-Key") d) ->
  leaves K o (PublicHandler.chatSend activity r) /\ leaves K o (PublicHandler.chatConfig r).
Proof using All.
  intros HK. split; (apply leaves_publishable; [done|]); intros org Hne; handler.
Qed.

(** What isolation assumes of the database, besides good names. *)
Definition set_apart (r : Request) (d : DB) : Prop := canonical_orgs d /\ stranger r d.


(** A route that is a callback, or leaves [o] alone at the hands of a stranger. *)
Definition leaves_stranger (r : Request) (rt : Mux.pattern * Server.endpoint) : Prop :=
  In (fst rt) (map fst callbacks) \/ (forall vs, leaves (set_apart r) o (snd rt vs r)).

Lemma open_route r pt (h : handler) :
  leaves anything o (h r) -> leaves_stranger r (pt, Server.public h).
Proof using Type. intros Hh. right. intros vs. by apply leaves_forget. Qed.

Lemma callback_route r pt h : In pt (map fst callbacks) -> leaves_stranger r (pt, h).
Proof using Type. by left. Qed.

Lemma secret_route r pt (h : handler) :
  leaves (key_not_of (header_get (rq_Header r) "X-Api-Key")) o (h r) ->
  leaves_stranger r (pt, Server.public h).
Proof using Type.
  intros Hh. right. intros vs. eapply leaves_weaken; [|exact Hh]. by intros d [_ [_ Hk _]].
Qed.

Lemma widget_route r pt (h : handler) :
  leaves (key_not_of (header_get (rq_Header r) "X-Yaver-Key")) o (h r) ->
  leaves_stranger r (pt, Server.public h).
Proof using Type.
  intros Hh. right. intros vs. eapply leaves_weaken; [|exact Hh]. by intros d [_ [_ _ Hk]].
Qed.

Lemma public_routes_leave_stranger r :
  Forall (leaves_stranger r) (Server.public_routes authLimit publicLimit activity cfg).
Proof using All.
  destruct (leaves_accounts (cfg_secret cfg) (Server.dev cfg) r) as (H1 & H2 & H3 & H4 & H5).
  destruct (leaves_open_handlers r) as [Hv Hp].
  unfold Server.public_routes. each_route.
  1, 2: apply open_route, leaves_ret.
  all: lazymatch goal with
    | |- leaves_stranger _ (_, Server.public BillingHandler.ipn) =>
        apply callback_route; simpl; tauto
    | |- leaves_stranger _ (_, Server.public ChannelsHandler.receive) =>
        apply callback_route; simpl; tauto
    | |- leaves_stranger _ (_, Server.public (throttle publicLimit (IngestHandler.requireAPIKey _))) =>
        apply secret_route, leaves_throttle; [exact _|exact _|];
        apply leaves_requireAPIKey; [done|]; intros org Hne; exact (leaves_postEvent org r Hne)
    | |- leaves_stranger _ (_, Server.public (throttle publicLimit _)) =>
        apply widget_route, leaves_throttle; [exact _|exact _|];
        apply leaves_cors; [exact _|]; exact (proj1 (leaves_chat_handlers _ r (fun d H => H)))
    | |- leaves_stranger _ (_, Server.public (PublicHandler.cors PublicHandler.chatConfig)) =>
        apply widget_route, leaves_cors; [exact _|];
        exact (proj2 (leaves_chat_handlers _ r (fun d H => H)))
    | |- leaves_stranger _ (_, Server.public (PublicHandler.cors _)) =>
        apply open_route, leaves_cors; [exact _|apply leaves_ret]
    | |- leaves_stranger _ (_, Server.public (throttle authLimit _)) =>
        apply open_route, leaves_throttle; [exact _|exact _|assumption]
    | |- _ => apply open_route; assumption
    end.
Qed.

Lemma lookup_in {H} (routes : list (Mux.pattern * H)) method path h vs :
  Mux.lookup routes method path = Some (h, vs) ->
  exists pt, In (pt, h) routes /\ Mux.match_method (Mux.pt_Method pt) method = true /\
    Mux.match_path (Mux.pt_Segments pt) path = Some vs.
Proof using Type.
  induction routes as [|[pt h'] routes IH]; simpl; [done|].
  destruct (Mux.match_method _ _) eqn:Em; [destruct (Mux.match_path _ _) eqn:Ep|].
  - intros [= -> ->]. exists pt. auto.
  - intros E. destruct (IH E) as (pt' & ? & ?). exists pt'. auto.
  - intros E. destruct (IH E) as (pt' & ? & ?). exists pt'. auto.
Qed.

(** Some pattern that takes the request is enough for a lookup to succeed. *)
Lemma lookup_some {H} (routes : list (Mux.pattern * H)) method path pt vs :
  In pt (map fst routes) -> Mux.match_method (Mux.pt_Method pt) method = true ->
  Mux.match_path (Mux.pt_Segments pt) path = Some vs -> is_Some (Mux.lookup routes method path).
Proof using Type.
  induction routes as [|[pt' h'] routes IH]; simpl; [done|]. intros [-> |Hin] Em Ep.
  - rewrite Em, Ep. by eexists.
  - destruct (Mux.match_method (Mux.pt_Method pt') _); [|by apply IH].
    destruct (Mux.match_path (Mux.pt_Segments pt') _); [by eexists|by apply IH].
Qed.

Lemma callback_true r pt vs :
  In pt (map fst callbacks) -> Mux.match_method (Mux.pt_Method pt) (rq_Method r) = true ->
  Mux.match_path (Mux.pt_Segments pt) (rq_Path r) = Some vs -> callback r = true.
Proof using Type. intros. unfold callback. eapply bool_decide_eq_true_2, lookup_some; eauto. Qed.

Lemma leaves_serve r :
  cfg_dev cfg = false -> callback r = false ->
  leaves (set_apart r) o (Server.serve authLimit publicLimit activity feed cfg r).
Proof using All.
  intros Hdev Hcb. unfold Server.serve, Server.routes. rewrite ServerSpec.lookup_app.
  destruct (Mux.lookup (Server.public_routes _ _ _ _) _ _) as [[h vs]|] eqn:E.
  { apply lookup_in in E as (pt & Hin & Hm & Hp).
    pose proof (public_routes_leave_stranger r) as Hall. rewrite List.Forall_forall in Hall.
    destruct (Hall _ Hin) as [Hc|Hl]; [|apply Hl].
    by rewrite (callback_true r pt vs Hc Hm Hp) in Hcb. }
  destruct (Mux.lookup (Server.authed_routes _ _ _) _ _) as [[h vs]|] eqn:E'.
  { apply lookup_in in E' as (pt & Hin & _).
    pose proof (authed_routes_leave_other Hdev) as Hall. rewrite List.Forall_forall in Hall.
    destruct (Hall _ Hin) as (h' & Hh & Hl). simpl in Hh. subst h.
    eapply leaves_weaken; [|apply leaves_requireAuth; intros s Hne Hc; by apply Hl].
    intros d [Hc [Hs _ _]]. by split. }
  destruct (Mux.allowed _ _); apply leaves_ret.
Qed.

End Routes.
End Tenants.
