(* ===== verification/Config.v ===== *)
(** * Configuration

    internal/platform/config: the typed configuration read once from the
    environment, refused as a whole when a required variable is missing. *)

From S2P Require Import Prelude.
From S2P Require Import GoLib.
From S2P Require Import GoTime.
From stdpp Require Import strings list.
From Stdlib Require Import ZArith Lia Ascii.

Open Scope Z_scope.

(** strconv.Atoi, on a 64-bit int. *)
Definition Atoi (s : string) : option Z :=
  let '(neg, digits) :=
    match s with
    | String c s' =>
        if Ascii.eqb c "-" then (true, s')
        else if Ascii.eqb c "+" then (false, s') else (false, s)
    | EmptyString => (false, s)
    end in
  if (digits =? "")%string || negb (Strings.forallb is_digit digits) then None
  else
    let n := Parse.number digits in
    let n := if neg then - n else n in
    if (- 2 ^ 63 <=? n) && (n <? 2 ^ 63) then Some n else None.

Module Config.
(** A non-negative number, and 0 for anything else. *)
Definition atoi (s : string) : Z :=
  match Atoi s with
  | Some n => if n <? 0 then 0 else n
  | None => 0
  end.

Record Config := mkConfig {
  Env : string; Port : string; DatabaseURL : string; AuthSecret : string;
  Orchestrator : string; EncryptionKey : string; VoiceProvider : string;
  LiveKitURL : string; LiveKitKey : string; LiveKitSecret : string; LiveKitTrunkID : string;
  SMSSender : string; TwilioSID : string; TwilioToken : string; TwilioFrom : string;
  STTProvider : string; WhisperURL : string; WhisperKey : string; WhisperModel : string;
  CallRetentionDays : Z; ChatProvider : string; AnthropicKey : string; AnthropicModel : string;
  MsgSender : string; EmailSender : string; EmailFrom : string; ResendAPIKey : string;
  PaymentGateway : string; AppURL : string; WebURL : string; SSLCzStoreID : string;
  SSLCzStorePass : string; SSLCzSandbox : bool
}.

(** The variables [req] reads, in the order the fields are evaluated. *)
Definition required : list string :=
  ["YAVER_ENV"; "YAVER_PORT"; "YAVER_DATABASE_URL"; "YAVER_AUTH_SECRET"; "YAVER_ORCHESTRATOR";
   "YAVER_ENCRYPTION_KEY"; "YAVER_VOICE_PROVIDER"; "YAVER_SMS_SENDER"; "YAVER_STT_PROVIDER";
   "YAVER_CHAT_PROVIDER"; "YAVER_MSG_SENDER"; "YAVER_EMAIL_SENDER"; "YAVER_EMAIL_FROM";
   "YAVER_PAYMENT_GATEWAY"; "YAVER_APP_URL"; "YAVER_WEB_URL"].

Section Load.
(** os.Getenv: the empty string for a variable that is not set. *)
Context (getenv : string -> string).

Definition missing : list string :=
  List.filter (fun k => (getenv k =? "")%string) required.

Definition read : Config := {|
  Env := getenv "YAVER_ENV";
  Port := getenv "YAVER_PORT";
  DatabaseURL := getenv "YAVER_DATABASE_URL";
  AuthSecret := getenv "YAVER_AUTH_SECRET";
  Orchestrator := getenv "YAVER_ORCHESTRATOR";
  EncryptionKey := getenv "YAVER_ENCRYPTION_KEY";
  VoiceProvider := getenv "YAVER_VOICE_PROVIDER";
  LiveKitURL := getenv "YAVER_LIVEKIT_URL";
  LiveKitKey := getenv "YAVER_LIVEKIT_API_KEY";
  LiveKitSecret := getenv "YAVER_LIVEKIT_API_SECRET";
  LiveKitTrunkID := getenv "YAVER_LIVEKIT_SIP_TRUNK_ID";
  SMSSender := getenv "YAVER_SMS_SENDER";
  TwilioSID := getenv "YAVER_TWILIO_ACCOUNT_SID";
  TwilioToken := getenv "YAVER_TWILIO_AUTH_TOKEN";
  TwilioFrom := getenv "YAVER_TWILIO_FROM";
  STTProvider := getenv "YAVER_STT_PROVIDER";
  WhisperURL := getenv "YAVER_WHISPER_URL";
  WhisperKey := getenv "YAVER_WHISPER_API_KEY";
  WhisperModel := getenv "YAVER_WHISPER_MODEL";
  CallRetentionDays := atoi (getenv "YAVER_CALL_RETENTION_DAYS");
  ChatProvider := getenv "YAVER_CHAT_PROVIDER";
  AnthropicKey := getenv "YAVER_ANTHROPIC_API_KEY";
  AnthropicModel := getenv "YAVER_ANTHROPIC_MODEL";
  MsgSender := getenv "YAVER_MSG_SENDER";
  EmailSender := getenv "YAVER_EMAIL_SENDER";
  EmailFrom := getenv "YAVER_EMAIL_FROM";
  ResendAPIKey := getenv "YAVER_RESEND_API_KEY";
  PaymentGateway := getenv "YAVER_PAYMENT_GATEWAY";
  AppURL := getenv "YAVER_APP_URL";
  WebURL := getenv "YAVER_WEB_URL";
  SSLCzStoreID := getenv "YAVER_SSLCOMMERZ_STORE_ID";
  SSLCzStorePass := getenv "YAVER_SSLCOMMERZ_STORE_PASSWD";
  SSLCzSandbox := (getenv "YAVER_SSLCOMMERZ_SANDBOX" =? "true")%string
|}.

Definition any_empty (vs : list string) : bool := existsb (fun v => (v =? "")%string) vs.

Definition Load : Config + string :=
  let cfg := read in
  match missing with
  | (_ :: _) as ks => inr ("missing required env vars: " +:+ String.concat ", " ks)
  | [] =>
      if (EmailSender cfg =? "resend")%string && (ResendAPIKey cfg =? "")%string then
        inr "YAVER_RESEND_API_KEY is required when YAVER_EMAIL_SENDER=resend"
      else if (ChatProvider cfg =? "anthropic")%string && (AnthropicKey cfg =? "")%string then
        inr "YAVER_ANTHROPIC_API_KEY is required when YAVER_CHAT_PROVIDER=anthropic"
      else if (SMSSender cfg =? "twilio")%string
              && any_empty [TwilioSID cfg; TwilioToken cfg; TwilioFrom cfg] then
        inr "YAVER_TWILIO_ACCOUNT_SID/AUTH_TOKEN/FROM are required when YAVER_SMS_SENDER=twilio"
      else if (STTProvider cfg =? "whisper")%string && (WhisperURL cfg =? "")%string then
        inr "YAVER_WHISPER_URL is required when YAVER_STT_PROVIDER=whisper"
      else if (VoiceProvider cfg =? "livekit")%string
              && any_empty [LiveKitURL cfg; LiveKitKey cfg; LiveKitSecret cfg; LiveKitTrunkID cfg]
      then inr "YAVER_LIVEKIT_URL/API_KEY/API_SECRET/SIP_TRUNK_ID are required when YAVER_VOICE_PROVIDER=livekit"
      else if (PaymentGateway cfg =? "sslcommerz")%string
              && any_empty [SSLCzStoreID cfg; SSLCzStorePass cfg] then
        inr "YAVER_SSLCOMMERZ_STORE_ID and YAVER_SSLCOMMERZ_STORE_PASSWD are required when YAVER_PAYMENT_GATEWAY=sslcommerz"
      else inl cfg
  end.
End Load.

(** What a provider that is chosen by name needs. *)
Definition needs : list (string * (Config -> string) * list (Config -> string)) :=
  [("resend", EmailSender, [ResendAPIKey]);
   ("anthropic", ChatProvider, [AnthropicKey]);
   ("twilio", SMSSender, [TwilioSID; TwilioToken; TwilioFrom]);
   ("whisper", STTProvider, [WhisperURL]);
   ("livekit", VoiceProvider, [LiveKitURL; LiveKitKey; LiveKitSecret; LiveKitTrunkID]);
   ("sslcommerz", PaymentGateway, [SSLCzStoreID; SSLCzStorePass])].

Definition providers_complete (cfg : Config) : Prop :=
  forall name choice fields, In (name, choice, fields) needs -> choice cfg = name ->
  forall f, In f fields -> f cfg <> "".

(** ** What Load promises *)

Lemma missing_none getenv :
  missing getenv = [] <-> Forall (fun k => getenv k <> "") required.
Proof.
  unfold missing. generalize required. intros ks. induction ks as [|k ks IH]; simpl; [done|].
  rewrite Forall_cons. destruct (String.eqb_spec (getenv k) "") as [E|E].
  - split; [done|]. by intros [? _].
  - rewrite IH. by split; [intros H|intros [_ H]].
Qed.

(** A check that fires names a chosen provider that lacks a field. *)
Lemma check_fires (cfg : Config) name choice fields :
  In (name, choice, fields) needs ->
  (choice cfg =? name)%string && any_empty (map (fun f => f cfg) fields) = true ->
  ~ providers_complete cfg.
Proof.
  intros Hin Hb Hp. apply andb_prop in Hb as [Hc He]. apply String.eqb_eq in Hc.
  unfold any_empty in He. apply List.existsb_exists in He as (v & Hv & He).
  apply List.in_map_iff in Hv as (f & <- & Hf). apply String.eqb_eq in He.
  by apply (Hp name choice fields Hin Hc f Hf).
Qed.

Lemma check_quiet (cfg : Config) name (choice : Config -> string) fields :
  (choice cfg =? name)%string && any_empty (map (fun f => f cfg) fields) = false ->
  choice cfg = name -> forall f, In f fields -> f cfg <> "".
Proof.
  intros Hb Hc f Hf Hz. rewrite Hc, String.eqb_refl in Hb. simpl in Hb.
  assert (Ht : any_empty (map (fun f => f cfg) fields) = true); [|by rewrite Ht in Hb].
  apply List.existsb_exists. exists (f cfg). split; [by apply (List.in_map (fun g => g cfg))|].
  by apply String.eqb_eq.
Qed.

(** With nothing missing, Load is a chain of those checks. *)
Lemma Load_checks getenv :
  missing getenv = [] ->
  match Load getenv with
  | inl cfg => cfg = read getenv /\ providers_complete cfg
  | inr _ => ~ providers_complete (read getenv)
  end.
Proof.
  intros Hm. unfold Load. rewrite Hm. set (cfg := read getenv). clearbody cfg.
  repeat match goal with |- context [if ?b then inr _ else _] => destruct b eqn:? end.
  1: apply (check_fires cfg "resend" EmailSender [ResendAPIKey]).
  3: apply (check_fires cfg "anthropic" ChatProvider [AnthropicKey]).
  5: apply (check_fires cfg "twilio" SMSSender [TwilioSID; TwilioToken; TwilioFrom]).
  7: apply (check_fires cfg "whisper" STTProvider [WhisperURL]).
  9: apply (check_fires cfg "livekit" VoiceProvider
              [LiveKitURL; LiveKitKey; LiveKitSecret; LiveKitTrunkID]).
  11: apply (check_fires cfg "sslcommerz" PaymentGateway [SSLCzStoreID; SSLCzStorePass]).
  13: { split; [done|]. intros name choice fields Hin. simpl in Hin.
        decompose [or] Hin; try done; simplify_eq;
        apply check_quiet; first [assumption | simpl; rewrite ?orb_false_r; assumption]. }
  all: first [assumption | simpl; tauto | simpl; rewrite ?orb_false_r; assumption].
Qed.

(** Load reads every variable or refuses: a configuration it returns has every
    required variable and everything its chosen providers need; a refusal either
    lists exactly the variables that are missing, or stands for a chosen provider
    that lacks something. *)
Theorem Load_fails_first (getenv : string -> string) :
  match Load getenv with
  | inl cfg =>
      cfg = read getenv /\ Forall (fun k => getenv k <> "") required /\ providers_complete cfg
  | inr msg =>
      (missing getenv <> [] /\
         msg = "missing required env vars: " +:+ String.concat ", " (missing getenv)) \/
      (missing getenv = [] /\ ~ providers_complete (read getenv))
  end.
Proof.
  destruct (missing getenv) as [|k ks] eqn:Em.
  - generalize (Load_checks getenv Em). apply missing_none in Em.
    destruct (Load getenv) as [cfg|msg]; [by intros [-> ?]|by right].
  - unfold Load. rewrite Em. by left.
Qed.
End Config.
