(* ===== verification/Adapters.v ===== *)
(** * Adapters over third-party clients

    internal/adapter/voice/livekit, chat/anthropic and orchestrator/hatchet: what
    the adapters do around the clients of the three services, which are ports
    here; internal/adapter/memory, a call repository in a map; and
    internal/adapter/tts. *)

From S2P Require Import Prelude.
From S2P Require Import Domain.
From S2P Require Import Effects.
From S2P Require Import GoLib.
From S2P Require Import Store.
From S2P Require Import Ports.
From S2P Require Import PgChat.
From S2P Require Import Orchestrator.
From stdpp Require Import gmap strings list.
From Stdlib Require Import ZArith Lia.

Open Scope Z_scope.
Open Scope go_scope.

(** ** livekit.go *)

(** A wrapped error is the error it wraps, which is what errors.Is sees.

    CreateSIPParticipantRequest and the two fields read of its answer. *)
Record SIPRequest := mkSIPRequest {
  SipTrunkId : string; SipCallTo : string; RoomName : string;
  ParticipantIdentity : string; ParticipantName : string
}.

Record SIPInfo := mkSIPInfo { SipCallId : string; ParticipantId : string }.

Module SIPClient.
Class T := { CreateSIPParticipant : SIPRequest -> prog World SIPInfo }.
End SIPClient.

Module LiveKit.
Section Provider.
Context {sip : SIPClient.T} (trunkID : string).

Definition PlaceCall (req : CallRequest) : prog World ProviderCallID :=
  let! r := Id.New "rm" in
  let room := "call-" +:+ r in
  let! info := SIPClient.CreateSIPParticipant
    (mkSIPRequest trunkID (req_ToPhone req) room "customer" (req_ToPhone req)) in
  ret (if (SipCallId info =? "")%string then ParticipantId info else SipCallId info).

#[export] Instance provider : VoiceProvider.T := { VoiceProvider.PlaceCall := PlaceCall }.
End Provider.
End LiveKit.

(** ** anthropic.go *)

(** One turn of the transcript, and the content blocks of an answer. *)
Inductive turn : Type := UserMessage (text : string) | AssistantMessage (text : string).
Inductive block : Type := TextBlock (text : string) | OtherBlock.

Module MessagesAPI.
(** Messages.New: the model, the token cap, the system prompt and the turns. *)
Class T := { New : string -> Z -> string -> list turn -> prog World (list block) }.
End MessagesAPI.

Module Anthropic.
Definition maxReplyTokens : Z := 1024.

Definition nl : string := String (byte_chr 10) EmptyString.

(** The system turns of the history are folded into the system prompt. *)
Fixpoint fold_history (system : string) (history : list Message) : string * list turn :=
  match history with
  | [] => (system, [])
  | h :: history =>
      if (m_Role h =? "assistant")%string then
        let '(s, ts) := fold_history system history in (s, AssistantMessage (m_Content h) :: ts)
      else if (m_Role h =? "system")%string then
        fold_history (Strings.TrimSpace (system +:+ nl +:+ m_Content h)) history
      else
        let '(s, ts) := fold_history system history in (s, UserMessage (m_Content h) :: ts)
  end.

Definition block_text (b : block) : string :=
  match b with TextBlock t => t | OtherBlock => "" end.

Section Model.
(** The SDK's name of its default model is not part of the repository. *)
Context {api : MessagesAPI.T} (ModelClaudeOpus4_8 model : string).

Definition chosen : string := if (model =? "")%string then ModelClaudeOpus4_8 else model.

Definition Reply (system : string) (history : list Message) : prog World string :=
  let '(system, msgs) := fold_history system history in
  let! content := MessagesAPI.New chosen maxReplyTokens system msgs in
  ret (Strings.TrimSpace (String.concat "" (map block_text content))).

#[export] Instance chat_model : ChatModel.T := { ChatModel.Reply := Reply }.
End Model.
End Anthropic.

(** ** hatchet.go *)

Module HatchetClient.
(** RunNoWait of the place_call task: the triggered input. *)
Class T := { RunNoWait : OrgID -> string -> FlowID -> prog World unit }.
End HatchetClient.

Module HatchetOrchestrator.
Definition maxRuns : Z := 50.

(** The task the worker runs for a triggered input: whether it succeeded. *)
Definition place_call (handler : PlaceCallInput -> prog World unit)
  (orgID : string) (toPhone : string) (flowID : string) : prog World bool :=
  let! res := ptry (handler (mkPlaceCallInput orgID toPhone flowID)) in
  match res with inl _ => ret true | inr err => fail err end.

(** A standalone task as it is registered: its runs are limited per key. *)
Inductive strategy : Type := GroupRoundRobin.

Record Concurrency := mkConcurrency {
  Expression : string; MaxRuns : Z; LimitStrategy : strategy
}.

Record StandaloneTask := mkTask {
  task_name : string;
  task_run : string -> string -> string -> prog World bool;
  task_concurrency : Concurrency
}.

Definition placeCall (handler : PlaceCallInput -> prog World unit) : StandaloneTask :=
  mkTask "place_call" (place_call handler)
    (mkConcurrency "input.orgId" maxRuns GroupRoundRobin).

(** A client, or the error of its environment. *)
Definition New (NewClient : option HatchetClient.T) (handler : PlaceCallInput -> prog World unit)
  : option (HatchetClient.T * StandaloneTask) :=
  match NewClient with
  | Some client => Some (client, placeCall handler)
  | None => None
  end.

(** The SDK's worker: NewWorker of a name and its workflows gives the loop that
    StartBlocking runs. *)
Definition StartWorker
  (NewWorker : HatchetClient.T -> string -> list StandaloneTask -> prog World unit + goerr)
  (o : HatchetClient.T * StandaloneTask) : prog World unit :=
  match NewWorker (fst o) "yaver-worker" [snd o] with
  | inl StartBlocking => StartBlocking
  | inr err => fail err
  end.

Section Orchestrator.
Context {client : HatchetClient.T}.

Definition EnqueuePlaceCall (inp : PlaceCallInput) : prog World unit :=
  HatchetClient.RunNoWait (pci_OrgID inp) (pci_ToPhone inp) (pci_FlowID inp).

#[export] Instance orch : Orchestrator.T :=
  { Orchestrator.EnqueuePlaceCall := EnqueuePlaceCall }.
End Orchestrator.
End HatchetOrchestrator.

(** ** tts/noop: no speech, whatever the text and the locale *)

Module NoopTTS.
Definition Synthesize (text locale : string) : prog World (string * string) :=
  ret (EmptyString, EmptyString).
End NoopTTS.

(** ** memory/callrepo.go: every operation holds the mutex, and a call is copied
    in and out. *)

Module MemoryCallRepo.
Definition calls : Type := gmap CallID Call.

Definition NewCallRepo : calls := ∅.

Definition Create (c : Call) (r : calls) : calls := <[call_ID c := c]> r.

Definition Get (id : CallID) (r : calls) : Call + goerr :=
  match r !! id with Some c => inl c | None => inr ErrNotFound end.
End MemoryCallRepo.
