(* ===== verification/App.v ===== *)
(** * The binary: the composition of ports and adapters, and its timers

    cmd/yaver/main.go.  The server handles requests over the adapters the
    configuration chooses by name; beside it run the webhook dispatcher, the job
    workers, the retention sweep and the campaign scheduler.  A configuration
    with an unknown name makes the process exit, except for the orchestrator's,
    whose default is the local one. *)

From S2P Require Import Prelude.
From S2P Require Import Domain.
From S2P Require Import Effects.
From S2P Require Import GoLib.
From S2P Require Import GoTime.
From S2P Require Import Store.
From S2P Require Import Crypto.
From S2P Require Import Ports.
From S2P Require Import PgCredits.
From S2P Require Import PgFlows.
From S2P Require Import PgCalls.
From S2P Require Import Billing.
From S2P Require Import Calls.
From S2P Require Import PgWebhooks.
From S2P Require Import Webhooks.
From S2P Require Import PgAuth.
From S2P Require Import PgChat.
From S2P Require Import Assistant.
From S2P Require Import Messaging.
From S2P Require Import PgCampaigns.
From S2P Require Import Orchestrator.
From S2P Require Import Campaigns.
From S2P Require Import PgIngest.
From S2P Require Import Analytics.
From S2P Require Import HttpOut.
From S2P Require Import HttpLib.
From S2P Require Import HttpAuth.
From S2P Require Import Bus.
From S2P Require Import Ratelimit.
From S2P Require Import Server.
From S2P Require Import Config.
From S2P Require Import Adapters.
From stdpp Require Import gmap strings list.
From Stdlib Require Import ZArith Lia.

Open Scope Z_scope.
Open Scope go_scope.

(** time.Date in the process's zone, of a civil second counted as if in UTC: the
    offset in force is looked up at the guess, then at the corrected instant. *)
Definition instant_of_local {local : LocalZone.T} (civil : Z) : Z :=
  let off := LocalZone.offset (civil * Second) in
  if off =? 0 then civil else civil - LocalZone.offset ((civil - off) * Second).

(** t.AddDate(0, 0, days): the same wall clock, so many days later. *)
Definition AddDays {local : LocalZone.T} (t : Time) (days : Z) : Time :=
  let s := local_second t (LocalZone.offset t) in
  instant_of_local (s + days * 86400) * Second + t mod Second.

(** The clients of third-party services, which main builds from the
    configuration. *)
Record Clients := mkClients {
  cl_AES_GCM : string -> AEAD.T;                     (* cipher.NewGCM over aes.NewCipher *)
  cl_LiveKit : string -> string -> string -> SIPClient.T;
  cl_Anthropic : string -> MessagesAPI.T;
  cl_ClaudeDefault : string;
  cl_Hatchet : option HatchetClient.T                (* its environment may be wrong *)
}.

(** What the binary embeds. *)
Record Assets := mkAssets { as_openapi : string }.    (* openapi.yaml *)

Module App.
Import Config.

Section App.
Context {tz : TimeZones.T} {local : LocalZone.T} {hmac : HMAC.T} {sha : SHA256.T}
  {bcrypt : Bcrypt.T} {uuid : Uuid.T} {http : HttpOut.T}.
Context (clients : Clients) (assets : Assets).
Context (authLimit publicLimit : RateLimiter.T) (activity : ActivityPublisher.T)
  (feed : OrgID -> list Stream.input).

#[local] Existing Instances PgCreditRepo.repo PgPaymentRepo.repo PgFlowRepo.repo
  PgCallRepo.repo PgOutcomeRepo.repo PgCallPolicyRepo.repo PgWebhookRepo.repo PgAuthRepo.repo
  PgOrgRepo.repo PgChatRepo.repo PgChatSettingsRepo.repo PgInsightRepo.repo PgChannelRepo.repo
  PgCustomerRepo.repo PgCampaignRepo.repo PgAPIKeyRepo.repo PgEventRepo.repo
  PgAnalyticsRepo.repo RealClock.clock Heuristic.summarizer BuiltinReporter.reporter.

Definition smsSender (cfg : Config) : option SMSSender.T :=
  if (SMSSender cfg =? "log")%string then Some SmsLog.sender
  else if (SMSSender cfg =? "twilio")%string then
    Some (Twilio.sender (Twilio.mkSender (TwilioSID cfg) (TwilioToken cfg) (TwilioFrom cfg)))
  else None.

Definition emailSender (cfg : Config) : option EmailSender.T :=
  if (EmailSender cfg =? "log")%string then Some EmailLog.sender
  else if (EmailSender cfg =? "resend")%string then
    Some (Resend.sender (ResendAPIKey cfg) (EmailFrom cfg))
  else None.

Definition voice (cfg : Config) : option VoiceProvider.T :=
  if (VoiceProvider cfg =? "mock")%string then Some MockVoice.provider
  else if (VoiceProvider cfg =? "livekit")%string then
    Some (LiveKit.provider
            (sip := cl_LiveKit clients (LiveKitURL cfg) (LiveKitKey cfg) (LiveKitSecret cfg))
            (LiveKitTrunkID cfg))
  else None.

Definition stt (cfg : Config) : option STT.T :=
  if (STTProvider cfg =? "noop")%string then Some NoopSTT.stt
  else if (STTProvider cfg =? "whisper")%string then
    Some (Whisper.stt (Whisper.New (WhisperURL cfg) (WhisperKey cfg) (WhisperModel cfg)))
  else None.

Definition gateway (cfg : Config) : option PaymentGateway.T :=
  if (PaymentGateway cfg =? "mock")%string then Some (MockGateway.gateway (AppURL cfg))
  else if (PaymentGateway cfg =? "sslcommerz")%string then
    Some (SslCommerz.gateway
            (SslCommerz.New (SSLCzStoreID cfg) (SSLCzStorePass cfg) (AppURL cfg)
               (SSLCzSandbox cfg)))
  else None.

Definition orchestrator (cfg : Config) : option Orchestrator.T :=
  if (Orchestrator cfg =? "hatchet")%string then
    match cl_Hatchet clients with
    | Some client => Some (HatchetOrchestrator.orch (client := client))
    | None => None
    end
  else Some LocalOrchestrator.orch.

Definition chatModel (cfg : Config) : option ChatModel.T :=
  if (ChatProvider cfg =? "builtin")%string then Some Builtin.model
  else if (ChatProvider cfg =? "anthropic")%string then
    Some (Anthropic.chat_model (api := cl_Anthropic clients (AnthropicKey cfg))
            (cl_ClaudeDefault clients) (AnthropicModel cfg))
  else None.

Definition msgSender (cfg : Config) : option MessagingSender.T :=
  if (MsgSender cfg =? "log")%string then Some LogMessaging.sender
  else if (MsgSender cfg =? "meta")%string then Some MetaSender.sender
  else None.

Definition cipher (cfg : Config) : option AEAD.T :=
  match Cipher.New (EncryptionKey cfg) with
  | inl key => Some (cl_AES_GCM clients key)
  | inr _ => None
  end.

(** The adapters a configuration chooses. *)
Record Wiring := mkWiring {
  wr_cipher : AEAD.T; wr_sms : SMSSender.T; wr_email : EmailSender.T;
  wr_voice : VoiceProvider.T; wr_stt : STT.T; wr_gateway : PaymentGateway.T;
  wr_orch : Orchestrator.T; wr_model : ChatModel.T; wr_msg : MessagingSender.T
}.

(** [None] stands for os.Exit(1). *)
Definition wire (cfg : Config) : option Wiring :=
  cipher cfg ≫= fun aead =>
  smsSender cfg ≫= fun sms =>
  emailSender cfg ≫= fun email =>
  voice cfg ≫= fun voice =>
  stt cfg ≫= fun stt =>
  gateway cfg ≫= fun gateway =>
  orchestrator cfg ≫= fun orch =>
  chatModel cfg ≫= fun model =>
  msgSender cfg ≫= fun msg =>
  Some (mkWiring aead sms email voice stt gateway orch model msg).

Definition server_config (cfg : Config) : Server.Config :=
  Server.mkConfig (AuthSecret cfg) (Env cfg =? "dev")%string (WebURL cfg)
    (as_openapi assets).

Definition notifier (w : Wiring) : CreditNotifier.T :=
  Notify.notifier (email := wr_email w).

(** The handler the server listens with. *)
Definition handler (cfg : Config) (w : Wiring) : HttpAuth.handler :=
  Server.serve (gateway := wr_gateway w) (aead := wr_cipher w) (sms := wr_sms w)
    (provider := wr_voice w) (orch := wr_orch w)
    (model := wr_model w) (sender := wr_msg w) (stt := wr_stt w)
    authLimit publicLimit (Some activity) feed (server_config cfg).

(** The job the orchestrator's workers run. *)
Definition place_call (w : Wiring) : PlaceCallInput -> prog World unit :=
  Calls.PlaceCall (provider := wr_voice w) (notifier := notifier w).

(** The webhook dispatcher, over its first ticks. *)
Definition dispatcher (w : Wiring) (ticks : nat) : prog World unit :=
  Webhooks.Run (aead := wr_cipher w) ticks.

(** One tick of the retention timer, and of the campaign scheduler: errors are
    only logged. *)
Definition retention_sweep (cfg : Config) : prog World unit :=
  let! now := Now in
  pignore (CallRepo.DeleteBefore (AddDays now (- CallRetentionDays cfg))).

Definition scheduler_tick (w : Wiring) : prog World unit :=
  pignore (Campaigns.RunDue (orch := wr_orch w)).

Fixpoint every (tick : prog World unit) (n : nat) : prog World unit :=
  match n with
  | O => ret tt
  | S n => do! tick in every tick n
  end.

(** The task Hatchet runs for a delivered job. *)
Definition deliver (w : Wiring) (inp : PlaceCallInput) : prog World unit :=
  let! _ := HatchetOrchestrator.task_run (HatchetOrchestrator.placeCall (place_call w))
              (pci_OrgID inp) (pci_ToPhone inp) (pci_FlowID inp) in
  ret tt.

(** The goroutines beside the server, over so many ticks of each: the retention
    sweep runs only when a window is configured, and the jobs are run by eight
    workers of this process or as Hatchet delivers them. *)
Definition background (cfg : Config) (w : Wiring) (n : nat) (deliveries : list PlaceCallInput)
  : list (prog World unit) :=
  [dispatcher w n; every (scheduler_tick w) n] ++
  (if 0 <? CallRetentionDays cfg then [every (retention_sweep cfg) n] else []) ++
  (if (Orchestrator cfg =? "hatchet")%string then map (deliver w) deliveries
   else repeat (LocalOrchestrator.worker (place_call w) n) 8).

(** Every goroutine: one for each request net/http accepts, and those beside the
    server. *)
Definition goroutines (cfg : Config) (w : Wiring) (requests : list Request) (n : nat)
  (deliveries : list PlaceCallInput) : list (prog World unit) :=
  map (fun r => let! _ := handler cfg w r in ret tt) requests ++ background cfg w n deliveries.
End App.
End App.
