(* ===== verification/Process.v ===== *)
(** * The process: cmd/yaver from its first line to its exit

    main as it runs: what it starts, what it defers and where it stops with
    os.Exit, over internal/platform/db and internal/platform/otel; then the serving
    process as a machine, up to its exit; and cmd/migrate.  App gives what the
    handler and the goroutines do, WorkerPool the jobs. *)

From S2P Require Import Prelude.
From S2P Require Import Domain.
From S2P Require Import Effects.
From S2P Require Import GoTime.
From S2P Require Import Crypto.
From S2P Require Import Ports.
From S2P Require Import PgWebhooks.
From S2P Require Import PgChat.
From S2P Require Import PgAuth.
From S2P Require Import Messaging.
From S2P Require Import Orchestrator.
From S2P Require Import WorkerPool.
From S2P Require Import HttpOut.
From S2P Require Import Config.
From S2P Require Import Adapters.
From S2P Require Import App.
From S2P Require Import Machine.
From stdpp Require Import list strings.
From Stdlib Require Import ZArith Lia.

Open Scope Z_scope.

(** ** internal/platform/otel *)

Module Otel.
(** The OpenTelemetry SDK: the errors of the exporter's and the resource's
    constructors. *)
Class SDK := {
  otlptracehttp_New : option goerr;
  resource_Merge : string -> option goerr
}.

(** The function Setup returns: nothing to do, or the provider's Shutdown. *)
Inductive shutdown : Type := Noop | FlushProvider.

Definition Setup {sdk : SDK} (getenv : string -> string) (serviceName : string)
  : shutdown * option goerr :=
  if (getenv "OTEL_EXPORTER_OTLP_ENDPOINT" =? "")%string
     && (getenv "OTEL_EXPORTER_OTLP_TRACES_ENDPOINT" =? "")%string
  then (Noop, None)
  else match otlptracehttp_New with
       | Some err => (Noop, Some err)
       | None =>
           match resource_Merge serviceName with
           | Some err => (Noop, Some err)
           | None => (FlushProvider, None)
           end
       end.
End Otel.

(** ** internal/platform/db *)

Module Pool.
(** What Open sets of a pgxpool.Config; the rest comes from the URL. *)
Record Config := mkConfig { MaxConns : Z; MaxConnLifetime : Z; from_url : string }.

(** pgxpool: parsing a URL, and building a pool, which dials on its first use. *)
Class Pgxpool := {
  ParseConfig : string -> Config + goerr;
  NewWithConfig : Config -> option goerr
}.

Definition Open {pgx : Pgxpool} (url : string) : Config + goerr :=
  match ParseConfig url with
  | inr err => inr err
  | inl cfg =>
      let cfg := mkConfig 20 (30 * Minute) (from_url cfg) in
      match NewWithConfig cfg with Some err => inr err | None => inl cfg end
  end.
End Pool.

(** ** cmd/migrate *)

Module Migrate.
(** database/sql with the pgx driver, and goose: the text of an error. *)
Class Goose := {
  sql_Open : string -> string -> option string;
  SetDialect : string -> option string;
  RunContext : string -> string -> option string
}.

(** log.Fatal exits with status 1 before any deferred call: [closed] tells whether
    the database was closed. *)
Record ended := mkEnded { code : Z; message : string; closed : bool }.

Definition main {goose : Goose} (getenv : string -> string) (args : list string) : ended :=
  let url := getenv "YAVER_DATABASE_URL" in
  if (url =? "")%string then mkEnded 1 "YAVER_DATABASE_URL is required" false
  else
    let command := match args with _ :: c :: _ => c | _ => "up" end in
    match sql_Open "pgx" url with
    | Some err => mkEnded 1 ("open db: " +:+ err) false
    | None =>
        match SetDialect "postgres" with
        | Some err => mkEnded 1 ("dialect: " +:+ err) false
        | None =>
            match RunContext command "migrations" with
            | Some err => mkEnded 1 ("goose " +:+ command +:+ ": " +:+ err) false
            | None => mkEnded 0 "" true
            end
        end
    end.
End Migrate.

(** ** main *)

Module Main.
Import Config.

Inductive goroutine : Type :=
| LimiterSweep        (* one for each rate limiter *)
| HatchetWorker
| LocalWorker
| WebhookDispatcher
| RetentionTimer
| CampaignTimer
| Listener.

Inductive deferred : Type :=
| FlushSpans (f : Otel.shutdown)
| ClosePool
| DrainJobs
| StopSignals
| CancelTimeout.

(** What main has started, and its deferred calls, the last one first. *)
Record started := mkStarted { running : list goroutine; defers : list deferred; log : list string }.

Inductive result (A : Type) : Type :=
| Goes (a : A) (s : started)
| Exits (code : Z) (s : started).        (* os.Exit: no deferred call runs *)
Arguments Goes {A} a s.
Arguments Exits {A} code s.

Definition boot (A : Type) : Type := started -> result A.

Definition pure {A} (a : A) : boot A := Goes a.

Definition bind {A B} (m : boot A) (k : A -> boot B) : boot B := fun s =>
  match m s with Goes a s => k a s | Exits code s => Exits code s end.

Notation "'let+' x ':=' m 'in' k" := (bind m (fun x => k))
  (at level 10, x pattern, m at level 100, k at level 200).
Notation "m ;+ k" := (bind m (fun _ => k)) (at level 100, right associativity).

Definition go (gs : list goroutine) : boot unit := fun s =>
  Goes tt (mkStarted (running s ++ gs) (defers s) (log s)).
Definition defer (d : deferred) : boot unit := fun s =>
  Goes tt (mkStarted (running s) (d :: defers s) (log s)).
Definition say (msg : string) : boot unit := fun s =>
  Goes tt (mkStarted (running s) (defers s) (log s ++ [msg])).
Definition exit {A} (code : Z) : boot A := Exits code.

(** A port's adapter, or os.Exit(1). *)
Definition adapter {A} (msg : string) (choice : option A) : boot A :=
  match choice with
  | Some a => pure a
  | None => say msg ;+ exit 1
  end.

Section Main.
Context {http : HttpOut.T} {sdk : Otel.SDK} {pgx : Pool.Pgxpool}.
Context (clients : Clients) (getenv : string -> string).

(** The orchestrator, with its workers. *)
Definition orchestrator (cfg : Config) : boot Orchestrator.T :=
  if (Orchestrator cfg =? "hatchet")%string then
    let+ o := adapter "hatchet client" (App.orchestrator clients cfg) in
    go [HatchetWorker] ;+
    say "orchestrator: hatchet" ;+
    pure o
  else
    go (repeat LocalWorker 8) ;+
    defer DrainJobs ;+
    say "orchestrator: local" ;+
    pure LocalOrchestrator.orch.

(** Lines 71-84: tracing, whose failure is only logged, and the pool. *)
Definition platform (cfg : Config) : boot unit :=
  let '(otelShutdown, err) := Otel.Setup getenv "yaver-api" in
  match err with Some _ => say "otel setup" | None => pure tt end ;+
  defer (FlushSpans otelShutdown) ;+
  match Pool.Open (DatabaseURL cfg) with
  | inl _ => defer ClosePool
  | inr _ => say "db pool" ;+ exit 1
  end.

(** Lines 86-229: the ports. *)
Definition ports (cfg : Config) : boot App.Wiring :=
  let+ aead := adapter "encryption key" (App.cipher clients cfg) in
  let+ sms := adapter "unsupported YAVER_SMS_SENDER (want 'log' or 'twilio')"
                (App.smsSender cfg) in
  let+ email := adapter "unsupported YAVER_EMAIL_SENDER (want 'log' or 'resend')"
                  (App.emailSender cfg) in
  let+ voice := adapter "unsupported YAVER_VOICE_PROVIDER (want 'mock' or 'livekit')"
                  (App.voice clients cfg) in
  let+ stt := adapter "unsupported YAVER_STT_PROVIDER (want 'noop' or 'whisper')"
                (App.stt cfg) in
  let+ gateway := adapter "unsupported YAVER_PAYMENT_GATEWAY (want 'mock' or 'sslcommerz')"
                    (App.gateway cfg) in
  let+ orch := orchestrator cfg in
  let+ model := adapter "unsupported YAVER_CHAT_PROVIDER (want 'builtin' or 'anthropic')"
                  (App.chatModel clients cfg) in
  let+ msg := adapter "unsupported YAVER_MSG_SENDER (want 'log' or 'meta')"
                (App.msgSender cfg) in
  pure (App.mkWiring aead sms email voice stt gateway orch model msg).

(** Lines 231-290: the goroutines beside the server, and the server's. *)
Definition serving (cfg : Config) : boot unit :=
  go [WebhookDispatcher] ;+
  go [LimiterSweep; LimiterSweep] ;+      (* httptransport.New makes the two limiters *)
  defer StopSignals ;+
  (if 0 <? CallRetentionDays cfg then go [RetentionTimer] else pure tt) ;+
  go [CampaignTimer] ;+
  go [Listener].

Definition main : boot (Config * App.Wiring) :=
  let+ cfg := match Load getenv with
              | inl cfg => pure cfg
              | inr _ => say "config load failed" ;+ exit 1
              end in
  platform cfg ;+
  let+ wiring := ports cfg in
  serving cfg ;+
  pure (cfg, wiring).

(** ** What starting does *)

Definition fresh : started := mkStarted [] [] [].

(** The goroutines and the deferred calls of a process that serves. *)
Definition goroutines_of (cfg : Config) : list goroutine :=
  (if (Orchestrator cfg =? "hatchet")%string then [HatchetWorker] else repeat LocalWorker 8) ++
  [WebhookDispatcher; LimiterSweep; LimiterSweep] ++
  (if 0 <? CallRetentionDays cfg then [RetentionTimer] else []) ++ [CampaignTimer; Listener].

Definition defers_of (cfg : Config) : list deferred :=
  StopSignals :: (if (Orchestrator cfg =? "hatchet")%string then [] else [DrainJobs]) ++
  [ClosePool; FlushSpans (fst (Otel.Setup getenv "yaver-api"))].

Lemma orchestrator_starts cfg s :
  orchestrator cfg s =
  match App.orchestrator clients cfg with
  | Some o =>
      let hatchet := (Orchestrator cfg =? "hatchet")%string in
      Goes o (mkStarted
        (running s ++ (if hatchet then [HatchetWorker] else repeat LocalWorker 8))
        ((if hatchet then [] else [DrainJobs]) ++ defers s)
        (log s ++ [if hatchet then "orchestrator: hatchet" else "orchestrator: local"]))
  | None => Exits 1 (mkStarted (running s) (defers s) (log s ++ ["hatchet client"]))
  end.
Proof.
  unfold orchestrator, App.orchestrator.
  destruct (Orchestrator cfg =? "hatchet")%string; [|done]. by destruct (cl_Hatchet clients).
Qed.

Lemma platform_spec cfg s :
  match platform cfg s with
  | Goes _ s' =>
      (exists pool, Pool.Open (DatabaseURL cfg) = inl pool) /\ running s' = running s /\
      defers s' = [ClosePool; FlushSpans (fst (Otel.Setup getenv "yaver-api"))] ++ defers s
  | Exits code s' => code = 1 /\ exists e, Pool.Open (DatabaseURL cfg) = inr e
  end.
Proof.
  unfold platform. destruct (Otel.Setup getenv "yaver-api") as [f [err|]];
    destruct (Pool.Open (DatabaseURL cfg)); cbn; eauto.
Qed.

Lemma ports_spec cfg s :
  match ports cfg s with
  | Goes w s' =>
      let hatchet := (Orchestrator cfg =? "hatchet")%string in
      App.wire clients cfg = Some w /\
      running s' = running s ++ (if hatchet then [HatchetWorker] else repeat LocalWorker 8) /\
      defers s' = (if hatchet then [] else [DrainJobs]) ++ defers s
  | Exits code s' => code = 1 /\ App.wire clients cfg = None
  end.
Proof.
  unfold ports, App.wire.
  destruct (App.cipher clients cfg); [|done]. destruct (App.smsSender cfg); [|done].
  destruct (App.emailSender cfg); [|done]. destruct (App.voice clients cfg); [|done].
  destruct (App.stt cfg); [|done]. destruct (App.gateway cfg); [|done].
  unfold bind at 1 2 3 4 5 6. cbn [adapter pure]. unfold bind at 1. rewrite orchestrator_starts.
  destruct (App.orchestrator clients cfg); [|done].
  by destruct (App.chatModel clients cfg), (App.msgSender cfg).
Qed.

(** C30: Main serves exactly with a configuration Load accepts, a database URL pgx parses
    and an adapter for every port, which is then the wiring App composes; it has
    started the goroutines of the configuration, and will on return stop the signal
    handler, drain the jobs of the local pool, close the database and flush the
    spans, in this order.  Anything else ends in status 1 with no deferred call run. *)
Theorem main_spec :
  match main fresh with
  | Goes (cfg, w) s =>
      Load getenv = inl cfg /\ (exists pool, Pool.Open (DatabaseURL cfg) = inl pool) /\
      App.wire clients cfg = Some w /\
      running s = goroutines_of cfg /\ defers s = defers_of cfg
  | Exits code s =>
      code = 1 /\
      (forall cfg, Load getenv = inl cfg ->
         (exists e, Pool.Open (DatabaseURL cfg) = inr e) \/ App.wire clients cfg = None)
  end.
Proof.
  unfold main. destruct (Load getenv) as [cfg|msg]; [|by split].
  unfold bind at 1 2. cbn [pure]. pose proof (platform_spec cfg fresh) as Hp.
  destruct (platform cfg fresh) as [[] s|code s].
  2:{ destruct Hp as (-> & e & He). split; [done|]. intros ? [= <-]. left. by exists e. }
  destruct Hp as (Hp & Hr & Hd). unfold bind at 1. pose proof (ports_spec cfg s) as Hw.
  destruct (ports cfg s) as [w s1|code s1].
  2:{ destruct Hw as (-> & He). split; [done|]. intros ? [= <-]. by right. }
  destruct Hw as (Hw & Hr1 & Hd1).
  unfold goroutines_of, defers_of. unfold serving.
  destruct (0 <? CallRetentionDays cfg) eqn:Eret; cbn; rewrite Hr1, Hd1, Hr, Hd, Eret; cbn;
    by rewrite <- ?app_assoc.
Qed.
End Main.
End Main.

(** ** Serving, and the way out *)

Module Serving.
Import Main.
Open Scope nat_scope.

(** main blocked on its signal context, in srv.Shutdown, returning through its
    deferred calls, waiting in one of them for the workers, or gone. *)
Inductive phase : Type :=
| Listening
| ShuttingDown
| Returning (ds : list deferred)
| Draining (ds : list deferred)
| Exited (code : Z).

Record process := mkProcess { at_ : phase; pool : WorkerPool.pool }.

(** Who queues a job: the handler of a request, whose panic net/http recovers, or
    the campaign scheduler, whose panic ends the process. *)
Inductive caller : Type := Request | Scheduler.

Inductive action : Type :=
| Queue (c : caller) (j : WorkerPool.job)
| Work (a : WorkerPool.action)     (* Range and Finish *)
| Signal                           (* SIGINT or SIGTERM *)
| ListenFails                      (* ListenAndServe, before any Shutdown *)
| ShutdownReturns                  (* every connection idle, or ten seconds *)
| Deferred                         (* main's next deferred call *)
| WorkersGone.                     (* wg.Wait returns *)

Inductive event : Type :=
| Pool (e : WorkerPool.event)
| Refused (j : WorkerPool.job)
| Ran (d : deferred)
| Ended (code : Z).

Definition alive (s : process) : bool :=
  match at_ s with Exited _ => false | _ => true end.

Definition go (ph : phase) (p : process) : process := mkProcess ph (pool p).

Definition lift (s : process) (t : turn WorkerPool.event WorkerPool.pool) : turn event process :=
  match t with
  | Waits => Waits
  | Panics => Panics
  | Moves es p => Moves (map Pool es) (mkProcess (at_ s) p)
  end.

Definition queue (c : caller) (j : WorkerPool.job) (s : process) : turn event process :=
  match lift s (WorkerPool.enqueue j (pool s)), c with
  | Panics, Request => Moves [Refused j] s
  | Panics, Scheduler => Moves [Ended 2] (go (Exited 2) s)
  | t, _ => t
  end.

Definition deferred_call (s : process) : turn event process :=
  match at_ s with
  | Returning (DrainJobs :: ds) =>
      match WorkerPool.close (pool s) with
      | Moves _ p => Moves [] (mkProcess (Draining ds) p)
      | Panics => Panics
      | Waits => Waits
      end
  | Returning (d :: ds) => Moves [Ran d] (go (Returning ds) s)
  | Returning [] => Moves [Ended 0] (go (Exited 0) s)
  | _ => Waits
  end.

Section Process.
Context (defers : list deferred).      (* those of main, when it starts to serve *)

Definition act (a : action) (s : process) : turn event process :=
  if negb (alive s) then Waits
  else match a with
  | Queue c j => queue c j s
  | Work (WorkerPool.Range i) => lift s (WorkerPool.range i (pool s))
  | Work (WorkerPool.Finish i) => lift s (WorkerPool.finish i (pool s))
  | Work _ => Waits
  | Signal => match at_ s with Listening => Moves [] (go ShuttingDown s) | _ => Waits end
  | ListenFails =>
      match at_ s with Listening => Moves [Ended 1] (go (Exited 1) s) | _ => Waits end
  | ShutdownReturns =>
      match at_ s with
      | ShuttingDown => Moves [] (go (Returning (CancelTimeout :: defers)) s)
      | _ => Waits
      end
  | Deferred => deferred_call s
  | WorkersGone =>
      match at_ s with
      | Draining ds =>
          if WorkerPool.all_returned (pool s)
          then Moves [Ran DrainJobs] (go (Returning ds) s) else Waits
      | _ => Waits
      end
  end.

Definition serve (workers : nat) : process := mkProcess Listening (WorkerPool.New workers).
End Process.

(** The history of the pool in a history of the process. *)
Definition of_pool (tr : list event) : list WorkerPool.event :=
  omap (fun e => match e with Pool e => Some e | _ => None end) tr.

Definition queued (tr : list event) : list WorkerPool.job := WorkerPool.queued (of_pool tr).
Definition ended (tr : list event) : list WorkerPool.job := WorkerPool.ended (of_pool tr).
End Serving.
