(* ===== verification/ProcessSpec.v ===== *)
(** * How the process ends

    After a signal: main returns through its deferred calls, in their order, once
    every job has run; and what a sweep that is not awaited does to that. *)

From S2P Require Import Prelude.
From S2P Require Import Domain.
From S2P Require Import Orchestrator.
From S2P Require Import WorkerPool.
From S2P Require Import Process.
From S2P Require Import Machine.
From stdpp Require Import list strings.
From Stdlib Require Import ZArith Lia.

Open Scope nat_scope.

Module ServingSpec.
Import Main.
Import Serving.

(** The deferred calls of a process with the local orchestrator. *)
Definition local_defers (f : Otel.shutdown) : list deferred :=
  [StopSignals; DrainJobs; ClosePool; FlushSpans f].

Definition queues (a : action) : bool := match a with Queue _ _ => true | _ => false end.

Section Local.
Context (f : Otel.shutdown) (n : nat).

Local Abbreviation act := (Serving.act (local_defers f)).
Local Abbreviation serve := (Serving.serve n).

(** ** The stages of a way out *)

Definition before_drain : list phase :=
  [Listening; ShuttingDown; Returning (CancelTimeout :: local_defers f);
   Returning (local_defers f); Returning [DrainJobs; ClosePool; FlushSpans f]].

Definition after_close : list phase := [Returning [FlushSpans f]; Returning []; Exited 0].

(** The database is closed at one point, after which no job moves. *)
Definition closed_once (tr : list event) : Prop :=
  exists tr1 tr2, tr = tr1 ++ Ran ClosePool :: tr2 /\ of_pool tr2 = [].

Inductive stage (tr : list event) (p : WorkerPool.pool) : phase -> Prop :=
| stage_open ph : WorkerPool.closed p = false -> In ph before_drain -> stage tr p ph
| stage_draining : WorkerPool.closed p = true -> stage tr p (Draining [ClosePool; FlushSpans f])
| stage_drained : WorkerPool.closed p = true -> WorkerPool.all_returned p = true ->
    stage tr p (Returning [ClosePool; FlushSpans f])
| stage_closed ph : WorkerPool.closed p = true -> WorkerPool.all_returned p = true ->
    closed_once tr -> In ph after_close -> stage tr p ph
| stage_died code : code <> 0%Z -> stage tr p (Exited code).

Definition inv (tr : list event) (s : process) : Prop :=
  reached WorkerPool.act (WorkerPool.New n) (of_pool tr) (pool s) /\ stage tr (pool s) (at_ s).

Lemma of_pool_app tr tr' : of_pool (tr ++ tr') = of_pool tr ++ of_pool tr'.
Proof. apply omap_app. Qed.

Lemma of_pool_map es : of_pool (map Pool es) = es.
Proof. induction es as [|e es IH]; [done|]. cbn. f_equal. exact IH. Qed.

(** What the pool does at its turn, inside the process. *)
Lemma lift_moves s t es s' : lift s t = Moves es s' ->
  exists es' p, t = Moves es' p /\ es = map Pool es' /\ s' = mkProcess (at_ s) p.
Proof. destruct t as [| |es' p]; simpl; [done|done|]. intros [= <- <-]. by exists es', p. Qed.

(** With every worker gone from a closed pool, no turn of the pool moves. *)
Lemma gone_waits a p :
  WorkerPool.closed p = true -> WorkerPool.all_returned p = true ->
  forall es p', WorkerPool.act a p <> Moves es p'.
Proof.
  intros Hc Ha es p'. assert (forall i k, WorkerPool.workers p !! i = Some k -> k = WorkerPool.Returned) as Hw.
  { intros i k Hi. unfold WorkerPool.all_returned in Ha. rewrite forallb_forall in Ha.
    specialize (Ha k). apply list_elem_of_lookup_2, list_elem_of_In in Hi.
    specialize (Ha Hi). by destruct k. }
  destruct a as [j|i|i|]; simpl.
  - unfold WorkerPool.enqueue. by rewrite Hc.
  - unfold WorkerPool.range. destruct (WorkerPool.workers p !! i) as [k|] eqn:E; [|done].
    by rewrite (Hw i k E).
  - unfold WorkerPool.finish. destruct (WorkerPool.workers p !! i) as [k|] eqn:E; [|done].
    by rewrite (Hw i k E).
  - unfold WorkerPool.close. by rewrite Hc.
Qed.

(** A turn of the pool, other than its closing, keeps the stage. *)
Lemma pool_turn tr s a es p :
  inv tr s -> WorkerPool.act a (pool s) = Moves es p ->
  WorkerPool.closed p = WorkerPool.closed (pool s) ->
  inv (tr ++ map Pool es) (mkProcess (at_ s) p).
Proof.
  intros [Hr Hst] Ha Hc. split.
  - rewrite of_pool_app, of_pool_map. by eapply reached_next.
  - cbn [at_ pool]. destruct Hst as [ph Ho Hin|Ho|Ho Hg|ph Ho Hg _ _|code Hcode].
    + apply stage_open; [by rewrite Hc|done].
    + apply stage_draining. by rewrite Hc.
    + by destruct (gone_waits a (pool s) Ho Hg es p).
    + by destruct (gone_waits a (pool s) Ho Hg es p).
    + by apply stage_died.
Qed.

(** Events of main's own leave the pool where it is. *)
Lemma stage_more tr es p ph : of_pool es = [] -> stage tr p ph -> stage (tr ++ es) p ph.
Proof.
  intros He [ph1 Ho Hin|Ho|Ho Hg|ph1 Ho Hg (tr1 & tr2 & -> & H2) Hin|code Hcode].
  - by apply stage_open.
  - by apply stage_draining.
  - by apply stage_drained.
  - apply stage_closed; [done..| |done]. exists tr1, (tr2 ++ es).
    rewrite of_pool_app, H2, He. by rewrite <- app_assoc.
  - by apply stage_died.
Qed.

Lemma inv_goes tr s es ph :
  inv tr s -> of_pool es = [] -> stage (tr ++ es) (pool s) ph -> inv (tr ++ es) (go ph s).
Proof. intros [Hr _] He Hst. split; [|done]. by rewrite of_pool_app, He, app_nil_r. Qed.

Lemma queue_step tr s c j es s' :
  inv tr s -> queue c j s = Moves es s' -> inv (tr ++ es) s'.
Proof.
  intros Hi. unfold queue. destruct (WorkerPool.enqueue j (pool s)) as [| |es1 p1] eqn:E; cbn.
  - by destruct c.
  - destruct c; intros [= <- <-].
    + destruct Hi as [Hr Hst]. split; [|by apply stage_more].
      by rewrite of_pool_app, app_nil_r.
    + apply inv_goes; [done..|]. by apply stage_died.
  - intros H. assert (H1 : Moves (map Pool es1) (mkProcess (at_ s) p1) = Moves es s') by by destruct c.
    injection H1 as <- <-. apply (pool_turn _ _ (WorkerPool.Enqueue j)); [done..|].
    unfold WorkerPool.enqueue in E. destruct (WorkerPool.closed (pool s)) eqn:Ec; [done|].
    case_match; [|done]. by injection E as <- <-.
Qed.

Lemma worker_step tr s a es s' :
  inv tr s -> WorkerPool.takes_turn a = true -> lift s (WorkerPool.act a (pool s)) = Moves es s' ->
  inv (tr ++ es) s' /\ at_ s' = at_ s /\
  WorkerPool.work (pool s') < WorkerPool.work (pool s) /\ queued es = [].
Proof.
  intros Hi Ht H. apply lift_moves in H as (es1 & p1 & E & -> & ->).
  destruct (WorkerPool.turn_works _ _ _ _ Ht E) as (Hc & Hlt & Hq).
  split; [by apply (pool_turn _ _ a)|]. unfold queued. by rewrite of_pool_map.
Qed.

(** Main's next deferred call. *)
Lemma deferred_step tr s es s' :
  inv tr s -> deferred_call s = Moves es s' ->
  inv (tr ++ es) s' /\ of_pool es = [].
Proof.
  intros [Hr Hst]. destruct s as [ph p]. unfold deferred_call. cbn [at_ pool] in *.
  destruct Hst as [ph1 Ho Hin|Ho|Ho Hg|ph1 Ho Hg (tr1 & tr2 & -> & H2) Hin|code Hcode]; try done.
  - destruct Hin as [<-|[<-|[<-|[<-|[<-|[]]]]]]; try done; cbn.
    + intros [= <- <-]. split; [|done]. apply inv_goes; [by split; [|apply stage_open; cbn; eauto]|done|].
      apply stage_open; cbn; eauto.
    + intros [= <- <-]. split; [|done]. apply inv_goes; [by split; [|apply stage_open; cbn; eauto 6]|done|].
      apply stage_open; cbn; eauto 7.
    + unfold WorkerPool.close. rewrite Ho. intros [= <- <-]. split; [|done].
      split; [|by apply stage_draining]. rewrite of_pool_app, app_nil_r. cbn [pool].
      rewrite <- (app_nil_r (of_pool tr)).
      apply (reached_next _ _ _ p WorkerPool.Close); [done|]. cbn. unfold WorkerPool.close.
      by rewrite Ho.
  - intros [= <- <-]. split; [|done]. apply inv_goes; [by split; [|apply stage_drained]|done|].
    apply stage_closed; [done..| |by left]. by exists tr, [].
  - assert (Hs : forall ph2, In ph2 after_close ->
      inv (tr1 ++ Ran ClosePool :: tr2) (mkProcess ph2 p)).
    { intros ph2 Hin2. split; [done|]. apply stage_closed; [done..| |done]. by exists tr1, tr2. }
    destruct Hin as [<-|[<-|[<-|[]]]]; try done; cbn; intros [= <- <-]; (split; [|done]);
      (apply inv_goes; [apply Hs; cbn; by eauto|done|]); apply stage_more; try done;
      apply stage_closed; try done; cbn; eauto; by exists tr1, tr2.
Qed.

(** What a phase says of the channel. *)
Lemma not_drained_open tr p ph :
  stage tr p ph ->
  match ph with
  | Listening | ShuttingDown | Returning (DrainJobs :: _) => WorkerPool.closed p = false
  | Draining ds => WorkerPool.closed p = true /\ ds = [ClosePool; FlushSpans f]
  | _ => True
  end.
Proof.
  intros [ph1 Ho Hin|Ho|Ho Hg|ph1 Ho Hg _ Hin|code Hcode]; try done.
  - by destruct Hin as [<-|[<-|[<-|[<-|[<-|[]]]]]].
  - by destruct Hin as [<-|[<-|[<-|[]]]].
Qed.

Lemma act_inv tr s a es s' : inv tr s -> act a s = Moves es s' -> inv (tr ++ es) s'.
Proof.
  intros Hi. unfold Serving.act. destruct (alive s) eqn:Ea; [|done]. cbn [negb].
  destruct a as [c j|a| | | | |]; [by apply queue_step| | | | | |].
  - destruct a as [j|i|i|]; try done.
    + intros H. by apply (worker_step tr s (WorkerPool.Range i)).
    + intros H. by apply (worker_step tr s (WorkerPool.Finish i)).
  - destruct Hi as [Hr Hst]. destruct s as [[| | | |] p]; try done. cbn. intros [= <- <-].
    apply inv_goes; [by split|done|]. apply not_drained_open in Hst. apply stage_open; cbn; eauto.
  - destruct Hi as [Hr Hst]. destruct s as [[| | | |] p]; try done. cbn. intros [= <- <-].
    apply inv_goes; [by split|done|]. by apply stage_died.
  - destruct Hi as [Hr Hst]. destruct s as [[| | | |] p]; try done. cbn. intros [= <- <-].
    apply inv_goes; [by split|done|]. apply not_drained_open in Hst. apply stage_open; cbn; eauto.
  - intros H. by destruct (deferred_step _ _ _ _ Hi H).
  - destruct Hi as [Hr Hst]. destruct s as [[| | |ds|] p]; try done. cbn.
    destruct (WorkerPool.all_returned p) eqn:Eg; [|done]. intros [= <- <-].
    apply inv_goes; [by split|done|]. apply not_drained_open in Hst as [Hc ->].
    by apply stage_drained.
Qed.

Lemma reached_inv_of tr s : reached act serve tr s -> inv tr s.
Proof.
  apply (reached_inv act inv); [|intros; by eapply act_inv].
  split; [constructor|]. apply stage_open; [done|by left].
Qed.

(** ** What is left of a way out *)

Definition weight (ph : phase) : nat :=
  match ph with
  | Listening => 9
  | ShuttingDown => 8
  | Returning ds =>
      1 + length ds +
      length (List.filter (fun d => match d with DrainJobs => true | _ => false end) ds)
  | Draining ds => 2 + length ds
  | Exited _ => 0
  end.

Definition rank (s : process) : nat := weight (at_ s) + WorkerPool.work (pool s).

(** Past the signal, and not dead. *)
Definition leaving (s : process) : bool :=
  match at_ s with Listening => false | Exited code => (code =? 0)%Z | _ => true end.

Lemma deferred_ranks s es s' :
  deferred_call s = Moves es s' -> leaving s' = true /\ rank s' < rank s /\ of_pool es = [].
Proof.
  destruct s as [[| |[|[fl| | | |] ds]| |] p]; unfold deferred_call, rank; cbn; try done;
    try (intros [= <- <-]; cbn; repeat split; lia).
  unfold WorkerPool.close. destruct (WorkerPool.closed p); [done|]. intros [= <- <-]. cbn.
  repeat split. unfold WorkerPool.work. cbn. lia.
Qed.

Lemma leaving_ranks tr s a es s' :
  inv tr s -> leaving s = true -> queues a = false -> act a s = Moves es s' ->
  leaving s' = true /\ rank s' < rank s /\ queued es = [].
Proof.
  intros Hi Hl Hq. unfold Serving.act. destruct (alive s) eqn:Ea; [|done]. cbn [negb].
  destruct a as [c j|a| | | | |]; [done| | | | | |].
  - intros H. assert (exists b, WorkerPool.takes_turn b = true /\
      lift s (WorkerPool.act b (pool s)) = Moves es s') as (b & Hb & H').
    { destruct a as [j|i|i|]; try done;
        [by exists (WorkerPool.Range i)|by exists (WorkerPool.Finish i)]. }
    destruct (worker_step _ _ _ _ _ Hi Hb H') as (_ & Hat & Hlt & Hn).
    unfold leaving, rank in *. rewrite Hat. repeat split; [done|lia|done].
  - destruct s as [[| | | |] p]; done.
  - destruct s as [[| | | |] p]; done.
  - destruct s as [[| | | |] p]; try done. cbn. intros [= <- <-]. unfold rank. cbn.
    repeat split. lia.
  - intros H. destruct (deferred_ranks _ _ _ H) as (? & ? & He). repeat split; [done..|].
    unfold queued. by rewrite He.
  - destruct s as [[| | |ds|] p]; try done. cbn.
    destruct (WorkerPool.all_returned p); [|done]. intros [= <- <-]. unfold rank. cbn.
    destruct Hi as [_ Hst]. apply not_drained_open in Hst as [_ ->]. cbn. repeat split. lia.
Qed.

(** A request that still queues a job adds its turns; one that is refused, none. *)
Lemma request_ranks s j es s' :
  queue Request j s = Moves es s' -> at_ s' = at_ s /\ rank s' <= rank s + 3.
Proof.
  unfold queue, WorkerPool.enqueue, rank. destruct (WorkerPool.closed (pool s)).
  { intros [= <- <-]. split; [done|lia]. }
  destruct (length _ <? _); [|done]. intros [= <- <-]. cbn. split; [done|].
  unfold WorkerPool.work. cbn [WorkerPool.jobs WorkerPool.workers]. rewrite length_app. cbn. lia.
Qed.

(** Until it has exited, the process can move by itself. *)
Lemma leaving_moves tr s :
  inv tr s -> leaving s = true ->
  at_ s = Exited 0 \/ exists a es s', queues a = false /\ act a s = Moves es s'.
Proof.
  intros [Hr Hst] Hl. destruct s as [ph p]. unfold leaving in Hl. cbn [at_ pool] in *.
  destruct ph as [| |ds|ds|code]; [done| | | |left; f_equal; by apply Z.eqb_eq]; right.
  - by exists ShutdownReturns, [], (go (Returning (CancelTimeout :: local_defers f))
      (mkProcess ShuttingDown p)).
  - exists Deferred. unfold Serving.act. cbn. destruct ds as [|[fl| | | |] ds]; eauto.
    apply not_drained_open in Hst. cbn. unfold WorkerPool.close. rewrite Hst. eauto.
  - destruct (WorkerPool.all_returned p) eqn:Eg.
    { exists WorkersGone. unfold Serving.act. cbn. rewrite Eg. eauto. }
    apply not_drained_open in Hst as [Hc _].
    destruct (WorkerPool.closed_moves p Hc Eg) as (a & es & p' & Ha). exists (Work a).
    pose proof (WorkerPool.closed_turns _ _ _ _ Hc Ha). unfold Serving.act. cbn.
    destruct a as [j|i|i|]; try done; cbn in Ha; rewrite Ha; cbn; eauto.
Qed.

(** ** Together *)

Definition scheduled (a : action) : bool :=
  match a with Queue Scheduler _ => true | _ => false end.

Lemma play_out actions tr s tr' s' :
  inv tr s -> leaving s = true -> forallb (fun a => negb (scheduled a)) actions = true ->
  play act actions s = Some (tr', s') ->
  inv (tr ++ tr') s' /\ leaving s' = true /\
  length actions + rank s' <= rank s + 4 * length (List.filter queues actions).
Proof.
  revert tr s tr'. induction actions as [|a actions IH]; intros tr s tr' Hi Hl Ha; simpl.
  { intros [= <- <-]. rewrite app_nil_r. repeat split; [apply Hi..|done|lia]. }
  simpl in Ha. apply andb_prop in Ha as [Hn Ha].
  destruct (act a s) as [| |es s1] eqn:E; try done.
  destruct (play act actions s1) as [[tr1 s2]|] eqn:Ep; [|done]. simpl. intros [= <- <-].
  pose proof (act_inv _ _ _ _ _ Hi E) as Hi1. rewrite app_assoc.
  assert (leaving s1 = true /\ rank s1 + 1 <= rank s + (if queues a then 4 else 0)) as [Hl1 Hr1].
  { destruct (queues a) eqn:Eq.
    - destruct a as [[|] j|?| | | | |]; try done. unfold Serving.act in E.
      destruct (alive s); [|done]. destruct (request_ranks _ _ _ _ E) as [Hat Hr].
      unfold leaving. rewrite Hat. split; [done|lia].
    - destruct (leaving_ranks _ _ _ _ _ Hi Hl Eq E) as (? & ? & _). split; [done|lia]. }
  destruct (IH _ _ _ Hi1 Hl1 Ha Ep) as (Hi2 & Hl2 & Hle). repeat split; [apply Hi2..|done|].
  destruct (queues a); simpl; lia.
Qed.

Lemma exited_ran_all tr s :
  0 < n -> inv tr s -> at_ s = Exited 0 ->
  exists tr1 tr2, tr = tr1 ++ Ran ClosePool :: tr2 /\ ended tr1 ≡ₚ queued tr.
Proof.
  intros Hn [Hr Hst] Hat. rewrite Hat in Hst.
  inversion Hst as [? ? Hin|?|?|? Hc Hg (tr1 & tr2 & E & H2) ?|]; subst; [|..|done].
  { by destruct Hin as [|[|[|[|[|[]]]]]]. }
  exists tr1, tr2. split; [done|]. rewrite <- (WorkerPool.drained_all n _ _ Hn Hr Hg).
  unfold ended. rewrite (of_pool_app tr1). cbn. unfold of_pool in H2. rewrite H2.
  by rewrite app_nil_r.
Qed.
End Local.

(** C13: After SIGINT or SIGTERM, with no sweep of the campaign scheduler under way, main
    comes to an end of its own: whatever the requests still in flight queue, it
    takes a bounded number of turns, one of them can always be taken until it has
    exited, and it exits with status 0, every job that was queued since it started
    having run to its end before the database is closed. *)
Theorem signal_leads_to_clean_exit f n tr s actions tr' s' :
  0 < n -> reached (act (local_defers f)) (serve n) tr s -> at_ s = ShuttingDown ->
  forallb (fun a => negb (scheduled a)) actions = true ->
  play (act (local_defers f)) actions s = Some (tr', s') ->
  length actions <= 8 + 3 * length (WorkerPool.jobs (pool s)) + 2 * n +
    4 * length (List.filter queues actions) /\
  ((exists a es s2, queues a = false /\ act (local_defers f) a s' = Moves es s2) \/
   (at_ s' = Exited 0 /\
    exists tr1 tr2, tr ++ tr' = tr1 ++ Ran ClosePool :: tr2 /\ ended tr1 ≡ₚ queued (tr ++ tr'))).
Proof.
  intros Hn Hr Hat Ha Hp. pose proof (reached_inv_of f n tr s Hr) as Hi.
  assert (leaving s = true) as Hl by (unfold leaving; by rewrite Hat).
  destruct (play_out f n _ _ _ _ _ Hi Hl Ha Hp) as (Hi' & Hl' & Hle). split.
  - destruct Hi as [Hw _]. apply WorkerPool.reached_accounted in Hw as [_ _ _ Hw _].
    pose proof (WorkerPool.work_bound (pool s)). unfold rank in Hle. rewrite Hat in Hle.
    change (weight ShuttingDown) with 8 in Hle. lia.
  - destruct (leaving_moves f n _ _ Hi' Hl') as [He|He]; [right|by left].
    split; [done|]. by apply (exited_ran_all f n _ s').
Qed.

(** ** At concrete inputs: two workers *)

Definition call (phone : string) : WorkerPool.job := WorkerPool.call phone.
Definition defers0 : list deferred := local_defers Otel.Noop.

(** Two jobs, one of them begun, and the signal. *)
Definition until_signal : list action :=
  [Queue Request (call "1"); Queue Scheduler (call "2"); Work (WorkerPool.Range 0); Signal].

(** A request in flight queues a third; the server stops; the drain; a fourth comes
    too late; the workers end. *)
Definition way_out : list action :=
  [Queue Request (call "3"); ShutdownReturns; Deferred; Deferred; Deferred;
   Queue Request (call "4");
   Work (WorkerPool.Range 1); Work (WorkerPool.Finish 0); Work (WorkerPool.Range 0);
   Work (WorkerPool.Finish 1); Work (WorkerPool.Finish 0); Work (WorkerPool.Range 0);
   Work (WorkerPool.Range 1);
   WorkersGone; Deferred; Deferred; Deferred].

Definition run_of (actions : list action) (s : process) : list event * process :=
  match play (act defers0) actions s with Some r => r | None => ([], s) end.

Definition signalled : list event * process := run_of until_signal (serve 2).
Definition gone : list event * process := run_of way_out (snd signalled).

Example way_out_exits : at_ (snd gone) = Exited 0 /\
  ended (fst signalled ++ fst gone) = [call "1"; call "2"; call "3"].
Proof. split; reflexivity. Qed.

Lemma signal_leads_to_clean_exit_witness :
  length way_out <= 8 + 3 * 1 + 2 * 2 + 4 * 2 /\
  ((exists a es s2, queues a = false /\ act defers0 a (snd gone) = Moves es s2) \/
   (at_ (snd gone) = Exited 0 /\
    exists tr1 tr2, fst signalled ++ fst gone = tr1 ++ Ran ClosePool :: tr2 /\
      ended tr1 ≡ₚ queued (fst signalled ++ fst gone))).
Proof.
  apply (signal_leads_to_clean_exit Otel.Noop 2 (fst signalled) (snd signalled) way_out
           (fst gone) (snd gone)); [lia| |reflexivity..].
  apply (play_reached (act defers0) until_signal). reflexivity.
Defined.

(** The same signal, and a sweep of the scheduler that queues during the drain. *)
Definition late_sweep : list action :=
  until_signal ++ [ShutdownReturns; Deferred; Deferred; Deferred; Queue Scheduler (call "3")].

(** C34: A sweep of the campaign scheduler is waited for by nobody: in a process as main
    starts it, with eight workers, one that queues a job once the channel is closed
    ends the process with status 2, with a job that was accepted and never run, and
    the database never closed. *)
Theorem late_sweep_loses_jobs :
  exists tr s, reached (act defers0) (serve 8) tr s /\ at_ s = Exited 2 /\
    In (call "2") (queued tr) /\ ~ In (call "2") (ended tr) /\ ~ In (Ran ClosePool) tr.
Proof.
  exists (fst (run_of late_sweep (serve 8))), (snd (run_of late_sweep (serve 8))). split.
  - apply (play_reached (act defers0) late_sweep). reflexivity.
  - split; [reflexivity|]. split; [vm_compute; tauto|].
    split; vm_compute; intuition discriminate.
Qed.
End ServingSpec.
