(* ===== verification/AppSpec.v ===== *)
(** * What the binary guarantees

    The server of [App.handler] over every wiring a configuration can choose:
    which configurations start, and the isolation of tenants, with the laws of the
    ports discharged by the adapters; and what an order leads to. *)

From S2P Require Import Prelude.
From S2P Require Import Domain.
From S2P Require Import Effects.
From S2P Require Import GoLib.
From S2P Require Import Phone.
From S2P Require Import GoTime.
From S2P Require Import Store.
From S2P Require Import Crypto.
From S2P Require Import Ports.
From S2P Require Import PgCredits.
From S2P Require Import PgFlows.
From S2P Require Import PgCalls.
From S2P Require Import Billing.
From S2P Require Import Calls.
From S2P Require Import PgWebhooks.
From S2P Require Import Webhooks.
From S2P Require Import PgAuth.
From S2P Require Import PgChat.
From S2P Require Import Assistant.
From S2P Require Import Messaging.
From S2P Require Import PgCampaigns.
From S2P Require Import Orchestrator.
From S2P Require Import Campaigns.
From S2P Require Import PgIngest.
From S2P Require Import Analytics.
From S2P Require Import HttpOut.
From S2P Require Import HttpLib.
From S2P Require Import HttpAuth.
From S2P Require Import Bus.
From S2P Require Import Ratelimit.
From S2P Require Import Server.
From S2P Require Import Config.
From S2P Require Import Adapters.
From S2P Require Import App.
From S2P Require Import HttpCalls.
From S2P Require Import HttpDash.
From S2P Require Import Tenant.
From S2P Require Import TenantRepos.
From S2P Require Import TenantServices.
From S2P Require Import ServerSpec.
From S2P Require Import TenantSpec.
From S2P Require Import Json.
From S2P Require Import CallPolicy.
From S2P Require Import NoFault.
From S2P Require Import Accounting.
From S2P Require Import CallsSpec.
From S2P Require Import FlowsSpec.
From S2P Require Import Ingest.
From S2P Require Import IngestSpec.
From stdpp Require Import gmap strings list.
From Stdlib Require Import ZArith Lia.


Open Scope Z_scope.
Open Scope go_scope.

(** ** The adapters keep the laws of their ports *)

#[local] Existing Instances MockVoice.laws LocalOrchestrator.laws MockGateway.laws
  SslCommerz.gateway_laws Builtin.laws.

Ltac quietly := repeat first
  [ apply guar_ret | apply guar_fail | assumption
  | apply guar_bind; [|intros ?] | apply HttpOut.request_quiet
  | match goal with |- guar _ (match ?x with _ => _ end) => destruct x end
  | match goal with |- guar _ (if ?x then _ else _) => destruct x end
  | progress cbv zeta ].

(** One of two adapters was chosen by name. *)
Ltac chosen E := repeat match type of E with
  | (if ?x then _ else _) = _ => destruct x
  | Some _ = Some _ => injection E as <-
  | None = Some _ => discriminate E
  end.

Section Adapters.
Context {http : HttpOut.T} {http_laws : HttpOut.Laws http}.

#[local] Instance twilio_laws s : SMSSender.Laws (Twilio.sender s).
Proof. split. intros to text. unfold SMSSender.Send, Twilio.sender, Twilio.Send, expect_2xx. quietly. Qed.

#[local] Instance sms_log_laws : SMSSender.Laws SmsLog.sender.
Proof. by split. Qed.

#[local] Instance meta_laws : MessagingSender.Laws MetaSender.sender.
Proof.
  split. intros m. unfold MessagingSender.Send, MetaSender.sender, MetaSender.Send, expect_2xx.
  quietly.
Qed.

#[local] Instance log_messaging_laws : MessagingSender.Laws LogMessaging.sender.
Proof. by split. Qed.

Lemma rand_Read_quiet n : guar quiet (rand_Read n).
Proof. apply guar_act. intros env w. by apply quiet_silent. Qed.

#[local] Instance whisper_laws s : STT.Laws (Whisper.stt s).
Proof.
  split. intros audio loc. unfold STT.Transcribe, Whisper.stt, Whisper.Transcribe.
  apply guar_bind; [apply rand_Read_quiet|intros b]. quietly.
Qed.

#[local] Instance noop_stt_laws : STT.Laws NoopSTT.stt.
Proof. by split. Qed.

#[local] Instance reporter_laws : Reporter.Laws BuiltinReporter.reporter.
Proof. split. intros q d. unfold Reporter.Answer, BuiltinReporter.reporter. quietly. Qed.

(** The clients of other services touch nothing of this process. *)
Record ClientsLaws (c : Clients) : Prop := {
  sip_quiet : forall url key secret q,
    guar quiet (@SIPClient.CreateSIPParticipant (cl_LiveKit c url key secret) q);
  messages_quiet : forall key model cap system turns,
    guar quiet (@MessagesAPI.New (cl_Anthropic c key) model cap system turns);
  hatchet_quiet : forall client, cl_Hatchet c = Some client ->
    forall org phone flow, guar quiet (@HatchetClient.RunNoWait client org phone flow)
}.

Section Wired.
Context (clients : Clients) (clients_laws : ClientsLaws clients) (cfg : Config.Config).

(** What isolation needs of the adapters a configuration chose. *)
Record lawful (w : App.Wiring) : Prop := {
  lw_sms : SMSSender.Laws (App.wr_sms w);
  lw_voice : CallsOwn (App.wr_voice w);
  lw_stt : STT.Laws (App.wr_stt w);
  lw_gateway : PaymentGateway.Laws (App.wr_gateway w);
  lw_orch : QueuesOwn (App.wr_orch w);
  lw_model : ChatModel.Laws (App.wr_model w);
  lw_msg : MessagingSender.Laws (App.wr_msg w)
}.

Lemma sms_lawful x : App.smsSender cfg = Some x -> SMSSender.Laws x.
Proof using http_laws. unfold App.smsSender. intros E. chosen E; exact _. Qed.

Lemma voice_owned x : App.voice clients cfg = Some x -> CallsOwn x.
Proof using clients_laws.
  unfold App.voice. intros E. chosen E; [exact _|]. intros req.
  apply (guar_mono quiet); [intros w w'; apply on_behalf_quiet|].
  unfold VoiceProvider.PlaceCall, LiveKit.provider, LiveKit.PlaceCall, Id.New.
  apply guar_bind; [apply guar_bind; [apply rand_Read_quiet|intros ?; apply guar_ret]|].
  intros r. apply guar_bind; [by apply sip_quiet|intros ?; apply guar_ret].
Qed.

Lemma stt_lawful x : App.stt cfg = Some x -> STT.Laws x.
Proof using http_laws. unfold App.stt. intros E. chosen E; exact _. Qed.

Lemma gateway_lawful x : App.gateway cfg = Some x -> PaymentGateway.Laws x.
Proof using http_laws. unfold App.gateway. intros E. chosen E; exact _. Qed.

Lemma orch_owned x : App.orchestrator clients cfg = Some x -> QueuesOwn x.
Proof using clients_laws.
  unfold App.orchestrator. intros E. destruct (_ =? _)%string; [|injection E as <-; exact _].
  destruct (cl_Hatchet clients) as [client|] eqn:Ec; [|discriminate E]. injection E as <-.
  intros inp. apply (guar_mono quiet); [intros w w'; apply on_behalf_quiet|].
  by apply (hatchet_quiet clients).
Qed.

Lemma model_lawful x : App.chatModel clients cfg = Some x -> ChatModel.Laws x.
Proof using clients_laws.
  unfold App.chatModel. intros E. chosen E; [exact _|]. split. intros p h.
  unfold ChatModel.Reply, Anthropic.chat_model, Anthropic.Reply.
  destruct (Anthropic.fold_history p h) as [system msgs].
  apply guar_bind; [by apply messages_quiet|intros ?; apply guar_ret].
Qed.

Lemma msg_lawful x : App.msgSender cfg = Some x -> MessagingSender.Laws x.
Proof using http_laws. unfold App.msgSender. intros E. chosen E; exact _. Qed.

(** A wiring is one adapter for each port. *)
Lemma wire_inv w : App.wire clients cfg = Some w ->
  App.cipher clients cfg = Some (App.wr_cipher w) /\ App.smsSender cfg = Some (App.wr_sms w) /\
  App.emailSender cfg = Some (App.wr_email w) /\ App.voice clients cfg = Some (App.wr_voice w) /\
  App.stt cfg = Some (App.wr_stt w) /\ App.gateway cfg = Some (App.wr_gateway w) /\
  App.orchestrator clients cfg = Some (App.wr_orch w) /\
  App.chatModel clients cfg = Some (App.wr_model w) /\ App.msgSender cfg = Some (App.wr_msg w).
Proof using Type.
  unfold App.wire. intros E. repeat (apply bind_Some in E as (? & ? & E)). injection E as <-.
  by split_and!.
Qed.

Lemma wired_lawful w : App.wire clients cfg = Some w -> lawful w.
Proof using http_laws clients_laws.
  intros E. apply wire_inv in E as (_ & ? & _ & ? & ? & ? & ? & ? & ?).
  split; eauto using sms_lawful, voice_owned, stt_lawful, gateway_lawful, orch_owned,
    model_lawful, msg_lawful.
Qed.

(** ** Starting *)

(** The adapters each port may be configured with. *)
Definition adapters_known : Prop :=
  In (Config.SMSSender cfg) ["log"; "twilio"] /\ In (Config.EmailSender cfg) ["log"; "resend"] /\
  In (Config.VoiceProvider cfg) ["mock"; "livekit"] /\
  In (Config.STTProvider cfg) ["noop"; "whisper"] /\
  In (Config.PaymentGateway cfg) ["mock"; "sslcommerz"] /\
  In (Config.ChatProvider cfg) ["builtin"; "anthropic"] /\
  In (Config.MsgSender cfg) ["log"; "meta"].

Lemma one_of {X} (v a b : string) (x y : X) :
  is_Some (if (v =? a)%string then Some x else if (v =? b)%string then Some y else None)
  <-> In v [a; b].
Proof using Type.
  destruct (String.eqb_spec v a) as [->|Ha]; [by split; [left|eexists]|].
  destruct (String.eqb_spec v b) as [->|Hb]; [by split; [right; left|eexists]|].
  split; [by intros [? ?]|]. by intros [E|[E|[]]].
Qed.

Lemma wire_iff :
  is_Some (App.wire clients cfg) <->
  is_Some (App.cipher clients cfg) /\ is_Some (App.smsSender cfg) /\
  is_Some (App.emailSender cfg) /\ is_Some (App.voice clients cfg) /\ is_Some (App.stt cfg) /\
  is_Some (App.gateway cfg) /\ is_Some (App.orchestrator clients cfg) /\
  is_Some (App.chatModel clients cfg) /\ is_Some (App.msgSender cfg).
Proof using Type.
  split.
  - intros [w E]. apply wire_inv in E. decompose [and] E. split_and!; by eexists.
  - intros ([? E1] & [? E2] & [? E3] & [? E4] & [? E5] & [? E6] & [? E7] & [? E8] & [? E9]).
    unfold App.wire. rewrite E1, E2, E3, E4, E5, E6, E7, E8, E9. by eexists.
Qed.

Lemma cipher_iff :
  is_Some (App.cipher clients cfg) <->
  exists key, Cipher.New (Config.EncryptionKey cfg) = inl key.
Proof using Type.
  unfold App.cipher. destruct (Cipher.New _) as [key|e]; [by split; eexists|].
  by split; [intros [? ?]|intros [? ?]].
Qed.

Lemma orchestrator_iff :
  is_Some (App.orchestrator clients cfg) <->
  (Config.Orchestrator cfg = "hatchet" -> cl_Hatchet clients <> None).
Proof using Type.
  unfold App.orchestrator. destruct (String.eqb_spec (Config.Orchestrator cfg) "hatchet").
  - destruct (cl_Hatchet clients); [by split; [|eexists]|]. split; [by intros [? ?]|].
    intros H. by destruct (H e).
  - by split; [|eexists].
Qed.

(** Every port gets an adapter exactly with names the code knows, an encryption key of 32 bytes
    in base64, and an environment for Hatchet when it is chosen: any other
    orchestrator name starts too, with the local one. *)
Theorem starts_iff :
  is_Some (App.wire clients cfg) <->
  adapters_known /\ (exists key, Cipher.New (Config.EncryptionKey cfg) = inl key) /\
  (Config.Orchestrator cfg = "hatchet" -> cl_Hatchet clients <> None).
Proof using Type.
  rewrite wire_iff, cipher_iff, orchestrator_iff. unfold adapters_known, App.smsSender,
    App.emailSender, App.voice, App.stt, App.gateway, App.chatModel, App.msgSender.
  rewrite !one_of. tauto.
Qed.
End Wired.

(** ** Tenants *)

Section Isolation.
Context {uuid : Uuid.T} {uuid_laws : Uuid.Laws uuid} {sha : SHA256.T} {hmac : HMAC.T}
  {bcrypt : Bcrypt.T} {tz : TimeZones.T} {local : LocalZone.T}.
Context (clients : Clients) (clients_laws : ClientsLaws clients) (assets : Assets).
Context (authLimit publicLimit : RateLimiter.T) {auth_limit_laws : RateLimiter.Laws authLimit}
  {public_limit_laws : RateLimiter.Laws publicLimit}.
Context (activity : ActivityPublisher.T) {activity_laws : ActivityPublisher.Laws activity}
  (feed : OrgID -> list Stream.input).

(** C5: With any adapters a configuration can choose, outside development, and
    tables whose ids name one owner each: a request other than the two callbacks
    of third parties (POST /webhooks/payment and POST /webhooks/meta), from someone
    who is neither signed in as the owner of [o] nor holds one of its keys, leaves
    every row of [o], its queued jobs and the calls dialled for it as they were,
    whatever the route and whatever statements or services fail underway; and ids
    still name one owner. *)
Theorem binary_isolates_tenants (o : OrgID) (cfg : Config.Config) (wiring : App.Wiring)
    (env : Env) (r : Request) (w : World) :
  Config.Env cfg <> "dev" -> App.wire clients cfg = Some wiring ->
  callback r = false ->
  well_named o (w_db w) -> canonical_orgs (w_db w) -> stranger o r (w_db w) ->
  kept o w (snd (run env
    (App.handler assets authLimit publicLimit activity feed cfg wiring r) w)).
Proof using All.
  intros Hdev Hw Hcb Hn Hc Hs.
  destruct (wired_lawful clients clients_laws cfg wiring Hw).
  unfold App.handler. eapply leaves_serve; try exact _; try done.
  - by intros p [= <-].
  - by apply String.eqb_neq.
Qed.
End Isolation.
End Adapters.

(** ** From an order to its call

    The binary with the in-process orchestrator and the development voice provider,
    when nothing fails. *)

Section Order.
Context {tz : TimeZones.T} {local : LocalZone.T} {hmac : HMAC.T} {sha : SHA256.T}
  {bcrypt : Bcrypt.T} {uuid : Uuid.T} {http : HttpOut.T}.
Context (assets : Assets) (authLimit publicLimit : RateLimiter.T)
  (activity : ActivityPublisher.T) (feed : OrgID -> list Stream.input).
Context (cfg : Config.Config) (wr : App.Wiring).
Context (Hvoice : App.wr_voice wr = MockVoice.provider)
  (Horch : App.wr_orch wr = LocalOrchestrator.orch).
Context (env : Env) (Hnf : forall n, env_fault env n = NoFault).

(** The throttle lets the shop through, and a notice by email changes nothing here. *)
Context (Hopen : forall k w, run env (@RateLimiter.Allow publicLimit k) w = (Ok true, w)).
Context (Hemail : forall to subject body w, exists r w',
  run env (@EmailSender.Send (App.wr_email wr) to subject body) w = (r, w') /\ r <> Panic /\
  w_st w' = w_st w).

#[local] Existing Instances PgCreditRepo.repo PgOutcomeRepo.repo PgCallPolicyRepo.repo
  PgFlowRepo.repo PgOrgRepo.repo PgCustomerRepo.repo PgEventRepo.repo PgAPIKeyRepo.repo
  RealClock.clock.

(** A secret key of the shop. *)
Context (key : string) (org : OrgID).
Context (Hprefix : Apikey.Prefix key = Some (Strings.take 15 key))
  (Hkey : text_ok (Strings.take 15 key) = true).

Definition holds_key (d : DB) : Prop :=
  option_map (fun r => (key_org_id r, key_kind r, key_secret_hash r))
    (key_of d (Strings.take 15 key)) = Some (org, "secret", SHA256.Sum256 key).

Definition event_request (remote raw : string) : Request :=
  mkRequest "POST" ["v1"; "events"] "" [("X-Api-Key", key)] "application/json" false remote raw.

Definition event_of (raw : string) (b : IngestHandler.eventBody) : Ingest.Event :=
  Ingest.mkEvent (IngestHandler.eb_EventType b) (IngestHandler.eb_EventID b)
    (IngestHandler.eb_Phone b) (IngestHandler.eb_Name b) (IngestHandler.eb_ExternalID b) raw.

Definition accepted (eventID : string) : Response :=
  writeJSON 202 (jmap [("status", JStr "accepted"); ("event_id", JStr eventID)]).
Definition duplicate : Response := status_json 200 "status" "duplicate".

Abbreviation serve := (App.handler assets authLimit publicLimit activity feed cfg wr).

(** The world an event is handled in: the key's row has been touched. *)
Definition touched (w w1 : World) : Prop :=
  holds_key (w_db w1) /\
  exists ks, w_st w1 = set_db (set_api_keys ks (w_db w)) (w_st w).

(** The route of an event, down to the intake. *)
Lemma run_event remote raw b w :
  holds_key (w_db w) -> Z.of_nat (String.length raw) <= 2 ^ 20 ->
  Json.Unmarshal IngestHandler.dEventBody IngestHandler.zeroEventBody raw = Some b ->
  IngestHandler.eb_EventType b <> "" -> IngestHandler.eb_EventID b <> "" ->
  exists w1, touched w w1 /\ forall id dup w',
    run env (Ingest.Accept (orch := App.wr_orch wr) org (event_of raw b)) w1 = (Ok (id, dup), w') ->
    run env (serve (event_request remote raw)) w = (Ok (if dup then duplicate else accepted id), w').
Proof using Hprefix Hopen Hnf Hkey.
  intros Hk Hlen Hb Ht Hid. pose proof Hk as Hk'. unfold holds_key in Hk.
  destruct (key_of (w_db w) (Strings.take 15 key)) as [r|] eqn:Er; [|done].
  injection Hk as Ho Hkind Hh. eexists. split.
  2:{ intros id dup w' Hacc.
    transitivity (run env (throttle publicLimit (IngestHandler.requireAPIKey
      (IngestHandler.postEvent (orch := App.wr_orch wr))) (event_request remote raw)) w);
      [reflexivity|].
    unfold throttle. rewrite run_bind, Hopen. cbn [negb].
    unfold IngestHandler.requireAPIKey. rewrite run_bind, run_try.
    change (header_get (rq_Header (event_request remote raw)) "X-Api-Key") with key.
    rewrite (run_Authenticate env Hnf key r) by done. rewrite Ho, Hkind. cbn [negb orb].
    rewrite String.eqb_refl. cbn [negb]. unfold IngestHandler.postEvent.
    change (rq_Body (event_request remote raw)) with raw.
    rewrite limited_short, Hb by done. apply String.eqb_neq in Ht, Hid. rewrite Ht, Hid.
    cbn [orb]. rewrite run_bind, run_try. unfold event_of in Hacc. rewrite Hacc. by destruct dup. }
  split; [|by eexists]. unfold holds_key.
  etransitivity; [apply (touched_same_keys _ _ (w_db w))|exact Hk'].
Qed.

(** A low balance is noticed by email, if at all. *)
Lemma notice_returns : notifier_returns env (notifier := App.notifier wr).
Proof using Hemail Hnf.
  intros o balance w. change (exists w',
    run env (Notify.LowBalance (email := App.wr_email wr) o balance) w = (Ok tt, w') /\
    w_st w' = w_st w).
  unfold Notify.LowBalance. rewrite run_bind, run_try.
  assert (exists r w1, run env (OrgStore.OwnerEmail o) w = (r, w1) /\ r <> Panic /\
    w_st w1 = w_st w) as (r & w1 & -> & Hr & S1).
  { change (@OrgStore.OwnerEmail _ o) with (PgOrgRepo.OwnerEmail o).
    unfold PgOrgRepo.OwnerEmail, PgAuthRepo.with_uuid.
    destruct (Uuid.Parse o) as [id|]; [|by eexists _, _].
    rewrite (run_exec_read env Hnf)
      by (intros ctx d a d'; unfold OrgQ.GetOrgOwnerEmail; repeat split_match; by intros [= _ <-]).
    eexists _, _. split; [reflexivity|]. by destruct (OrgQ.GetOrgOwnerEmail _ _ _) as [[]|]. }
  destruct r as [to|e|]; [|by exists w1|done].
  destruct (to =? "")%string; [by exists w1|]. rewrite run_ignore.
  destruct (Hemail to "Your Yaver credits are running low" (Notify.low_balance_body balance) w1)
    as (r & w2 & -> & Hp & S2).
  exists w2. rewrite S2. by destruct r.
Qed.

(** The active flow calls are routed to by name. *)
Definition routed (d : DB) (name : string) : option Flow :=
  match tsort (fun r => - flowr_version r) (active_flows d org name) with
  | r :: _ => match PgFlowRepo.decode_row r with inl (f, true) => Some f | _ => None end
  | [] => None
  end.

Lemma routed_answers d f :
  routed d "order_confirm" = Some f ->
  answers env org (fun _ => (f, true)) (flows d) "order_placed".
Proof using Hnf.
  intros H name w [= <-] Hf. exists (tick w). split; [|done].
  change (@FlowRepo.GetActiveFlow _ org) with (PgFlowRepo.GetActiveFlow org).
  rewrite (run_GetActiveFlow env Hnf) by done. revert H. unfold routed, active_flows. rewrite Hf.
  destruct (tsort _ _) as [|x t]; [done|].
  destruct (PgFlowRepo.decode_row x) as [[f' []]|]; by intros [= ->].
Qed.

(** One reception of a worker, with one job queued. *)
Lemma run_worker inp w :
  s_jobs (w_st w) = [inp] -> fresh_ids env (w_db w) ->
  balance_of (w_st w) (pci_OrgID inp) <= int32_max ->
  exists w', run env (LocalOrchestrator.worker (App.place_call wr) 1) w = (Ok tt, w') /\
    if CallPolicy.Allows (policy_of (w_db w) (pci_OrgID inp)) (env_clock env (S (w_tick w)))
       && (1 <=? balance_of (w_st w) (pci_OrgID inp))
    then placed inp (set_jobs [] (w_st w)) (w_st w')
    else w_st w' = set_jobs [] (w_st w).
Proof using Hvoice Hemail Hnf.
  intros Hj Hids Hmax. set (w1 := mkWorld (w_tick w) (set_jobs [] (w_st w))).
  destruct (run_PlaceCall env Hnf inp w1 notice_returns Hids Hmax) as (r & w' & Hrun & Hr).
  exists w'. cbn [LocalOrchestrator.worker]. rewrite run_bind.
  unfold LocalOrchestrator.take. rewrite run_act, Hj. cbv beta iota. fold w1.
  rewrite run_bind, run_ignore. unfold App.place_call. rewrite Hvoice, Hrun.
  change (policy_of (w_db w1) (pci_OrgID inp)) with (policy_of (w_db w) (pci_OrgID inp)) in Hr.
  change (balance_of (w_st w1)) with (balance_of (w_st w)) in Hr.
  change (w_tick w1) with (w_tick w) in Hr.
  destruct (CallPolicy.Allows _ _); cbn [negb andb] in *; [|by destruct Hr as [-> ->]].
  destruct (Z.ltb_spec (balance_of (w_st w) (pci_OrgID inp)) 1) as [H|H].
  - destruct Hr as [-> ->]. by rewrite (proj2 (Z.leb_gt _ _) H).
  - destruct Hr as [-> Hp]. by rewrite (proj2 (Z.leb_le _ _) H).
Qed.

(** What came of the call: it is charged, dialled and recorded; or it is dropped, for
    want of credit or because the calling window is closed. *)
Definition called (job : PlaceCallInput) (st st' : State) : Prop :=
  balance_of st' (pci_OrgID job) = balance_of st (pci_OrgID job) - 1 /\
  exists pid row, queued_for job row /\ calls (s_db st') = calls (s_db st) ++ [row] /\
    s_trace st' =
      EDial (mkCallRequest (pci_OrgID job) (pci_ToPhone job) "" zeroFlow) pid :: s_trace st.

Definition dropped (org : OrgID) (st st' : State) : Prop :=
  balance_of st' org = balance_of st org /\ s_trace st' = s_trace st /\
  calls (s_db st') = calls (s_db st).

Lemma placed_called job st st1 st' :
  placed job st1 st' -> balance_of st1 (pci_OrgID job) = balance_of st (pci_OrgID job) ->
  s_trace st1 = s_trace st -> calls (s_db st1) = calls (s_db st) -> called job st st'.
Proof using Type.
  intros (pid & led & row & now & Hq & ->) Hb Ht Hc. split.
  - unfold balance_of at 1. cbn. by rewrite lookup_insert_eq, Hb.
  - exists pid, row. cbn. by rewrite Ht, Hc.
Qed.

(** A body that decodes to an event of the shop, for a Bangladeshi number. *)
Record well_sent (raw : string) (b : IngestHandler.eventBody) (e164 : string) : Prop := {
  ws_short : Z.of_nat (String.length raw) <= 2 ^ 20;
  ws_body : Json.Unmarshal IngestHandler.dEventBody IngestHandler.zeroEventBody raw = Some b;
  ws_type : IngestHandler.eb_EventType b <> "";
  ws_id : IngestHandler.eb_EventID b <> "";
  ws_texts : forallb text_ok [org; IngestHandler.eb_EventType b; IngestHandler.eb_EventID b;
    IngestHandler.eb_Name b; IngestHandler.eb_ExternalID b] = true;
  ws_jsonb : is_Some (env_jsonb env raw);
  ws_phone : Phone.NormalizeBD (IngestHandler.eb_Phone b) = inl e164
}.

Lemma phone_normal phone e164 :
  Phone.NormalizeBD phone = inl e164 ->
  Ingest.normalize phone = inl e164 /\ (e164 =? "")%string = false.
Proof using Type.
  intros H. unfold Ingest.normalize.
  destruct (String.eqb_spec phone "") as [->|_]; [done|]. rewrite H. split; [done|].
  by destruct (Phone.normalize_shape _ _ H) as (d & -> & _).
Qed.

Lemma order_accepted remote raw b e164 f w :
  holds_key (w_db w) -> well_sent raw b e164 -> IngestHandler.eb_EventType b = "order_placed" ->
  event_known (w_db w) org (IngestHandler.eb_EventID b) = false ->
  opts_out (w_db w) org e164 = false -> routed (w_db w) "order_confirm" = Some f ->
  (forall n r, In r (events (w_db w)) -> event_id r <> id_at env "evt" n) ->
  (forall n r, In r (customers (w_db w)) -> cust_id r <> id_at env "cust" n) ->
  exists row cs ks w1,
    run env (serve (event_request remote raw)) w = (Ok (accepted (event_id row)), w1) /\
    holds_key (w_db w1) /\ event_org_id row = org /\
    event_external_event_id row = IngestHandler.eb_EventID b /\
    w_st w1 = mkState (set_customers cs (set_events (events (w_db w) ++ [row])
        (set_api_keys ks (w_db w)))) (s_trace (w_st w))
      (s_jobs (w_st w) ++ [mkPlaceCallInput org e164 (flow_ID f)]).
Proof using All.
  intros Hk [] Htyp Hnew Hout Hflow Hev Hcu.
  destruct (run_event remote raw b w) as (wt & [Hkt (ks & St)] & Hserve); [done..|].
  rewrite Horch in Hserve. destruct (phone_normal _ _ ws_phone0) as [Hn He].
  assert (w_db wt = set_api_keys ks (w_db w)) as Dt by (unfold w_db; by rewrite St).
  pose proof (run_Accept env Hnf org (fun _ => (f, true)) (event_of raw b) wt) as Ha.
  rewrite Dt in Ha. specialize (Ha Hev Hcu ws_texts0 ws_jsonb0).
  cbn [event_of Ingest.ev_Phone Ingest.ev_Type Ingest.ev_ExternalID] in Ha.
  rewrite Htyp, Hn in Ha. specialize (Ha (routed_answers (w_db w) f Hflow)).
  change (event_known (set_api_keys ks (w_db w))) with (event_known (w_db w)) in Ha.
  rewrite Hnew in Ha. destruct Ha as (row & cs & w1 & Hacc & Ho & Hx & S1).
  exists row, cs, ks, w1. split; [exact (Hserve _ _ _ Hacc)|].
  assert (w_st w1 = mkState (set_customers cs (set_events (events (w_db w) ++ [row])
    (set_api_keys ks (w_db w)))) (s_trace (w_st w))
    (s_jobs (w_st w) ++ [mkPlaceCallInput org e164 (flow_ID f)])) as S1'.
  { rewrite S1, St. unfold asked_call. rewrite He.
    change (opts_out (set_api_keys ks (w_db w))) with (opts_out (w_db w)).
    cbn [event_of Ingest.ev_Type]. by rewrite Hout, Htyp. }
  split_and!; [|done..]. unfold w_db. rewrite S1'. unfold holds_key in *. by rewrite Dt in Hkt.
Qed.

(** The same event once more. *)
Lemma order_repeated remote raw b e164 w :
  holds_key (w_db w) -> well_sent raw b e164 ->
  event_known (w_db w) org (IngestHandler.eb_EventID b) = true ->
  exists w' ks, run env (serve (event_request remote raw)) w = (Ok duplicate, w') /\
    w_st w' = set_db (set_api_keys ks (w_db w)) (w_st w).
Proof using All.
  intros Hk [] Hknown.
  destruct (run_event remote raw b w) as (wt & [_ (ks & St)] & Hserve); [done..|].
  rewrite Horch in Hserve. destruct (phone_normal _ _ ws_phone0) as [Hn _].
  eexists _, ks. split.
  - eapply (Hserve "" true). apply (run_Accept_dup env Hnf org _ e164); try done.
    unfold w_db. by rewrite St.
  - exact St.
Qed.

(** C4: What an order leads to, from the merchant's request to the phone: the event is
    accepted; the job it queued, once a worker takes it, dials the customer, for one
    credit of the shop, and records the call of the order's flow, when the calling
    window is open and there is credit, and is dropped otherwise; and the same
    request again is answered as a duplicate and changes nothing but when the key was
    last used. *)
Theorem order_places_its_call remote raw b e164 f w :
  holds_key (w_db w) -> well_sent raw b e164 -> IngestHandler.eb_EventType b = "order_placed" ->
  event_known (w_db w) org (IngestHandler.eb_EventID b) = false ->
  opts_out (w_db w) org e164 = false -> routed (w_db w) "order_confirm" = Some f ->
  s_jobs (w_st w) = [] -> balance_of (w_st w) org <= int32_max -> fresh_ids env (w_db w) ->
  (forall n r, In r (events (w_db w)) -> event_id r <> id_at env "evt" n) ->
  (forall n r, In r (customers (w_db w)) -> cust_id r <> id_at env "cust" n) ->
  exists eid w1 w2 w3 ks,
    run env (serve (event_request remote raw)) w = (Ok (accepted eid), w1) /\
    run env (LocalOrchestrator.worker (App.place_call wr) 1) w1 = (Ok tt, w2) /\
    s_jobs (w_st w2) = [] /\
    (if CallPolicy.Allows (policy_of (w_db w) org) (env_clock env (S (w_tick w1)))
        && (1 <=? balance_of (w_st w) org)
     then called (mkPlaceCallInput org e164 (flow_ID f)) (w_st w) (w_st w2)
     else dropped org (w_st w) (w_st w2)) /\
    run env (serve (event_request remote raw)) w2 = (Ok duplicate, w3) /\
    w_st w3 = set_db (set_api_keys ks (w_db w2)) (w_st w2).
Proof using All.
  intros Hk Hs Htyp Hnew Hout Hflow Hj Hmax Hids Hev Hcu.
  destruct (order_accepted remote raw b e164 f w Hk Hs Htyp Hnew Hout Hflow Hev Hcu)
    as (row & cs & ks & w1 & Hrun & Hk1 & Ho & Hx & S1).
  set (job := mkPlaceCallInput org e164 (flow_ID f)) in *. rewrite Hj in S1. cbn [app] in S1.
  destruct (run_worker job w1) as (w2 & Hw & Hd); [by rewrite S1|unfold w_db; by rewrite S1..|].
  assert (policy_of (w_db w1) org = policy_of (w_db w) org) as Ep by (unfold w_db; by rewrite S1).
  assert (balance_of (w_st w1) org = balance_of (w_st w) org) as Eb by (by rewrite S1).
  change (pci_OrgID job) with org in Hd. rewrite Ep, Eb in Hd.
  assert (s_jobs (w_st w2) = [] /\ events (w_db w2) = events (w_db w1) /\
    api_keys (w_db w2) = api_keys (w_db w1)) as (J2 & E2 & K2).
  { unfold w_db. destruct (_ && _); [destruct Hd as (? & ? & ? & ? & _ & ->)|rewrite Hd]; done. }
  destruct (order_repeated remote raw b e164 w2) as (w3 & ks' & Hrun3 & S3); [| exact Hs| |].
  - unfold holds_key, key_of in *. by rewrite K2.
  - unfold event_known in *. rewrite E2. unfold w_db at 1. rewrite S1. cbn.
    rewrite tfind_app. destruct (tfind _ (events (w_db w))); [done|]. cbn.
    unfold EventRepo.same_event. by rewrite Ho, Hx, !String.eqb_refl.
  - exists (event_id row), w1, w2, w3, ks'. split_and!; try done.
    destruct (_ && _).
    + eapply placed_called; [exact Hd|..]; by rewrite S1.
    + unfold dropped. rewrite Hd. by rewrite S1.
Qed.
End Order.
