(* ===== verification/Typed.v ===== *)
(** * Well-typed databases

    The migrations declare the status, kind, role and phone columns as text, with
    no CHECK constraint: the values a row may have are kept by the code alone.
    Here the types of the rows, and the logic in which the programs are shown to
    keep them: [yields p Q] says that every step of [p] takes a well-typed database
    to a well-typed one, and that a result satisfies [Q].  Since it asks nothing of
    the database between two steps but that it is well typed, it holds under
    every interleaving with programs that do the same. *)

From S2P Require Import Prelude.
From S2P Require Import Domain.
From S2P Require Import Effects.
From S2P Require Import GoLib.
From S2P Require Import Store.
From S2P Require Import Phone.
From S2P Require Import Ports.
From S2P Require Import PgCalls.
From S2P Require Import CallPolicy.
From S2P Require Import PgChat.
From S2P Require Import PgIngest.
From S2P Require Import Ingest.
From stdpp Require Import gmap strings list.
From Stdlib Require Import ZArith Lia.

Open Scope Z_scope.
Open Scope go_scope.

(** ** The types of rows *)

(** A number as NormalizeBD writes it. *)
Definition normal (p : string) : Prop := Phone.NormalizeBD p = inl p.

Section Rows.
Context {tz : TimeZones.T}.

Definition user_typed (r : UserRow) : Prop :=
  (user_phone r <> None \/ user_email r <> None) /\
  forall p, user_phone r = Some p -> normal p.

Definition otp_typed (r : OtpRow) : Prop := normal (otp_phone r) /\ 0 <= otp_attempts r.

Definition flow_typed (r : FlowRow) : Prop :=
  flowr_name r <> "" /\ In (flowr_type r) [FlowIVR; FlowChat] /\ flowr_channel r <> "" /\
  flowr_locale r <> "" /\ flowr_is_active r = true.

(** Every call the program makes is outbound. *)
Definition call_typed (r : CallRow) : Prop :=
  callr_direction r = Outbound /\
  In (callr_status r) [StatusQueued; StatusCompleted; StatusNoAnswer].

(** The kind of a key can be read off its prefix. *)
Definition key_typed (r : ApiKeyRow) : Prop :=
  (key_kind r = "secret" /\ Strings.HasPrefix (key_prefix r) Apikey.SecretScheme = true) \/
  (key_kind r = "publishable" /\
   Strings.HasPrefix (key_prefix r) Apikey.PublishableScheme = true).

Definition event_typed (r : EventRow) : Prop :=
  event_type r <> "" /\ event_external_event_id r <> "" /\ event_status r = "received".

Definition outbox_typed (r : OutboxRow) : Prop :=
  In (ob_event r) ["call.completed"; "call.no_answer"].

Definition delivery_typed (r : DeliveryRow) : Prop :=
  In (dlv_status r) ["pending"; "delivered"; "dead"] /\ 0 <= dlv_attempts r /\
  (dlv_status r = "delivered" -> dlv_delivered_at r <> None).

Definition customer_typed (r : CustomerRow) : Prop := normal (cust_phone r).

(** What is filled in at each stage of a campaign. *)
Definition campaign_typed (r : CampaignRow) : Prop :=
  (camp_status r = "draft" /\ camp_target_count r = 0 /\ camp_started_at r = None /\
   camp_scheduled_at r = None) \/
  (camp_status r = "scheduled" /\ camp_target_count r = 0 /\ camp_started_at r = None /\
   camp_scheduled_at r <> None) \/
  (camp_status r = "completed" /\ camp_started_at r <> None).

Definition recipient_typed (r : RecipientRow) : Prop := normal (rcp_phone r).

Definition channels : list string := ["whatsapp"; "messenger"].

Definition conversation_typed (r : ConversationRow) : Prop :=
  In (conv_status r) [ConvOpen; ConvHandling; ConvClosed] /\
  In (conv_channel r) ("chat" :: channels) /\
  (conv_channel r = "chat" -> conv_external_user r = None).

Definition message_typed (r : MessageRow) : Prop :=
  In (msg_role r) ["user"; "assistant"; "agent"].

Definition outcomes : list string :=
  [OutcomeResolved; OutcomePending; OutcomeSale; OutcomeNeedsHuman; OutcomeUnknown].
Definition sentiments : list string := [SentimentPositive; SentimentNeutral; SentimentNegative].

Definition insight_typed (outcome sentiment : string) : Prop :=
  In outcome outcomes /\ In sentiment sentiments.

Definition channel_typed (r : ChannelRow) : Prop :=
  In (chan_type r) channels /\ chan_external_id r <> "" /\ chan_verify_token r <> "".

(** A payment is settled once, as paid or as failed. *)
Definition payment_typed (r : PaymentRow) : Prop :=
  0 < pmt_credits r <= 100000 /\ pmt_amount_bdt r = pmt_credits r /\
  ((pmt_status r = PaymentPending /\ pmt_settled_at r = None) \/
   (In (pmt_status r) [PaymentPaid; PaymentFailed] /\ pmt_settled_at r <> None)).

Definition policy_typed (r : CallPolicyRow) : Prop :=
  CallPolicy.Valid (mkCallPolicy (polr_window_start r) (polr_window_end r) (polr_timezone r)
                      (polr_max_retries r)) = true.

(** Every row has its type, a session and an organisation belong to a user that
    exists, and a message and an insight to a conversation that exists. *)
Record well_typed (d : DB) : Prop := {
  wt_users : Forall user_typed (users d);
  wt_sessions : Forall (fun r => In (session_user_id r) (map user_id (users d))) (sessions d);
  wt_owners : Forall (fun r => In (orgr_owner_user_id r) (map user_id (users d))) (orgs d);
  wt_otps : Forall otp_typed (otp_codes d);
  wt_flows : Forall flow_typed (flows d);
  wt_calls : Forall call_typed (calls d);
  wt_keys : Forall key_typed (api_keys d);
  wt_events : Forall event_typed (events d);
  wt_outbox : Forall outbox_typed (webhook_outbox d);
  wt_deliveries : Forall delivery_typed (webhook_deliveries d);
  wt_customers : Forall customer_typed (customers d);
  wt_campaigns : Forall campaign_typed (campaigns d);
  wt_recipients : Forall recipient_typed (campaign_recipients d);
  wt_conversations : Forall conversation_typed (conversations d);
  wt_messages : Forall message_typed (messages d);
  wt_threads : Forall (fun r => In (msg_conversation_id r) (map conv_id (conversations d)))
                 (messages d);
  wt_insights : map_Forall (fun c r => insight_typed (insr_outcome r) (insr_sentiment r) /\
                              In c (map conv_id (conversations d))) (conversation_insights d);
  wt_channels : Forall channel_typed (channel_connections d);
  wt_payments : Forall payment_typed (payments d);
  wt_balances : map_Forall (fun _ b => 0 <= b) (org_credits d);
  wt_policies : map_Forall (fun _ r => policy_typed r) (org_call_policy d)
}.

(** A database with nothing in it. *)
Lemma empty_typed : well_typed emptyDB.
Proof using. split; try apply Forall_nil_2; apply map_Forall_empty. Qed.

(** ** Programs that keep the types *)

Fixpoint yields {A} (p : prog World A) (Q : A -> Prop) : Prop :=
  match p with
  | Done (Ok a) => Q a
  | Done _ => True
  | Step f g => forall env w, well_typed (w_db w) ->
      well_typed (w_db (snd (f env w))) /\ yields (g (fst (f env w))) Q
  end.

Abbreviation keeps p := (yields p (fun _ => True)).

Lemma yields_mono {A} (p : prog World A) (Q Q' : A -> Prop) :
  (forall a, Q a -> Q' a) -> yields p Q -> yields p Q'.
Proof using.
  intros HQ. induction p as [[a|e|]|X f g IH]; simpl; auto.
  intros H env w Hw. destruct (H env w Hw). split; [done|]. by apply IH.
Qed.

Lemma yields_keeps {A} (p : prog World A) Q : yields p Q -> keeps p.
Proof using. by apply yields_mono. Qed.

Lemma yields_bind {A B} (Q : A -> Prop) (p : prog World A) (k : A -> prog World B) Q' :
  yields p Q -> (forall a, Q a -> yields (k a) Q') -> yields (pbind p k) Q'.
Proof using.
  intros Hp Hk. induction p as [[a|e|]|X f g IH]; simpl in *; auto.
  intros env w Hw. destruct (Hp env w Hw). split; [done|]. by apply IH.
Qed.

Lemma keeps_bind {A B} (p : prog World A) (k : A -> prog World B) Q' :
  keeps p -> (forall a, yields (k a) Q') -> yields (pbind p k) Q'.
Proof using. intros Hp Hk. by eapply yields_bind. Qed.

Lemma yields_try {A} (p : prog World A) Q :
  yields p Q -> yields (ptry p) (fun r => match r with inl a => Q a | inr _ => True end).
Proof using.
  intros Hp. induction p as [[a|e|]|X f g IH]; simpl in *; auto.
  intros env w Hw. destruct (Hp env w Hw). split; [done|]. by apply IH.
Qed.

Lemma keeps_try {A} (p : prog World A) : keeps p -> keeps (ptry p).
Proof using. intros H. by apply yields_keeps in H as H'; eapply yields_mono; [|apply yields_try]. Qed.

Lemma keeps_ignore {A} (p : prog World A) : keeps p -> keeps (pignore p).
Proof using. intros H. apply keeps_bind; [by apply keeps_try|done]. Qed.

Lemma yields_ret {A} (a : A) (Q : A -> Prop) : Q a -> yields (ret a) Q.
Proof using. done. Qed.

(** A step that leaves the database as it is. *)
Lemma keeps_guar {A} (p : prog World A) :
  guar (fun w w' => w_db w' = w_db w) p -> keeps p.
Proof using.
  induction p as [[a|e|]|X f g IH]; simpl; try done.
  intros H env w Hw. destruct (H env w) as [E Hk]. rewrite E. split; [done|]. by apply IH.
Qed.

Lemma keeps_silent {A} (p : prog World A) : guar silent p -> keeps p.
Proof using.
  intros H. apply keeps_guar. eapply guar_mono; [|exact H]. unfold silent, w_db. by intros ? ? ->.
Qed.

Lemma keeps_quiet {A} (p : prog World A) : guar quiet p -> keeps p.
Proof using.
  intros H. apply keeps_guar. eapply guar_mono; [|exact H]. by intros w w' [E _].
Qed.

(** A statement, and what its rows are known to be. *)
Definition stmt_typed {A} (s : stmt A) (Q : A -> Prop) : Prop :=
  forall ctx d a d', s ctx d = inl (a, d') -> well_typed d -> well_typed d' /\ Q a.

Lemma yields_exec {A} (s : stmt A) Q : stmt_typed s Q -> yields (exec s) Q.
Proof using.
  intros Hs env w Hw. simpl. unfold exec_step. set (ctx := sql_ctx _ _ _).
  destruct (s ctx (w_db w)) as [[a d]|e] eqn:E; destruct (env_fault env (w_tick w)); simpl;
    split; try done; try (by apply (Hs ctx (w_db w) a d E Hw)).
Qed.

Lemma keeps_read {A} (s : stmt A) : read_only s -> keeps (exec s).
Proof using. intros Hs. apply yields_exec. intros ctx d a d' E Hw. by apply Hs in E as ->. Qed.

(** One atomic change. *)
Lemma yields_lin {A} (S : step_spec A) (p : prog World A) (Q : A -> Prop) :
  (forall st r st', S st r st' -> well_typed (s_db st) ->
     well_typed (s_db st') /\ match r with Ok a => Q a | _ => True end) ->
  lin S p -> yields p Q.
Proof using.
  intros HS. induction p as [r|X f g IH]; simpl; [done|].
  intros H env w Hw. destruct (H env w) as [[E Hk]|(r & E & Hr)].
  - unfold w_db. rewrite E. split; [done|]. by apply IH.
  - destruct (HS _ _ _ Hr Hw) as [Hw' Hq]. rewrite E. split; [done|]. by destruct r.
Qed.

(** ** Runs and pools *)

Lemma yields_run {A} env (p : prog World A) Q w :
  yields p Q -> well_typed (w_db w) -> well_typed (w_db (snd (run env p w))).
Proof using.
  revert w. induction p as [r|X f g IH]; intros w; simpl; [done|].
  intros H Hw. destruct (H env w Hw) as [Hw' Hk]. destruct (f env w) as [x w'].
  by apply IH.
Qed.

(** In the logic of the scheduler, with no tokens. *)
Lemma yields_wpt {A} (p : prog World A) Q :
  yields p Q -> wpt (fun _ w => well_typed (w_db w)) (fun _ _ => True) 0 p.
Proof using.
  induction p as [r|X f g IH]; simpl; [done|].
  intros H env w rest _ Hw. destruct (H env w Hw). exists 0. split; [lia|]. split; [done|].
  by apply IH.
Qed.

Lemma pool_typed env sched ps w :
  Forall (fun p => keeps p) ps -> well_typed (w_db w) ->
  well_typed (w_db (snd (run_sched env sched ps w))).
Proof using.
  intros Hps Hw.
  destruct (run_sched_inv (fun _ w => well_typed (w_db w)) env sched ps w) as (t & _ & H);
    [|done..].
  intros p Hp. rewrite List.Forall_forall in Hps. by eapply yields_wpt, Hps.
Qed.
End Rows.

Abbreviation keeps p := (yields p (fun _ => True)).
