(* ===== verification/TypedRepos.v ===== *)
(** * The repositories keep the types

    For every statement that writes, that it takes a well-typed database to a
    well-typed one, given what its arguments are; for the reads that matter, what is known
    of the rows they return. *)

From S2P Require Import Prelude.
From S2P Require Import Domain.
From S2P Require Import Effects.
From S2P Require Import GoLib.
From S2P Require Import Json.
From S2P Require Import Store.
From S2P Require Import Phone.
From S2P Require Import Ports.
From S2P Require Import PgCredits.
From S2P Require Import PgFlows.
From S2P Require Import PgCalls.
From S2P Require Import CallPolicy.
From S2P Require Import PgWebhooks.
From S2P Require Import PgAuth.
From S2P Require Import PgChat.
From S2P Require Import Orchestrator.
From S2P Require Import PgCampaigns.
From S2P Require Import PgIngest.
From S2P Require Import Ingest.
From S2P Require Import Analytics.
From S2P Require Import TenantRepos.
From S2P Require Import Typed.
From stdpp Require Import gmap strings list.
From Stdlib Require Import ZArith Lia.

Open Scope Z_scope.
Open Scope go_scope.

(** ** Tables *)

Lemma Forall_snoc_typed {R} (P : R -> Prop) t r : Forall P t -> P r -> Forall P (t ++ [r]).
Proof. intros. apply Forall_app; split; [done|]. by apply Forall_singleton. Qed.

Lemma Forall_tupdate {R} (P : R -> Prop) q f t :
  Forall P t -> (forall r, q r = true -> P r -> P (f r)) -> Forall P (tupdate q f t).
Proof.
  intros H Hf. unfold tupdate. apply Forall_map. eapply Forall_impl; [exact H|].
  intros r Hr. simpl. destruct (q r) eqn:E; auto.
Qed.

Lemma Forall_tdelete {R} (P : R -> Prop) q t : Forall P t -> Forall P (tdelete q t).
Proof.
  rewrite !List.Forall_forall. intros H r Hr. apply List.filter_In in Hr as [Hr _]. by apply H.
Qed.

Lemma Forall_select {R} (P : R -> Prop) q t : Forall P t -> Forall P (tselect q t).
Proof.
  rewrite !List.Forall_forall. intros H r Hr. apply List.filter_In in Hr as [Hr _]. by apply H.
Qed.

Lemma Forall_find {R} (P : R -> Prop) q t r : Forall P t -> tfind q t = Some r -> P r.
Proof. intros H E. apply tfind_some in E as [Hin _]. by apply (proj1 (List.Forall_forall _ _) H). Qed.

Lemma Forall_tsort_by {R} (P : R -> Prop) key t : Forall P t -> Forall P (tsort_by key t).
Proof.
  induction 1 as [|r t Hr _ IH]; [apply Forall_nil_2|]. simpl. revert IH.
  induction (tsort_by key t) as [|x t' IH']; simpl; intros H; [by apply Forall_singleton|].
  apply Forall_cons in H as [Hx Ht].
  destruct (String.leb _ _); (apply Forall_cons; split; [done|]); [by apply Forall_cons|auto].
Qed.

(** The changed tables of a statement that succeeded; the others are as they were. *)
Ltac typed_tables W := destruct W; split; simpl; try assumption.

Ltac typed_stmt :=
  let ctx := fresh "ctx" in let d := fresh "d" in let a := fresh "x" in
  let d' := fresh "d'" in let H := fresh "H" in
  intros ctx d a d' H W; succeeded H; (split; [|exact I]); try assumption; typed_tables W;
  first [ apply Forall_snoc_typed; [assumption|]
        | apply Forall_tupdate; [assumption|]
        | by apply Forall_tdelete
        | idtac ].

Ltac reads_typed :=
  apply keeps_read; let H := fresh "H" in intros ? ? ? ? H; unfold sql_limit in H;
  succeeded H; reflexivity.

(** Through the structure of a program. *)
Ltac keeping_step :=
  lazymatch goal with
  | |- forall _, _ => intros ?
  | |- yields (ret _) _ => exact I
  | |- yields (fail _) _ => exact I
  | |- yields (Done _) _ => exact I
  | |- yields panic _ => exact I
  | |- yields (pbind _ _) _ => apply keeps_bind; [|intros ?]
  | |- yields (ptry _) _ => apply keeps_try
  | |- yields (pignore _) _ => apply keeps_ignore
  | |- yields (match ?x with _ => _ end) _ => destruct x eqn:?
  | |- yields (if ?x then _ else _) _ => destruct x eqn:?
  | |- yields (let _ := _ in _) _ => cbv zeta
  end.
Ltac keeping := repeat first [solve [eauto with typed] | keeping_step].

Create HintDb typed.

Section Repos.
Context {tz : TimeZones.T}.

Lemma keeps_New prefix : keeps (Id.New prefix).
Proof using. by apply keeps_silent, guar_New. Qed.
Lemma keeps_Now : keeps Now.
Proof using. by apply keeps_silent, guar_Now. Qed.
Lemma keeps_rand n : keeps (rand_Read n).
Proof using. by apply keeps_silent, guar_rand. Qed.

#[local] Hint Resolve keeps_New keeps_Now keeps_rand : typed.

(** ** Flows *)

Lemma keeps_flow_Create org nf :
  nf_Name nf <> "" -> In (nf_Type nf) [FlowIVR; FlowChat] -> nf_Channel nf <> "" ->
  nf_Locale nf <> "" -> keeps (PgFlowRepo.Create org nf).
Proof using.
  intros. unfold PgFlowRepo.Create. keeping. apply yields_exec. unfold FlowQ.CreateFlow.
  typed_stmt. by repeat split.
Qed.

Lemma keeps_flow_Update id org spec : keeps (PgFlowRepo.UpdateSpec id org spec).
Proof using. apply yields_exec. unfold FlowQ.UpdateFlowSpec. typed_stmt. by intros r _ ?. Qed.

Lemma keeps_flow_GetActive org name : keeps (PgFlowRepo.GetActiveFlow org name).
Proof using. unfold PgFlowRepo.GetActiveFlow. keeping. unfold FlowQ.GetActiveFlowByName. reads_typed. Qed.
Lemma keeps_flow_List org : keeps (PgFlowRepo.ListByOrg org).
Proof using. unfold PgFlowRepo.ListByOrg. keeping. unfold FlowQ.ListFlowsByOrg. reads_typed. Qed.
Lemma keeps_flow_Get id : keeps (PgFlowRepo.GetByID id).
Proof using. unfold PgFlowRepo.GetByID. keeping. unfold FlowQ.GetFlowByID. reads_typed. Qed.

(** ** Calls, outcomes, policies *)

Lemma CreateCall_typed id org fid pid status result :
  In status [StatusQueued; StatusCompleted; StatusNoAnswer] ->
  stmt_typed (CallQ.CreateCall id org fid pid Outbound status result) (fun _ => True).
Proof using. intros Hs. unfold CallQ.CreateCall. typed_stmt. by split. Qed.

Lemma keeps_call_Get id : keeps (PgCallRepo.Get id).
Proof using. unfold PgCallRepo.Get. keeping. unfold CallQ.GetCall. reads_typed. Qed.
Lemma keeps_call_List org limit : keeps (PgCallRepo.ListByOrg org limit).
Proof using. unfold PgCallRepo.ListByOrg. keeping. unfold CallQ.ListCallsByOrg. reads_typed. Qed.
Lemma keeps_call_Summary org : keeps (PgCallRepo.Summary org).
Proof using. unfold PgCallRepo.Summary, CallQ.CallSummary. reads_typed. Qed.
Lemma keeps_AttachMedia id url text : keeps (PgCallRepo.AttachMedia id url text).
Proof using. apply yields_exec. unfold CallQ.AttachCallMedia. typed_stmt. by intros r _ ?. Qed.
Lemma keeps_DeleteBefore t : keeps (PgCallRepo.DeleteBefore t).
Proof using. apply yields_exec. unfold CallQ.DeleteCallsBefore. typed_stmt. Qed.

Lemma InsertOutbox_typed org event payload :
  In event ["call.completed"; "call.no_answer"] ->
  stmt_typed (PgOutcomeRepo.InsertOutbox org event payload) (fun _ => True).
Proof using. intros He. unfold PgOutcomeRepo.InsertOutbox. typed_stmt. done. Qed.

Lemma keeps_policy_Get org : keeps (PgCallPolicyRepo.Get org).
Proof using. unfold PgCallPolicyRepo.Get. keeping. unfold CallPolicyQ.GetCallPolicy. reads_typed. Qed.

Lemma keeps_policy_Upsert org p : CallPolicy.Valid p = true -> keeps (PgCallPolicyRepo.Upsert org p).
Proof using.
  intros Hv. apply yields_exec. unfold CallPolicyQ.UpsertCallPolicy. typed_stmt.
  apply map_Forall_insert_2; [|done]. unfold policy_typed. simpl.
  destruct (CallPolicy.Valid_spec p Hv) as (Hs & He & Hr & _).
  rewrite !int16_of_id by lia. by destruct p.
Qed.

(** A call with its outbox row. *)
Lemma keeps_Record c ev :
  call_Direction c = Outbound ->
  In (call_Status c) [StatusQueued; StatusCompleted; StatusNoAnswer] ->
  (forall e, ev = Some e -> In (oe_Event e) ["call.completed"; "call.no_answer"]) ->
  keeps (PgOutcomeRepo.RecordCallOutcome c ev).
Proof using.
  intros Hd Hs He.
  apply (yields_lin (fun st _ st' => well_typed (s_db st) -> well_typed (s_db st'))).
  { intros st r st' H W. split; [by apply H|by destruct r]. }
  apply transact_lin; [by intros|]. rewrite Hd. intros st.
  apply txwp_stmt; [|by intros]. intros ctx [] d1 H1.
  assert (Hd1 : well_typed (s_db st) -> well_typed d1).
  { intros W. by eapply CreateCall_typed. }
  clear H1. destruct ev as [ev|].
  - apply txwp_stmt; [|by intros]. intros ctx' [] d2 H2.
    apply txwp_commit with (b := tt); [done|..]; simpl; intros; try done;
      (eapply InsertOutbox_typed; [by apply He|exact H2|by apply Hd1]).
  - by apply (txwp_commit (fun _ => ret tt) tt); [done|..]; simpl; intros; try apply Hd1.
Qed.

(** ** Credits and payments *)

Lemma post_typed org delta reason st st' :
  0 <= balance_of st org + delta -> CreditRepo.post org delta reason st st' ->
  well_typed (s_db st) -> well_typed (s_db st').
Proof using.
  intros Hb (row & _ & _ & _ & ->) W. typed_tables W. by apply map_Forall_insert_2.
Qed.

Lemma keeps_TryDeduct org amount reason :
  CreditRepo.small amount -> keeps (PgCreditRepo.TryDeduct org amount reason).
Proof using.
  intros Hs.
  eapply yields_lin; [|exact (@CreditRepo.TryDeduct_lin _ PgCreditRepo_laws org amount reason Hs)].
  intros st r st' H W. split; [|by destruct r].
  inversion H; subst; try assumption; (eapply post_typed; [|eassumption|done]; lia).
Qed.

Lemma balance_typed st org : well_typed (s_db st) -> 0 <= balance_of st org.
Proof using.
  intros W. unfold balance_of. destruct (org_credits (s_db st) !! org) eqn:E; simpl; [|lia].
  by apply (wt_balances _ W org).
Qed.

Lemma keeps_Grant org amount reason :
  CreditRepo.small amount -> keeps (PgCreditRepo.Grant org amount reason).
Proof using.
  intros Hs.
  eapply yields_lin; [|exact (@CreditRepo.Grant_lin _ PgCreditRepo_laws org amount reason Hs)].
  intros st r st' H W. split; [|by destruct r]. pose proof (balance_typed st org W).
  destruct Hs. inversion H; subst; try assumption; (eapply post_typed; [|eassumption|done]; lia).
Qed.

Lemma keeps_Balance org : keeps (PgCreditRepo.Balance org).
Proof using. unfold PgCreditRepo.Balance. keeping. unfold CreditQ.GetBalance. reads_typed. Qed.
Lemma keeps_Ledger org limit : keeps (PgCreditRepo.Ledger org limit).
Proof using. unfold PgCreditRepo.Ledger, CreditQ.ListLedger. reads_typed. Qed.

Lemma keeps_payment_Create p :
  0 < pay_Credits p <= 100000 -> pay_AmountBDT p = pay_Credits p ->
  keeps (PgPaymentRepo.Create p).
Proof using.
  intros Hc Ha. apply yields_exec. unfold PgPaymentRepo.insert. typed_stmt.
  split; [done|]. split; [done|]. by left.
Qed.

(** A settlement reports the amounts of a payment of the table. *)
Lemma yields_Settle provider ref status :
  In status [PaymentPaid; PaymentFailed] ->
  yields (PgPaymentRepo.Settle provider ref status)
    (fun '(p, moved) => moved = true -> 0 < pay_Credits p <= 100000).
Proof using.
  intros Hs.
  eapply yields_lin; [|exact (@PaymentRepo.Settle_lin _ PgPaymentRepo_laws provider ref status)].
  assert (Hset : forall st now, well_typed (s_db st) ->
    well_typed (s_db (PaymentRepo.settle_rows provider ref status now st))).
  { intros st now W. typed_tables W. apply Forall_tupdate; [done|].
    intros r _ (Hc & Ha & _). split; [done|]. split; [done|]. by right. }
  intros st r st' H W. inversion H; subst; (split; [auto|]); try done.
  intros _. simpl. unfold PaymentRepo.pending_row in *.
  match goal with E : tfind _ _ = Some _ |- _ =>
    by apply (Forall_find _ _ _ _ (wt_payments _ W)) in E as [? _] end.
Qed.

(** ** Customers and campaigns *)

Lemma keeps_customer_Upsert org phone name ext :
  normal phone -> keeps (PgCustomerRepo.Upsert org phone name ext).
Proof using.
  intros Hp. unfold PgCustomerRepo.Upsert. keeping. apply yields_exec.
  unfold CustomerQ.UpsertCustomer. typed_stmt; [by intros r _ ?|done].
Qed.

Lemma keeps_customer_List org limit : keeps (PgCustomerRepo.ListByOrg org limit).
Proof using. unfold PgCustomerRepo.ListByOrg. keeping. unfold CustomerQ.ListCustomersByOrg. reads_typed. Qed.
Lemma keeps_customer_SetDND org id dnd : keeps (PgCustomerRepo.SetDND org id dnd).
Proof using. apply yields_exec. unfold CustomerQ.SetCustomerDND. typed_stmt. by intros r _ ?. Qed.

Lemma keeps_campaign_Create org id name : keeps (PgCampaignRepo.Create org id name).
Proof using. apply yields_exec. unfold CampaignQ.CreateCampaign. typed_stmt. by left. Qed.

Lemma keeps_campaign_Schedule org id at_ : keeps (PgCampaignRepo.Schedule org id at_).
Proof using.
  apply yields_exec. unfold CampaignQ.ScheduleCampaign. typed_stmt.
  intros r Hq Hr. apply andb_prop in Hq as [_ Hq%String.eqb_eq]. right. left.
  destruct Hr as [(E & ? & ? & ?)|[(E & _)|(E & _)]]; [done|congruence..].
Qed.

Lemma keeps_campaign_MarkStarted org id n : keeps (PgCampaignRepo.MarkStarted org id n).
Proof using.
  apply yields_exec. unfold CampaignQ.StartCampaign. typed_stmt. intros r _ _. right. by right.
Qed.

Lemma keeps_campaign_List org : keeps (PgCampaignRepo.ListByOrg org).
Proof using. unfold PgCampaignRepo.ListByOrg. keeping. unfold CampaignQ.ListCampaignsByOrg. reads_typed. Qed.
Lemma keeps_campaign_Get id : keeps (PgCampaignRepo.Get id).
Proof using. unfold PgCampaignRepo.Get. keeping. unfold CampaignQ.GetCampaign. reads_typed. Qed.
Lemma keeps_campaign_Due t : keeps (PgCampaignRepo.DueCampaigns t).
Proof using. unfold PgCampaignRepo.DueCampaigns. keeping. unfold CampaignQ.DueCampaigns. reads_typed. Qed.

Lemma keeps_AddRecipient org c rec : normal (re_Phone rec) -> keeps (PgCampaignRepo.AddRecipient org c rec).
Proof using.
  intros Hp. unfold PgCampaignRepo.AddRecipient. keeping. apply yields_exec.
  unfold CampaignQ.AddRecipient. typed_stmt. done.
Qed.

(** The recipients read back have normal numbers. *)
Lemma yields_Recipients c :
  yields (PgCampaignRepo.Recipients c) (Forall (fun r => normal (re_Phone r))).
Proof using.
  unfold PgCampaignRepo.Recipients.
  apply (yields_bind (Forall (fun pn => normal (fst pn)))).
  - apply yields_exec. intros ctx d rows d' E W. unfold CampaignQ.ListRecipients in E.
    injection E as <- <-. split; [done|]. apply Forall_map.
    apply (Forall_tsort_by recipient_typed), Forall_select, W.
  - intros rows Hrows. apply yields_ret, Forall_map. eapply Forall_impl; [exact Hrows|].
    by intros [phone name].
Qed.

(** ** Keys and events *)

Lemma keeps_key_Create id org prefix hash name kind :
  key_typed (mkApiKeyRow id org prefix hash (strPtr name) 0 None kind) ->
  keeps (PgAPIKeyRepo.Create id org prefix hash name kind).
Proof using. intros Hk. apply yields_exec. unfold IngestQ.CreateAPIKey. typed_stmt. exact Hk. Qed.

Lemma keeps_key_ByPrefix prefix : keeps (PgAPIKeyRepo.ByPrefix prefix).
Proof using. unfold PgAPIKeyRepo.ByPrefix. keeping. unfold IngestQ.GetAPIKeyByPrefix. reads_typed. Qed.
Lemma keeps_key_List org : keeps (PgAPIKeyRepo.ListByOrg org).
Proof using. unfold PgAPIKeyRepo.ListByOrg. keeping. unfold IngestQ.ListAPIKeysByOrg. reads_typed. Qed.
Lemma keeps_key_Touch id : keeps (PgAPIKeyRepo.Touch id).
Proof using. apply yields_exec. unfold IngestQ.TouchAPIKey. typed_stmt. by intros r _ ?. Qed.

Lemma keeps_event_Insert e :
  ie_Type e <> "" -> ie_ExternalEventID e <> "" -> keeps (PgEventRepo.Insert e).
Proof using.
  intros Ht He. unfold PgEventRepo.Insert. keeping. apply yields_exec.
  unfold IngestQ.InsertEvent. typed_stmt. by repeat split.
Qed.

(** ** Webhooks *)

Lemma keeps_endpoint_Upsert id org url enc events :
  keeps (PgWebhookRepo.UpsertEndpoint id org url enc events).
Proof using. apply yields_exec. unfold WebhookQ.UpsertWebhookEndpoint. typed_stmt. Qed.
Lemma keeps_endpoint_Get org : keeps (PgWebhookRepo.GetEndpoint org).
Proof using. unfold PgWebhookRepo.GetEndpoint. keeping. unfold WebhookQ.GetWebhookEndpoint. reads_typed. Qed.
Lemma keeps_DueDeliveries limit : keeps (PgWebhookRepo.DueDeliveries limit).
Proof using. unfold PgWebhookRepo.DueDeliveries. keeping. unfold WebhookQ.DueDeliveries. reads_typed. Qed.

Lemma keeps_MarkDelivered id code : keeps (PgWebhookRepo.MarkDelivered id code).
Proof using.
  apply yields_exec. unfold WebhookQ.MarkDelivered, WebhookQ.bump. typed_stmt.
  intros r _ (_ & Ha & _). split; [simpl; tauto|]. simpl. split; [lia|done].
Qed.

Lemma keeps_Reschedule id code msg status next :
  In status ["pending"; "dead"] -> keeps (PgWebhookRepo.Reschedule id code msg status next).
Proof using.
  intros Hs. apply yields_exec. unfold WebhookQ.RescheduleDelivery, WebhookQ.bump. typed_stmt.
  intros r _ (_ & Ha & _). split; [simpl; destruct Hs as [<-|[<-|[]]]; tauto|]. simpl.
  split; [lia|]. by destruct Hs as [<-|[<-|[]]].
Qed.

(** ** Chat *)

Lemma insert_conversation_typed id org ch user :
  In ch ("chat" :: channels) -> (ch = "chat" -> user = None) ->
  stmt_typed (ChatQ.insert_conversation id org ch user) (fun _ => True).
Proof using.
  intros Hch Hu. unfold ChatQ.insert_conversation. typed_stmt.
  - by split; [left|].
  - eapply Forall_impl; [eassumption|]. intros r Hr. rewrite map_app. apply in_or_app. by left.
  - eapply map_Forall_impl; [eassumption|]. intros c r [? Hr]. split; [done|].
    rewrite map_app. apply in_or_app. by left.
Qed.

Lemma text_typed {A} texts (s : stmt A) Q : stmt_typed s Q -> stmt_typed (with_text texts s) Q.
Proof using. intros Hs ctx d x d' H. apply with_text_ok in H. by eapply Hs. Qed.

Lemma keeps_CreateConversation org c : keeps (PgChatRepo.CreateConversation org c).
Proof using.
  apply yields_exec, text_typed, insert_conversation_typed; [simpl; tauto|done].
Qed.

Lemma keeps_FindOrCreate org ch user :
  In ch channels -> keeps (PgChatRepo.FindOrCreateChannelConversation org ch user).
Proof using.
  intros Hch. unfold PgChatRepo.FindOrCreateChannelConversation. keeping.
  - unfold ChatQ.FindOpenChannelConversation. reads_typed.
  - apply yields_exec, text_typed, insert_conversation_typed; [by right|].
    intros ->. by destruct Hch as [?|[?|[]]].
Qed.

Lemma found_conversation c r d :
  tfind (ChatQ.has_id c) (conversations d) = Some r -> In c (map conv_id (conversations d)).
Proof using.
  intros E. apply tfind_some in E as [Hin Hid%String.eqb_eq]. rewrite <- Hid. by apply in_map.
Qed.

(** Rewriting conversations without their ids. *)
Lemma update_conversations_typed q f d :
  well_typed d -> (forall r, conv_id (f r) = conv_id r) ->
  (forall r, conversation_typed r -> conversation_typed (f r)) ->
  well_typed (set_conversations (tupdate q f (conversations d)) d).
Proof using.
  intros W Hid Hf.
  assert (E : map conv_id (tupdate q f (conversations d)) = map conv_id (conversations d)).
  { unfold tupdate. rewrite map_map. apply map_ext. intros r. by destruct (q r). }
  typed_tables W; rewrite ?E; try assumption. apply Forall_tupdate; auto.
Qed.

Lemma keeps_AddMessage c role content :
  In role ["user"; "assistant"; "agent"] -> keeps (PgChatRepo.AddMessage c role content).
Proof using.
  intros Hr. unfold PgChatRepo.AddMessage. keeping; apply yields_exec.
  - unfold ChatQ.InsertMessage. typed_stmt; [done|]. by eapply found_conversation.
  - unfold ChatQ.TouchConversation. intros ctx d u d' H W. succeeded H. split; [|done].
    by apply update_conversations_typed.
Qed.

Lemma keeps_SetStatus c status :
  In status [ConvOpen; ConvHandling; ConvClosed] -> keeps (PgChatRepo.SetStatus c status).
Proof using.
  intros Hs. apply yields_exec. unfold ChatQ.SetConversationStatus. intros ctx d u d' H W.
  succeeded H. split; [|done]. apply update_conversations_typed; [done|done|].
  by intros r (_ & ? & ?).
Qed.

Lemma keeps_insight_Save org c i :
  insight_typed (in_Outcome i) (in_Sentiment i) -> keeps (PgInsightRepo.Save org c i).
Proof using.
  intros Hi. apply yields_exec. unfold ChatQ.UpsertInsight. typed_stmt;
    (apply map_Forall_insert_2; [|assumption]); (split; [done|]).
  - match goal with H : map_Forall _ (conversation_insights _),
      E : conversation_insights _ !! _ = Some _ |- _ => by apply H in E as [_ ?] end.
  - by eapply found_conversation.
Qed.

Lemma keeps_GetConversation c : keeps (PgChatRepo.GetConversation c).
Proof using. unfold PgChatRepo.GetConversation. keeping. unfold ChatQ.GetConversation. reads_typed. Qed.
Lemma keeps_ChannelTarget c : keeps (PgChatRepo.ChannelTarget c).
Proof using. unfold PgChatRepo.ChannelTarget, ChatQ.GetConversationTarget. reads_typed. Qed.
Lemma keeps_ListConversations org limit : keeps (PgChatRepo.ListConversations org limit).
Proof using. unfold PgChatRepo.ListConversations. keeping. unfold ChatQ.ListConversationsByOrg. reads_typed. Qed.
Lemma keeps_Messages c : keeps (PgChatRepo.Messages c).
Proof using. unfold PgChatRepo.Messages. keeping. unfold ChatQ.ListMessages. reads_typed. Qed.
Lemma keeps_settings_Get org : keeps (PgChatSettingsRepo.Get org).
Proof using. unfold PgChatSettingsRepo.Get. keeping. unfold ChatQ.GetChatSettings. reads_typed. Qed.
Lemma keeps_settings_Upsert org cs : keeps (PgChatSettingsRepo.Upsert org cs).
Proof using. apply yields_exec. unfold ChatQ.UpsertChatSettings. typed_stmt. Qed.
Lemma keeps_insight_Get c : keeps (PgInsightRepo.Get c).
Proof using. unfold PgInsightRepo.Get. keeping. unfold ChatQ.GetInsight. reads_typed. Qed.

(** ** Channels *)

Lemma keeps_channel_Upsert org typ ext tok ver :
  In typ channels -> ext <> "" -> ver <> "" -> keeps (PgChannelRepo.Upsert org typ ext tok ver).
Proof using.
  intros Ht He Hv. unfold PgChannelRepo.Upsert. keeping. apply yields_exec.
  unfold ChannelQ.UpsertChannel. typed_stmt; [by intros r _ (? & _)|done].
Qed.

Lemma keeps_channel_Delete org typ : keeps (PgChannelRepo.Delete org typ).
Proof using. apply yields_exec. unfold ChannelQ.DeleteChannel. typed_stmt. Qed.
Lemma keeps_channel_List org : keeps (PgChannelRepo.List org).
Proof using. unfold PgChannelRepo.List. keeping. unfold ChannelQ.ListChannelsByOrg. reads_typed. Qed.
Lemma keeps_channel_ByOrgAndType org typ : keeps (PgChannelRepo.ByOrgAndType org typ).
Proof using.
  unfold PgChannelRepo.ByOrgAndType. keeping.
  unfold ChannelQ.GetChannelByOrgAndType, ChannelQ.get_channel. reads_typed.
Qed.
Lemma keeps_channel_OrgForVerifyToken tok : keeps (PgChannelRepo.OrgForVerifyToken tok).
Proof using.
  unfold PgChannelRepo.OrgForVerifyToken. keeping.
  unfold ChannelQ.GetChannelByVerifyToken, ChannelQ.get_channel. reads_typed.
Qed.

(** The channel a message came in on has a known type. *)
Lemma yields_ByExternalID ext :
  yields (PgChannelRepo.ByExternalID ext)
    (fun '((((_, typ), _), _), found) => found = true -> In typ channels).
Proof using.
  unfold PgChannelRepo.ByExternalID. eapply yields_bind.
  - apply yields_try. apply (yields_exec _ channel_typed). intros ctx d r d' E W.
    unfold ChannelQ.GetChannelByExternalID, ChannelQ.get_channel in E. apply with_text_ok in E.
    destruct (tfind _ _) as [r'|] eqn:Ef; [|done]. injection E as <- <-. split; [done|].
    by apply (Forall_find _ _ _ _ (wt_channels _ W)) in Ef.
  - intros [r|e] Hr; [|by destruct e]. intros _. apply Hr.
Qed.

(** ** Metrics *)

Lemma keeps_ConversationStats org : keeps (PgAnalyticsRepo.ConversationStats org).
Proof using. unfold PgAnalyticsRepo.ConversationStats, AnalyticsQ.ConversationStats. reads_typed. Qed.
Lemma keeps_CreditSpend org : keeps (PgAnalyticsRepo.CreditSpend org).
Proof using. unfold PgAnalyticsRepo.CreditSpend, AnalyticsQ.CreditSpend. reads_typed. Qed.
End Repos.
