(* ===== verification/TypedServices.v ===== *)
(** * The services keep the types

    Accounts and organisations, the webhook outbox, then every operation of every
    service: what each hands to its repositories has the type of the column it
    goes to. *)

From S2P Require Import Prelude.
From S2P Require Import Domain.
From S2P Require Import Effects.
From S2P Require Import GoLib.
From S2P Require Import Json.
From S2P Require Import Store.
From S2P Require Import Phone.
From S2P Require Import Ports.
From S2P Require Import PgCredits.
From S2P Require Import PgFlows.
From S2P Require Import PgCalls.
From S2P Require Import CallPolicy.
From S2P Require Import PgWebhooks.
From S2P Require Import PgAuth.
From S2P Require Import PgChat.
From S2P Require Import Orchestrator.
From S2P Require Import PgCampaigns.
From S2P Require Import PgIngest.
From S2P Require Import Ingest.
From S2P Require Import FlowEngine.
From S2P Require Import Crypto.
From S2P Require Import Billing.
From S2P Require Import Calls.
From S2P Require Import Flows.
From S2P Require Import Webhooks.
From S2P Require Import Auth.
From S2P Require Import Assistant.
From S2P Require Import Chat.
From S2P Require Import Messaging.
From S2P Require Import Campaigns.
From S2P Require Import Analytics.
From S2P Require Import HttpOut.
From S2P Require Import WebhooksSpec.
From S2P Require Import TenantRepos.
From S2P Require Import TenantServices.
From S2P Require Import Typed.
From S2P Require Import TypedRepos.
From stdpp Require Import gmap strings list.
From Stdlib Require Import ZArith Lia.

Open Scope Z_scope.
Open Scope go_scope.

(** ** Accounts and organisations *)

Section Accounts.
Context {tz : TimeZones.T} {uuid : Uuid.T}.

#[local] Hint Resolve keeps_New keeps_Now keeps_rand : typed.

Lemma keeps_with_uuid {A} id (k : string -> prog World A) :
  (forall x, keeps (k x)) -> keeps (PgAuthRepo.with_uuid id k).
Proof using. intros H. unfold PgAuthRepo.with_uuid. by destruct (Uuid.Parse id). Qed.

(** One more user: those there were are still there. *)
Lemma add_user_typed u d :
  user_typed u -> well_typed d -> well_typed (set_users (users d ++ [u]) d).
Proof using.
  intros Hu W. typed_tables W; [by apply Forall_snoc_typed|..];
    (eapply Forall_impl; [eassumption|]; intros r Hr; rewrite map_app; apply in_or_app; by left).
Qed.

Lemma keeps_UpsertUserByPhone phone : normal phone -> keeps (PgAuthRepo.UpsertUserByPhone phone).
Proof using.
  intros Hp. unfold PgAuthRepo.UpsertUserByPhone. keeping. apply yields_exec.
  unfold AuthQ.UpsertUserByPhone. intros ctx d u d' H W. succeeded H; (split; [|done]); [done|].
  apply add_user_typed; [|done]. split; [by left|]. by intros p [= <-].
Qed.

Lemma keeps_CreateUserWithPassword email name hash :
  keeps (PgAuthRepo.CreateUserWithPassword email name hash).
Proof using.
  unfold PgAuthRepo.CreateUserWithPassword. keeping. apply yields_exec. unfold AuthQ.InsertUser.
  intros ctx d u d' H W. succeeded H. split; [|done]. apply add_user_typed; [|done].
  split; [by right|done].
Qed.

Lemma keeps_InsertOTP phone hash exp : normal phone -> keeps (PgAuthRepo.InsertOTP phone hash exp).
Proof using. intros Hp. apply yields_exec. unfold AuthQ.InsertOTP. typed_stmt. split; simpl; [done|lia]. Qed.

Lemma keeps_LatestLiveOTP phone : keeps (PgAuthRepo.LatestLiveOTP phone).
Proof using. unfold PgAuthRepo.LatestLiveOTP. keeping. unfold AuthQ.LatestLiveOTP. reads_typed. Qed.

Lemma keeps_IncrementOTPAttempts id : keeps (PgAuthRepo.IncrementOTPAttempts id).
Proof using.
  apply keeps_with_uuid. intros x. apply yields_exec. unfold AuthQ.IncrementOTPAttempts. typed_stmt.
  intros r _ [? ?]. split; simpl; [done|lia].
Qed.

Lemma keeps_ConsumeOTP id : keeps (PgAuthRepo.ConsumeOTP id).
Proof using.
  apply keeps_with_uuid. intros x. apply yields_exec. unfold AuthQ.ConsumeOTP. typed_stmt.
  by intros r _ ?.
Qed.

Lemma keeps_UserByEmail email : keeps (PgAuthRepo.UserByEmail email).
Proof using. unfold PgAuthRepo.UserByEmail. keeping. unfold AuthQ.SelectUserByEmail. reads_typed. Qed.

Lemma found_user id u d :
  tfind (AuthQ.has_user_id id) (users d) = Some u -> In id (map user_id (users d)).
Proof using.
  intros E. apply tfind_some in E as [Hin Hid%String.eqb_eq]. rewrite <- Hid. by apply in_map.
Qed.

Lemma keeps_CreateSession hash user exp : keeps (PgAuthRepo.CreateSession hash user exp).
Proof using.
  apply keeps_with_uuid. intros x. apply yields_exec. unfold AuthQ.CreateSession. typed_stmt.
  by eapply found_user.
Qed.

Lemma keeps_SessionUser hash : keeps (PgAuthRepo.SessionUser hash).
Proof using. unfold PgAuthRepo.SessionUser. keeping. unfold AuthQ.SessionWithUser. reads_typed. Qed.
Lemma keeps_DeleteSession hash : keeps (PgAuthRepo.DeleteSession hash).
Proof using. apply yields_exec. unfold AuthQ.DeleteSession. typed_stmt. Qed.

Lemma keeps_Rename org name : keeps (PgOrgRepo.Rename org name).
Proof using.
  apply keeps_with_uuid. intros x. apply yields_exec. unfold OrgQ.RenameOrg. typed_stmt.
  by intros r _ ?.
Qed.

Lemma keeps_OwnerEmail org : keeps (PgOrgRepo.OwnerEmail org).
Proof using. apply keeps_with_uuid. intros x. unfold OrgQ.GetOrgOwnerEmail. reads_typed. Qed.

Lemma keeps_seed org : keeps (PgOrgRepo.seed org).
Proof using.
  unfold PgOrgRepo.seed. keeping; apply yields_exec.
  - unfold FlowQ.CreateFlow. typed_stmt. repeat split; simpl; auto.
  - unfold CreditQ.EnsureCreditAccount. typed_stmt. by apply map_Forall_insert_2.
  - unfold CreditQ.AdjustBalance. typed_stmt.
    apply map_Forall_insert_2; [|done].
    match goal with H : map_Forall _ (org_credits _), E : org_credits _ !! _ = Some _ |- _ =>
      apply H in E end. simpl in *. lia.
  - unfold CreditQ.AddLedger. typed_stmt.
Qed.

Lemma keeps_EnsureForUser user name : keeps (PgOrgRepo.EnsureForUser user name).
Proof using.
  unfold PgOrgRepo.EnsureForUser. apply keeps_with_uuid. intros uid. keeping; try apply keeps_seed;
    try (unfold OrgQ.GetOrgByOwner; reads_typed).
  apply yields_exec. unfold OrgQ.CreateOrg. typed_stmt. by eapply found_user.
Qed.

(** ** The outbox *)

Lemma drained_typed rows d d' : drained rows d d' -> well_typed d -> well_typed d'.
Proof using.
  intros (outbox & new & Hm & Hn & _ & ->) W. typed_tables W.
  - eapply (Forall2_Forall_r _ outbox_typed); [exact Hm|].
    eapply Forall_impl; [eassumption|]. intros r Hr r'.
    destruct (bool_decide _); [by intros [now ->]|by intros ->].
  - apply Forall_app. split; [done|].
    eapply (Forall2_Forall_r _ delivery_typed); [exact Hn|].
    apply Forall_true. intros r del (ep & _ & _ & _ & _ & Hs & Ha).
    unfold delivery_typed. rewrite Hs, Ha. simpl. split; [tauto|]. split; [lia|done].
Qed.

Lemma keeps_DrainOutbox : keeps (PgWebhookRepo.DrainOutbox 100 (Id.tx_New "whd")).
Proof using.
  eapply yields_lin; [|apply DrainOutbox_lin; unfold int32_max; lia].
  intros st r st' H W. split; [|by destruct r].
  inversion H; subst; try assumption; by eapply drained_typed.
Qed.
End Accounts.

#[export] Hint Resolve keeps_New keeps_Now keeps_rand keeps_flow_Update keeps_flow_GetActive
  keeps_flow_List keeps_flow_Get keeps_call_Get keeps_call_List keeps_call_Summary
  keeps_AttachMedia keeps_DeleteBefore keeps_policy_Get keeps_Balance keeps_Ledger
  keeps_customer_List keeps_customer_SetDND keeps_campaign_Create keeps_campaign_Schedule
  keeps_campaign_MarkStarted keeps_campaign_List keeps_campaign_Get keeps_campaign_Due
  keeps_key_ByPrefix keeps_key_List keeps_key_Touch keeps_endpoint_Upsert keeps_endpoint_Get
  keeps_DueDeliveries keeps_MarkDelivered keeps_CreateConversation keeps_GetConversation
  keeps_ChannelTarget keeps_ListConversations keeps_Messages keeps_settings_Get
  keeps_settings_Upsert keeps_insight_Get keeps_channel_Delete keeps_channel_List
  keeps_channel_ByOrgAndType keeps_channel_OrgForVerifyToken keeps_ConversationStats
  keeps_CreditSpend keeps_CreateUserWithPassword keeps_LatestLiveOTP
  keeps_IncrementOTPAttempts keeps_ConsumeOTP keeps_UserByEmail keeps_CreateSession
  keeps_SessionUser keeps_DeleteSession keeps_Rename keeps_OwnerEmail keeps_EnsureForUser
  keeps_DrainOutbox : typed.

(** ** Services *)

(** A gateway that accepts a callback says paid or failed. *)
Class Verdicts {tz : TimeZones.T} (G : PaymentGateway.T) : Prop :=
  verdicts : forall form, yields (PaymentGateway.VerifyIPN form)
    (fun '(res, ok) => ok = true -> In (pres_Status res) [PaymentPaid; PaymentFailed]).

Section Services.
Context {tz : TimeZones.T} {uuid : Uuid.T} {sha : SHA256.T} {hmac : HMAC.T} {bcrypt : Bcrypt.T}
  {aead : AEAD.T}.
Context {sms : SMSSender.T} {sms_laws : SMSSender.Laws sms}.
Context {provider : VoiceProvider.T} {provider_laws : CallsOwn provider}.
Context {orch : Orchestrator.T} {orch_laws : QueuesOwn orch}.
Context {model : ChatModel.T} {model_laws : ChatModel.Laws model}.
Context {sender : MessagingSender.T} {sender_laws : MessagingSender.Laws sender}.
Context {gateway : PaymentGateway.T} {gateway_laws : PaymentGateway.Laws gateway}
  {gateway_verdicts : Verdicts gateway}.
Context {reporter : Reporter.T} {reporter_laws : Reporter.Laws reporter}.
Context {stt : STT.T} {stt_laws : STT.Laws stt}.
Context {http : HttpOut.T} {http_laws : HttpOut.Laws http}.
Context (activity : option ActivityPublisher.T)
  (activity_laws : forall p, activity = Some p -> ActivityPublisher.Laws p).

#[local] Existing Instances PgCreditRepo.repo PgPaymentRepo.repo PgFlowRepo.repo
  PgCallRepo.repo PgOutcomeRepo.repo PgCallPolicyRepo.repo PgWebhookRepo.repo PgAuthRepo.repo
  PgOrgRepo.repo PgChatRepo.repo PgChatSettingsRepo.repo PgInsightRepo.repo PgChannelRepo.repo
  PgCustomerRepo.repo PgCampaignRepo.repo PgAPIKeyRepo.repo PgEventRepo.repo
  PgAnalyticsRepo.repo RealClock.clock Heuristic.summarizer.

(** *** The ports outside *)

Lemma keeps_dial req : keeps (VoiceProvider.PlaceCall req).
Proof using provider_laws.
  apply keeps_guar. eapply guar_mono; [|apply calls_own]. by intros w w' [E _].
Qed.
Lemma keeps_Enqueue inp : keeps (Orchestrator.EnqueuePlaceCall inp).
Proof using orch_laws.
  apply keeps_guar. eapply guar_mono; [|apply queues_own]. by intros w w' [E _].
Qed.
Lemma keeps_model p h : keeps (ChatModel.Reply p h).
Proof using model_laws. by apply keeps_quiet, ChatModel.Reply_quiet. Qed.
Lemma keeps_sms to text : keeps (SMSSender.Send to text).
Proof using sms_laws. by apply keeps_quiet, SMSSender.Send_quiet. Qed.
Lemma keeps_sender m : keeps (MessagingSender.Send m).
Proof using sender_laws. by apply keeps_quiet, MessagingSender.Send_quiet. Qed.
Lemma keeps_gateway_Checkout req : keeps (PaymentGateway.Checkout req).
Proof using gateway_laws. by apply keeps_quiet, PaymentGateway.Checkout_quiet. Qed.
Lemma keeps_answer q d : keeps (Reporter.Answer q d).
Proof using reporter_laws. by apply keeps_quiet, Reporter.Answer_quiet. Qed.
Lemma keeps_stt x l : keeps (STT.Transcribe x l).
Proof using stt_laws. by apply keeps_quiet, STT.Transcribe_quiet. Qed.
Lemma keeps_request m url h b : keeps (HttpOut.request m url h b).
Proof using http_laws. by apply keeps_quiet, HttpOut.request_quiet. Qed.

Lemma keeps_publish e : keeps (Calls.publish activity e).
Proof using activity_laws.
  unfold Calls.publish. destruct activity as [p|]; [|done].
  by apply keeps_quiet, (@ActivityPublisher.Publish_quiet p (activity_laws p eq_refl)).
Qed.
Lemma keeps_publish_chat e : keeps (Chat.publish activity e).
Proof using activity_laws. exact (keeps_publish e). Qed.

#[local] Hint Resolve keeps_dial keeps_Enqueue keeps_model keeps_sms keeps_sender
  keeps_gateway_Checkout keeps_answer keeps_stt keeps_request keeps_publish
  keeps_publish_chat : typed.

Ltac service := ports; keeping; ports; eauto with typed.

(** *** Accounts *)

Lemma keeps_rand_Int draws max : keeps (Auth.rand_Int draws max).
Proof using. induction draws as [|draws IH]; cbn [Auth.rand_Int]; [exact I|]. cbv zeta. keeping. Qed.

#[local] Hint Resolve keeps_rand_Int : typed.

Lemma keeps_issueSession user : keeps (Auth.issueSession user).
Proof using. unfold Auth.issueSession, Auth.randomToken. service. Qed.

#[local] Hint Resolve keeps_issueSession : typed.

Lemma keeps_RequestOTP secret echo phone : normal phone -> keeps (Auth.RequestOTP secret echo phone).
Proof using sms_laws.
  intros Hp. unfold Auth.RequestOTP, Auth.randomCode. service. by apply keeps_InsertOTP.
Qed.

Lemma keeps_VerifyOTP secret phone code : normal phone -> keeps (Auth.VerifyOTP secret phone code).
Proof using. intros Hp. unfold Auth.VerifyOTP. service. by apply keeps_UpsertUserByPhone. Qed.

Lemma keeps_accounts :
  (forall email pw name, keeps (Auth.Register email pw name)) /\
  (forall email pw, keeps (Auth.Login email pw)) /\
  (forall token, keeps (Auth.Logout token)) /\
  (forall token, keeps (Auth.Resolve token)).
Proof using.
  split_and!; intros; unfold Auth.Register, Auth.Login, Auth.Logout, Auth.Resolve,
    Bcrypt.GenerateFromPassword; service.
Qed.

(** *** Calls *)

Lemma emit_status flow st d out :
  IVR.emit flow st = (d, Some out) -> out_Status out = StatusCompleted.
Proof using. unfold IVR.emit. repeat case_match; by intros [= _ <-]. Qed.

Lemma test_status flow digit out :
  Calls.test_outcome flow digit = Some out ->
  In (out_Status out) [StatusCompleted; StatusNoAnswer].
Proof using.
  unfold Calls.test_outcome, IVR.Start, IVR.OnDTMF.
  destruct (IVR.emit _ _) as [d [o|]] eqn:E.
  - intros [= <-]. left. symmetry. by eapply emit_status.
  - destruct (match _ !! digit with Some n => Some n | None => _ end) as [n|];
      [|by intros [= <-]; right; left].
    destruct (IVR.emit flow (mkFlowState n)) as [d' o'] eqn:E'. intros ->.
    left. symmetry. by eapply emit_status.
Qed.

Lemma outcome_event_known c :
  In (call_Status c) [StatusCompleted; StatusNoAnswer] ->
  In (oe_Event (Calls.outcomeEvent c)) ["call.completed"; "call.no_answer"].
Proof using. simpl. by intros [<-|[<-|[]]]; [left|right; left]. Qed.

Lemma small_one : CreditRepo.small Calls.creditsPerCall.
Proof using. unfold CreditRepo.small, Calls.creditsPerCall, int32_max. lia. Qed.

Lemma keeps_RunTestCall org phone digit flow : keeps (Calls.RunTestCall activity org phone digit flow).
Proof using activity_laws provider_laws.
  unfold Calls.RunTestCall. service.
  - apply keeps_TryDeduct, small_one.
  - match goal with E : Calls.test_outcome _ _ = Some _ |- _ => apply test_status in E as Hs end.
    apply keeps_Record; [done|simpl in *; tauto|]. intros e [= <-]. by apply outcome_event_known.
Qed.

Context {notifier : CreditNotifier.T} {notifier_laws : CreditNotifier.Laws notifier}.

Lemma keeps_PlaceCall inp : keeps (Calls.PlaceCall inp).
Proof using provider_laws notifier_laws.
  unfold Calls.PlaceCall. service.
  - apply keeps_TryDeduct, small_one.
  - by apply keeps_quiet, CreditNotifier.LowBalance_quiet.
  - apply keeps_Record; [done|simpl; tauto|done].
Qed.

Lemma keeps_calls :
  (forall org, keeps (Calls.Policy org)) /\ (forall org p, keeps (Calls.SavePolicy org p)) /\
  (forall org limit, keeps (Calls.List org limit)) /\ (forall org, keeps (Calls.Summary org)) /\
  (forall org id, keeps (Calls.Get org id)).
Proof using.
  split_and!; intros; unfold Calls.Policy, Calls.SavePolicy, Calls.List, Calls.Summary,
    Calls.Get; service.
  apply keeps_policy_Upsert. by apply negb_false_iff.
Qed.

Lemma keeps_Transcribe id url loc : keeps (Transcription.Transcribe id url loc).
Proof using http_laws stt_laws. unfold Transcription.Transcribe, Transcription.download. service. Qed.

(** *** Flows *)

Lemma keeps_flow_Create_defaults org nf :
  (nf_Name nf =? "")%string || negb (Flows.knownFlowTypes (nf_Type nf)) = false ->
  keeps (PgFlowRepo.Create org (Flows.with_defaults nf)).
Proof using.
  intros H. bool_prop. unfold Flows.knownFlowTypes in *.
  apply keeps_flow_Create; simpl; [done| | |].
  - bool_prop. match goal with H : _ \/ _ |- _ => destruct H; bool_prop; auto end.
  - repeat case_match; bool_prop; done.
  - case_match; bool_prop; done.
Qed.

Lemma keeps_flows :
  (forall org, keeps (Flows.List org)) /\ (forall org id, keeps (Flows.Get org id)) /\
  (forall org nf, keeps (Flows.Create org nf)) /\
  (forall org id spec, keeps (Flows.UpdateSpec org id spec)).
Proof using.
  split_and!; intros; unfold Flows.UpdateSpec, Flows.List, Flows.Get, Flows.Create; service.
  by apply keeps_flow_Create_defaults.
Qed.

(** *** Billing *)

Lemma keeps_SettlePayment form : keeps (Billing.SettlePayment form).
Proof using gateway_verdicts.
  unfold Billing.SettlePayment. ports.
  eapply yields_bind; [apply verdicts|]. intros [res ok] Hv. destruct ok; [|done]. cbn [negb].
  eapply yields_bind; [by apply yields_try, yields_Settle, Hv|].
  intros [[p [|]]|e] Hp; [| |by destruct e]; cbn [andb]; [|done].
  destruct (_ =? _)%string; [|done]. apply keeps_bind; [|done].
  apply keeps_Grant. specialize (Hp eq_refl). unfold CreditRepo.small, int32_max. lia.
Qed.

Lemma keeps_billing :
  (forall org, keeps (Billing.Balance org)) /\ (forall org limit, keeps (Billing.Ledger org limit)) /\
  (forall org amount, keeps (Billing.TopUp org amount)) /\
  (forall org n, keeps (Billing.Checkout org n)).
Proof using gateway_laws.
  split_and!; intros; unfold Billing.Balance, Billing.Ledger, Billing.TopUp, Billing.Checkout;
    service.
  - apply keeps_Grant. unfold CreditRepo.small, int32_max.
    destruct (Z.leb_spec amount 0), (Z.ltb_spec 100000 amount); simpl; lia.
  - apply keeps_payment_Create; simpl; [|by rewrite Z.mul_1_r].
    destruct (Z.leb_spec n 0); [lia|]. destruct (Z.ltb_spec 100000 n); lia.
Qed.

(** *** Customers, campaigns *)

Lemma keeps_customers :
  (forall org limit, keeps (Customers.List org limit)) /\
  (forall org id dnd, keeps (Customers.SetDND org id dnd)).
Proof using. split; intros; unfold Customers.List, Customers.SetDND; service. Qed.

Lemma keeps_recipient_targets org recips :
  Forall (fun r => normal (re_Phone r)) recips -> keeps (Campaigns.recipient_targets org recips).
Proof using.
  induction 1 as [|r recips Hr _ IH]; cbn [Campaigns.recipient_targets]; [done|].
  service. by apply keeps_customer_Upsert.
Qed.

Lemma keeps_enqueue_all org flowID targets queued :
  keeps (Campaigns.enqueue_all org flowID targets queued).
Proof using orch_laws.
  revert queued. induction targets as [|[phone dnd] targets IH]; intros queued;
    cbn [Campaigns.enqueue_all]; [done|]. service.
Qed.

#[local] Hint Resolve keeps_enqueue_all : typed.

Lemma keeps_dispatch org id : keeps (Campaigns.dispatch org id).
Proof using orch_laws.
  unfold Campaigns.dispatch. apply keeps_bind; [service|]. intros f. cbv zeta. ports.
  eapply yields_bind; [apply yields_Recipients|]. intros recips Hr.
  apply keeps_bind; [|intros ?; apply keeps_enqueue_all].
  destruct recips as [|r recips]; [service|by apply keeps_recipient_targets].
Qed.

#[local] Hint Resolve keeps_dispatch : typed.

Lemma normal_of raw p : Phone.NormalizeBD raw = inl p -> normal p.
Proof using.
  intros H. destruct (Phone.normalize_shape _ _ H) as (d & -> & Hl & Hk).
  by apply Phone.normalize_intl.
Qed.

Lemma keeps_import_loop fuel org c data seen added :
  keeps (Campaigns.import_loop fuel org c data seen added).
Proof using.
  revert data seen added. induction fuel as [|fuel IH]; intros data seen added;
    cbn [Campaigns.import_loop]; [done|].
  service. by apply keeps_AddRecipient; eapply normal_of.
Qed.

#[local] Hint Resolve keeps_import_loop : typed.

Lemma keeps_campaigns :
  (forall org name, keeps (Campaigns.Create org name)) /\
  (forall org, keeps (Campaigns.List org)) /\
  (forall org id, keeps (Campaigns.Get org id)) /\
  (forall org id csv, keeps (Campaigns.ImportRecipients org id csv)) /\
  (forall org id at_, keeps (Campaigns.Schedule org id at_)) /\
  (forall org id, keeps (Campaigns.Start org id)).
Proof using orch_laws.
  split_and!; intros; unfold Campaigns.Start, Campaigns.Schedule, Campaigns.ImportRecipients,
    Campaigns.Get, Campaigns.List, Campaigns.Create; service.
Qed.

Lemma keeps_RunDue : keeps Campaigns.RunDue.
Proof using orch_laws.
  assert (Hd : forall due started, keeps (Campaigns.run_due due started)).
  { induction due as [|ref due IH]; intros started; cbn [Campaigns.run_due]; [done|]. service. }
  unfold Campaigns.RunDue. service.
Qed.

(** *** Keys and events *)

Lemma take_app_prefix n s t :
  (String.length s <= n)%nat -> exists u, Strings.take n (s +:+ t) = s +:+ u.
Proof using.
  revert n. induction s as [|c s IH]; intros n H; [by eexists|].
  destruct n as [|n]; simpl in H; [lia|]. destruct (IH n ltac:(lia)) as [u Hu].
  exists u. simpl. by rewrite Hu.
Qed.

Lemma scheme_prefix scheme rest :
  (String.length scheme <= Apikey.prefixLen)%nat ->
  Strings.HasPrefix (Strings.take Apikey.prefixLen (scheme +:+ rest)) scheme = true.
Proof using.
  intros H. destruct (take_app_prefix _ _ rest H) as [u ->]. apply Strings.prefix_app.
Qed.

Lemma keeps_gen scheme : yields (Apikey.gen scheme)
  (fun '((_, prefix), _) => (String.length scheme <= Apikey.prefixLen)%nat ->
     Strings.HasPrefix prefix scheme = true).
Proof using.
  unfold Apikey.gen. apply keeps_bind; [apply keeps_rand|]. intros b H. by apply scheme_prefix.
Qed.

Lemma keeps_apikeys :
  (forall org name, keeps (APIKeys.Mint org name)) /\
  (forall org name, keeps (APIKeys.MintPublishable org name)) /\
  (forall org, keeps (APIKeys.List org)) /\
  (forall presented, keeps (APIKeys.Authenticate presented)).
Proof using.
  split_and!; intros.
  - unfold APIKeys.Mint, Apikey.Generate. eapply yields_bind; [apply keeps_gen|].
    intros [[full prefix] hash] Hp. service. apply keeps_key_Create. left. split; [done|].
    apply Hp. vm_compute. lia.
  - unfold APIKeys.MintPublishable, Apikey.GeneratePublishable.
    eapply yields_bind; [apply keeps_gen|]. intros [[full prefix] hash] Hp. service.
    apply keeps_key_Create. right. split; [done|]. apply Hp. vm_compute. lia.
  - unfold APIKeys.List. service.
  - unfold APIKeys.Authenticate. service.
Qed.

Lemma normalized phone e164 :
  Ingest.normalize phone = inl e164 -> negb (e164 =? "")%string = true -> normal e164.
Proof using.
  unfold Ingest.normalize. intros E He. case_match; [by injection E as <-|].
  case_match; [|done]. injection E as <-. by eapply normal_of.
Qed.

Lemma keeps_Accept org ev :
  Ingest.ev_Type ev <> "" -> Ingest.ev_ExternalID ev <> "" -> keeps (Ingest.Accept org ev).
Proof using orch_laws.
  intros Ht He. unfold Ingest.Accept. service.
  - by apply keeps_event_Insert.
  - apply keeps_customer_Upsert. by eapply normalized.
Qed.

(** *** Webhooks *)

Lemma keeps_webhooks :
  (forall org url events, keeps (Webhooks.SetEndpoint org url events)) /\
  (forall org, keeps (Webhooks.Get org)).
Proof using.
  split_and!; intros; unfold Webhooks.SetEndpoint, Webhooks.Get, Webhooks.randToken,
    Cipher.Encrypt; service.
Qed.

Lemma keeps_fail d code msg : keeps (Webhooks.fail d code msg).
Proof using. unfold Webhooks.fail. service; apply keeps_Reschedule; simpl; tauto. Qed.

#[local] Hint Resolve keeps_fail : typed.

Lemma keeps_post p : keeps (HttpClient.Do (T := webhook_client) p).
Proof using http_laws.
  unfold HttpClient.Do, webhook_client. apply keeps_bind; [|done].
  by apply keeps_quiet, HttpOut.Do_quiet.
Qed.

#[local] Hint Resolve keeps_post : typed.

Lemma keeps_dispatcher n : keeps (Webhooks.Run n).
Proof using http_laws.
  assert (Hd : forall d, keeps (Webhooks.deliver d)).
  { intros d. unfold Webhooks.deliver. service. }
  assert (Ha : forall ds, keeps (Webhooks.deliver_all ds)).
  { induction ds as [|d ds IH]; cbn [Webhooks.deliver_all]; [done|]. service. }
  induction n as [|n IH]; cbn [Webhooks.Run]; [done|].
  unfold Webhooks.tick, Webhooks.deliver_due. service.
Qed.

(** *** Chat and channels *)

Lemma keeps_reply org c text : keeps (Chat.reply activity org c text).
Proof using activity_laws model_laws.
  unfold Chat.reply. service; apply keeps_AddMessage; simpl; tauto.
Qed.

#[local] Hint Resolve keeps_reply : typed.

Lemma heuristic_typed history i :
  Summarizer.Summarize history = inl i -> insight_typed (in_Outcome i) (in_Sentiment i).
Proof using.
  intros [= <-]. unfold Heuristic.Summarize. repeat case_match; simplify_eq; cbn [in_Outcome in_Sentiment].
  - split; simpl; tauto.
  - split.
    + unfold Heuristic.outcome_of in *. repeat case_match; simplify_eq; simpl; tauto.
    + unfold Heuristic.sentiment_of. repeat case_match; simpl; tauto.
Qed.

Lemma keeps_chat :
  (forall org c text, keeps (Chat.Send activity org c text)) /\
  (forall org, keeps (Chat.Settings org)) /\ (forall org cs, keeps (Chat.SaveSettings org cs)) /\
  (forall org, keeps (Chat.List org)) /\ (forall org c, keeps (Chat.Messages org c)) /\
  (forall org c, keeps (Chat.Summarize org c)) /\ (forall org c, keeps (Chat.Insight org c)) /\
  (forall org c status, keeps (Chat.SetStatus org c status)) /\
  (forall org c text, keeps (Chat.AgentReply org c text)).
Proof using activity_laws model_laws.
  split_and!; intros; unfold Chat.Send, Chat.Settings, Chat.SaveSettings, Chat.List,
    Chat.Messages, Chat.Summarize, Chat.Insight, Chat.SetStatus, Chat.AgentReply, Chat.owns;
    service.
  - by apply keeps_insight_Save; eapply heuristic_typed.
  - apply keeps_SetStatus. unfold Chat.validStatus in *. bool_prop.
    repeat match goal with H : _ \/ _ |- _ => destruct H; bool_prop end; subst; simpl; tauto.
  - apply keeps_SetStatus. simpl. tauto.
  - apply keeps_AddMessage. simpl. tauto.
Qed.

Lemma keeps_HandleInbound to from text :
  keeps (Messaging.HandleInbound (assistant := Assistant.of_chat activity) to from text).
Proof using activity_laws model_laws sender_laws.
  unfold Messaging.HandleInbound. ports. eapply yields_bind; [apply yields_ByExternalID|].
  intros [[[[org typ] enc] ver] found] Hf. destruct found; [|done]. cbn [negb].
  unfold Assistant.SendChannel, Assistant.of_chat, Chat.SendChannel. service.
  by apply keeps_FindOrCreate, Hf.
Qed.

Lemma keeps_Connect org typ ext tok ver :
  In typ channels -> ext <> "" -> ver <> "" -> keeps (Messaging.Connect org typ ext tok ver).
Proof using. intros. unfold Messaging.Connect, Cipher.Encrypt. service. by apply keeps_channel_Upsert. Qed.

Lemma keeps_channels :
  (forall org, keeps (Messaging.List org)) /\ (forall org typ, keeps (Messaging.Disconnect org typ)) /\
  (forall org ch user text, keeps (Messaging.SendOutbound org ch user text)) /\
  (forall tok, keeps (Messaging.VerifyChallenge tok)).
Proof using sender_laws.
  split_and!; intros; unfold Messaging.List, Messaging.Disconnect, Messaging.SendOutbound,
    Messaging.VerifyChallenge; service.
Qed.

(** *** Metrics and onboarding *)

Lemma keeps_metrics :
  (forall org, keeps (Analytics.Overview org)) /\ (forall org q, keeps (Reports.Ask org q)) /\
  (forall p q, keeps (Onboarding.Ask p q)).
Proof using reporter_laws model_laws.
  split_and!; intros; unfold Reports.Ask, Analytics.Overview, Onboarding.Ask; service.
Qed.
End Services.
