(* ===== verification/TypedSpec.v ===== *)
(** * The binary keeps the types

    Every route of the server, the dispatcher, the workers and the timers, in any
    number and under every interleaving, with whatever statements and services
    failing. *)

From S2P Require Import Prelude.
From S2P Require Import Domain.
From S2P Require Import Effects.
From S2P Require Import GoLib.
From S2P Require Import Json.
From S2P Require Import Store.
From S2P Require Import Phone.
From S2P Require Import Ports.
From S2P Require Import PgCredits.
From S2P Require Import PgFlows.
From S2P Require Import PgCalls.
From S2P Require Import CallPolicy.
From S2P Require Import PgWebhooks.
From S2P Require Import PgAuth.
From S2P Require Import PgChat.
From S2P Require Import Orchestrator.
From S2P Require Import PgCampaigns.
From S2P Require Import PgIngest.
From S2P Require Import Ingest.
From S2P Require Import FlowEngine.
From S2P Require Import Crypto.
From S2P Require Import Billing.
From S2P Require Import Calls.
From S2P Require Import Flows.
From S2P Require Import Webhooks.
From S2P Require Import Auth.
From S2P Require Import Assistant.
From S2P Require Import Chat.
From S2P Require Import Messaging.
From S2P Require Import Campaigns.
From S2P Require Import Analytics.
From S2P Require Import HttpOut.
From S2P Require Import WebhooksSpec.
From S2P Require Import TenantRepos.
From S2P Require Import TenantServices.
From S2P Require Import Typed.
From S2P Require Import TypedRepos.
From S2P Require Import TypedServices.
From S2P Require Import Bus.
From S2P Require Import HttpLib.
From S2P Require Import HttpAuth.
From S2P Require Import HttpCalls.
From S2P Require Import HttpDash.
From S2P Require Import Ratelimit.
From S2P Require Import Server.
From S2P Require Import ServerSpec.
From S2P Require Import TenantSpec.
From S2P Require Import Config.
From S2P Require Import Adapters.
From S2P Require Import App.
From S2P Require Import AppSpec.
From stdpp Require Import gmap strings list.
From Stdlib Require Import ZArith Lia.

Open Scope Z_scope.
Open Scope go_scope.

(** The operations of the services, and the handlers over them. *)
Ltac keeps_svc := first
  [ by apply keeps_calls | by apply keeps_flows | by apply keeps_billing
  | by apply keeps_customers | by apply keeps_campaigns | by apply keeps_apikeys
  | by apply keeps_webhooks
  | match goal with A : option ActivityPublisher.T |- _ => by apply (keeps_chat A) end
  | by apply keeps_channels
  | by apply keeps_metrics | by apply keeps_accounts | by apply keeps_RunTestCall
  | by apply keeps_Enqueue | by apply keeps_SettlePayment | by apply keeps_Transcribe
  | by apply keeps_HandleInbound | ports; by apply keeps_Rename ].

Ltac typed_handler := repeat first [keeping_step | keeps_svc].

Ltac open_typed := lazymatch goal with |- yields ?p _ => let h := head p in unfold h end.

Section Server.
Context {tz : TimeZones.T} {uuid : Uuid.T} {sha : SHA256.T} {hmac : HMAC.T} {bcrypt : Bcrypt.T}
  {aead : AEAD.T} {local : LocalZone.T}.
Context {sms : SMSSender.T} {sms_laws : SMSSender.Laws sms}.
Context {provider : VoiceProvider.T} {provider_laws : CallsOwn provider}.
Context {orch : Orchestrator.T} {orch_laws : QueuesOwn orch}.
Context {model : ChatModel.T} {model_laws : ChatModel.Laws model}.
Context {sender : MessagingSender.T} {sender_laws : MessagingSender.Laws sender}.
Context {gateway : PaymentGateway.T} {gateway_laws : PaymentGateway.Laws gateway}
  {gateway_verdicts : Verdicts gateway}.
Context {reporter : Reporter.T} {reporter_laws : Reporter.Laws reporter}.
Context {stt : STT.T} {stt_laws : STT.Laws stt}.
Context {http : HttpOut.T} {http_laws : HttpOut.Laws http}.
Context (authLimit publicLimit : RateLimiter.T) {auth_limit_laws : RateLimiter.Laws authLimit}
  {public_limit_laws : RateLimiter.Laws publicLimit}.
Context (activity : option ActivityPublisher.T)
  (activity_laws : forall p, activity = Some p -> ActivityPublisher.Laws p).
Context (feed : OrgID -> list Stream.input) (cfg : Server.Config).

#[local] Existing Instances PgCreditRepo.repo PgPaymentRepo.repo PgFlowRepo.repo
  PgCallRepo.repo PgOutcomeRepo.repo PgCallPolicyRepo.repo PgWebhookRepo.repo PgAuthRepo.repo
  PgOrgRepo.repo PgChatRepo.repo PgChatSettingsRepo.repo PgInsightRepo.repo PgChannelRepo.repo
  PgCustomerRepo.repo PgCampaignRepo.repo PgAPIKeyRepo.repo PgEventRepo.repo
  PgAnalyticsRepo.repo RealClock.clock Heuristic.summarizer.

Lemma keeps_requireAuth (h : Session -> handler) r :
  (forall s, keeps (h s r)) -> keeps (AuthHandler.requireAuth h r).
Proof using All.
  intros Hh. unfold AuthHandler.requireAuth. repeat first [apply Hh | keeping_step | keeps_svc].
  ports. apply keeps_EnsureForUser.
Qed.

Lemma keeps_throttle (limiter : RateLimiter.T) {laws : RateLimiter.Laws limiter} (h : handler) r :
  keeps (h r) -> keeps (throttle limiter h r).
Proof using Type.
  intros Hh. unfold throttle. apply keeps_bind; [by apply keeps_silent, RateLimiter.Allow_silent|].
  by intros [].
Qed.

Lemma keeps_cors (h : handler) r : keeps (h r) -> keeps (PublicHandler.cors h r).
Proof using Type. intros Hh. unfold PublicHandler.cors. keeping. Qed.

(** The handlers whose own guards give an operation its types. *)
Lemma keeps_connect s r : keeps (ChannelsHandler.connect s r).
Proof using Type.
  unfold ChannelsHandler.connect. destruct (Json.Decode _ _ _) as [body ok].
  destruct (_ || _) eqn:G; [exact I|]. keeping_step; [keeping_step|keeping].
  repeat (apply orb_false_elim in G as [G ?]). bool_prop.
  apply keeps_Connect; try done. unfold channels.
  destruct (String.eqb_spec (ChannelsHandler.cb_Type body) "whatsapp"); [by left|].
  destruct (String.eqb_spec (ChannelsHandler.cb_Type body) "messenger"); [by right; left|].
  by match goal with H : _ \/ _ |- _ => destruct H end.
Qed.

Lemma keeps_otp secret dev r :
  keeps (AuthHandler.requestOTP secret dev r) /\ keeps (AuthHandler.verifyOTP secret dev r).
Proof using All.
  unfold AuthHandler.requestOTP, AuthHandler.verifyOTP. split; typed_handler.
  - by apply keeps_RequestOTP; eapply normal_of.
  - by apply keeps_VerifyOTP; eapply normal_of.
Qed.

Lemma keeps_postEvent org r : keeps (IngestHandler.postEvent org r).
Proof using All.
  unfold IngestHandler.postEvent. typed_handler. bool_prop. by apply keeps_Accept.
Qed.

Lemma keeps_requireAPIKey (next : OrgID -> handler) r :
  (forall org, keeps (next org r)) -> keeps (IngestHandler.requireAPIKey next r).
Proof using Type. intros Hn. unfold IngestHandler.requireAPIKey. typed_handler. apply Hn. Qed.

Lemma keeps_publishable (next : OrgID -> handler) r :
  (forall org, keeps (next org r)) -> keeps (PublicHandler.with_publishable_key next r).
Proof using Type. intros Hn. unfold PublicHandler.with_publishable_key. typed_handler. apply Hn. Qed.

Lemma keeps_receive r :
  keeps (ChannelsHandler.receive (assistant := Server.chat_assistant activity) r).
Proof using All.
  assert (Hall : forall ms, keeps (ChannelsHandler.route_all
                                     (assistant := Server.chat_assistant activity) ms)).
  { induction ms as [|[[to from] text] ms IH]; cbn [ChannelsHandler.route_all]; [exact I|].
    apply keeps_bind; [apply keeps_ignore, keeps_HandleInbound; exact _|done]. }
  unfold ChannelsHandler.receive. keeping.
Qed.

(** ** Routes *)

Definition keeps_route (r : Request) (rt : Mux.pattern * Server.endpoint) : Prop :=
  forall vs, keeps (snd rt vs r).

Lemma authed_keep r : Forall (keeps_route r) (Server.authed_routes activity feed cfg).
Proof using All.
  unfold Server.authed_routes.
  each_route; intros vs; cbn [snd]; unfold Server.authed, Server.authed1;
    apply keeps_requireAuth; intros s;
    first [ apply keeps_connect | open_typed; typed_handler ].
Qed.

Lemma public_keep r :
  Forall (keeps_route r) (Server.public_routes authLimit publicLimit activity cfg).
Proof using All.
  destruct (keeps_otp (cfg_secret cfg) (Server.dev cfg) r).
  unfold Server.public_routes. each_route; intros vs; cbn [snd]; unfold Server.public;
    try (apply keeps_throttle; [exact _|]).
  all: lazymatch goal with
    | |- keeps (AuthHandler.requestOTP _ _ _) => assumption
    | |- keeps (AuthHandler.verifyOTP _ _ _) => assumption
    | |- keeps (ChannelsHandler.receive _) => apply keeps_receive
    | |- keeps (PublicHandler.cors PublicHandler.widget _) => apply keeps_cors; exact I
    | |- keeps (PublicHandler.cors _ _) =>
        apply keeps_cors, keeps_publishable; intros org; cbv beta;
        repeat first [keeping_step | by apply (keeps_chat activity)]
    | |- keeps (IngestHandler.requireAPIKey _ _) =>
        apply keeps_requireAPIKey; intros org; apply keeps_postEvent
    | |- _ => open_typed; typed_handler
    end.
Qed.

Lemma keeps_serve r : keeps (Server.serve authLimit publicLimit activity feed cfg r).
Proof using All.
  unfold Server.serve. destruct (Mux.lookup _ _ _) as [[h vs]|] eqn:E.
  - apply lookup_in in E as (pt & Hin & _).
    pose proof (Forall_app_2 _ _ _ (public_keep r) (authed_keep r)) as Hall.
    rewrite List.Forall_forall in Hall. exact (Hall _ Hin vs).
  - by destruct (Mux.allowed _ _).
Qed.
End Server.

(** ** The gateways say paid or failed *)

Section Wired.
Context {tz : TimeZones.T} {uuid : Uuid.T} {sha : SHA256.T} {hmac : HMAC.T} {bcrypt : Bcrypt.T}
  {local : LocalZone.T}.
Context {http : HttpOut.T} {http_laws : HttpOut.Laws http}.
Context (clients : Clients) (clients_laws : ClientsLaws clients) (assets : Assets).
Context (authLimit publicLimit : RateLimiter.T) {auth_limit_laws : RateLimiter.Laws authLimit}
  {public_limit_laws : RateLimiter.Laws publicLimit}.
Context (activity : ActivityPublisher.T) {activity_laws : ActivityPublisher.Laws activity}
  (feed : OrgID -> list Stream.input).

Lemma mock_verdicts url : Verdicts (MockGateway.gateway url).
Proof using Type.
  intros form _. destruct (_ =? _)%string; [by right; left|by left].
Qed.

Lemma sslcommerz_verdicts g : Verdicts (SslCommerz.gateway g).
Proof using All.
  intros form. ports. unfold PaymentGateway.VerifyIPN, SslCommerz.gateway, SslCommerz.VerifyIPN.
  cbv zeta. case_match; [done|].
  apply keeps_bind; [by apply keeps_quiet, HttpOut.request_quiet|]. intros resp.
  destruct (Json.Decode _ _ _) as [[status tran] ok]. destruct ok; [|done]. cbn [negb].
  case_match; [done|].
  case_match; intros _; [by left|by right; left].
Qed.

Lemma gateway_verdict cfg x : App.gateway cfg = Some x -> Verdicts x.
Proof using All.
  unfold App.gateway. intros E. chosen E; [apply mock_verdicts|apply sslcommerz_verdicts].
Qed.

Lemma email_lawful cfg x : App.emailSender cfg = Some x -> EmailSender.Laws x.
Proof using All.
  unfold App.emailSender. intros E. chosen E; split; intros to subject body; [done|].
  unfold EmailSender.Send, Resend.sender, Resend.Send, expect_2xx. quietly.
Qed.

(** ** The goroutines beside the server *)

Lemma keeps_every tick n : keeps tick -> keeps (App.every tick n).
Proof using Type. intros Ht. induction n as [|n IH]; cbn [App.every]; [done|]. by apply keeps_bind. Qed.

Lemma keeps_worker job n :
  (forall inp, keeps (job inp)) -> keeps (LocalOrchestrator.worker job n).
Proof using Type.
  intros Hj. induction n as [|n IH]; cbn [LocalOrchestrator.worker]; [done|].
  apply keeps_bind.
  - apply keeps_guar. intros env w. unfold w_db. simpl. by destruct (s_jobs (w_st w)).
  - intros [inp|]; [|done]. apply keeps_bind; [by apply keeps_ignore|done].
Qed.

Lemma background_keeps cfg w n deliveries :
  App.wire clients cfg = Some w -> Forall (fun p => keeps p) (App.background cfg w n deliveries).
Proof using All.
  intros E. destruct (wired_lawful clients clients_laws cfg w E).
  apply wire_inv in E as (_ & _ & Hem & _).
  assert (EmailSender.Laws (App.wr_email w)) by by eapply email_lawful.
  assert (CreditNotifier.Laws (App.notifier w))
    by exact (Notify.laws (org_laws := PgOrgRepo.laws)).
  assert (Hcall : forall inp, keeps (App.place_call w inp)) by (intros; by apply keeps_PlaceCall).
  unfold App.background. repeat apply Forall_app_2.
  - repeat apply Forall_cons_2; [by apply keeps_dispatcher| |apply Forall_nil_2].
    by apply keeps_every, keeps_ignore, keeps_RunDue.
  - destruct (_ <? _); [|apply Forall_nil_2]. apply Forall_singleton, keeps_every.
    unfold App.retention_sweep. ports. apply keeps_bind; [apply keeps_Now|].
    intros now. apply keeps_ignore, keeps_DeleteBefore.
  - destruct (_ =? _)%string.
    + apply Forall_fmap, Forall_true. intros inp.
      change (keeps (App.deliver w inp)). unfold App.deliver, HatchetOrchestrator.placeCall, HatchetOrchestrator.task_run,
        HatchetOrchestrator.place_call.
      keeping.
    + apply List.Forall_forall. intros p Hp. apply repeat_spec in Hp as ->. by apply keeps_worker.
Qed.

(** C6: Whatever a configuration chooses, whatever requests come, in any interleaving
    of their goroutines with the dispatcher, the timers and the workers, or the
    jobs Hatchet delivers, and
    whatever statements and services fail: every row keeps its type. *)
Theorem database_stays_well_typed (cfg : Config.Config) (wiring : App.Wiring)
    (requests : list Request) (n : nat) (deliveries : list PlaceCallInput) (env : Env) (sched : list nat) (w : World) :
  App.wire clients cfg = Some wiring -> well_typed (w_db w) ->
  well_typed (w_db (snd (run_sched env sched
    (App.goroutines assets authLimit publicLimit activity feed cfg wiring requests n deliveries)
    w))).
Proof using All.
  intros E Hw. apply pool_typed; [|done]. unfold App.goroutines. apply Forall_app_2.
  - destruct (wired_lawful clients clients_laws cfg wiring E).
    pose proof reporter_laws as Hrep.
    assert (Verdicts (App.wr_gateway wiring)).
    { apply wire_inv in E as (_ & _ & _ & _ & _ & Hg & _). by eapply gateway_verdict. }
    apply Forall_fmap, Forall_true. intros r. apply keeps_bind; [|done].
    unfold App.handler. eapply keeps_serve; try exact _. by intros p [= <-].
  - by apply background_keeps.
Qed.
End Wired.
