(* ===== verification/ServerDemo.v ===== *)
(** * The server at concrete inputs

    A production configuration, the wiring it chooses, and a database with two
    organisations: the witnesses of the theorems about the whole server. *)

From S2P Require Import Prelude.
From S2P Require Import Domain.
From S2P Require Import Effects.
From S2P Require Import GoLib.
From S2P Require Import GoTime.
From S2P Require Import Store.
From S2P Require Import Crypto.
From S2P Require Import Ports.
From S2P Require Import PgCredits.
From S2P Require Import PgFlows.
From S2P Require Import PgCalls.
From S2P Require Import Billing.
From S2P Require Import Calls.
From S2P Require Import PgWebhooks.
From S2P Require Import Webhooks.
From S2P Require Import PgAuth.
From S2P Require Import PgChat.
From S2P Require Import Assistant.
From S2P Require Import Messaging.
From S2P Require Import PgCampaigns.
From S2P Require Import Orchestrator.
From S2P Require Import Campaigns.
From S2P Require Import PgIngest.
From S2P Require Import Analytics.
From S2P Require Import HttpOut.
From S2P Require Import HttpLib.
From S2P Require Import HttpAuth.
From S2P Require Import Bus.
From S2P Require Import Ratelimit.
From S2P Require Import Server.
From S2P Require Import Config.
From S2P Require Import Adapters.
From S2P Require Import App.
From S2P Require Import HttpCalls.
From S2P Require Import HttpDash.
From S2P Require Import Tenant.
From S2P Require Import TenantRepos.
From S2P Require Import TenantServices.
From S2P Require Import ServerSpec.
From S2P Require Import TenantSpec.
From S2P Require Import NoFault.
From S2P Require Import IngestSpec.
From S2P Require Import Ingest.
From S2P Require Import FlowsSpec.
From S2P Require Import CallsSpec.
From S2P Require Import CallPolicy.
From S2P Require Import Auth.
From S2P Require Import AuthSpec.
From S2P Require Import ChatDemo.
From S2P Require Import AppSpec.
From S2P Require Import Typed.
From S2P Require Import TypedSpec.
From stdpp Require Import gmap strings list.
From Stdlib Require Import ZArith Lia.



Open Scope Z_scope.
Open Scope go_scope.

Module ServerDemo.
Export AuthDemo.
Import DemoEnv.

(** ** Services *)

#[export] Instance http : HttpOut.T :=
  {| HttpOut.NewRequest_ok _ := true; HttpOut.Do _ := ret (mkOutResponse 200 "200 OK" "") |}.
#[export] Instance http_laws : HttpOut.Laws http.
Proof. by split. Qed.

#[export] Instance uuid_laws : Uuid.Laws uuid.
Proof. by split. Qed.

#[export] Instance utc : LocalZone.T := {| LocalZone.offset _ := 0 |}.
#[export] Existing Instance dhaka_only.

Definition unlimited : RateLimiter.T := {| RateLimiter.Allow _ := ret true |}.
#[export] Instance unlimited_laws : RateLimiter.Laws unlimited.
Proof. by split. Qed.

Definition activity : ActivityPublisher.T := {| ActivityPublisher.PublishActivity _ := ret tt |}.
#[export] Instance activity_laws : ActivityPublisher.Laws activity.
Proof. by split. Qed.

Definition clients : Clients :=
  mkClients (fun _ => ChatDemo.aead)
    (fun _ _ _ => {| SIPClient.CreateSIPParticipant _ := ret (mkSIPInfo "SC_1" "PA_1") |})
    (fun _ => {| MessagesAPI.New _ _ _ _ := ret [TextBlock "Hello"] |}) "claude" None.

Lemma clients_laws : ClientsLaws clients.
Proof. split; by intros. Qed.

(** ** A production environment, with the gateway of development *)

Definition variables : list (string * string) :=
  [("YAVER_ENV", "prod"); ("YAVER_PORT", "8080"); ("YAVER_DATABASE_URL", "postgres://db/yaver");
   ("YAVER_AUTH_SECRET", "s3cret"); ("YAVER_ORCHESTRATOR", "local");
   ("YAVER_ENCRYPTION_KEY", "MDEyMzQ1Njc4OTAxMjM0NTY3ODkwMTIzNDU2Nzg5MDE=");
   ("YAVER_VOICE_PROVIDER", "mock"); ("YAVER_SMS_SENDER", "log"); ("YAVER_STT_PROVIDER", "noop");
   ("YAVER_CHAT_PROVIDER", "builtin"); ("YAVER_MSG_SENDER", "log"); ("YAVER_EMAIL_SENDER", "log");
   ("YAVER_EMAIL_FROM", "a@b"); ("YAVER_PAYMENT_GATEWAY", "mock");
   ("YAVER_APP_URL", "http://app"); ("YAVER_WEB_URL", "http://web")].

Definition getenv (k : string) : string :=
  default "" (head (map snd (List.filter (fun kv => (fst kv =? k)%string) variables))).

Definition cfg : Config.Config := Config.read getenv.

Example prod_loads : Config.Load getenv = inl cfg.
Proof. reflexivity. Qed.

Definition wiring : App.Wiring :=
  App.mkWiring ChatDemo.aead SmsLog.sender EmailLog.sender MockVoice.provider NoopSTT.stt
    (MockGateway.gateway "http://app") LocalOrchestrator.orch Builtin.model LogMessaging.sender.

Lemma prod_wires : App.wire clients cfg = Some wiring.
Proof. reflexivity. Qed.

Definition assets : Assets := mkAssets "yaml".

Definition serve : handler :=
  App.handler assets unlimited unlimited activity (fun _ => []) cfg wiring.

(** ** Two organisations *)

Definition db : DB :=
  set_orgs [mkOrgRow "org" "Shop" "u1" 0; mkOrgRow "rival" "Rival" "u2" 0]
  (set_users [mkUserRow "u1" None (Some "a@b.c") None 0 None;
              mkUserRow "u2" None (Some "r@b.c") None 0 None]
  (set_sessions [mkSessionRow "s1" (Auth.hashToken "t1") "u1" (30 * 24 * Hour) 0;
                 mkSessionRow "s2" (Auth.hashToken "t2") "u2" (30 * 24 * Hour) 0]
  (set_conversations [mkConversationRow "conv_a" "org" "chat" None "open" 0 0 None]
  (set_org_credits {["org" := 5]} emptyDB)))).

Definition world : World := mkWorld 0 (mkState db [] []).

Definition request (method : string) (path : list string) (token body : string) : Request :=
  mkRequest method path "" [("Cookie", "yaver_session=" +:+ token)] "" false "10.0.0.1:9999" body.

(** The code of an answer. *)
Definition code_of (r : Request) (w : World) : option Z :=
  match fst (run env (serve r) w) with Ok resp => Some (rs_Code resp) | _ => None end.

Definition reply_body : string := json_text "{`text`:`hi`}".

(** The rival signs in and answers a customer of the other organisation: refused. *)
Definition intrusion : Request :=
  request "POST" ["v1"; "chat"; "conversations"; "conv_a"; "reply"] "t2" reply_body.
Definition answer : Request :=
  request "POST" ["v1"; "chat"; "conversations"; "conv_a"; "reply"] "t1" reply_body.

Example intrusion_is_refused : (code_of intrusion world, code_of answer world) = (Some 404, Some 200).
Proof. vm_compute. reflexivity. Qed.

(** ** Witnesses *)

Lemma db_well_named : well_named "org" db.
Proof.
  assert (H : forall o' ids, Forall (fun p => snd p = o') ids -> o' = "org" -> named_once "org" ids).
  { intros o' ids Hall -> x a _ Hin. by apply (proj1 (List.Forall_forall _ _) Hall _ Hin). }
  split; try done; by eapply H; [repeat constructor|].
Qed.

Lemma db_canonical : canonical_orgs db.
Proof. intros r _ x E. by injection E. Qed.

Lemma intruder_is_stranger : stranger "org" intrusion db.
Proof.
  split; [|by intros ? []..].
  intros token E. vm_compute in E. injection E as <-. intros s Hs Hh uid E r Hr.
  assert (s = mkSessionRow "s2" (Auth.hashToken "t2") "u2" (30 * 24 * Hour) 0) as ->.
  { destruct Hs as [<-|[<-|[]]]; [by vm_compute in Hh|done]. }
  injection E as <-. vm_compute in Hr. by destruct Hr as [<-|[]].
Qed.

Lemma binary_isolates_tenants_witness :
  kept "org" world (snd (run env (serve intrusion) world)).
Proof.
  unfold serve. eapply binary_isolates_tenants; try exact _.
  - exact clients_laws.
  - discriminate.
  - exact prod_wires.
  - reflexivity.
  - exact db_well_named.
  - exact db_canonical.
  - exact intruder_is_stranger.
Defined.

(** Anonymous, or with a token nobody has. *)
Definition forged : Request := request "GET" ["v1"; "calls"] "t3" "".

Lemma no_session_no_effect_witness :
  exists resp w', run env (serve forged) world = (Ok resp, w') /\ w_st w' = w_st world /\
    (In (rs_Code resp) [401; 404; 405] \/
     rs_Code resp = 500 /\ env_fault env (w_tick world) <> NoFault).
Proof.
  unfold serve, App.handler. eapply no_session_no_effect; [|vm_compute; reflexivity].
  intros H. apply H. vm_compute. reflexivity.
Defined.

Lemma db_well_typed : well_typed db.
Proof.
  split; simpl; try apply map_Forall_empty; try (by apply Forall_nil_2).
  - repeat constructor; simpl; (by right) || done.
  - repeat constructor; simpl; tauto.
  - repeat constructor; simpl; tauto.
  - repeat constructor; simpl; tauto.
  - by apply map_Forall_singleton.
Qed.

(** Three requests, the dispatcher, the scheduler and eight workers, in turns. *)
Definition turns : list nat := concat (repeat (seq 0 13) 40).

Lemma database_stays_well_typed_witness :
  well_typed (w_db (snd (run_sched env turns
    (App.goroutines assets unlimited unlimited activity (fun _ => []) cfg wiring
       [answer; intrusion; request "POST" ["v1"; "dev"; "place-call"] "t1" (json_text "{`phone`:`01712345678`}")] 3 []) world))).
Proof.
  eapply database_stays_well_typed; try exact _.
  - exact clients_laws.
  - exact prod_wires.
  - exact db_well_typed.
Defined.

(** ** The gateway of development in production

    An owner opens a payment, and anyone says it was paid. *)

Definition checkout : Request :=
  request "POST" ["v1"; "billing"; "checkout"] "t1" (json_text "{`credits`:1000}").

Definition opened : World := snd (run env (serve checkout) world).

Definition payment_ref : string :=
  match payments (w_db opened) with p :: _ => pmt_provider_ref p | [] => "" end.

Definition paid : Request :=
  mkRequest "POST" ["webhooks"; "payment"] "" [] "application/x-www-form-urlencoded"
    false "10.0.0.1:9999" ("tran_id=" +:+ payment_ref).

(** C37: A configuration Load accepts for production may choose the mock gateway; its
    callback then believes anyone: one request without any credentials, naming the
    reference of an opened payment, grants the thousand credits it stands for. *)
Theorem anyone_settles_in_production :
  Config.Load getenv = inl cfg /\ Config.Env cfg = "prod" /\
  App.wire clients cfg = Some wiring /\ code_of checkout world = Some 200 /\
  code_of paid opened = Some 200 /\
  balance_of (w_st world) "org" = 5 /\
  balance_of (w_st (snd (run env (serve paid) opened))) "org" = 1005.
Proof.
  split; [exact prod_loads|]. split; [reflexivity|]. split; [exact prod_wires|].
  split_and!; vm_compute; reflexivity.
Qed.

(** ** An order, and the call it leads to *)

Definition secret : string := "yvr_sk_0123456789abcdefghijklmnopqrstu".

Definition order_flow : FlowRow :=
  mkFlowRow "flow_1" "org" "order_confirm" 1 ChannelVoice FlowIVR "bn"
    (json_text "{`entry`:`a`,`nodes`:{`a`:{`end`:true,`result`:`confirmed`}}}") true 0.

(** The shop takes calls at any hour. *)
Definition order_world : World := mkWorld 0 (mkState
  (set_api_keys [mkApiKeyRow "key_1" "org" (Strings.take 15 secret) (SHA256.Sum256 secret)
                   (Some "dashboard") 0 None "secret"]
  (set_flows [order_flow]
  (set_org_call_policy {["org" := mkCallPolicyRow 0 24 "Asia/Dhaka" 2]}
  (set_org_credits {["org" := 5]} emptyDB)))) [] []).

Definition order_body : string := json_text
  "{`event_type`:`order_placed`,`event_id`:`o-17`,`customer`:{`phone`:`01712345678`,`name`:`Rahim`}}".

Definition order_flow_read : Flow := default zeroFlow (routed "org" (w_db order_world) "order_confirm").

Definition order_read : IngestHandler.eventBody :=
  IngestHandler.mkEventBody "order_placed" "o-17" "01712345678" "Rahim" "".

Lemma order_well_sent : well_sent env "org" order_body order_read "+8801712345678".
Proof. split; [vm_compute|..]; try done; by eexists. Qed.

Lemma order_places_its_call_witness :
  exists eid w1 w2 w3 ks,
    run env (serve (event_request secret "10.0.0.1:9999" order_body)) order_world
      = (Ok (accepted eid), w1) /\
    run env (LocalOrchestrator.worker (App.place_call wiring) 1) w1 = (Ok tt, w2) /\
    s_jobs (w_st w2) = [] /\
    called (mkPlaceCallInput "org" "+8801712345678" (flow_ID order_flow_read))
      (w_st order_world) (w_st w2) /\
    run env (serve (event_request secret "10.0.0.1:9999" order_body)) w2 = (Ok duplicate, w3) /\
    w_st w3 = set_db (set_api_keys ks (w_db w2)) (w_st w2).
Proof.
  pose proof (order_places_its_call assets unlimited unlimited activity (fun _ => []) cfg wiring
    eq_refl eq_refl env (fun _ => eq_refl) (fun _ _ => eq_refl)) as H.
  specialize (H (fun to subject body w => ex_intro _ (Ok tt) (ex_intro _ w (conj eq_refl
    (conj (fun E : Ok tt = Panic => ltac:(discriminate E)) eq_refl))))).
  specialize (H secret "org").
  specialize (H ltac:(vm_compute; reflexivity) ltac:(vm_compute; reflexivity)).
  destruct (H "10.0.0.1:9999" order_body order_read "+8801712345678" order_flow_read order_world
    ltac:(vm_compute; reflexivity) order_well_sent)
    as (eid & w1 & w2 & w3 & ks & H1 & H2 & H3 & H4 & H5 & H6);
    [vm_compute; reflexivity..|vm_compute; discriminate|by split; intros n r []|
     by intros n r []|by intros n r []|].
  exists eid, w1, w2, w3, ks. split_and!; [exact H1|exact H2|exact H3| |exact H5|exact H6].
  pose proof (f_equal (fun r => w_tick (snd r)) H1) as Ht. cbn [snd] in Ht.
  rewrite <- Ht in H4. destruct (_ && _) eqn:E in H4; [exact H4|].
  vm_compute in E. discriminate E.
Defined.
End ServerDemo.
