(* ===== verification/WidgetDemo.v ===== *)
(** * The embed script at concrete inputs

    A browser, a shop with a publishable key, and visitors of its site: the
    witnesses of WidgetSpec, what happens to a visitor who does not wait, and a burst
    of guesses at a password. *)

From S2P Require Import Prelude.
From S2P Require Import Domain.
From S2P Require Import Effects.
From S2P Require Import GoLib.
From S2P Require Import Json.
From S2P Require Import Store.
From S2P Require Import Crypto.
From S2P Require Import Ports.
From S2P Require Import PgCredits.
From S2P Require Import PgFlows.
From S2P Require Import PgCalls.
From S2P Require Import Billing.
From S2P Require Import Calls.
From S2P Require Import NoFault.
From S2P Require Import PgWebhooks.
From S2P Require Import PgAuth.
From S2P Require Import PgChat.
From S2P Require Import Assistant.
From S2P Require Import Chat.
From S2P Require Import Messaging.
From S2P Require Import ChatSpec.
From S2P Require Import PgCampaigns.
From S2P Require Import Orchestrator.
From S2P Require Import PgIngest.
From S2P Require Import Ingest.
From S2P Require Import IngestSpec.
From S2P Require Import Analytics.
From S2P Require Import HttpOut.
From S2P Require Import HttpLib.
From S2P Require Import Widget.
From S2P Require Import HttpAuth.
From S2P Require Import Ratelimit.
From S2P Require Import Server.
From S2P Require Import App.
From S2P Require Import ChatDemo.
From S2P Require Import ServerSpec.
From S2P Require Import WidgetSpec.
From S2P Require Import ServerDemo.
From stdpp Require Import gmap strings list.
From Stdlib Require Import ZArith Lia.

Open Scope Z_scope.
Open Scope go_scope.

Module WidgetDemo.
Import ServerDemo.
Import DemoEnv.

#[local] Existing Instances PgCreditRepo.repo PgPaymentRepo.repo PgFlowRepo.repo
  PgCallRepo.repo PgOutcomeRepo.repo PgCallPolicyRepo.repo PgWebhookRepo.repo PgAuthRepo.repo
  PgOrgRepo.repo PgChatRepo.repo PgChatSettingsRepo.repo PgInsightRepo.repo PgChannelRepo.repo
  PgCustomerRepo.repo PgCampaignRepo.repo PgAPIKeyRepo.repo PgEventRepo.repo
  PgAnalyticsRepo.repo RealClock.clock Heuristic.summarizer BuiltinReporter.reporter
  ChatDemo.aead SmsLog.sender MockVoice.provider NoopSTT.stt LocalOrchestrator.orch
  LogMessaging.sender.

Definition shop_gateway : PaymentGateway.T := MockGateway.gateway "http://app".
#[local] Existing Instance shop_gateway.

Definition shop : handler :=
  WidgetSpec.serve unlimited unlimited None (fun _ => []) (App.server_config assets cfg).

(** A browser that hands the page what it may read. *)
Definition browser (r : Request) : prog World (option string) :=
  let! resp := shop r in
  ret (if readable resp then Some (rs_Body resp) else None).

Lemma browser_reads r w resp w' :
  run env (shop r) w = (Ok resp, w') -> readable resp = true ->
  run env (browser r) w = (Ok (Some (rs_Body resp)), w').
Proof. intros H Hr. unfold browser. rewrite run_bind, H. by rewrite Hr. Qed.

Definition key : string := "yvr_pk_0123456789abcdefghijklmnopqrstu".

Definition key_row : ApiKeyRow :=
  mkApiKeyRow "key_1" "org" (Strings.take 15 key) (SHA256.Sum256 key) (Some "widget") 0 None
    "publishable".

(** A conversation an agent handles. *)
Definition handled : ConversationRow :=
  mkConversationRow "conv_h" "org" "chat" None "handling" 0 0 None.

Definition shop_db : DB :=
  set_conversations [handled]
    (set_messages [mkMessageRow "m_0" "conv_h" "agent" "Hello, this is Rina." 0]
       (set_api_keys [key_row] emptyDB)).

Definition shop_world : World := mkWorld 0 (mkState shop_db [] []).

Lemma shop_fresh : chat_fresh env horizon shop_world.
Proof.
  split; intros n r Hn Hr; destruct Hr as [<-|[]]; [|done].
  split; [done|]. split; [done|]. simpl. lia.
Qed.

Definition typed : list string := ["  Where is my order? "; "thanks"].

Lemma typed_usable : Forall usable typed.
Proof. repeat constructor; vm_compute; done. Qed.

Lemma nothing_published e w : exists w', run env (Chat.publish None e) w = (Ok tt, w') /\
  w_db w' = w_db w /\ (w_tick w <= w_tick w' <= 0 + w_tick w)%nat.
Proof. by exists w. Qed.

Lemma widget_shows_the_transcript_witness :
  exists st w' conv ms w'',
    run env (Widget.visit key "10.0.0.9" browser typed (Widget.on_launcher Widget.loaded))
      shop_world = (Ok st, w') /\
    Widget.convId st = Some conv /\
    run env (Chat.Messages "org" conv) w' = (Ok ms, w'') /\
    map turn ms = concat (map exchange typed) /\
    Widget.msgs st = ("assistant", Widget.welcome (Widget.cfg st)) :: map turn ms.
Proof.
  eapply (widget_shows_the_transcript unlimited unlimited None (fun _ => [])
    (App.server_config assets cfg) env (fun _ => eq_refl) clock_mono 0 nothing_published
    horizon ids_distinct (fun _ _ => eq_refl) browser browser_reads key "10.0.0.9" "org").
  - reflexivity.
  - reflexivity.
  - reflexivity.
  - exact typed_usable.
  - discriminate.
  - unfold horizon. simpl. lia.
  - exact shop_fresh.
  - reflexivity.
Defined.

(** The visitor of the handled conversation. *)
Definition waiting : Widget.state :=
  Widget.mkState (Some "conv_h") true (Widget.cfg Widget.loaded) [].

Lemma widget_apologises_while_handled_witness :
  exists w' t,
    run env (Widget.submit key "10.0.0.9" browser "Are you there?" waiting) shop_world =
      (Ok (Widget.add "assistant" "Sorry, something went wrong."
             (Widget.add "user" "Are you there?" waiting)), w') /\
    history_of (w_db w') "conv_h" =
      history_of (w_db shop_world) "conv_h" ++ [mkMessage "user" "Are you there?" t].
Proof.
  eapply (widget_apologises_while_handled unlimited unlimited None (fun _ => [])
    (App.server_config assets cfg) env (fun _ => eq_refl) 0 nothing_published
    horizon (fun _ _ => eq_refl) browser browser_reads key "10.0.0.9" "org"
    eq_refl eq_refl waiting "Are you there?" "conv_h" handled shop_world);
    try reflexivity; try done.
  - unfold horizon. simpl. lia.
  - exact shop_fresh.
Defined.

Lemma widget_requests_are_served_witness :
  In "public/chat/messages" (Widget.fetched Widget.widgetJS) /\
  exists resp, permitted resp.
Proof.
  assert (In "public/chat/messages" (Widget.fetched Widget.widgetJS)) as Hin
    by (vm_compute; tauto).
  split; [exact Hin|].
  destruct (widget_requests_are_served unlimited unlimited None (fun _ => [])
    (App.server_config assets cfg) _ Hin) as (_ & resp & Hp & _).
  by exists resp.
Defined.

(** A second message before the first answer carries no conversation either: the
    visitor's two messages start two conversations. *)
Definition two_requests : option (Request * Request) :=
  match Widget.on_submit key "10.0.0.9" "hi" Widget.loaded with
  | Some (st, r1) =>
      option_map (fun sr => (r1, snd sr)) (Widget.on_submit key "10.0.0.9" "price?" st)
  | None => None
  end.

Example quick_messages_split_the_conversation :
  match two_requests with
  | Some (r1, r2) =>
      length (conversations (w_db (snd (run env (shop r2) (snd (run env (shop r1) shop_world))))))
      = 3%nat
  | None => False
  end.
Proof. vm_compute. reflexivity. Qed.

(** ** Seven guesses at a password *)

Definition guess : Request :=
  mkRequest "POST" ["v1"; "auth"; "login"] "" [] "application/json" false "10.0.0.9:5000"
    (json_text "{`email`:`a@b.c`,`password`:`hunter2`}").

Definition burst (rs : list Request) : list (outcome Response) * World :=
  serve_burst (model := Builtin.model) unlimited None (fun _ => []) (App.server_config assets cfg)
    env 0 rs login_limiter shop_world.

Lemma credentials_are_throttled_witness :
  burst (repeat guess 7) =
  (let '(ress, w') := burst (repeat guess 5) in (ress ++ [Ok too_many; Ok too_many], w')).
Proof.
  apply (credentials_are_throttled (model := Builtin.model) unlimited None (fun _ => [])
    (App.server_config assets cfg) env "10.0.0.9" 0 (repeat guess 7) shop_world).
  repeat constructor; simpl; tauto.
Defined.
End WidgetDemo.
